(* ===== verification/_CoqProject ===== *)
-Q . S2P
Prelude.v
GoStd.v
AppErrors.v
Config.v
Assets.v
World.v
Database.v
Repository.v
ExecTransaction.v
Json.v
Queue.v
Storage.v
Service.v
JsonDecode.v
Http.v
Handler.v
Auth.v
RateLimit.v
Middleware.v
Router.v
Concurrent.v
Logger.v
Postgres.v
Proc.v
Telemetry.v
Process.v
