(* ===== verification/Prelude.v ===== *)
(** * mpiper API server: verification development

    mpiper is a media pipeline. Its API server, a Go program, hands out presigned
    URLs for uploads, records the uploaded assets in PostgreSQL and announces a
    processing job for each on a Redis stream, which a Python worker consumes.
    This library models the server, from the start of the process to its end, and
    proves what makes it correct. The worker is another program in another
    language and is not modelled.

    ** How the parts interact

    A request passes the chain of middlewares that internal/router builds, is
    authenticated by a token, and reaches a handler (internal/handler). The
    handler calls the asset service (internal/service), which uses the object
    storage (pkg/utils/storagex), the asset repository (internal/repository, over
    database/sql) and the queue (internal/queue). Errors are values of pkg/errors;
    the configuration (internal/config) is read once and shared. main (cmd/server)
    loads it, sets up logging (pkg/logger), telemetry (internal/metrics) and the
    database (internal/database), serves until a signal, and releases it all.

    ** The files

    - [Prelude]: results, outcomes, tactics, generic lemmas; [GoStd]: machine
      integers, [strings] and [strconv]; [Json] and [JsonDecode]: encoding/json in
      both directions, with [utils.ParseJSON].
    - [AppErrors] (pkg/errors), [Config] (internal/config/env.go), [Assets] (the
      models, the MIME table and the three SQL statements on the two tables).
    - [World]: the world a program runs in. External calls (clock, identifiers,
      PostgreSQL, Redis, randomness, cancellation) read a script, [Env], indexed
      by the number of calls made, so a theorem for every script holds under
      every failure, lost replies included. The state is the durable store
      (tables, sequence, transactions, stream), the observations (spans, metrics,
      log lines), the configuration singleton and the response being written. [IO]
      is code that cannot panic, [M] code that can; both have a calculus of
      weakest preconditions.
    - [Database]: database/sql over PostgreSQL. [Repository]: the four operations
      of asset_repo.go and [shouldRetry]. [ExecTransaction]: the retrying
      transaction helper of the same file.
    - [Queue]: queue.go and redis.go. [Storage]: the [StorageX] interface, its
      laws (the class [StorageLaws]), both implementations and the factory.
    - [Service]: asset.go, against the storage laws only.
    - [Http]: net/http's response writer and pkg/utils/response.go. [Handler]:
      asset_handler.go against the interface [AssetService] and its laws.
    - [Auth]: crypt.go and authorization.go. [RateLimit]: the presign limiter of
      router.go as a concurrent system. [Middleware]: the other middlewares.
      [Router]: the chain, the routes and [NewRouter].
    - [Concurrent]: confirmations that run at the same time, as threads over the
      committed tables with row locks, and the atomic system they refine.
    - [Logger]: pkg/logger, with Go's slices as aliased arrays. [Postgres]:
      pg.go and migrate.go.
    - [Proc]: code that can end the process, and the state it works on.
      [Telemetry]: otel.go and metrics.go. [Process]: main.go and server.go, the
      running process as a step relation.

    Definitions carry the names of the code.

    ** What the theorems show

    - The store. Under every failure a confirmation changes the asset and inserts
      its job together or not at all, enqueues only after the commit, and leaves
      no transaction open ([Service.MarkAssetUploaded_refines], against the
      specification [confirm]); creation inserts one row or nothing
      ([CreateAsset_refines]); any sequence of requests keeps the invariant
      [store_wf] ([service_invariant]); repeated confirmations change nothing
      ([MarkAssetUploaded_idempotent]), which also means that a job whose enqueue
      failed is never enqueued ([confirmed_never_requeued]).
    - The server. The router that [NewRouter] returns always answers, keeps the
      invariant, and touches nothing without a credential, whatever is sent
      ([Router.server_safe]); its middlewares change nothing of what the endpoints
      do, so that a completion or a presign request through the whole chain changes
      the store as the service's specification says and is answered with the
      service's document ([complete_request], [presign_request]), and a completion
      succeeds when nothing fails ([complete_request_succeeds]); no panic escapes
      ([Recovery_contains_panics]); every request is counted once,
      under the status its handler gave ([MetricsMiddleware_records]).
    - Concurrency. Whatever the interleaving, the failures and the crashes,
      confirmations are atomic ([confirmations_atomic]), each upload is announced
      by one request, in as many copies as one call of [Enqueue] can send
      ([announced_once]), and the row locks block nobody for ever
      ([requests_progress]); [sequential_run] ties the system to the code's
      [MarkAssetUploaded].
    - The process. A server that starts is a safe one ([start_establishes]), and
      the store keeps its invariant for its whole life, also one that starts where
      an earlier process ended ([process_keeps_store]); it
      ends with everything released in reverse order, or through an exit that
      releases nothing ([process_releases]); the database outlives the requests
      ([database_outlives_requests]); a signal ends it ([signal_ends_process]).
    - Start-up: the connection string round trip, the thirty instruments, loggers
      that do not share their fields.
    - Transactions and retries: [ExecTransaction] publishes what one successful call
      of its callback left, or nothing; the errors it retries and does not, the bounds and the overflow of its backoff; delivery,
      schedule and persistence of [Enqueue].
    - Handlers, tokens, limiter: decision tables for every branch; a token is
      accepted exactly when it was sealed under the key; under every interleaving
      of requests and evictions no limiter serves two keys, and a key whose
      requests are not held up for five minutes has one limiter for ever
      ([presign_limit_per_key]; [slow_request_escapes] for the others).
    - Data: JSON round trip and fuel, base64, MIME classification, presigned
      validity on int64, configuration against a reference.

    ** Conventions

    A 64-bit integer is a [Z] with [wrap64] where the code can overflow;
    durations are nanoseconds; strings are bytes. Loops that are not structural
    have fuel: the attempt loops have the number of attempts left, which is the
    loops' own bound; the JSON parser has twice the length of the text, shown to
    be enough ([json_parse_fuel]). A call of go-redis may send its command up to
    1 + [redis_retries] times, by its documented default. Code outside the repository is a class with
    its laws: [Env], [Dotenv], [GoLib] (the platform's float conversion and
    Unicode case mapping), [Cloud] (the storage SDKs), [Crypto] (AES-GCM, bcrypt,
    random), [RateLib], [ChiWriter] and [ThirdParty] (chi and CORS), [ZapField]
    and [Zap], [Pq], [Sqlx] and [Migrate], [Otel] (which calls fail). Every class
    of laws has an instance, used by the runs in the [...Demo] modules.

    ** What is not modelled

    Span attributes, log fields outside [Logger], and baggage; the trimming of the
    stream by Redis; contexts other than through the points where the code asks
    whether they are done (pkg/utils/context.go, a call of [context.WithTimeout],
    and format.go, a call of [fmt.Sprintf] that nothing uses, have no definitions);
    the worker. Requests run one after the other in all files but [RateLimit] and
    [Concurrent]; in [Concurrent] only confirmations are split into their calls,
    and creations are one step, as they make one statement. In [Process] requests
    are in flight together, but each acts at the point where it is answered; the
    start-up is one step; a signal before
    [signal.NotifyContext] is set up, which kills the process, is not a step.

    ** Plan

    Left: the worker's side of the job protocol as an environment of the jobs
    table (its claims and recoveries), which is in Python. *)

From stdpp Require Import base gmap strings list numbers pretty.
From Stdlib Require Import ZArith Lia.

Set Default Proof Using "Type".

(** ** Go's [(T, error)] results

    A Go function that returns a value and an error returns here either the
    value or the error. *)
Inductive result (E A : Type) : Type :=
| Ok (a : A)
| Err (e : E).
Arguments Ok {E A} a.
Arguments Err {E A} e.

Definition is_ok {E A} (r : result E A) : bool :=
  match r with Ok _ => true | Err _ => false end.

Definition result_map {E A B} (f : A → B) (r : result E A) : result E B :=
  match r with Ok a => Ok (f a) | Err e => Err e end.

(** ** A Go call either returns or panics with a value *)
Inductive outcome (A : Type) : Type :=
| Returned (a : A)
| Panicked (v : string).
Arguments Returned {A} a.
Arguments Panicked {A} v.

(** ** Notations of the development *)
Declare Scope mp_scope.
Delimit Scope mp_scope with mp.
Notation "x =s y" := (String.eqb x y) (at level 70, no associativity) : mp_scope.
Open Scope mp_scope.

(** ** Hint databases

    [store]: an operation leaves the durable store alone; [spans]: an
    operation ends every span it starts; [go]: equations of the Go library. *)
Create HintDb store discriminated.
Create HintDb spans discriminated.
Create HintDb go discriminated.

(** ** Tactics *)

(** Case analysis on the outermost [match] or [if] of the goal. *)
Ltac split_match :=
  match goal with
  | |- context [ match ?x with _ => _ end ] =>
      lazymatch x with
      | context [ match _ with _ => _ end ] => fail
      | _ => let H := fresh "Hm" in destruct x eqn:H
      end
  end.

(** Turns boolean string tests among the hypotheses into equations. *)
Ltac simpl_eqb :=
  repeat match goal with
  | H : (?x =s ?y) = true |- _ => apply String.eqb_eq in H
  | H : (?x =s ?y) = false |- _ => apply String.eqb_neq in H
  | H : bool_decide _ = true |- _ => apply bool_decide_eq_true_1 in H
  | H : bool_decide _ = false |- _ => apply bool_decide_eq_false_1 in H
  | H : (_ && _)%bool = true |- _ => apply andb_prop in H as [? ?]
  | H : (_ || _)%bool = false |- _ => apply orb_false_elim in H as [? ?]
  | H : negb _ = true |- _ => apply negb_true_iff in H
  | H : negb _ = false |- _ => apply negb_false_iff in H
  end.

(** ** Generic lemmas *)

#[export] Instance result_eq_dec {E A} `{EqDecision E, EqDecision A} :
  EqDecision (result E A).
Proof. solve_decision. Defined.

#[export] Instance outcome_eq_dec {A} `{EqDecision A} : EqDecision (outcome A).
Proof. solve_decision. Defined.

Lemma string_cons_append c (s t : string) :
  (String c s +:+ t)%string = String c (s +:+ t).
Proof. done. Qed.

Lemma string_nil_append (t : string) : ("" +:+ t)%string = t.
Proof. done. Qed.

Lemma string_append_nil_r (s : string) : (s +:+ "")%string = s.
Proof. induction s as [|c s IH]; [done|]. by rewrite string_cons_append, IH. Qed.

Lemma string_append_assoc (s t u : string) :
  ((s +:+ t) +:+ u)%string = (s +:+ (t +:+ u))%string.
Proof. induction s as [|c s IH]; [done|]. by rewrite !string_cons_append, IH. Qed.

Lemma string_length_append (s t : string) :
  String.length (s +:+ t) = String.length s + String.length t.
Proof.
  induction s as [|c s IH]; [done|]. rewrite string_cons_append. simpl. by rewrite IH.
Qed.

Lemma string_append_cancel (s t t' : string) :
  (s +:+ t = s +:+ t')%string → t = t'.
Proof. induction s as [|c s IH]; [done|]. rewrite !string_cons_append. intros [= H]. auto. Qed.

Lemma is_ok_true {E A} (r : result E A) : is_ok r = true ↔ ∃ a, r = Ok a.
Proof. destruct r; naive_solver. Qed.

Lemma eqb_false {x y : string} : x ≠ y → (x =s y) = false.
Proof. apply String.eqb_neq. Qed.
