(* ===== verification/GoStd.v ===== *)
(** * The parts of Go and of its standard library the server uses

    Machine integers ([int64] and [time.Duration] are 64-bit two's complement),
    [strings], [strconv] and the lower-casing and trimming of Unicode text.
    Strings are byte strings, as in Go. *)

From stdpp Require Import base gmap strings list numbers pretty.
From Stdlib Require Import ZArith Lia Ascii.
From S2P Require Import Prelude.

(** ** Machine integers *)

Definition min_int64 : Z := -2 ^ 63.
Definition max_int64 : Z := 2 ^ 63 - 1.

(** Signed 64-bit wrap-around. *)
Definition wrap64 (z : Z) : Z := (z + 2 ^ 63) `mod` 2 ^ 64 - 2 ^ 63.

Definition mul64 (a b : Z) : Z := wrap64 (a * b).

Definition in_int64 (z : Z) : Prop := (min_int64 ≤ z ≤ max_int64)%Z.

#[export] Instance in_int64_dec z : Decision (in_int64 z).
Proof. unfold in_int64. apply _. Defined.

Definition Millisecond : Z := 1000000.
Definition Second : Z := 1000000000.
Definition Minute : Z := 60 * Second.

(** Go's integer division truncates toward zero. *)
Definition quot64 (a b : Z) : Z := Z.quot a b.

Lemma wrap64_id z : in_int64 z → wrap64 z = z.
Proof.
  unfold in_int64, min_int64, max_int64, wrap64. intros H.
  rewrite Z.mod_small; lia.
Qed.

Lemma wrap64_range z : in_int64 (wrap64 z).
Proof.
  unfold in_int64, min_int64, max_int64, wrap64.
  pose proof (Z.mod_pos_bound (z + 2 ^ 63) (2 ^ 64)). lia.
Qed.

(** ** Bytes and strings *)

Definition byte_val (c : ascii) : nat := nat_of_ascii c.

Fixpoint string_map (f : ascii → ascii) (s : string) : string :=
  match s with
  | EmptyString => EmptyString
  | String c s' => String (f c) (string_map f s')
  end.

Fixpoint string_forall (p : ascii → bool) (s : string) : bool :=
  match s with
  | EmptyString => true
  | String c s' => p c && string_forall p s'
  end.

Definition is_ascii (s : string) : bool :=
  string_forall (λ c, byte_val c <? 128) s.

Definition ascii_lower (c : ascii) : ascii :=
  if (65 <=? byte_val c) && (byte_val c <=? 90)
  then ascii_of_nat (byte_val c + 32) else c.

Definition ascii_upper (c : ascii) : ascii :=
  if (97 <=? byte_val c) && (byte_val c <=? 122)
  then ascii_of_nat (byte_val c - 32) else c.

(** Space, \t, \n, \v, \f, \r. *)
Definition ascii_space (c : ascii) : bool :=
  (byte_val c =? 32) || ((9 <=? byte_val c) && (byte_val c <=? 13)).

Definition dq_char : ascii := ascii_of_nat 34.
Definition bs_char : ascii := ascii_of_nat 92.

Definition hex_digit (n : nat) : ascii :=
  ascii_of_nat (if n <? 10 then 48 + n else 87 + n).

(** The escape of an ASCII character inside a quoted string (%q). *)
Definition quote_char (c : ascii) : string :=
  let esc (k : nat) := String bs_char (String (ascii_of_nat k) EmptyString) in
  match byte_val c with
  | 7 => esc 97 | 8 => esc 98 | 9 => esc 116 | 10 => esc 110 | 11 => esc 118
  | 12 => esc 102 | 13 => esc 114 | 34 => esc 34 | 92 => esc 92
  | n => if (32 <=? n) && (n <? 127) then String c EmptyString
         else String bs_char (String "x"%char
                (String (hex_digit (n / 16)) (String (hex_digit (n mod 16)) EmptyString)))
  end.

Fixpoint quote_chars (s : string) : string :=
  match s with
  | EmptyString => String dq_char EmptyString
  | String c s' => quote_char c +:+ quote_chars s'
  end.

(** The routines of Go's standard library that are not reproduced here: what
    the Unicode tables say of a string with a byte outside ASCII (every function
    below takes the ASCII path by itself, as Go does), whether
    [strconv.ParseFloat] accepts a text, and the result of converting to [int64]
    a float that does not fit, which Go leaves to the platform. *)
Class GoLib := {
  uni_ToLower : string → string;
  uni_ToUpper : string → string;
  uni_TrimSpace : string → string;
  uni_Quote : string → string;
  ParseFloat_ok : string → bool;
  float_to_int64_overflow : Z → Z;
}.

(** An instance for running the model: text outside ASCII is left alone, no float
    text is refused, and an overflowing conversion gives the least [int64], as on
    amd64. *)
Definition amd64_golib : GoLib := {|
  uni_ToLower := id; uni_ToUpper := id; uni_TrimSpace := id; uni_Quote := id;
  ParseFloat_ok := λ _, true;
  float_to_int64_overflow := λ _, min_int64;
|}.

Fixpoint trim_left (p : ascii → bool) (s : string) : string :=
  match s with
  | EmptyString => EmptyString
  | String c s' => if p c then trim_left p s' else s
  end.

Fixpoint trim_right (p : ascii → bool) (s : string) : string :=
  match s with
  | EmptyString => EmptyString
  | String c s' =>
      match trim_right p s' with
      | EmptyString => if p c then EmptyString else String c EmptyString
      | t => String c t
      end
  end.

Definition strings_ToLower `{GoLib} (s : string) : string :=
  if is_ascii s then string_map ascii_lower s else uni_ToLower s.

Definition strings_ToUpper `{GoLib} (s : string) : string :=
  if is_ascii s then string_map ascii_upper s else uni_ToUpper s.

Definition strings_TrimSpace `{GoLib} (s : string) : string :=
  if is_ascii s then trim_right ascii_space (trim_left ascii_space s)
  else uni_TrimSpace s.

(** [strconv.Quote] and the %q verb. *)
Definition strconv_Quote `{GoLib} (s : string) : string :=
  if is_ascii s then String dq_char (quote_chars s) else uni_Quote s.

(** [strings.TrimRight(s, "c")] for a one-byte cutset. *)
Definition strings_TrimRight (s : string) (c : ascii) : string :=
  trim_right (λ d, bool_decide (d = c)) s.

(** The text before and after the first [c], if there is one. *)
Fixpoint strings_Cut (s : string) (c : ascii) : option (string * string) :=
  match s with
  | EmptyString => None
  | String d s' =>
      if decide (d = c) then Some (EmptyString, s')
      else match strings_Cut s' c with
           | Some (a, b) => Some (String d a, b)
           | None => None
           end
  end.

(** [strings.SplitN(s, "c", 2)]. *)
Definition strings_SplitN2 (s : string) (c : ascii) : list string :=
  match strings_Cut s c with
  | Some (a, b) => [a; b]
  | None => [s]
  end.

(** [strings.Split(s, "c")]. *)
Fixpoint strings_Split (s : string) (c : ascii) : list string :=
  match s with
  | EmptyString => [EmptyString]
  | String d s' =>
      if decide (d = c) then EmptyString :: strings_Split s' c
      else match strings_Split s' c with
           | [] => [String d EmptyString]
           | t :: ts => String d t :: ts
           end
  end.

Definition strings_HasPrefix (s pre : string) : bool := String.prefix pre s.

Fixpoint strings_Contains (s sub : string) : bool :=
  String.prefix sub s ||
  match s with
  | EmptyString => false
  | String _ s' => strings_Contains s' sub
  end.

(** [s[0:n]] and [s[n:]] for [n] within the string. *)
Definition slice_to (s : string) (n : nat) : string := String.substring 0 n s.
Definition slice_from (s : string) (n : nat) : string :=
  String.substring n (String.length s - n) s.

(** ** strconv: base-10 integers *)

Definition is_digit (c : ascii) : bool := (48 <=? byte_val c) && (byte_val c <=? 57).

Definition digit_val (c : ascii) : option Z :=
  if is_digit c
  then Some (Z.of_nat (byte_val c) - 48)%Z else None.

Fixpoint parse_digits (acc : Z) (s : string) : option Z :=
  match s with
  | EmptyString => Some acc
  | String c s' =>
      match digit_val c with
      | Some d => parse_digits (10 * acc + d) s'
      | None => None
      end
  end.

(** An unsigned number has at least one digit. *)
Definition parse_unsigned (s : string) : option Z :=
  match s with EmptyString => None | _ => parse_digits 0 s end.

(** [strconv.Atoi(s)] and [strconv.ParseInt(s, 10, 64)] on a 64-bit platform:
    an optional sign, digits, and a value that fits; None is the error. *)
Definition strconv_ParseInt (s : string) : option Z :=
  let signed :=
    match s with
    | String "-"%char s' => Z.opp <$> parse_unsigned s'
    | String "+"%char s' => parse_unsigned s'
    | _ => parse_unsigned s
    end in
  match signed with
  | Some z => if decide (in_int64 z) then Some z else None
  | None => None
  end.

(** [strconv.Itoa] and the %d verb. *)
Definition strconv_Itoa (z : Z) : string := pretty z.

(** ** Lemmas *)

Lemma strconv_ParseInt_range s z : strconv_ParseInt s = Some z → in_int64 z.
Proof. unfold strconv_ParseInt. intros H. repeat case_match; naive_solver. Qed.

Lemma string_map_lower_ascii c :
  byte_val c < 128 → byte_val (ascii_lower c) < 128.
Proof.
  unfold ascii_lower. destruct (_ && _) eqn:E; [|done]. intros _.
  apply andb_prop in E as [E1 E2].
  apply Nat.leb_le in E1, E2. unfold byte_val in *.
  rewrite nat_ascii_embedding; lia.
Qed.

Lemma ascii_lower_idemp c : ascii_lower (ascii_lower c) = ascii_lower c.
Proof. destruct c as [[] [] [] [] [] [] [] []]; reflexivity. Qed.

(** Lower-casing an ASCII string twice is lower-casing it once. *)
Lemma strings_ToLower_idemp `{GoLib} s :
  is_ascii s = true → strings_ToLower (strings_ToLower s) = strings_ToLower s.
Proof.
  unfold strings_ToLower at 2 3. intros Ha. rewrite Ha.
  assert (Hl : is_ascii (string_map ascii_lower s) = true).
  { unfold is_ascii in *. induction s as [|c s IH]; [done|]. simpl in *.
    apply andb_prop in Ha as [Hc Ha]. rewrite IH by done. rewrite andb_true_r.
    apply Nat.ltb_lt. apply Nat.ltb_lt in Hc. by apply string_map_lower_ascii. }
  unfold strings_ToLower. rewrite Hl. clear.
  induction s as [|c s IH]; [done|]. simpl. by rewrite ascii_lower_idemp, IH.
Qed.

Lemma strings_Cut_Some s c a b :
  strings_Cut s c = Some (a, b) →
  s = (a +:+ String c b)%string ∧ strings_Cut a c = None.
Proof.
  revert a b. induction s as [|d s IH]; intros a b; [done|]. simpl.
  case_decide as Hd; [naive_solver|].
  destruct (strings_Cut s c) as [[a' b']|]; [|done].
  intros [= <- <-]. destruct (IH a' b' eq_refl) as [-> Ha']. split; [done|].
  simpl. rewrite decide_False by done. by rewrite Ha'.
Qed.

Lemma strings_Cut_append a c b :
  strings_Cut a c = None →
  strings_Cut (a +:+ String c b)%string c = Some (a, b).
Proof.
  induction a as [|d a IH].
  - intros _. rewrite string_nil_append. simpl. by rewrite decide_True.
  - rewrite string_cons_append. simpl. case_decide; [done|].
    destruct (strings_Cut a c) as [[]|]; [done|]. intros _.
    by rewrite IH.
Qed.

Lemma strings_Split_nonempty s c : strings_Split s c ≠ [].
Proof.
  destruct s; [done|]. simpl. case_decide; [done|].
  by destruct (strings_Split s c).
Qed.

Lemma strings_HasPrefix_append p s : strings_HasPrefix (p +:+ s)%string p = true.
Proof.
  unfold strings_HasPrefix. induction p as [|c p IH].
  - by destruct s.
  - rewrite string_cons_append. simpl. destruct (ascii_dec c c); done.
Qed.

Lemma strings_Contains_append_l s t sub :
  strings_Contains t sub = true → strings_Contains (s +:+ t)%string sub = true.
Proof.
  intros H. induction s as [|c s IH]; [done|].
  rewrite string_cons_append. cbn [strings_Contains]. by rewrite IH, orb_true_r.
Qed.

Lemma prefix_append p s t :
  String.prefix p s = true → String.prefix p (s +:+ t)%string = true.
Proof.
  revert s. induction p as [|c p IH]; intros s; [by destruct (s +:+ t)%string|].
  destruct s as [|d s]; [done|]. rewrite string_cons_append. simpl.
  destruct (ascii_dec c d); [|done]. apply IH.
Qed.

Lemma strings_Contains_append_r s t sub :
  strings_Contains s sub = true → strings_Contains (s +:+ t)%string sub = true.
Proof.
  induction s as [|c s IH]; cbn [strings_Contains].
  - rewrite orb_false_r. intros H. destruct sub as [|d sub]; [|done].
    rewrite string_nil_append. by destruct t.
  - rewrite string_cons_append. cbn [strings_Contains].
    rewrite orb_true_iff. intros [H|H].
    + by rewrite <-string_cons_append, prefix_append.
    + by rewrite IH, orb_true_r.
Qed.

Lemma substring_full s : String.substring 0 (String.length s) s = s.
Proof. induction s as [|c s IH]; [done|]. simpl. by rewrite IH. Qed.

(** Slicing at the end of a prefix takes it apart. *)
Lemma slice_append n c :
  slice_to (n +:+ c)%string (String.length n) = n ∧
  slice_from (n +:+ c)%string (String.length n) = c.
Proof.
  unfold slice_to, slice_from. rewrite string_length_append.
  replace (String.length n + String.length c - String.length n)
    with (String.length c) by lia.
  induction n as [|d n [IH1 IH2]].
  - rewrite !string_nil_append. split; [by destruct c|apply substring_full].
  - rewrite !string_cons_append. simpl. by rewrite IH1, IH2.
Qed.

Lemma slice_split s k :
  k ≤ String.length s →
  s = (slice_to s k +:+ slice_from s k)%string ∧ String.length (slice_to s k) = k.
Proof.
  unfold slice_to, slice_from. revert s. induction k as [|k IH]; intros s Hk.
  - destruct s as [|c s]; [done|]. rewrite Nat.sub_0_r, substring_full. done.
  - destruct s as [|c s]; [simpl in Hk; lia|]. simpl in *.
    destruct (IH s) as [H1 H2]; [lia|]. rewrite string_cons_append.
    split; [by f_equal|by rewrite H2].
Qed.

(** *** Decimal texts *)

Lemma pretty_N_char_val x :
  (x < 10)%N → byte_val (pretty_N_char x) = 48 + N.to_nat x.
Proof.
  intros H. assert (x = 0 ∨ x = 1 ∨ x = 2 ∨ x = 3 ∨ x = 4 ∨ x = 5 ∨ x = 6 ∨ x = 7 ∨
    x = 8 ∨ x = 9)%N as Hx by lia. naive_solver.
Qed.

Lemma digit_val_char x : (x < 10)%N → digit_val (pretty_N_char x) = Some (Z.of_N x).
Proof.
  intros H. unfold digit_val, is_digit. rewrite pretty_N_char_val by done.
  destruct (Nat.leb_spec 48 (48 + N.to_nat x)); [|lia].
  destruct (Nat.leb_spec (48 + N.to_nat x) 57); [|lia]. simpl. f_equal. lia.
Qed.

Lemma pretty_N_go_parse x s : parse_digits 0 (pretty_N_go x s) = parse_digits (Z.of_N x) s.
Proof.
  revert s. induction (N.lt_wf_0 x) as [x _ IH]; intros s.
  destruct (decide (x = 0)%N) as [->|Hx]; [done|].
  rewrite pretty_N_go_step by lia. rewrite IH by (apply N.div_lt; lia).
  cbn [parse_digits]. rewrite digit_val_char by (apply N.mod_lt; lia).
  f_equal. pose proof (N.div_mod x 10). lia.
Qed.

Lemma pretty_N_go_shape x s :
  (0 < x)%N → string_forall is_digit s = true →
  ∃ c d, pretty_N_go x s = String c d ∧ string_forall is_digit (String c d) = true ∧
    byte_val c ≠ 48.
Proof.
  revert s. induction (N.lt_wf_0 x) as [x _ IH]; intros s Hx Hs.
  rewrite pretty_N_go_step by done. set (ch := pretty_N_char (x `mod` 10)).
  assert (Hmod : (x `mod` 10 < 10)%N) by (apply N.mod_lt; lia).
  assert (Hd : string_forall is_digit (String ch s) = true).
  { cbn [string_forall]. rewrite Hs, andb_true_r. unfold is_digit, ch.
    rewrite pretty_N_char_val by done. revert Hmod. generalize (x `mod` 10)%N. intros r Hr.
    apply andb_true_intro. split; apply Nat.leb_le; lia. }
  destruct (decide (x / 10 = 0)%N) as [H0|H0].
  - rewrite H0, pretty_N_go_0. exists ch, s. split_and!; [done|done|].
    unfold ch. rewrite pretty_N_char_val by done.
    apply N.div_small_iff in H0; [|done]. rewrite N.mod_small by done. lia.
  - apply IH; [by apply N.div_lt|by apply N.neq_0_lt_0|done].
Qed.

(** A decimal text is digits, with no leading zero unless it is "0". *)
Lemma pretty_N_digits (x : N) :
  ∃ c d, pretty x = String c d ∧ string_forall is_digit (String c d) = true ∧
    (byte_val c = 48 → d = EmptyString).
Proof.
  unfold pretty, pretty_N. case_decide as Hx; [by exists "0"%char, ""|].
  destruct (pretty_N_go_shape x "") as (c & d & H1 & H2 & H3); [lia|done|].
  by exists c, d.
Qed.

Lemma parse_unsigned_pretty (x : N) : parse_unsigned (pretty x) = Some (Z.of_N x).
Proof.
  destruct (pretty_N_digits x) as (c & d & Hx & _). unfold parse_unsigned. rewrite Hx, <-Hx.
  unfold pretty, pretty_N. case_decide as H0; [by rewrite H0|].
  by rewrite pretty_N_go_parse.
Qed.

(** [strconv.ParseInt] reads back what [strconv.Itoa] writes. *)
Lemma strconv_ParseInt_Itoa z : in_int64 z → strconv_ParseInt (strconv_Itoa z) = Some z.
Proof.
  intros Hz. unfold strconv_ParseInt, strconv_Itoa.
  assert (Hpos : ∀ x : N, match pretty x with
    | String "-" s' => Z.opp <$> parse_unsigned s'
    | String "+" s' => parse_unsigned s' | _ => parse_unsigned (pretty x) end
    = Some (Z.of_N x)).
  { intros x. rewrite <-(parse_unsigned_pretty x).
    destruct (pretty_N_digits x) as (c & d & -> & Hd & _). cbn [string_forall] in Hd.
    apply andb_prop in Hd as [Hc _]. by destruct c as [[] [] [] [] [] [] [] []]. }
  destruct z as [|p|p].
  - done.
  - change (pretty (Z.pos p)) with (pretty (Npos p)). rewrite (Hpos (Npos p)).
    cbv beta iota. by rewrite decide_True.
  - change (pretty (Z.neg p)) with (String "-" (pretty (Npos p))). cbv iota.
    rewrite parse_unsigned_pretty. simpl. by rewrite decide_True.
Qed.

#[export] Hint Resolve strings_Contains_append_l strings_Contains_append_r : go.
