(* ===== verification/AppErrors.v ===== *)
(** * Errors: pkg/errors and Go's error values

    [error] is Go's error interface with the concrete types the server
    creates: sentinels of the standard library, plain text errors (also those
    of third-party clients), [fmt.Errorf] with %w, the typed API errors of
    pkg/errors/api.go and the [BaseError] family of pkg/errors/base.go. *)

From stdpp Require Import base gmap strings list.
From S2P Require Import Prelude GoStd.

(** ** Dynamic values ([interface{}])

    A struct has its fields in order, by their JSON names. *)
Inductive any : Type :=
| ANil
| AStr (s : string)
| AInt (z : Z)
| ABool (b : bool)
| AMap (m : list (string * any))
| AStruct (fields : list (string * any)).

(** ** Sentinel errors of the standard library and of the libraries called *)
Inductive ctx_error := Canceled | DeadlineExceeded.

Inductive sentinel :=
| SCtx (c : ctx_error)
| SErrTxDone          (* sql.ErrTxDone *)
| SErrServerClosed    (* http.ErrServerClosed *)
| SErrNoChange.       (* migrate.ErrNoChange *)

#[export] Instance ctx_error_eq_dec : EqDecision ctx_error.
Proof. solve_decision. Defined.
#[export] Instance sentinel_eq_dec : EqDecision sentinel.
Proof. solve_decision. Defined.

Definition sentinel_Error (s : sentinel) : string :=
  match s with
  | SCtx Canceled => "context canceled"
  | SCtx DeadlineExceeded => "context deadline exceeded"
  | SErrTxDone => "sql: transaction has already been committed or rolled back"
  | SErrServerClosed => "http: Server closed"
  | SErrNoChange => "no change"
  end.

(** ** The typed errors *)
Record ApiError := {
  api_Message : string;
  api_Code : string;
  api_Details : any;
  api_StatusCode : Z;
}.

(** [ApiError.Error()]: the message alone. *)
Definition ApiError_Error (e : ApiError) : string := api_Message e.

(** The struct types that embed an [*ApiError]. *)
Inductive api_kind :=
| NotFoundError | BadRequestError | InternalServerErrorError
| UnauthorizedError | ConflictError.

#[export] Instance api_kind_eq_dec : EqDecision api_kind.
Proof. solve_decision. Defined.

Record BaseError (E : Type) := {
  be_Code : string;
  be_Message : string;
  be_Details : option (gmap string any);
  be_Cause : option E;
}.
Arguments be_Code {E} b.
Arguments be_Message {E} b.
Arguments be_Details {E} b.
Arguments be_Cause {E} b.

(** The struct types that embed a [*BaseError]. *)
Inductive base_kind := ConfigError | EnvConfigError.

Inductive error : Type :=
| ESentinel (s : sentinel)
| EText (msg : string)
| EWrap (msg : string) (inner : error)
| EApi (k : api_kind) (a : ApiError)
| EBase (k : base_kind) (b : BaseError error).

(** The [Error() string] method of each type; [BaseError.Error] appends the
    text of its cause. *)
Fixpoint err_Error (e : error) : string :=
  match e with
  | ESentinel s => sentinel_Error s
  | EText msg => msg
  | EWrap msg _ => msg
  | EApi _ a => ApiError_Error a
  | EBase _ b =>
      match be_Cause b with
      | Some c => be_Message b +:+ ": " +:+ err_Error c
      | None => be_Message b
      end
  end.

(** [errors.Unwrap]: %w wrappers and [BaseError.Unwrap]; the API errors embed
    [*ApiError], which has no [Unwrap] method. *)
Definition err_Unwrap (e : error) : option error :=
  match e with
  | EWrap _ inner => Some inner
  | EBase _ b => be_Cause b
  | _ => None
  end.

(** [errors.Is(e, t)] for a sentinel [t]: walks the [Unwrap] chain. *)
Fixpoint errors_Is (e : error) (t : sentinel) : bool :=
  match e with
  | ESentinel s => bool_decide (s = t)
  | EWrap _ inner => errors_Is inner t
  | EBase _ b => match be_Cause b with Some c => errors_Is c t | None => false end
  | _ => false
  end.

(** ** Constructors of pkg/errors/api.go *)

Definition unwrapErrorDetails (err : option error) : any :=
  match err with None => ANil | Some e => AStr (err_Error e) end.

Definition mk_api (k : api_kind) (message code : string) (cause : option error)
    (status : Z) : error :=
  EApi k {| api_Message := message; api_Code := code;
            api_Details := unwrapErrorDetails cause; api_StatusCode := status |}.

Definition NewNotFoundError (message : string) (cause : option error) : error :=
  mk_api NotFoundError message "NOT_FOUND_ERROR" cause 404.
Definition NewBadRequestError (message : string) (cause : option error) : error :=
  mk_api BadRequestError message "BAD_REQUEST_ERROR" cause 400.
Definition NewInternalServerError (message : string) (cause : option error) : error :=
  mk_api InternalServerErrorError message "INTERNAL_SERVER_ERROR" cause 500.
Definition NewUnauthorizedError (message : string) (cause : option error) : error :=
  mk_api UnauthorizedError message "UNAUTHORIZED_ERROR" cause 401.
Definition NewConflictError (message : string) (cause : option error) : error :=
  mk_api ConflictError message "CONFLICT_ERROR" cause 409.

(** ** pkg/errors/base.go and global.go *)

Definition BaseError_CodeString (b : BaseError error) : string := be_Code b.

(** Allocates the map on first use, then sets the key. *)
Definition BaseError_WithMetadata (b : BaseError error) (key : string) (value : any)
    : BaseError error :=
  let details := default ∅ (be_Details b) in
  {| be_Code := be_Code b; be_Message := be_Message b;
     be_Details := Some (<[key := value]> details); be_Cause := be_Cause b |}.

Definition BaseError_Metadata (b : BaseError error) : option (gmap string any) :=
  be_Details b.

Definition NewConfigError (message : string) (cause : option error) : error :=
  EBase ConfigError {| be_Code := "CONFIG_ERROR"; be_Message := message;
                       be_Details := None; be_Cause := cause |}.

(** ** Lemmas *)

(** The API errors cut the chain: no sentinel is found behind one, whatever
    error it was made from. *)
Lemma errors_Is_api k a t : errors_Is (EApi k a) t = false.
Proof. done. Qed.

(** The text of an API error does not mention its cause. *)
Lemma NewInternalServerError_text msg cause :
  err_Error (NewInternalServerError msg cause) = msg.
Proof. done. Qed.

(** [errors.Is] is the search along [Unwrap]. *)
Lemma errors_Is_Unwrap e t :
  errors_Is e t =
  match e with
  | ESentinel s => bool_decide (s = t)
  | _ => match err_Unwrap e with Some i => errors_Is i t | None => false end
  end.
Proof. by destruct e as [| | | |k [? ? ? [c|]]]. Qed.

(** A [BaseError] keeps the chain of its cause. *)
Lemma errors_Is_NewConfigError msg c t :
  errors_Is (NewConfigError msg (Some c)) t = errors_Is c t.
Proof. done. Qed.
