(* ===== verification/Config.v ===== *)
(** * Configuration: internal/config/env.go

    Loading of the configuration from the process environment, the package
    singleton set once by [Init] and read by [MustGet], and the environment
    names. The process environment is a function from names to values, the
    empty string standing for an unset variable as [os.Getenv] does; godotenv,
    a third-party package, is the class [Dotenv]. *)

From stdpp Require Import base gmap strings list numbers pretty.
From Stdlib Require Import ZArith Lia Ascii.
From S2P Require Import Prelude GoStd AppErrors.

(** ** The configuration records *)

Record DatabaseConfig := {
  db_Host : string; db_Port : Z; db_User : string; db_Password : string;
  db_Name : string; db_SSLMode : string;
}.

Record ServerConfig := { srv_Port : Z; srv_Host : string }.

(** Durations and the pool size stay at Go's zero value unless set. *)
Record RedisConfig := {
  redis_ConnectionString : string; redis_PoolSize : Z;
  redis_ConnectTimeout : Z; redis_ReadTimeout : Z; redis_WriteTimeout : Z;
}.

(** A float64 is kept as the decimal text it was parsed from. *)
Record OtelConfig := {
  otel_Endpoint : string; otel_TLSInsecure : bool; otel_DeploymentEnv : string;
  otel_TraceSamplingRate : string; otel_ServiceName : string;
  otel_ServiceVersion : string;
}.

Record GCSConfig := { gcs_SAPath : string }.

Record S3Config := {
  s3c_Bucket : string; s3c_Region : string; s3c_AccessKeyID : string;
  s3c_SecretAccessKey : string; s3c_EndpointURL : string;
}.

Record StorageConfig := {
  st_Provider : string; st_Bucket : string; st_GCS : GCSConfig; st_S3 : S3Config;
}.

Record EnvConfig := {
  cfg_Environment : string;
  cfg_Server : ServerConfig;
  cfg_DB : DatabaseConfig;
  cfg_Redis : RedisConfig;
  cfg_Otel : OtelConfig;
  cfg_Storage : StorageConfig;
  cfg_CORSAllowedOrigins : list string;
  cfg_LogLevel : string;
  cfg_EncryptionKey : string;
  cfg_AutoMigrate : bool;
  cfg_MaxAssetSizeBytes : Z;
}.

(** [EnvConfig{}] *)
Definition zero_config : EnvConfig :=
  {| cfg_Environment := "";
  cfg_Server := {| srv_Port := 0; srv_Host := "" |};
  cfg_DB := {| db_Host := ""; db_Port := 0; db_User := ""; db_Password := "";
               db_Name := ""; db_SSLMode := "" |};
  cfg_Redis := {| redis_ConnectionString := ""; redis_PoolSize := 0;
    redis_ConnectTimeout := 0; redis_ReadTimeout := 0; redis_WriteTimeout := 0 |};
  cfg_Otel := {| otel_Endpoint := ""; otel_TLSInsecure := false;
    otel_DeploymentEnv := ""; otel_TraceSamplingRate := "0"; otel_ServiceName := "";
    otel_ServiceVersion := "" |};
  cfg_Storage := {| st_Provider := ""; st_Bucket := ""; st_GCS := {| gcs_SAPath := "" |};
    st_S3 := {| s3c_Bucket := ""; s3c_Region := ""; s3c_AccessKeyID := "";
                s3c_SecretAccessKey := ""; s3c_EndpointURL := "" |} |};
  cfg_CORSAllowedOrigins := []; cfg_LogLevel := ""; cfg_EncryptionKey := "";
  cfg_AutoMigrate := false; cfg_MaxAssetSizeBytes := 0 |}.

Definition NewInitializationError (message : string) (cause : option error) : error :=
  EBase EnvConfigError
    {| be_Code := "ENV_CONFIG_INITIALIZATION_ERROR"; be_Message := message;
       be_Details := None; be_Cause := cause |}.

(** ** The singleton *)

(** [once.Do]: the state is the value stored by the first call. *)
Definition Init (cfg : EnvConfig) (instance : option EnvConfig) : option EnvConfig :=
  match instance with Some c => Some c | None => Some cfg end.

Definition MustGet (instance : option EnvConfig) : outcome EnvConfig :=
  match instance with
  | None => Panicked
      "config: MustGet called before Init — call config.Init(cfg) at startup"
  | Some c => Returned c
  end.

(** ** Environment names *)

(** [type Environment string]. *)
Definition Environment := string.
Definition Development : Environment := "development".
Definition Staging : Environment := "staging".
Definition Production : Environment := "production".

Definition ToEnvironment (env : string) : Environment :=
  if env =s "production" then Production
  else if env =s "staging" then Staging
  else if env =s "development" then Development
  else Development.

(** ** Loading *)

(** godotenv: the environment after loading a file; its error is ignored. *)
Class Dotenv := { godotenv_Load : string → (string → string) → string → string }.

Section Loading.
Context {L : GoLib} {D : Dotenv}.

Definition envOr (getenv : string → string) (key def : string) : string :=
  let v := getenv key in if negb (v =s "") then v else def.

(** True (plaintext) unless the value is "false" up to case and blanks. *)
Definition parseTLSInsecure (raw : string) : bool :=
  negb (strings_ToLower (strings_TrimSpace raw) =s "false").

(** [strconv.Atoi] with a default on error. *)
Definition atoi_or (raw : string) (def : Z) : Z := default def (strconv_ParseInt raw).

Definition getMaxAssetSize (getenv : string → string) : Z :=
  let raw := getenv "MAX_ASSET_SIZE_BYTES" in
  let dflt := (500 * 1024 * 1024)%Z in
  if negb (raw =s "") then
    match strconv_ParseInt raw with
    | Some n => if decide (0 < n)%Z then n else dflt
    | None => dflt
    end
  else dflt.

Definition getTraceSamplingRate (getenv : string → string) : string :=
  let raw := getenv "TRACE_SAMPLING_RATE" in
  if negb (raw =s "") then if ParseFloat_ok raw then raw else "0.1" else "0.1".

Definition getCORSOrigins (getenv : string → string) : list string :=
  let raw := getenv "CORS_ALLOWED_ORIGINS" in
  if negb (raw =s "") then strings_Split raw ","%char else ["http://localhost:5173"].

(** The struct literal at the end of [GetEnvConfig]. *)
Definition buildEnvConfig (getenv : string → string) (host : string) (port dbPort : Z)
    (env dbUser dbPassword dbName redisConnStr encryptionKey : string) : EnvConfig :=
  {| cfg_Environment := env;
     cfg_Server := {| srv_Port := port; srv_Host := host |};
     cfg_DB := {| db_Host := envOr getenv "DB_HOST" "localhost"; db_Port := dbPort;
                  db_User := dbUser; db_Password := dbPassword; db_Name := dbName;
                  db_SSLMode := "disable" |};
     cfg_Redis := {| redis_ConnectionString := redisConnStr; redis_PoolSize := 0;
                     redis_ConnectTimeout := 0; redis_ReadTimeout := 0;
                     redis_WriteTimeout := 0 |};
     cfg_Otel :=
       {| otel_Endpoint :=
            envOr getenv "OTEL_EXPORTER_OTLP_ENDPOINT" "otel-collector:4317";
          otel_TLSInsecure := parseTLSInsecure (getenv "OTEL_TLS_INSECURE");
          otel_DeploymentEnv := envOr getenv "DEPLOYMENT_ENV" env;
          otel_TraceSamplingRate := getTraceSamplingRate getenv;
          otel_ServiceName := envOr getenv "SERVICE_NAME" "mpiper-api";
          otel_ServiceVersion := envOr getenv "SERVICE_VERSION" "dev" |};
     cfg_Storage :=
       {| st_Provider := envOr getenv "BUCKET_PROVIDER" "gcs";
          st_Bucket := envOr getenv "BUCKET_NAME" "mpiper";
          st_GCS := {| gcs_SAPath := getenv "GCS_SA_PATH" |};
          st_S3 := {| s3c_Bucket := envOr getenv "S3_BUCKET_NAME"
                                      (envOr getenv "BUCKET_NAME" "mpiper");
                      s3c_Region := getenv "S3_REGION";
                      s3c_AccessKeyID := getenv "S3_ACCESS_KEY_ID";
                      s3c_SecretAccessKey := getenv "S3_SECRET_ACCESS_KEY";
                      s3c_EndpointURL := getenv "S3_ENDPOINT_URL" |} |};
     cfg_CORSAllowedOrigins := getCORSOrigins getenv;
     cfg_LogLevel := envOr getenv "LOG_LEVEL" "INFO";
     cfg_EncryptionKey := encryptionKey;
     cfg_AutoMigrate := strings_ToLower (getenv "AUTO_MIGRATE") =s "true";
     cfg_MaxAssetSizeBytes := getMaxAssetSize getenv |}.

(** [GetEnvConfig] once the file is loaded: the required variables are tested
    in the code's order. *)
Definition configFromEnv (getenv : string → string) : result error EnvConfig :=
  let host := envOr getenv "HOST" "0.0.0.0" in
  let port := atoi_or (getenv "PORT") 5010 in
  let dbPort := atoi_or (getenv "DB_PORT") 5432 in
  let env := getenv "ENV" in
  if env =s "" then Err (NewInitializationError "ENV is not set" None) else
  let dbUser := getenv "DB_USER" in
  if dbUser =s "" then Err (NewInitializationError "DB_USER is not set" None) else
  let dbPassword := getenv "DB_PASSWORD" in
  if dbPassword =s "" then
    Err (NewInitializationError "DB_PASSWORD is not set" None) else
  let dbName := getenv "DB_NAME" in
  if dbName =s "" then Err (NewInitializationError "DB_NAME is not set" None) else
  let redisConnStr := getenv "REDIS_CONNECTION_STRING" in
  if redisConnStr =s "" then
    Err (NewInitializationError "REDIS_CONNECTION_STRING is not set" None) else
  let encryptionKey := getenv "ENCRYPTION_KEY" in
  if encryptionKey =s "" then
    Err (NewInitializationError "ENCRYPTION_KEY is not set" None) else
  if negb (String.length encryptionKey =? 32) then
    Err (NewInitializationError
           ("ENCRYPTION_KEY must be exactly 32 bytes for AES-256, got "
            +:+ strconv_Itoa (Z.of_nat (String.length encryptionKey))) None) else
  Ok (buildEnvConfig getenv host port dbPort env dbUser dbPassword dbName
        redisConnStr encryptionKey).

(** [GetEnvConfig(envFile)] in the process environment [env0]. *)
Definition GetEnvConfig (envFile : string) (env0 : string → string)
    : result error EnvConfig :=
  configFromEnv (godotenv_Load envFile env0).

(** The file each environment is read from. *)
Definition InitializeConfig (env : Environment) (env0 : string → string)
    : result error EnvConfig :=
  if env =s Production then GetEnvConfig ".env" env0
  else if env =s Staging then GetEnvConfig ".env.staging" env0
  else if env =s Development then GetEnvConfig ".env.local" env0
  else GetEnvConfig ".env" env0.

(** ** Reference definitions *)

(** The variables without a default, in the order the code tests them. *)
Definition required_vars : list string :=
  ["ENV"; "DB_USER"; "DB_PASSWORD"; "DB_NAME"; "REDIS_CONNECTION_STRING";
   "ENCRYPTION_KEY"].

Definition first_missing (getenv : string → string) : option string :=
  List.find (λ k, getenv k =s "") required_vars.

(** Report the first missing variable, then a key of the wrong length, else
    build the configuration. *)
Definition configFromEnv_spec (getenv : string → string) : result error EnvConfig :=
  match first_missing getenv with
  | Some k => Err (NewInitializationError (k +:+ " is not set") None)
  | None =>
      if decide (String.length (getenv "ENCRYPTION_KEY") = 32) then
        Ok (buildEnvConfig getenv (envOr getenv "HOST" "0.0.0.0")
              (atoi_or (getenv "PORT") 5010) (atoi_or (getenv "DB_PORT") 5432)
              (getenv "ENV") (getenv "DB_USER") (getenv "DB_PASSWORD")
              (getenv "DB_NAME") (getenv "REDIS_CONNECTION_STRING")
              (getenv "ENCRYPTION_KEY"))
      else Err (NewInitializationError
             ("ENCRYPTION_KEY must be exactly 32 bytes for AES-256, got "
              +:+ strconv_Itoa (Z.of_nat (String.length (getenv "ENCRYPTION_KEY"))))
             None)
  end.

(** Every variable the loader reads. *)
Definition read_vars : list string :=
  required_vars ++
  ["HOST"; "PORT"; "DB_HOST"; "DB_PORT"; "OTEL_EXPORTER_OTLP_ENDPOINT";
   "OTEL_TLS_INSECURE"; "DEPLOYMENT_ENV"; "TRACE_SAMPLING_RATE"; "SERVICE_NAME";
   "SERVICE_VERSION"; "BUCKET_PROVIDER"; "BUCKET_NAME"; "GCS_SA_PATH";
   "S3_BUCKET_NAME"; "S3_REGION"; "S3_ACCESS_KEY_ID"; "S3_SECRET_ACCESS_KEY";
   "S3_ENDPOINT_URL"; "CORS_ALLOWED_ORIGINS"; "LOG_LEVEL"; "AUTO_MIGRATE";
   "MAX_ASSET_SIZE_BYTES"].

(** What the rest of the server relies on in a loaded configuration. *)
Record config_wf (c : EnvConfig) : Prop := {
  cw_env : cfg_Environment c ≠ "";
  cw_key : String.length (cfg_EncryptionKey c) = 32;
  cw_max : (0 < cfg_MaxAssetSizeBytes c ≤ max_int64)%Z;
  cw_port : in_int64 (srv_Port (cfg_Server c));
  cw_dbport : in_int64 (db_Port (cfg_DB c));
  cw_user : db_User (cfg_DB c) ≠ "";
  cw_name : db_Name (cfg_DB c) ≠ "";
  cw_redis : redis_ConnectionString (cfg_Redis c) ≠ "";
  cw_bucket : st_Bucket (cfg_Storage c) ≠ "" ∧ s3c_Bucket (st_S3 (cfg_Storage c)) ≠ "";
  cw_cors : cfg_CORSAllowedOrigins c ≠ [];
}.

(** ** Lemmas *)

Lemma envOr_nonempty getenv k d : d ≠ "" → envOr getenv k d ≠ "".
Proof.
  unfold envOr. intros Hd. destruct (getenv k =s "") eqn:E; simpl; [done|].
  by apply String.eqb_neq in E.
Qed.

Lemma atoi_or_range raw d : in_int64 d → in_int64 (atoi_or raw d).
Proof.
  unfold atoi_or. destruct (strconv_ParseInt raw) eqn:E; simpl; [|done].
  intros _. by eapply strconv_ParseInt_range.
Qed.

Lemma getMaxAssetSize_range getenv : (0 < getMaxAssetSize getenv ≤ max_int64)%Z.
Proof.
  unfold getMaxAssetSize. repeat case_match; unfold max_int64; try lia.
  pose proof (strconv_ParseInt_range _ _ ltac:(eassumption)) as [_ ?].
  unfold max_int64 in *. lia.
Qed.

Lemma getCORSOrigins_nonempty getenv : getCORSOrigins getenv ≠ [].
Proof. unfold getCORSOrigins. case_match; [apply strings_Split_nonempty|done]. Qed.

(** ** Properties *)

Lemma configFromEnv_reference_eq getenv :
  configFromEnv getenv = configFromEnv_spec getenv.
Proof.
  unfold configFromEnv, configFromEnv_spec, first_missing, required_vars.
  cbn [List.find].
  repeat match goal with
  | |- context [if ?x =s ?y then _ else _] => destruct (x =s y); [done|]
  end.
  destruct (Nat.eqb_spec (String.length (getenv "ENCRYPTION_KEY")) 32);
    case_decide; done.
Qed.

(** C30: the loader is the reference "report the first missing required variable,
    then a key of the wrong length, else build": it fails exactly when a
    required variable is empty or the key is not 32 bytes. *)
Theorem configFromEnv_reference envFile env0 :
  GetEnvConfig envFile env0 = configFromEnv_spec (godotenv_Load envFile env0)
  ∧ (is_ok (GetEnvConfig envFile env0) = true ↔
     Forall (λ k, godotenv_Load envFile env0 k ≠ "") required_vars ∧
     String.length (godotenv_Load envFile env0 "ENCRYPTION_KEY") = 32).
Proof.
  unfold GetEnvConfig. rewrite configFromEnv_reference_eq. split; [done|].
  unfold configFromEnv_spec. generalize (godotenv_Load envFile env0) as g. intros g.
  destruct (first_missing g) as [k|] eqn:E; unfold first_missing in E.
  - apply find_some in E as [Hin Hk]. apply String.eqb_eq in Hk. split; [done|].
    intros [Hall _]. rewrite Forall_forall in Hall.
    by destruct (Hall k); [apply list_elem_of_In|].
  - assert (Hall : Forall (λ k, g k ≠ "") required_vars).
    { apply Forall_forall. intros k Hk%list_elem_of_In.
      apply String.eqb_neq. by apply (find_none _ _ E). }
    case_decide; naive_solver.
Qed.

Lemma buildEnvConfig_wf g host port dbPort env u pw n r key :
  in_int64 port → in_int64 dbPort → env ≠ "" → u ≠ "" → n ≠ "" → r ≠ "" →
  String.length key = 32 →
  config_wf (buildEnvConfig g host port dbPort env u pw n r key).
Proof.
  intros. constructor; simpl; try done.
  - apply getMaxAssetSize_range.
  - split; repeat apply envOr_nonempty; done.
  - apply getCORSOrigins_nonempty.
Qed.

(** C31: a configuration that loads is usable: non-empty environment, database and
    Redis names, a 32-byte key, a positive upload limit, ports and limit within
    64 bits, non-empty buckets and at least one CORS origin. *)
Theorem InitializeConfig_wf env env0 c :
  InitializeConfig env env0 = Ok c → config_wf c.
Proof.
  assert (Hwf : ∀ g, configFromEnv g = Ok c → config_wf c).
  { intros g. unfold configFromEnv.
    repeat match goal with
    | |- context [if ?b then Err _ else _] => destruct b eqn:?; [done|]
    end.
    intros [= <-]. simpl_eqb.
    apply buildEnvConfig_wf; try done; try by apply atoi_or_range.
    by apply Nat.eqb_eq. }
  unfold InitializeConfig, GetEnvConfig. repeat case_match; eauto.
Qed.

(** The loader reads no variable outside [read_vars]. *)
Lemma configFromEnv_reads g1 g2 :
  Forall (λ k, g1 k = g2 k) read_vars → configFromEnv g1 = configFromEnv g2.
Proof.
  unfold read_vars, required_vars. cbn [app]. intros H.
  rewrite !list.Forall_cons in H.
  repeat match type of H with _ ∧ _ => destruct H as [? H] end.
  unfold configFromEnv, buildEnvConfig, getMaxAssetSize, getTraceSamplingRate,
    getCORSOrigins, envOr.
  repeat match goal with E : g1 ?k = g2 ?k |- _ => rewrite !E; clear E end.
  done.
Qed.

(** DB_SSL_MODE is never read: changing it changes nothing, and the SSL mode
    of every configuration is "disable". *)
Theorem configFromEnv_ignores_ssl_mode g v :
  configFromEnv (λ k, if k =s "DB_SSL_MODE" then v else g k) = configFromEnv g
  ∧ match configFromEnv g with
    | Ok c => db_SSLMode (cfg_DB c) = "disable"
    | Err _ => True
    end.
Proof.
  split; [apply configFromEnv_reads; by repeat constructor|].
  rewrite configFromEnv_reference_eq. unfold configFromEnv_spec.
  destruct (first_missing g); [done|]. by case_decide.
Qed.

(** The first [Init] wins and every later [MustGet] returns it; before any
    [Init], [MustGet] panics. *)
Theorem singleton_first_init (cfgs : list EnvConfig) :
  match MustGet (foldl (λ i c, Init c i) None cfgs) with
  | Returned c => head cfgs = Some c
  | Panicked _ => cfgs = []
  end.
Proof.
  destruct cfgs as [|c cfgs]; [done|]. simpl.
  assert (Hkeep : foldl (λ i c', Init c' i) (Some c) cfgs = Some c).
  { induction cfgs as [|c' cfgs IH]; [done|]. exact IH. }
  by rewrite Hkeep.
Qed.

End Loading.

(** ** Witnesses *)
Module ConfigDemo.

Definition dotenv_noop : Dotenv := {| godotenv_Load := λ _ e, e |}.

Definition env (k : string) : string :=
  if k =s "ENV" then "production" else
  if k =s "DB_USER" then "postgres" else
  if k =s "DB_PASSWORD" then "secret" else
  if k =s "DB_NAME" then "mpiper" else
  if k =s "REDIS_CONNECTION_STRING" then "redis://localhost:6379/0" else
  if k =s "ENCRYPTION_KEY" then "0123456789abcdef0123456789abcdef" else
  if k =s "MAX_ASSET_SIZE_BYTES" then "-5" else "".

(** The configuration this environment gives. *)
Definition cfg : EnvConfig :=
  match @configFromEnv amd64_golib env with Ok c => c | Err _ => zero_config end.

Lemma InitializeConfig_wf_witness :
  ∃ c, @InitializeConfig amd64_golib dotenv_noop Production env = Ok c ∧ config_wf c.
Proof.
  destruct (@InitializeConfig amd64_golib dotenv_noop Production env) as [c|e] eqn:E.
  - exists c. split; [reflexivity|].
    exact (@InitializeConfig_wf amd64_golib dotenv_noop Production env c E).
  - exfalso. vm_compute in E. discriminate E.
Defined.

End ConfigDemo.
