(* ===== verification/Assets.v ===== *)
(** * Assets: request and response models, MIME types and the two tables

    internal/models/asset.go, the type and MIME part of
    internal/repository/asset_repo.go, and the tables [assets] and [jobs] of
    internal/database/migrations/000001_init_schema.up.sql with the three SQL
    statements the repository sends, as functions on the tables. *)

From stdpp Require Import base gmap strings list numbers.
From Stdlib Require Import ZArith Lia.
From S2P Require Import Prelude GoStd AppErrors.

(** ** Models *)

Record UploadAssetRequest := {
  req_FileName : string; req_ContentType : string; req_Size : Z;
}.

Record UploadAssetResponse := {
  resp_UploadUrl : string; resp_AssetID : string; resp_Method : string;
  resp_Headers : list (string * string); resp_ObjectPath : string;
  resp_PublicUrl : string; resp_ExpiresAt : Z;
}.

(** ** Asset types and statuses (string types with named constants) *)

Definition AssetType := string.
Definition ImageAsset : AssetType := "image".
Definition VideoAsset : AssetType := "video".
Definition AudioAsset : AssetType := "audio".
Definition DocumentAsset : AssetType := "document".
Definition OtherAsset : AssetType := "other".

Definition Status := string.
Definition StatusUploading : Status := "uploading".
Definition StatusUploaded : Status := "uploaded".
Definition StatusProcessing : Status := "processing".
Definition StatusReady : Status := "done".
Definition StatusFailed : Status := "failed".

Definition ToAssetType (fileType : string) : AssetType :=
  if fileType =s "image" then ImageAsset
  else if fileType =s "video" then VideoAsset
  else if fileType =s "audio" then AudioAsset
  else if fileType =s "document" then DocumentAsset
  else OtherAsset.

Definition SupportedMIMETypes : gmap string AssetType :=
  list_to_map
    [("image/jpeg", ImageAsset); ("image/png", ImageAsset);
     ("image/webp", ImageAsset); ("video/mp4", VideoAsset);
     ("video/quicktime", VideoAsset)].

Definition IsSupportedMIMEType (mimeType : string) : bool :=
  match SupportedMIMETypes !! mimeType with Some _ => true | None => false end.

Definition ToAssetTypeFromMimeType (mimeType : string) : AssetType :=
  if String.length mimeType <? 5 then OtherAsset
  else if slice_to mimeType 5 =s "image" then ImageAsset
  else if slice_to mimeType 5 =s "video" then VideoAsset
  else if slice_to mimeType 5 =s "audio" then AudioAsset
  else if (mimeType =s "application/pdf") || (mimeType =s "application/msword") ||
    (mimeType =s
       "application/vnd.openxmlformats-officedocument.wordprocessingml.document")
  then DocumentAsset
  else OtherAsset.

(** ** Tables

    An asset identifier is a 128-bit value. The columns the API never reads or
    sets (content hash, canonical asset, error reason, processing time) stay
    NULL and are left out. The [jobs] table is keyed by its unique index
    (asset_id, type); [job_id] is a column. Times are nanoseconds. *)

Definition uuid := N.

Record asset_row := {
  a_original_url : string; a_type : AssetType; a_status : Status;
  a_mime_type : string; a_size_bytes : Z; a_created_at : Z; a_updated_at : Z;
}.

Record job_row := {
  j_job_id : Z; j_status : Status; j_attempts : Z; j_last_error : option string;
  j_created_at : Z; j_updated_at : Z;
}.

Record tables := {
  t_assets : gmap uuid asset_row;
  t_jobs : gmap (uuid * string) job_row;
}.

#[export] Instance asset_row_eq_dec : EqDecision asset_row.
Proof. solve_decision. Defined.
#[export] Instance job_row_eq_dec : EqDecision job_row.
Proof. solve_decision. Defined.
#[export] Instance tables_eq_dec : EqDecision tables.
Proof. solve_decision. Defined.

Definition empty_tables : tables := {| t_assets := ∅; t_jobs := ∅ |}.

Definition set_assets (m : gmap uuid asset_row) (t : tables) : tables :=
  {| t_assets := m; t_jobs := t_jobs t |}.
Definition set_jobs (m : gmap (uuid * string) job_row) (t : tables) : tables :=
  {| t_assets := t_assets t; t_jobs := m |}.

(** Constraint violations, by the constraint's name. *)
Inductive pg_error := UniqueViolation (c : string) | ForeignKeyViolation (c : string).

(** [INSERT INTO assets (asset_id, original_url, type, mime_type, status,
    size_bytes) VALUES ($1, ..., $6)]. *)
Definition sql_insert_asset (id : uuid) (url typ mime status : string) (size now : Z)
    (t : tables) : result pg_error tables :=
  match t_assets t !! id with
  | Some _ => Err (UniqueViolation "assets_pkey")
  | None => Ok (set_assets (<[id := {| a_original_url := url; a_type := typ;
              a_status := status; a_mime_type := mime; a_size_bytes := size;
              a_created_at := now; a_updated_at := now |}]> (t_assets t)) t)
  end.

Definition row_uploaded (status : Status) (now : Z) (r : asset_row) : asset_row :=
  {| a_original_url := a_original_url r; a_type := a_type r; a_status := status;
     a_mime_type := a_mime_type r; a_size_bytes := a_size_bytes r;
     a_created_at := a_created_at r; a_updated_at := now |}.

(** [UPDATE assets SET status = $1, updated_at = NOW()
     WHERE asset_id = $2 AND status = 'uploading'], with the rows affected. *)
Definition sql_mark_uploaded (status : Status) (id : uuid) (now : Z) (t : tables)
    : Z * tables :=
  match t_assets t !! id with
  | Some r =>
      if a_status r =s "uploading"
      then (1%Z, set_assets (<[id := row_uploaded status now r]> (t_assets t)) t)
      else (0%Z, t)
  | None => (0%Z, t)
  end.

Definition job_touched (now : Z) (j : job_row) : job_row :=
  {| j_job_id := j_job_id j; j_status := j_status j; j_attempts := j_attempts j;
     j_last_error := j_last_error j; j_created_at := j_created_at j;
     j_updated_at := now |}.

(** [INSERT INTO jobs (type, asset_id, status) VALUES ($1, $2, $3)
     ON CONFLICT (asset_id, type) DO UPDATE SET updated_at = NOW()
     RETURNING job_id], where [next] is the value drawn from the job sequence. *)
Definition sql_insert_job (typ : string) (id : uuid) (status : Status) (now next : Z)
    (t : tables) : result pg_error (Z * tables) :=
  match t_jobs t !! (id, typ) with
  | Some j => Ok (j_job_id j, set_jobs (<[(id, typ) := job_touched now j]> (t_jobs t)) t)
  | None =>
      match t_assets t !! id with
      | None => Err (ForeignKeyViolation "jobs_asset_id_fkey")
      | Some _ =>
          Ok (next, set_jobs (<[(id, typ) := {| j_job_id := next; j_status := status;
                j_attempts := 0; j_last_error := None; j_created_at := now;
                j_updated_at := now |}]> (t_jobs t)) t)
      end
  end.

(** The job type the API creates. *)
Definition process_asset : string := "process_asset".

(** ** Invariant of the tables, relative to the next value of the job sequence *)
Record tables_wf (seq : Z) (t : tables) : Prop := {
  (** every job belongs to an asset *)
  tw_fk : ∀ id typ j, t_jobs t !! (id, typ) = Some j → is_Some (t_assets t !! id);
  (** job identifiers were drawn from the sequence, no two alike *)
  tw_ids : ∀ k j, t_jobs t !! k = Some j → (j_job_id j < seq)%Z;
  tw_inj : ∀ k1 k2 j1 j2, t_jobs t !! k1 = Some j1 → t_jobs t !! k2 = Some j2 →
             j_job_id j1 = j_job_id j2 → k1 = k2;
  (** an asset has a job exactly when its upload was confirmed *)
  tw_job : ∀ id a, t_assets t !! id = Some a →
             (is_Some (t_jobs t !! (id, process_asset)) ↔ a_status a ≠ StatusUploading);
}.

(** ** Lemmas on the statements *)

Lemma empty_tables_wf seq : tables_wf seq empty_tables.
Proof. constructor; simpl; intros *; by rewrite ?lookup_empty. Qed.

Lemma tables_wf_seq seq seq' t : (seq ≤ seq')%Z → tables_wf seq t → tables_wf seq' t.
Proof.
  intros Hle [? Hids ? ?]. constructor; try done.
  intros k j Hj. specialize (Hids k j Hj). lia.
Qed.

Lemma sql_insert_asset_Ok id url typ mime status size now t t' :
  sql_insert_asset id url typ mime status size now t = Ok t' →
  t_assets t !! id = None ∧ t_jobs t' = t_jobs t ∧
  t_assets t' = <[id := {| a_original_url := url; a_type := typ; a_status := status;
    a_mime_type := mime; a_size_bytes := size; a_created_at := now;
    a_updated_at := now |}]> (t_assets t).
Proof. unfold sql_insert_asset. case_match; naive_solver. Qed.

(** A new asset starts without a job, so the invariant holds of it if its status
    is "uploading". *)
Lemma sql_insert_asset_wf seq id url typ mime size now t t' :
  tables_wf seq t →
  sql_insert_asset id url typ mime StatusUploading size now t = Ok t' →
  tables_wf seq t'.
Proof.
  intros [Hfk Hids Hinj Hjob] (Hnone & Hj & Ha)%sql_insert_asset_Ok.
  constructor; rewrite ?Hj, ?Ha; try done.
  - intros id' typ' j [r Hr]%Hfk.
    destruct (decide (id = id')) as [->|]; [by rewrite lookup_insert_eq|].
    rewrite lookup_insert_ne by done. by exists r.
  - intros id' a. destruct (decide (id = id')) as [->|].
    + rewrite lookup_insert_eq. intros [= <-]. simpl.
      split; [|done]. intros [j Hj']. apply Hfk in Hj'. by rewrite Hnone in Hj'.
    + rewrite lookup_insert_ne by done. apply Hjob.
Qed.

Lemma sql_mark_uploaded_unchanged status id now t n t' :
  sql_mark_uploaded status id now t = (n, t') → n = 0%Z → t' = t.
Proof. unfold sql_mark_uploaded. repeat case_match; naive_solver. Qed.

Lemma sql_mark_uploaded_cases status id now t n t' :
  sql_mark_uploaded status id now t = (n, t') →
  (n = 0%Z ∧ t' = t ∧
     ∀ r, t_assets t !! id = Some r → a_status r ≠ StatusUploading) ∨
  (∃ r, n = 1%Z ∧ t_assets t !! id = Some r ∧ a_status r = StatusUploading ∧
     t' = set_assets (<[id := row_uploaded status now r]> (t_assets t)) t).
Proof.
  unfold sql_mark_uploaded. intros H. repeat case_match; simplify_eq; simpl_eqb.
  - right. by eexists.
  - left. naive_solver.
  - left. naive_solver.
Qed.

(** Confirming an upload: the UPDATE that hits a row followed by the job INSERT
    always succeeds, draws a fresh job number and keeps the invariant. *)
Lemma confirm_upload_wf seq id now now' t r :
  tables_wf seq t →
  t_assets t !! id = Some r → a_status r = StatusUploading →
  let t1 := set_assets (<[id := row_uploaded StatusUploaded now r]> (t_assets t)) t in
  ∃ t2, sql_insert_job process_asset id StatusProcessing now' seq t1 = Ok (seq, t2) ∧
    tables_wf (seq + 1) t2 ∧ t_assets t2 = t_assets t1 ∧
    t_jobs t2 = <[(id, process_asset) := {| j_job_id := seq;
      j_status := StatusProcessing; j_attempts := 0; j_last_error := None;
      j_created_at := now'; j_updated_at := now' |}]> (t_jobs t).
Proof.
  intros [Hfk Hids Hinj Hjob] Hr Hst t1.
  assert (Hnone : t_jobs t !! (id, process_asset) = None).
  { apply eq_None_not_Some. rewrite (Hjob id r Hr). by intros []. }
  unfold sql_insert_job, t1. simpl. rewrite Hnone, lookup_insert_eq.
  eexists. split_and!; [done| |done|done].
  constructor; simpl.
  - intros id' typ' j. rewrite lookup_insert_Some. intros [[[= <- <-] _]|[_ Hj]].
    + by rewrite lookup_insert_eq.
    + destruct (decide (id = id')) as [->|]; [by rewrite lookup_insert_eq|].
      rewrite lookup_insert_ne by done. eauto.
  - intros k j. rewrite lookup_insert_Some. intros [[<- <-]|[_ Hj]]; simpl; [lia|].
    specialize (Hids k j Hj). lia.
  - intros k1 k2 j1 j2. rewrite !lookup_insert_Some.
    intros [[<- <-]|[? H1]] [[<- <-]|[? H2]]; simpl; try done.
    + intros E. specialize (Hids _ _ H2). lia.
    + intros E. specialize (Hids _ _ H1). lia.
    + eauto.
  - intros id' a. destruct (decide (id = id')) as [->|].
    + rewrite !lookup_insert_eq. intros [= <-]. simpl. split; [done|]. by eexists.
    + rewrite !lookup_insert_ne by naive_solver. apply Hjob.
Qed.

(** ** Properties *)

(** The upload gate and the classifier agree: a supported content type is
    classified as the type the table gives, which is image or video. *)
Theorem supported_types_classified mime typ :
  SupportedMIMETypes !! mime = Some typ →
  ToAssetTypeFromMimeType mime = typ ∧ ToAssetType typ = typ ∧
  (typ = ImageAsset ∨ typ = VideoAsset).
Proof.
  unfold SupportedMIMETypes. cbn [list_to_map foldr].
  rewrite !lookup_insert_Some, lookup_empty.
  intros H. repeat destruct H as [[<- <-]|[_ H]]; naive_solver.
Qed.

Lemma supported_types_classified_witness :
  SupportedMIMETypes !! "video/quicktime" = Some VideoAsset ∧
  ToAssetTypeFromMimeType "video/quicktime" = VideoAsset.
Proof.
  split; [reflexivity|].
  apply (supported_types_classified "video/quicktime" VideoAsset). reflexivity.
Defined.
