(* ===== verification/World.v ===== *)
(** * The world the server acts on, and the monads of its code

    - [Env]: everything decided outside the repository (clock, identifiers,
      PostgreSQL and Redis failures, cancellation, randomness) as a script
      indexed by the number of external calls made so far;
    - [world]: the durable store (tables, open transactions, Redis stream), the
      observations (spans, metrics, log lines), the configuration singleton and
      the HTTP response under construction;
    - [IO] for code that cannot panic and [M] for code that may;
    - a weakest-precondition calculus for both, and the judgments "leaves the
      store alone" and "ends every span it starts". *)

From stdpp Require Import base gmap strings list numbers pretty.
From Stdlib Require Import ZArith Lia.
From S2P Require Import Prelude GoStd AppErrors Config Assets.

(** ** Observations *)

Inductive level := LDebug | LInform | LWarn | LError | LFatal.

(** [codes.Ok] and [codes.Error] of OpenTelemetry. *)
Inductive span_code := CodeOk | CodeError.

(** The instruments of [metrics.Metrics] (internal/metrics/metrics.go). *)
Inductive instrument :=
| HTTPRequestDuration | HTTPRequestCount | HTTPRequestSize | HTTPResponseSize
| HTTPActiveRequests
| AssetUploadTotal | AssetUploadDuration | AssetProcessingTotal
| AssetProcessingSuccess | AssetProcessingFailed | AssetProcessingDuration
| AssetSizeBytes
| StorageOperationDuration | StorageOperationTotal | StorageOperationErrors
| DBQueryDuration | DBQueryTotal | DBQueryErrors | DBConnectionsActive
| DBConnectionsIdle | DBTransactionTotal | DBTransactionErrors
| QueueMessagePublished | QueueMessageConsumed | QueueMessageFailed | QueueDepth
| QueueProcessingLag
| SystemMemoryUsage | SystemGoroutineCount | SystemGCPauseDuration.

#[export] Instance instrument_eq_dec : EqDecision instrument.
Proof. solve_decision. Defined.

Abbreviation attributes := (list (string * any)).

(** Durations are recorded in nanoseconds; span attributes are left out. *)
Inductive event :=
| EvLog (l : level) (msg : string)
| EvSpanStart (sp : nat) (name : string)
| EvSpanEnd (sp : nat)
| EvSpanError (sp : nat) (e : error)
| EvSpanStatus (sp : nat) (c : span_code) (msg : string)
| EvSpanEvent (sp : nat) (name : string)
| EvAdd (i : instrument) (n : Z) (attrs : attributes)
| EvRecord (i : instrument) (v : Z) (attrs : attributes)
| EvSleep (d : Z).

(** ** The durable store *)

(** A database transaction: its view of the tables, the time of its BEGIN (the
    value of NOW() inside it), whether a statement failed in it and whether it
    was committed or rolled back. *)
Record tx := { tx_tables : tables; tx_now : Z; tx_aborted : bool; tx_done : bool }.

(** [redis.XAddArgs] with the fields the queue sets. *)
Record xadd_args := {
  xa_Stream : string; xa_Values : list (string * string); xa_ID : string;
  xa_Approx : bool; xa_MaxLen : Z;
}.

(** The transactions are numbered in the order they were begun. [s_stream] is
    every entry appended to the Redis stream, oldest first; the trimming Redis
    does under MAXLEN is not modelled. *)
Record store := {
  s_db : tables;
  s_seq : Z;
  s_txs : list tx;
  s_stream : list xadd_args;
}.

(** [o_trace] has the newest event first; [o_spans] is the next span number. *)
Record obs := { o_spans : nat; o_trace : list event }.

(** The response of net/http: the header map handlers edit, and status, headers
    and body as sent once the header is written; [h_cells] holds the wrapper
    structs of the middlewares (status code, bytes written). *)
Record http := {
  h_header : gmap string string;
  h_status : option Z;
  h_sent : gmap string string;
  h_body : string;
  h_cells : list (Z * Z);
}.

Record world := {
  w_tick : nat;
  w_store : store;
  w_obs : obs;
  w_cfg : option EnvConfig;
  w_http : http;
}.

Definition set_db (d : tables) (s : store) : store :=
  {| s_db := d; s_seq := s_seq s; s_txs := s_txs s; s_stream := s_stream s |}.
Definition set_seq (n : Z) (s : store) : store :=
  {| s_db := s_db s; s_seq := n; s_txs := s_txs s; s_stream := s_stream s |}.
Definition set_txs (l : list tx) (s : store) : store :=
  {| s_db := s_db s; s_seq := s_seq s; s_txs := l; s_stream := s_stream s |}.
Definition set_stream (l : list xadd_args) (s : store) : store :=
  {| s_db := s_db s; s_seq := s_seq s; s_txs := s_txs s; s_stream := l |}.

Definition set_tick (n : nat) (w : world) : world :=
  {| w_tick := n; w_store := w_store w; w_obs := w_obs w; w_cfg := w_cfg w;
     w_http := w_http w |}.
Definition set_store (s : store) (w : world) : world :=
  {| w_tick := w_tick w; w_store := s; w_obs := w_obs w; w_cfg := w_cfg w;
     w_http := w_http w |}.
Definition set_obs (o : obs) (w : world) : world :=
  {| w_tick := w_tick w; w_store := w_store w; w_obs := o; w_cfg := w_cfg w;
     w_http := w_http w |}.
Definition set_http (h : http) (w : world) : world :=
  {| w_tick := w_tick w; w_store := w_store w; w_obs := w_obs w; w_cfg := w_cfg w;
     w_http := h |}.

(** ** The environment script *)

(** How a call that changes remote state can fail: the error, and whether the
    change was made all the same (the reply was lost). *)
Record lost_reply := { lr_error : error; lr_applied : bool }.

(** How often go-redis sends a command again when its reply does not come:
    [redis.Options.MaxRetries] is left 0 in redis.go, for which go-redis documents
    3 retries. *)
Definition redis_retries : nat := 3.

Class Env := {
  (** clock and identifiers *)
  env_now : nat → Z;
  env_pg_now : nat → Z;
  env_uuid_New : nat → uuid;
  uuid_String : uuid → string;
  uuid_Parse : string → result error uuid;
  time_RFC3339 : Z → string;
  (** PostgreSQL through database/sql: failure of a statement, of BEGIN,
      COMMIT, ROLLBACK and RowsAffected, and the driver's error values *)
  env_pg_begin : nat → option error;
  env_pg_stmt : nat → option lost_reply;
  env_pg_auto : nat → option lost_reply;
  env_pg_commit : nat → option lost_reply;
  env_pg_rollback : nat → option error;
  env_pg_rows : nat → option error;
  pg_error_value : pg_error → error;
  pg_aborted_value : error;
  (** Redis: what a call of XADD returns, and whether its last sending appended
      an entry when that is an error; how many of the sendings before it, which
      go-redis repeated because no reply came, appended an entry all the same *)
  env_xadd : nat → result lost_reply string;
  env_xadd_lost : nat → nat;
  env_xadd_lost_le n : env_xadd_lost n ≤ redis_retries;
  env_xlen : nat → result error Z;
  (** [redis.ParseURL]: address, password and database number *)
  redis_ParseURL : string → result error (string * string * Z);
  (** whether the request's context is done, and the random generator *)
  env_ctx : nat → option ctx_error;
  env_rand : nat → Z;
}.

(** A script in which PostgreSQL and Redis never fail. *)
Class Healthy (E : Env) : Prop := {
  healthy_begin n : env_pg_begin n = None;
  healthy_stmt n : env_pg_stmt n = None;
  healthy_auto n : env_pg_auto n = None;
  healthy_commit n : env_pg_commit n = None;
  healthy_rows n : env_pg_rows n = None;
  healthy_xadd n : ∃ id, env_xadd n = Ok id;
  healthy_lost n : env_xadd_lost n = 0;
}.

(** ** The monads *)

(** Code that cannot panic. *)
Definition IO (A : Type) : Type := world → A * world.

#[export] Instance IO_ret : MRet IO := λ A a w, (a, w).
#[export] Instance IO_bind : MBind IO := λ A B f m w,
  let '(a, w') := m w in f a w'.

(** Code that may panic. *)
Definition M (A : Type) : Type := world → outcome A * world.

#[export] Instance M_ret : MRet M := λ A a w, (Returned a, w).
#[export] Instance M_bind : MBind M := λ A B f m w,
  match m w with
  | (Returned a, w') => f a w'
  | (Panicked v, w') => (Panicked v, w')
  end.

Definition lift {A} (m : IO A) : M A := λ w, let '(a, w') := m w in (Returned a, w').

Definition panic {A} (v : string) : M A := λ w, (Panicked v, w).

Definition from_outcome {A} (o : outcome A) : M A := λ w, (o, w).

(** [defer c]: [c] runs when the body returns and when it panics. *)
Definition defer {A} (c : IO unit) (m : M A) : M A := λ w,
  let '(o, w') := m w in let '(_, w'') := c w' in (o, w'').

(** A deferred function that calls [recover]: [h] runs on a panic. *)
Definition recovering {A} (h : string → M A) (m : M A) : M A := λ w,
  match m w with
  | (Returned a, w') => (Returned a, w')
  | (Panicked v, w') => h v w'
  end.

Definition run {A} (m : IO A) (w : world) : A := fst (m w).
Definition exec {A} (m : IO A) (w : world) : world := snd (m w).

Definition get_store : IO store := λ w, (w_store w, w).
Definition put_store (s : store) : IO unit := λ w, (tt, set_store s w).

(** Each external call draws the next entry of the script. *)
Definition next_tick : IO nat := λ w, (w_tick w, set_tick (S (w_tick w)) w).

Definition emit (e : event) : IO unit := λ w,
  (tt, set_obs {| o_spans := o_spans (w_obs w); o_trace := e :: o_trace (w_obs w) |} w).

(** Logging, metrics and sleeping. *)
Definition log (l : level) (msg : string) : IO unit := emit (EvLog l msg).
Definition metric_add (i : instrument) (n : Z) (attrs : attributes) : IO unit :=
  emit (EvAdd i n attrs).
Definition metric_record (i : instrument) (v : Z) (attrs : attributes) : IO unit :=
  emit (EvRecord i v attrs).
Definition time_Sleep (d : Z) : IO unit := emit (EvSleep d).

(** [if cond { ... }] *)
Definition when (b : bool) (m : IO unit) : IO unit := if b then m else mret tt.

(** Spans: [tracer.Start] and the methods of a span. *)
Definition tracer_Start (name : string) : IO nat := λ w,
  let n := o_spans (w_obs w) in
  (n, set_obs {| o_spans := S n;
                 o_trace := EvSpanStart n name :: o_trace (w_obs w) |} w).
Definition span_End (sp : nat) : IO unit := emit (EvSpanEnd sp).
Definition span_RecordError (sp : nat) (e : error) : IO unit := emit (EvSpanError sp e).
Definition span_SetStatus (sp : nat) (c : span_code) (msg : string) : IO unit :=
  emit (EvSpanStatus sp c msg).
Definition span_AddEvent (sp : nat) (name : string) : IO unit :=
  emit (EvSpanEvent sp name).

(** [_, span := tracer.Start(...); defer span.End()] around a function body. *)
Definition with_span {A} (name : string) (body : nat → IO A) : IO A :=
  sp ← tracer_Start name; a ← body sp; span_End sp;; mret a.

(** [span := tracer.Start(...); x := call; span.End()]: the call's value and the
    ended span, on which the code may go on calling methods. *)
Definition in_span {A} (name : string) (call : IO A) : IO (nat * A) :=
  sp ← tracer_Start name; a ← call; span_End sp;; mret (sp, a).

Section Clock.
Context {E : Env}.

Definition time_Now : IO Z := n ← next_tick; mret (env_now n).
Definition uuid_New : IO uuid := n ← next_tick; mret (env_uuid_New n).
(** [ctx.Err()] *)
Definition ctx_Err : IO (option error) :=
  n ← next_tick; mret ((λ c, ESentinel (SCtx c)) <$> env_ctx n).

End Clock.

(** ** Weakest preconditions *)

Definition wp {A} (m : IO A) (Q : A → world → Prop) (w : world) : Prop :=
  Q (fst (m w)) (snd (m w)).

(** For code that may panic: [Q] of a return, [P] of a panic. *)
Definition wpM {A} (m : M A) (Q : A → world → Prop) (P : string → world → Prop)
    (w : world) : Prop :=
  match m w with
  | (Returned a, w') => Q a w'
  | (Panicked v, w') => P v w'
  end.

Lemma wp_ret {A} (a : A) Q w : wp (mret a) Q w ↔ Q a w.
Proof. done. Qed.

Lemma wp_bind {A B} (m : IO A) (f : A → IO B) Q w :
  wp (m ≫= f) Q w ↔ wp m (λ a, wp (f a) Q) w.
Proof. unfold wp. unfold mbind, IO_bind. by destruct (m w). Qed.

Lemma wp_mono {A} (m : IO A) (Q Q' : A → world → Prop) w :
  (∀ a w', Q a w' → Q' a w') → wp m Q w → wp m Q' w.
Proof. unfold wp. auto. Qed.

Lemma wp_run {A} (m : IO A) (Q : A → world → Prop) w :
  wp m Q w ↔ Q (run m w) (exec m w).
Proof. done. Qed.

Lemma wpM_ret {A} (a : A) Q P w : wpM (mret a) Q P w ↔ Q a w.
Proof. done. Qed.

Lemma wpM_bind {A B} (m : M A) (f : A → M B) Q P w :
  wpM (m ≫= f) Q P w ↔ wpM m (λ a, wpM (f a) Q P) P w.
Proof. unfold wpM, mbind, M_bind. by destruct (m w) as [[] ?]. Qed.

Lemma wpM_lift {A} (m : IO A) Q P w : wpM (lift m) Q P w ↔ wp m Q w.
Proof. unfold wpM, wp, lift. by destruct (m w). Qed.

Lemma wpM_mono {A} (m : M A) (Q Q' : A → world → Prop) (P P' : string → world → Prop) w :
  (∀ a w', Q a w' → Q' a w') → (∀ v w', P v w' → P' v w') →
  wpM m Q P w → wpM m Q' P' w.
Proof. unfold wpM. destruct (m w) as [[] ?]; auto. Qed.

(** A value matched on inside a program. *)
Lemma wp_if {A} (b : bool) (m1 m2 : IO A) Q w :
  wp (if b then m1 else m2) Q w ↔ if b then wp m1 Q w else wp m2 Q w.
Proof. by destruct b. Qed.

(** ** The judgments *)

(** The operation changes neither the store nor the configuration. *)
Definition keeps_store {A} (m : IO A) : Prop :=
  ∀ w, w_store (exec m w) = w_store w.

Definition started (l : list event) : list nat :=
  omap (λ e, match e with EvSpanStart sp _ => Some sp | _ => None end) l.
Definition ended (l : list event) : list nat :=
  omap (λ e, match e with EvSpanEnd sp => Some sp | _ => None end) l.

(** The operation ends every span it starts, exactly once, and no other: the
    spans it starts are the next numbers, and those it ends are the same. *)
Definition ends_spans {A} (m : IO A) : Prop :=
  ∀ w, ∃ new k,
    o_trace (w_obs (exec m w)) = new ++ o_trace (w_obs w) ∧
    o_spans (w_obs (exec m w)) = o_spans (w_obs w) + k ∧
    started new = reverse (seq (o_spans (w_obs w)) k) ∧
    ended new ≡ₚ started new.

Lemma exec_ret {A} (a : A) w : exec (mret a) w = w.
Proof. done. Qed.

Lemma run_bind {A B} (m : IO A) (f : A → IO B) w :
  run (m ≫= f) w = run (f (run m w)) (exec m w).
Proof. unfold run, exec, mbind, IO_bind. by destruct (m w). Qed.

Lemma exec_bind {A B} (m : IO A) (f : A → IO B) w :
  exec (m ≫= f) w = exec (f (run m w)) (exec m w).
Proof. unfold run, exec, mbind, IO_bind. by destruct (m w). Qed.

Lemma keeps_store_ret {A} (a : A) : keeps_store (mret a).
Proof. done. Qed.
Lemma keeps_store_bind {A B} (m : IO A) (f : A → IO B) :
  keeps_store m → (∀ a, keeps_store (f a)) → keeps_store (m ≫= f).
Proof. intros Hm Hf w. by rewrite exec_bind, Hf, Hm. Qed.
Lemma keeps_store_emit e : keeps_store (emit e).
Proof. done. Qed.
Lemma keeps_store_tick : keeps_store next_tick.
Proof. done. Qed.
Lemma keeps_store_start name : keeps_store (tracer_Start name).
Proof. done. Qed.
Lemma keeps_store_when b m : keeps_store m → keeps_store (when b m).
Proof. by destruct b. Qed.
Lemma keeps_store_in_span {A} name (m : IO A) :
  keeps_store m → keeps_store (in_span name m).
Proof.
  intros Hm. apply keeps_store_bind; [done|]. intros sp.
  apply keeps_store_bind; [done|]. done.
Qed.
Lemma keeps_store_with_span {A} name (m : nat → IO A) :
  (∀ sp, keeps_store (m sp)) → keeps_store (with_span name m).
Proof.
  intros Hm. apply keeps_store_bind; [done|]. intros sp.
  apply keeps_store_bind; done.
Qed.

(** An operation that keeps the store can be skipped in a proof about it. *)
Lemma wp_keeps {A} (m : IO A) (Q : A → world → Prop) w :
  keeps_store m →
  (∀ a w', w_store w' = w_store w → Q a w') → wp m Q w.
Proof. intros Hm HQ. apply HQ, Hm. Qed.

(** Spans around an operation do not touch the store. *)
Lemma wp_in_span {A} name (m : IO A) (Q : nat * A → world → Prop) w :
  (∀ sp w1, w_store w1 = w_store w →
     wp m (λ a w2, ∀ w3, w_store w3 = w_store w2 → Q (sp, a) w3) w1) →
  wp (in_span name m) Q w.
Proof.
  intros H. unfold in_span. rewrite wp_bind. apply wp_keeps; [done|]. intros sp w1 Hw1.
  rewrite wp_bind. eapply wp_mono; [|by apply H]. intros a w2 HQ.
  rewrite wp_bind. apply wp_keeps; [done|]. intros _ w3 Hw3. rewrite wp_ret. by apply HQ.
Qed.

Lemma wp_with_span {A} name (m : nat → IO A) (Q : A → world → Prop) w :
  (∀ sp w1, w_store w1 = w_store w →
     wp (m sp) (λ a w2, ∀ w3, w_store w3 = w_store w2 → Q a w3) w1) →
  wp (with_span name m) Q w.
Proof.
  intros H. unfold with_span. rewrite wp_bind. apply wp_keeps; [done|]. intros sp w1 Hw1.
  rewrite wp_bind. eapply wp_mono; [|by apply H]. intros a w2 HQ.
  rewrite wp_bind. apply wp_keeps; [done|]. intros _ w3 Hw3. rewrite wp_ret. by apply HQ.
Qed.

Lemma started_app l1 l2 : started (l1 ++ l2) = started l1 ++ started l2.
Proof. apply omap_app. Qed.
Lemma ended_app l1 l2 : ended (l1 ++ l2) = ended l1 ++ ended l2.
Proof. apply omap_app. Qed.

Lemma ends_spans_ret {A} (a : A) : ends_spans (mret a).
Proof. intros w. exists [], 0. split_and!; [done|by rewrite exec_ret|done|done]. Qed.

Lemma ends_spans_bind {A B} (m : IO A) (f : A → IO B) :
  ends_spans m → (∀ a, ends_spans (f a)) → ends_spans (m ≫= f).
Proof.
  intros Hm Hf w. destruct (Hm w) as (n1 & k1 & Ht1 & Hk1 & Hs1 & He1).
  destruct (Hf (run m w) (exec m w)) as (n2 & k2 & Ht2 & Hk2 & Hs2 & He2).
  exists (n2 ++ n1), (k1 + k2). rewrite exec_bind, started_app, ended_app.
  split_and!.
  - by rewrite Ht2, Ht1, app_assoc.
  - lia.
  - rewrite Hs2, Hs1, Hk1, <-reverse_app. f_equal. symmetry. apply seq_app.
  - by rewrite He1, He2.
Qed.

(** Events that neither start nor end a span. *)
Definition plain_event (e : event) : bool :=
  match e with EvSpanStart _ _ | EvSpanEnd _ => false | _ => true end.

Lemma ends_spans_emit e : plain_event e = true → ends_spans (emit e).
Proof.
  intros He w. exists [e], 0.
  split_and!; [done|simpl; lia|by destruct e|by destruct e].
Qed.

Lemma ends_spans_tick : ends_spans next_tick.
Proof. intros w. exists [], 0. split_and!; [done|simpl; lia|done|done]. Qed.

Lemma ends_spans_when b m : ends_spans m → ends_spans (when b m).
Proof. destruct b; [done|]. intros _. apply ends_spans_ret. Qed.

Lemma ends_spans_with_span {A} name (m : nat → IO A) :
  (∀ sp, ends_spans (m sp)) → ends_spans (with_span name m).
Proof.
  intros Hm w. set (n := o_spans (w_obs w)). set (w1 := exec (tracer_Start name) w).
  destruct (Hm n w1) as (new & k & Ht & Hk & Hs & He).
  exists (EvSpanEnd n :: new ++ [EvSpanStart n name]), (S k).
  unfold with_span. rewrite !exec_bind, exec_ret.
  change (run (tracer_Start name) w) with n. fold w1.
  change (o_trace (w_obs (exec (span_End n) (exec (m n) w1))))
    with (EvSpanEnd n :: o_trace (w_obs (exec (m n) w1))).
  change (o_spans (w_obs (exec (span_End n) (exec (m n) w1))))
    with (o_spans (w_obs (exec (m n) w1))).
  change (o_spans (w_obs w1)) with (S n) in *. split_and!.
  - rewrite Ht. simpl. by rewrite <-app_assoc.
  - rewrite Hk. lia.
  - simpl. rewrite started_app, Hs. simpl. by rewrite reverse_cons.
  - simpl. rewrite started_app, ended_app, He. simpl. rewrite app_nil_r.
    apply Permutation_cons_append.
Qed.

Lemma ends_spans_in_span {A} name (m : IO A) :
  ends_spans m → ends_spans (in_span name m).
Proof.
  intros Hm.
  intros w. destruct (ends_spans_with_span name (λ _, m) (λ _, Hm) w)
    as (new & k & H). exists new, k.
  replace (exec (in_span name m) w) with (exec (with_span name (λ _, m)) w); [done|].
  unfold in_span, with_span. by rewrite !exec_bind.
Qed.

#[export] Hint Resolve keeps_store_ret keeps_store_bind keeps_store_emit
  keeps_store_tick keeps_store_start keeps_store_when keeps_store_in_span
  keeps_store_with_span : store.
#[export] Hint Resolve ends_spans_ret ends_spans_tick : spans.

Section Clock_spans.
Context {E : Env}.
Lemma ends_spans_time_Now : ends_spans time_Now.
Proof. apply ends_spans_bind; [apply ends_spans_tick|]. intros n. apply ends_spans_ret. Qed.
Lemma ends_spans_uuid_New : ends_spans uuid_New.
Proof. apply ends_spans_bind; [apply ends_spans_tick|]. intros n. apply ends_spans_ret. Qed.
End Clock_spans.
#[export] Hint Resolve ends_spans_time_Now ends_spans_uuid_New : spans.

Lemma keeps_store_time_Now {E : Env} : keeps_store time_Now.
Proof. done. Qed.
Lemma keeps_store_uuid_New {E : Env} : keeps_store uuid_New.
Proof. done. Qed.
#[export] Hint Resolve keeps_store_time_Now keeps_store_uuid_New : store.

(** Follows the structure of a program, using the lemmas of [spans] for the
    operations it calls. *)
Ltac solve_spans :=
  repeat lazymatch goal with
  | |- forall _, _ => intro
  | |- ends_spans (mret _) => apply ends_spans_ret
  | |- ends_spans (emit _) => apply ends_spans_emit; reflexivity
  | |- ends_spans (log _ _) => apply ends_spans_emit; reflexivity
  | |- ends_spans (metric_add _ _ _) => apply ends_spans_emit; reflexivity
  | |- ends_spans (metric_record _ _ _) => apply ends_spans_emit; reflexivity
  | |- ends_spans (time_Sleep _) => apply ends_spans_emit; reflexivity
  | |- ends_spans (span_RecordError _ _) => apply ends_spans_emit; reflexivity
  | |- ends_spans (span_SetStatus _ _ _) => apply ends_spans_emit; reflexivity
  | |- ends_spans (span_AddEvent _ _) => apply ends_spans_emit; reflexivity
  | |- ends_spans (when _ _) => apply ends_spans_when
  | |- ends_spans (with_span _ _) => apply ends_spans_with_span
  | |- ends_spans (in_span _ _) => apply ends_spans_in_span
  | |- ends_spans (match ?x with _ => _ end) => destruct x
  | |- ends_spans (let _ := _ in _) => cbv zeta
  | |- ends_spans (mbind _ _) => apply ends_spans_bind
  | |- ends_spans _ => solve [auto with spans]
  end.

(** The store's counterpart of [solve_spans]. *)
Ltac solve_keeps :=
  repeat lazymatch goal with
  | |- forall _, _ => intro
  | |- keeps_store (with_span _ _) => apply keeps_store_with_span
  | |- keeps_store (match ?x with _ => _ end) => destruct x
  | |- keeps_store (let _ := _ in _) => cbv zeta
  | |- keeps_store (mbind _ _) => apply keeps_store_bind
  | |- keeps_store _ => solve [auto with store | reflexivity]
  end.

(** Steps over an operation that keeps the store, and collects what is known of
    the store on the way. *)
Ltac wp_skip :=
  rewrite wp_bind; apply wp_keeps; [solve_keeps|]; intros ? ? ?.

Ltac wp_skips := repeat first [rewrite wp_ret | wp_skip].

Ltac rewrite_stores :=
  repeat match goal with H : w_store ?w = _ |- context [w_store ?w] => rewrite H end.

(** The operation leaves the response and the configuration alone. *)
Definition keeps_resp {A} (m : IO A) : Prop :=
  ∀ w, w_http (exec m w) = w_http w ∧ w_cfg (exec m w) = w_cfg w.

Lemma keeps_resp_ret {A} (a : A) : keeps_resp (mret a).
Proof. done. Qed.
Lemma keeps_resp_bind {A B} (m : IO A) (f : A → IO B) :
  keeps_resp m → (∀ a, keeps_resp (f a)) → keeps_resp (m ≫= f).
Proof.
  intros Hm Hf w. rewrite exec_bind. destruct (Hf (run m w) (exec m w)) as [-> ->].
  apply Hm.
Qed.
Lemma keeps_resp_emit e : keeps_resp (emit e).
Proof. done. Qed.
Lemma keeps_resp_tick : keeps_resp next_tick.
Proof. done. Qed.
Lemma keeps_resp_get : keeps_resp get_store.
Proof. done. Qed.
Lemma keeps_resp_put s : keeps_resp (put_store s).
Proof. done. Qed.
Lemma keeps_resp_when b m : keeps_resp m → keeps_resp (when b m).
Proof. by destruct b. Qed.
Lemma keeps_resp_with_span {A} name (m : nat → IO A) :
  (∀ sp, keeps_resp (m sp)) → keeps_resp (with_span name m).
Proof.
  intros Hm. apply keeps_resp_bind; [done|]. intros sp. apply keeps_resp_bind; done.
Qed.
Lemma keeps_resp_in_span {A} name (m : IO A) : keeps_resp m → keeps_resp (in_span name m).
Proof.
  intros Hm. apply keeps_resp_bind; [done|]. intros sp. apply keeps_resp_bind; done.
Qed.
Lemma keeps_resp_time_Now {E : Env} : keeps_resp time_Now.
Proof. done. Qed.
Lemma keeps_resp_uuid_New {E : Env} : keeps_resp uuid_New.
Proof. done. Qed.

Create HintDb resp discriminated.
#[export] Hint Resolve keeps_resp_ret keeps_resp_tick keeps_resp_get keeps_resp_put
  keeps_resp_emit keeps_resp_time_Now keeps_resp_uuid_New : resp.

Ltac solve_resp :=
  repeat lazymatch goal with
  | |- forall _, _ => intro
  | |- keeps_resp (with_span _ _) => apply keeps_resp_with_span
  | |- keeps_resp (in_span _ _) => apply keeps_resp_in_span
  | |- keeps_resp (when _ _) => apply keeps_resp_when
  | |- keeps_resp (match ?x with _ => _ end) => destruct x
  | |- keeps_resp (let _ := _ in _) => cbv zeta
  | |- keeps_resp (mbind _ _) => apply keeps_resp_bind
  | |- keeps_resp _ => solve [auto with resp | by intro]
  end.

(** Runs the monadic plumbing of the goal. *)
Ltac io_cbn :=
  cbv [mbind IO_bind mret IO_ret M_bind M_ret lift get_store put_store next_tick
       wp wpM run exec];
  cbn.

(** Two programs that go on alike from every result are alike. *)
Lemma M_bind_ext {A B} (m : M A) (f g : A → M B) w :
  (∀ a w', f a w' = g a w') → (m ≫= f) w = (m ≫= g) w.
Proof. intros H. unfold mbind, M_bind. destruct (m w) as [[a|v] w']; auto. Qed.

Lemma M_bind_lift {A B} (m : IO A) (f : A → M B) w :
  (lift m ≫= f) w = f (run m w) (exec m w).
Proof. unfold mbind, M_bind, lift, run, exec. by destruct (m w). Qed.

Lemma M_bind_returned {A B} (m : M A) (f : A → M B) w a w' :
  m w = (Returned a, w') → (m ≫= f) w = f a w'.
Proof. intros H. unfold mbind, M_bind. by rewrite H. Qed.

(** ** A script for running the model

    Every call succeeds except where the arguments say otherwise; times and
    identifiers are the tick they are asked at. *)
Definition script_env_lost (begins : nat → option error)
    (stmts autos commits : nat → option lost_reply) (xadds : nat → result lost_reply string)
    (lost : nat → nat) (ctxs : nat → option ctx_error) : Env := {|
  env_now := Z.of_nat; env_pg_now := Z.of_nat; env_uuid_New := N.of_nat;
  uuid_String := λ u, "uuid-" +:+ pretty.pretty u;
  uuid_Parse := λ s, if s =s "uuid-7" then Ok 7%N else Err (EText "invalid UUID length");
  time_RFC3339 := λ _, "2024-06-01T12:00:00Z";
  env_pg_begin := begins; env_pg_stmt := stmts; env_pg_auto := autos;
  env_pg_commit := commits; env_pg_rollback := λ _, None; env_pg_rows := λ _, None;
  pg_error_value := λ e, match e with
    | UniqueViolation c => EText ("pq: duplicate key value violates unique constraint " +:+ c)
    | ForeignKeyViolation c => EText ("pq: violates foreign key constraint " +:+ c)
    end;
  pg_aborted_value := EText "pq: current transaction is aborted";
  env_xadd := xadds; env_xadd_lost := λ n, Nat.min redis_retries (lost n);
  env_xadd_lost_le := λ n, Nat.le_min_l _ _; env_xlen := λ _, Ok 0%Z;
  redis_ParseURL := λ s, if strings_HasPrefix s "redis://" then Ok ("localhost:6379", "", 0%Z)
                         else Err (EText "redis: invalid URL scheme");
  env_ctx := ctxs; env_rand := Z.of_nat;
|}.

Definition script_env begins stmts autos commits xadds : (nat → option ctx_error) → Env :=
  script_env_lost begins stmts autos commits xadds (λ _, 0).

Definition fine_env : Env :=
  script_env (λ _, None) (λ _, None) (λ _, None) (λ _, None) (λ _, Ok "1-0") (λ _, None).

#[export] Instance fine_env_healthy : Healthy fine_env.
Proof. constructor; try done; intros n; by eexists. Qed.

Definition empty_store : store :=
  {| s_db := empty_tables; s_seq := 1; s_txs := []; s_stream := [] |}.

Definition world_of (s : store) (c : option EnvConfig) : world := {|
  w_tick := 0; w_store := s; w_obs := {| o_spans := 0; o_trace := [] |}; w_cfg := c;
  w_http := {| h_header := ∅; h_status := None; h_sent := ∅; h_body := ""; h_cells := [] |};
|}.
