(* ===== verification/Database.v ===== *)
(** * database/sql over PostgreSQL

    What the repository uses of database/sql: BEGIN, statements inside and
    outside a transaction, COMMIT and ROLLBACK, with the rules of the Go library
    (a finished transaction answers [sql.ErrTxDone]) and of PostgreSQL (a failed
    statement aborts its transaction; sequence values are drawn for good). The
    transactions of one request run one after the other here. *)

From stdpp Require Import base gmap strings list numbers.
From Stdlib Require Import ZArith Lia.
From S2P Require Import Prelude GoStd AppErrors Config Assets World.

(** A statement, from NOW(), the next sequence value and the tables to a value
    and the new tables. *)
Definition statement (A : Type) : Type := Z → Z → tables → result pg_error (A * tables).

Definition open_tx (now : Z) (d : tables) : tx :=
  {| tx_tables := d; tx_now := now; tx_aborted := false; tx_done := false |}.
Definition tx_with (d : tables) (t : tx) : tx :=
  {| tx_tables := d; tx_now := tx_now t; tx_aborted := tx_aborted t;
     tx_done := tx_done t |}.
Definition tx_abort (t : tx) : tx :=
  {| tx_tables := tx_tables t; tx_now := tx_now t; tx_aborted := true;
     tx_done := tx_done t |}.
Definition tx_finish (t : tx) : tx :=
  {| tx_tables := tx_tables t; tx_now := tx_now t; tx_aborted := tx_aborted t;
     tx_done := true |}.

Definition put_tx (id : nat) (t : tx) (s : store) : store :=
  set_txs (<[id := t]> (s_txs s)) s.

Definition bump (b : bool) (s : store) : store :=
  if b then set_seq (s_seq s + 1) s else s.

Definition ErrTxDone : error := ESentinel SErrTxDone.

Section Database.
Context {E : Env}.

(** [db.BeginTx]: a transaction sees the committed tables. *)
Definition BeginTx : IO (result error nat) :=
  n ← next_tick;
  match env_pg_begin n with
  | Some e => mret (Err e)
  | None =>
      s ← get_store;
      put_store (set_txs (s_txs s ++ [open_tx (env_pg_now n) (s_db s)]) s);;
      mret (Ok (length (s_txs s)))
  end.

(** [tx.ExecContext] and [tx.QueryRowContext]; [draws] says whether the
    statement draws a sequence value. *)
Definition tx_stmt {A} (id : nat) (draws : bool) (q : statement A)
    : IO (result error A) :=
  n ← next_tick;
  s ← get_store;
  match s_txs s !! id with
  | None => mret (Err ErrTxDone)
  | Some t =>
      if tx_done t then mret (Err ErrTxDone)
      else if tx_aborted t then mret (Err pg_aborted_value)
      else match env_pg_stmt n with
      | Some lr =>
          put_store (put_tx id (tx_abort t) (bump (draws && lr_applied lr) s));;
          mret (Err (lr_error lr))
      | None =>
          match q (tx_now t) (s_seq s) (tx_tables t) with
          | Ok (a, d) => put_store (put_tx id (tx_with d t) (bump draws s));; mret (Ok a)
          | Err pe =>
              put_store (put_tx id (tx_abort t) (bump draws s));;
              mret (Err (pg_error_value pe))
          end
      end
  end.

(** [tx.Commit]: publishes the transaction's tables, unless it was aborted. *)
Definition tx_Commit (id : nat) : IO (result error unit) :=
  n ← next_tick;
  s ← get_store;
  match s_txs s !! id with
  | None => mret (Err ErrTxDone)
  | Some t =>
      if tx_done t then mret (Err ErrTxDone)
      else if tx_aborted t then
        put_store (put_tx id (tx_finish t) s);; mret (Err pg_aborted_value)
      else match env_pg_commit n with
      | None => put_store (set_db (tx_tables t) (put_tx id (tx_finish t) s));; mret (Ok tt)
      | Some lr =>
          put_store (if lr_applied lr then set_db (tx_tables t) (put_tx id (tx_finish t) s)
                     else put_tx id (tx_finish t) s);;
          mret (Err (lr_error lr))
      end
  end.

(** [tx.Rollback]. *)
Definition tx_Rollback (id : nat) : IO (result error unit) :=
  n ← next_tick;
  s ← get_store;
  match s_txs s !! id with
  | None => mret (Err ErrTxDone)
  | Some t =>
      if tx_done t then mret (Err ErrTxDone)
      else
        put_store (put_tx id (tx_finish t) s);;
        mret match env_pg_rollback n with Some e => Err e | None => Ok tt end
  end.

(** [db.ExecContext]: a statement in a transaction of its own. *)
Definition db_exec {A} (q : statement A) : IO (result error A) :=
  n ← next_tick;
  s ← get_store;
  match env_pg_auto n with
  | None =>
      match q (env_pg_now n) (s_seq s) (s_db s) with
      | Ok (a, d) => put_store (set_db d s);; mret (Ok a)
      | Err pe => mret (Err (pg_error_value pe))
      end
  | Some lr =>
      match q (env_pg_now n) (s_seq s) (s_db s) with
      | Ok (_, d) => if lr_applied lr then put_store (set_db d s) else mret tt
      | Err _ => mret tt
      end;;
      mret (Err (lr_error lr))
  end.

(** [res.RowsAffected()] *)
Definition rows_affected (n : Z) : IO (result error Z) :=
  k ← next_tick; mret match env_pg_rows k with Some e => Err e | None => Ok n end.

(** ** Rules *)

Lemma wp_BeginTx (Q : result error nat → world → Prop) w :
  (∀ e w', w_store w' = w_store w → Q (Err e) w') →
  (∀ now w', w_store w' =
     set_txs (s_txs (w_store w) ++ [open_tx now (s_db (w_store w))]) (w_store w) →
     Q (Ok (length (s_txs (w_store w)))) w') →
  wp BeginTx Q w.
Proof.
  intros He Ho. unfold BeginTx. io_cbn.
  destruct (env_pg_begin (w_tick w)); cbn; [by apply He|by eapply Ho].
Qed.

Lemma wp_tx_stmt {A} id b (q : statement A) (Q : result error A → world → Prop) w t :
  s_txs (w_store w) !! id = Some t → tx_done t = false → tx_aborted t = false →
  (∀ e c w', w_store w' = put_tx id (tx_abort t) (bump (b && c) (w_store w)) →
     Q (Err e) w') →
  (∀ a d w', q (tx_now t) (s_seq (w_store w)) (tx_tables t) = Ok (a, d) →
     w_store w' = put_tx id (tx_with d t) (bump b (w_store w)) → Q (Ok a) w') →
  wp (tx_stmt id b q) Q w.
Proof.
  intros Ht Hd Ha He Ho. unfold tx_stmt. io_cbn. rewrite Ht, Hd, Ha.
  destruct (env_pg_stmt (w_tick w)); cbn; [by eapply He|].
  destruct (q _ _ _) as [[a d]|pe] eqn:Hq; cbn; [by eapply Ho|].
  apply (He _ true). by rewrite andb_true_r.
Qed.

(** What a COMMIT may have done: published and said so, or failed with either
    outcome. *)
Lemma wp_tx_Commit id (Q : result error unit → world → Prop) w t :
  s_txs (w_store w) !! id = Some t → tx_done t = false → tx_aborted t = false →
  (∀ w', w_store w' = set_db (tx_tables t) (put_tx id (tx_finish t) (w_store w)) →
     Q (Ok tt) w') →
  (∀ e w', w_store w' = set_db (tx_tables t) (put_tx id (tx_finish t) (w_store w)) ∨
           w_store w' = put_tx id (tx_finish t) (w_store w) → Q (Err e) w') →
  wp (tx_Commit id) Q w.
Proof.
  intros Ht Hd Ha Ho He. unfold tx_Commit. io_cbn. rewrite Ht, Hd, Ha.
  destruct (env_pg_commit (w_tick w)) as [[e []]|]; cbn; [| |by eapply Ho].
  - eapply He. by left.
  - eapply He. by right.
Qed.

Lemma wp_tx_Rollback id (Q : result error unit → world → Prop) w t :
  s_txs (w_store w) !! id = Some t → tx_done t = false →
  (∀ r w', w_store w' = put_tx id (tx_finish t) (w_store w) → Q r w') →
  wp (tx_Rollback id) Q w.
Proof.
  intros Ht Hd HQ. unfold tx_Rollback. io_cbn. rewrite Ht, Hd. cbn. by apply HQ.
Qed.

(** A finished transaction answers [sql.ErrTxDone] and changes nothing. *)
Lemma wp_tx_Rollback_done id (Q : result error unit → world → Prop) w t :
  s_txs (w_store w) !! id = Some t → tx_done t = true →
  (∀ w', w_store w' = w_store w → Q (Err ErrTxDone) w') →
  wp (tx_Rollback id) Q w.
Proof.
  intros Ht Hd HQ. unfold tx_Rollback. io_cbn. rewrite Ht, Hd. cbn. by apply HQ.
Qed.

Lemma wp_db_exec {A} (q : statement A) (Q : result error A → world → Prop) w :
  (∀ e w', w_store w' = w_store w → Q (Err e) w') →
  (∀ e a d now w', q now (s_seq (w_store w)) (s_db (w_store w)) = Ok (a, d) →
     w_store w' = set_db d (w_store w) → Q (Err e) w') →
  (∀ a d now w', q now (s_seq (w_store w)) (s_db (w_store w)) = Ok (a, d) →
     w_store w' = set_db d (w_store w) → Q (Ok a) w') →
  wp (db_exec q) Q w.
Proof.
  intros He Hl Ho. unfold db_exec. io_cbn.
  destruct (env_pg_auto (w_tick w)) as [[e []]|]; cbn;
    destruct (q _ _ _) as [[a d]|pe] eqn:Hq; cbn;
    solve [by eapply He|by eapply Hl|by eapply Ho].
Qed.

Lemma wp_rows_affected n (Q : result error Z → world → Prop) w :
  (∀ e w', w_store w' = w_store w → Q (Err e) w') →
  (∀ w', w_store w' = w_store w → Q (Ok n) w') →
  wp (rows_affected n) Q w.
Proof.
  intros He Ho. unfold rows_affected. io_cbn.
  destruct (env_pg_rows _); [by apply He|by apply Ho].
Qed.

(** *** When nothing fails *)
Section Healthy.
Context {H : Healthy E}.

Lemma wp_BeginTx_ok (Q : result error nat → world → Prop) w :
  (∀ now w', w_store w' =
     set_txs (s_txs (w_store w) ++ [open_tx now (s_db (w_store w))]) (w_store w) →
     Q (Ok (length (s_txs (w_store w)))) w') →
  wp BeginTx Q w.
Proof. intros Ho. unfold BeginTx. io_cbn. rewrite healthy_begin. by eapply Ho. Qed.

Lemma wp_tx_stmt_ok {A} id b (q : statement A) (Q : result error A → world → Prop) w t a d :
  s_txs (w_store w) !! id = Some t → tx_done t = false → tx_aborted t = false →
  q (tx_now t) (s_seq (w_store w)) (tx_tables t) = Ok (a, d) →
  (∀ w', w_store w' = put_tx id (tx_with d t) (bump b (w_store w)) → Q (Ok a) w') →
  wp (tx_stmt id b q) Q w.
Proof.
  intros Ht Hd Ha Hq Ho. unfold tx_stmt. io_cbn.
  rewrite Ht, Hd, Ha, healthy_stmt, Hq. by apply Ho.
Qed.

Lemma wp_tx_Commit_ok id (Q : result error unit → world → Prop) w t :
  s_txs (w_store w) !! id = Some t → tx_done t = false → tx_aborted t = false →
  (∀ w', w_store w' = set_db (tx_tables t) (put_tx id (tx_finish t) (w_store w)) →
     Q (Ok tt) w') →
  wp (tx_Commit id) Q w.
Proof.
  intros Ht Hd Ha Ho. unfold tx_Commit. io_cbn. rewrite Ht, Hd, Ha, healthy_commit.
  by apply Ho.
Qed.

Lemma wp_rows_affected_ok n (Q : result error Z → world → Prop) w :
  (∀ w', w_store w' = w_store w → Q (Ok n) w') → wp (rows_affected n) Q w.
Proof. intros Ho. unfold rows_affected. io_cbn. rewrite healthy_rows. by apply Ho. Qed.

Lemma wp_db_exec_ok {A} (q : statement A) (Q : result error A → world → Prop) w :
  (∀ now, ∃ a d, q now (s_seq (w_store w)) (s_db (w_store w)) = Ok (a, d)) →
  (∀ a d now w', q now (s_seq (w_store w)) (s_db (w_store w)) = Ok (a, d) →
     w_store w' = set_db d (w_store w) → Q (Ok a) w') →
  wp (db_exec q) Q w.
Proof.
  intros Hq Ho. unfold db_exec. io_cbn. rewrite healthy_auto.
  destruct (Hq (env_pg_now (w_tick w))) as (a & d & Had). rewrite Had. by eapply Ho.
Qed.

End Healthy.

(** Writing back a transaction that did not change. *)
Lemma put_tx_id id t s : s_txs s !! id = Some t → put_tx id t s = s.
Proof. intros H. unfold put_tx, set_txs. rewrite list_insert_id by done. by destruct s. Qed.

Lemma keeps_store_rows n : keeps_store (rows_affected n).
Proof. done. Qed.

(** The database calls neither start nor end spans. *)
Lemma ends_spans_obs {A} (m : IO A) :
  (∀ w, w_obs (exec m w) = w_obs w) → ends_spans m.
Proof. intros H w. exists [], 0. rewrite H. split_and!; [done|simpl; lia|done|done]. Qed.

Lemma BeginTx_obs w : w_obs (exec BeginTx w) = w_obs w.
Proof. unfold BeginTx. io_cbn. by destruct (env_pg_begin _). Qed.
Lemma tx_stmt_obs {A} id b (q : statement A) w :
  w_obs (exec (tx_stmt id b q) w) = w_obs w.
Proof. unfold tx_stmt. io_cbn. repeat (split_match; cbn); done. Qed.
Lemma tx_Commit_obs id w : w_obs (exec (tx_Commit id) w) = w_obs w.
Proof. unfold tx_Commit. io_cbn. repeat (split_match; cbn); done. Qed.
Lemma tx_Rollback_obs id w : w_obs (exec (tx_Rollback id) w) = w_obs w.
Proof. unfold tx_Rollback. io_cbn. repeat (split_match; cbn); done. Qed.
Lemma db_exec_obs {A} (q : statement A) w : w_obs (exec (db_exec q) w) = w_obs w.
Proof. unfold db_exec. io_cbn. repeat (split_match; cbn); done. Qed.

Lemma ends_spans_BeginTx : ends_spans BeginTx.
Proof. apply ends_spans_obs, BeginTx_obs. Qed.
Lemma ends_spans_stmt {A} id b (q : statement A) : ends_spans (tx_stmt id b q).
Proof. apply ends_spans_obs, tx_stmt_obs. Qed.
Lemma ends_spans_Commit id : ends_spans (tx_Commit id).
Proof. apply ends_spans_obs, tx_Commit_obs. Qed.
Lemma ends_spans_Rollback id : ends_spans (tx_Rollback id).
Proof. apply ends_spans_obs, tx_Rollback_obs. Qed.
Lemma ends_spans_db_exec {A} (q : statement A) : ends_spans (db_exec q).
Proof. apply ends_spans_obs, db_exec_obs. Qed.

Lemma keeps_resp_BeginTx : keeps_resp BeginTx.
Proof. unfold BeginTx. solve_resp. Qed.
Lemma keeps_resp_stmt {A} id b (q : statement A) : keeps_resp (tx_stmt id b q).
Proof. unfold tx_stmt. solve_resp. Qed.
Lemma keeps_resp_Commit id : keeps_resp (tx_Commit id).
Proof. unfold tx_Commit. solve_resp. Qed.
Lemma keeps_resp_Rollback id : keeps_resp (tx_Rollback id).
Proof. unfold tx_Rollback. solve_resp. Qed.
Lemma keeps_resp_db_exec {A} (q : statement A) : keeps_resp (db_exec q).
Proof. unfold db_exec. solve_resp. Qed.
Lemma keeps_resp_rows n : keeps_resp (rows_affected n).
Proof. unfold rows_affected. solve_resp. Qed.

End Database.

#[export] Hint Resolve keeps_store_rows : store.
#[export] Hint Resolve ends_spans_BeginTx ends_spans_stmt ends_spans_Commit
  ends_spans_Rollback ends_spans_db_exec : spans.
#[export] Hint Resolve keeps_resp_BeginTx keeps_resp_stmt keeps_resp_Commit
  keeps_resp_Rollback keeps_resp_db_exec keeps_resp_rows : resp.
