(* ===== verification/Repository.v ===== *)
(** * The asset repository: internal/repository/asset_repo.go

    The four operations of [AssetRepository] and the classification of
    transient errors. The retrying transaction helper of the same file is in
    [ExecTransaction]. [m] says whether the repository holds metrics. *)

From stdpp Require Import base gmap strings list numbers.
From Stdlib Require Import ZArith Lia.
From S2P Require Import Prelude GoStd AppErrors Config Assets World Database.

Section Repository.
Context {E : Env} {L : GoLib}.

(** The statement of both CreateAsset operations. *)
Definition insert_asset_stmt (id : uuid) (url : string) (size : Z)
    (fileType : AssetType) (mimeType : string) : statement unit := λ now _ t,
  match sql_insert_asset id url fileType mimeType StatusUploading size now t with
  | Ok t' => Ok (tt, t')
  | Err e => Err e
  end.

Definition db_attrs : attributes :=
  [("db.operation", AStr "insert"); ("db.table", AStr "assets")].

(** What CreateAsset and CreateAssetTx do with the statement's outcome. *)
Definition finish_insert (m : bool) (start : Z) (logmsg errmsg : string)
    (r : result error unit) : IO (result error unit) :=
  now ← time_Now;
  let duration := (now - start)%Z in
  match r with
  | Err e =>
      let attrs := db_attrs ++ [("db.status", AStr "error")] in
      when m (metric_add DBQueryErrors 1 attrs);;
      log LError (logmsg +:+ err_Error e);;
      mret (Err (NewInternalServerError errmsg (Some e)))
  | Ok _ =>
      let attrs := db_attrs ++ [("db.status", AStr "success")] in
      when m (metric_add DBQueryTotal 1 attrs;;
              metric_record DBQueryDuration duration attrs);;
      mret (Ok tt)
  end.

Definition CreateAsset (m : bool) (id : uuid) (url : string) (size : Z)
    (fileType : AssetType) (mimeType : string) : IO (result error unit) :=
  start ← time_Now;
  r ← db_exec (insert_asset_stmt id url size fileType mimeType);
  finish_insert m start "Failed to create asset: " "Could not insert row" r.

Definition CreateAssetTx (m : bool) (tx : nat) (id : uuid) (url : string) (size : Z)
    (fileType : AssetType) (mimeType : string) : IO (result error unit) :=
  start ← time_Now;
  r ← tx_stmt tx false (insert_asset_stmt id url size fileType mimeType);
  finish_insert m start "Failed to create asset in transaction: "
    "Could not insert row in transaction" r.

(** Whether the asset was moved from "uploading" to "uploaded". *)
Definition MarkAssetUploadedTx (tx : nat) (id : uuid) : IO (result error bool) :=
  res ← tx_stmt tx false (λ now _ t, Ok (sql_mark_uploaded StatusUploaded id now t));
  match res with
  | Err e =>
      log LError ("Failed to mark asset as uploaded in transaction: " +:+ err_Error e);;
      mret (Err (NewInternalServerError "Could not update row in transaction" (Some e)))
  | Ok n =>
      rows ← rows_affected n;
      match rows with
      | Err e =>
          log LError ("Failed to get rows affected: " +:+ err_Error e);;
          mret (Err (NewInternalServerError
                       "Could not get rows affected in transaction" (Some e)))
      | Ok rowsAffected =>
          if (rowsAffected =? 0)%Z then mret (Ok false) else mret (Ok true)
      end
  end.

(** The identifier of the asset's processing job, new or already there. *)
Definition InsertProcessAssetJobTx (tx : nat) (assetID : uuid) : IO (result error Z) :=
  r ← tx_stmt tx true
        (λ now next t, sql_insert_job process_asset assetID StatusProcessing now next t);
  match r with
  | Err e =>
      log LError ("Failed to insert process asset job in transaction: " +:+ err_Error e);;
      mret (Err (NewInternalServerError
                   "Could not insert process asset job in transaction" (Some e)))
  | Ok jobID => mret (Ok jobID)
  end.

(** ** shouldRetry *)

Definition transientMarkers : list string :=
  ["sqlstate 40001"; "40001"; "serialization_failure"; "could not serialize";
   "sqlstate 40p01"; "40p01"; "deadlock detected"; "deadlock"; "lock wait timeout";
   "1213"; "serialization error"; "retry transaction"; "write conflict"].

Definition shouldRetry (err : option error) : bool :=
  match err with
  | None => false
  | Some e =>
      if errors_Is e (SCtx Canceled) || errors_Is e (SCtx DeadlineExceeded) then false
      else
        let msg := strings_ToLower (err_Error e) in
        existsb (λ m, strings_Contains msg m) transientMarkers
  end.

(** ** Lemmas *)

Lemma keeps_store_finish_insert m start l e r : keeps_store (finish_insert m start l e r).
Proof. destruct r, m; done. Qed.

Lemma finish_insert_result m start l em r w :
  run (finish_insert m start l em r) w =
  match r with Ok _ => Ok tt | Err e => Err (NewInternalServerError em (Some e)) end.
Proof. destruct r, m; done. Qed.

(** The insert of a new asset: no change, or the row whether or not the reply
    arrived. *)
Lemma wp_CreateAsset m id url size typ mime (Q : result error unit → world → Prop) w :
  (∀ e w', w_store w' = w_store w → Q (Err e) w') →
  (∀ d r now w',
     sql_insert_asset id url typ mime StatusUploading size now (s_db (w_store w)) = Ok d →
     w_store w' = set_db d (w_store w) → Q r w') →
  wp (CreateAsset m id url size typ mime) Q w.
Proof.
  intros He Ho. unfold CreateAsset. rewrite !wp_bind.
  apply wp_keeps; [done|]. intros start w1 Hw1. rewrite wp_bind.
  assert (Hfin : ∀ r w2, (∀ r' w3, w_store w3 = w_store w2 →
      (is_ok r' = is_ok r) → Q r' w3) →
      wp (finish_insert m start "Failed to create asset: " "Could not insert row" r) Q w2).
  { intros r w2 H. apply H; [apply keeps_store_finish_insert|].
    change (fst ?x) with (run (finish_insert m start "Failed to create asset: "
      "Could not insert row" r) w2).
    rewrite finish_insert_result. by destruct r. }
  unfold insert_asset_stmt. apply wp_db_exec.
  - intros e w2 Hw2. apply Hfin. intros [] w3 Hw3 Hok; [done|].
    apply He. by rewrite Hw3, Hw2.
  - intros e a d now w2 Hq Hw2. case_match eqn:Hins; simplify_eq.
    rewrite Hw1 in Hins. apply Hfin. intros r w3 Hw3 _.
    eapply Ho; [done|]. by rewrite Hw3, Hw2, Hw1.
  - intros a d now w2 Hq Hw2. case_match eqn:Hins; simplify_eq.
    rewrite Hw1 in Hins. apply Hfin. intros r w3 Hw3 _.
    eapply Ho; [done|]. by rewrite Hw3, Hw2, Hw1.
Qed.

(** The UPDATE in an open transaction [t]: an error leaves some open transaction,
    otherwise the answer tells whether the asset was "uploading". *)
Lemma wp_MarkAssetUploadedTx tx id (Q : result error bool → world → Prop) w t :
  s_txs (w_store w) !! tx = Some t → tx_done t = false → tx_aborted t = false →
  (∀ e t' w', tx_done t' = false → w_store w' = put_tx tx t' (w_store w) →
     Q (Err e) w') →
  (∀ w', (∀ r, t_assets (tx_tables t) !! id = Some r → a_status r ≠ StatusUploading) →
     w_store w' = w_store w → Q (Ok false) w') →
  (∀ r w', t_assets (tx_tables t) !! id = Some r → a_status r = StatusUploading →
     w_store w' = put_tx tx (tx_with (set_assets
        (<[id := row_uploaded StatusUploaded (tx_now t) r]> (t_assets (tx_tables t)))
        (tx_tables t)) t) (w_store w) → Q (Ok true) w') →
  wp (MarkAssetUploadedTx tx id) Q w.
Proof.
  intros Ht Hd Ha He Hf Hu. unfold MarkAssetUploadedTx. rewrite wp_bind.
  eapply wp_tx_stmt; [done..| |].
  { intros e c w1 Hw1. rewrite wp_bind. apply wp_keeps; [done|]. intros _ w2 Hw2. rewrite wp_ret.
    eapply (He _ (tx_abort t)); [done|]. by rewrite Hw2, Hw1. }
  intros n d w1 [= Hq] Hw1. simpl in Hw1. rewrite wp_bind.
  apply wp_rows_affected.
  { intros e w2 Hw2. rewrite wp_bind. apply wp_keeps; [done|]. intros _ w3 Hw3.
    rewrite wp_ret. eapply (He _ (tx_with d t)); [done|]. by rewrite Hw3, Hw2. }
  intros w2 Hw2. rewrite <-Hw2 in Hw1.
  destruct (sql_mark_uploaded_cases _ _ _ _ _ _ Hq)
    as [(-> & -> & Hno)|(r & -> & Hr & Hst & ->)].
  - change (wp (mret (Ok false)) Q w2). rewrite wp_ret.
    apply Hf; [done|]. rewrite Hw1. apply put_tx_id. rewrite Ht. by destruct t.
  - change (wp (mret (Ok true)) Q w2). rewrite wp_ret. by eapply Hu.
Qed.

(** The job INSERT in an open transaction [t]. *)
Lemma wp_InsertProcessAssetJobTx tx id (Q : result error Z → world → Prop) w t :
  s_txs (w_store w) !! tx = Some t → tx_done t = false → tx_aborted t = false →
  (∀ e t' c w', tx_done t' = false → w_store w' = put_tx tx t' (bump c (w_store w)) →
     Q (Err e) w') →
  (∀ j d w', sql_insert_job process_asset id StatusProcessing (tx_now t)
       (s_seq (w_store w)) (tx_tables t) = Ok (j, d) →
     w_store w' = put_tx tx (tx_with d t) (bump true (w_store w)) → Q (Ok j) w') →
  wp (InsertProcessAssetJobTx tx id) Q w.
Proof.
  intros Ht Hd Ha He Ho. unfold InsertProcessAssetJobTx. rewrite wp_bind.
  eapply wp_tx_stmt; [done..| |].
  - intros e c w1 Hw1. rewrite wp_bind. apply wp_keeps; [done|]. intros _ w2 Hw2. rewrite wp_ret.
    eapply (He _ (tx_abort t)); [done|]. by rewrite Hw2.
  - intros j d w1 Hq Hw1. by eapply Ho.
Qed.

(** *** When nothing fails *)

Lemma wp_CreateAsset_ok {H : Healthy E} m id url size typ mime
    (Q : result error unit → world → Prop) w :
  t_assets (s_db (w_store w)) !! id = None →
  (∀ d now w',
     sql_insert_asset id url typ mime StatusUploading size now (s_db (w_store w)) = Ok d →
     w_store w' = set_db d (w_store w) → Q (Ok tt) w') →
  wp (CreateAsset m id url size typ mime) Q w.
Proof.
  intros Hnone HQ. unfold CreateAsset. wp_skip. rewrite wp_bind.
  apply wp_db_exec_ok; rewrite_stores; unfold insert_asset_stmt, sql_insert_asset.
  - intros now. rewrite Hnone. eauto.
  - rewrite Hnone. intros [] d now w2 [= <-] Hw2. unfold finish_insert. wp_skip.
    destruct m; wp_skips; (eapply (HQ _ now); [by unfold sql_insert_asset; rewrite Hnone|by rewrite_stores]).
Qed.

Lemma wp_MarkAssetUploadedTx_ok {H : Healthy E} tx id
    (Q : result error bool → world → Prop) w t r :
  s_txs (w_store w) !! tx = Some t → tx_done t = false → tx_aborted t = false →
  t_assets (tx_tables t) !! id = Some r → a_status r = StatusUploading →
  (∀ w', w_store w' = put_tx tx (tx_with (set_assets
        (<[id := row_uploaded StatusUploaded (tx_now t) r]> (t_assets (tx_tables t)))
        (tx_tables t)) t) (w_store w) → Q (Ok true) w') →
  wp (MarkAssetUploadedTx tx id) Q w.
Proof.
  intros Ht Hd Ha Hr Hst HQ. unfold MarkAssetUploadedTx. rewrite wp_bind.
  eapply wp_tx_stmt_ok; [exact Ht|exact Hd|exact Ha| |].
  { unfold sql_mark_uploaded. by rewrite Hr, Hst. }
  intros w1 Hw1. rewrite wp_bind. apply wp_rows_affected_ok. intros w2 Hw2.
  change (wp (mret (Ok true)) Q w2). rewrite wp_ret. apply HQ. by rewrite_stores.
Qed.

Lemma wp_InsertProcessAssetJobTx_ok {H : Healthy E} tx id
    (Q : result error Z → world → Prop) w t j d :
  s_txs (w_store w) !! tx = Some t → tx_done t = false → tx_aborted t = false →
  sql_insert_job process_asset id StatusProcessing (tx_now t) (s_seq (w_store w))
    (tx_tables t) = Ok (j, d) →
  (∀ w', w_store w' = put_tx tx (tx_with d t) (bump true (w_store w)) → Q (Ok j) w') →
  wp (InsertProcessAssetJobTx tx id) Q w.
Proof.
  intros Ht Hd Ha Hq HQ. unfold InsertProcessAssetJobTx. rewrite wp_bind.
  eapply wp_tx_stmt_ok; [exact Ht|exact Hd|exact Ha|exact Hq|exact HQ].
Qed.

(** None of the operations touches a span. *)
Lemma ends_spans_rows n : ends_spans (rows_affected n).
Proof. unfold rows_affected. solve_spans. Qed.
#[local] Hint Resolve ends_spans_rows : spans.

Lemma ends_spans_CreateAsset m id url size typ mime :
  ends_spans (CreateAsset m id url size typ mime).
Proof. unfold CreateAsset, finish_insert. solve_spans. Qed.

Lemma ends_spans_MarkAssetUploadedTx tx id : ends_spans (MarkAssetUploadedTx tx id).
Proof. unfold MarkAssetUploadedTx. solve_spans. Qed.

Lemma ends_spans_InsertProcessAssetJobTx tx id :
  ends_spans (InsertProcessAssetJobTx tx id).
Proof. unfold InsertProcessAssetJobTx. solve_spans. Qed.

(** Nor the response. *)
Lemma keeps_resp_CreateAsset m id url size typ mime :
  keeps_resp (CreateAsset m id url size typ mime).
Proof. unfold CreateAsset, finish_insert. solve_resp. Qed.
Lemma keeps_resp_MarkAssetUploadedTx tx id : keeps_resp (MarkAssetUploadedTx tx id).
Proof. unfold MarkAssetUploadedTx. solve_resp. Qed.
Lemma keeps_resp_InsertProcessAssetJobTx tx id :
  keeps_resp (InsertProcessAssetJobTx tx id).
Proof. unfold InsertProcessAssetJobTx. solve_resp. Qed.

(** The texts of the errors the transactional operations return. *)
Lemma shouldRetry_repository msg cause :
  msg ∈ ["Could not insert row in transaction"; "Could not update row in transaction";
         "Could not get rows affected in transaction";
         "Could not insert process asset job in transaction"] →
  shouldRetry (Some (NewInternalServerError msg cause)) = false.
Proof.
  intros H. repeat (apply elem_of_cons in H as [->|H]; [reflexivity|]).
  by apply elem_of_nil in H.
Qed.

(** ** Properties *)

(** C27: whatever PostgreSQL answers (a deadlock or a serialization failure
    included), an error of the three transactional operations is never transient
    for [shouldRetry]: the typed error hides the driver's text and chain. The
    driver's own error is transient. *)
Theorem repository_errors_never_transient m tx id url size typ mime w :
  let hopeless (e : error) := shouldRetry (Some e) = false in
  match run (CreateAssetTx m tx id url size typ mime) w with
  | Err e => hopeless e | Ok _ => True end ∧
  match run (MarkAssetUploadedTx tx id) w with Err e => hopeless e | Ok _ => True end ∧
  match run (InsertProcessAssetJobTx tx id) w with
  | Err e => hopeless e | Ok _ => True end ∧
  shouldRetry (Some (EText "pq: deadlock detected")) = true ∧
  shouldRetry (Some (EText "pq: could not serialize access")) = true.
Proof.
  intros hopeless. split_and!; [| | |reflexivity|reflexivity].
  - unfold CreateAssetTx. rewrite !run_bind, finish_insert_result.
    destruct (run (tx_stmt _ _ _) _); [done|]. apply shouldRetry_repository. set_solver.
  - unfold MarkAssetUploadedTx. rewrite run_bind.
    destruct (run (tx_stmt _ _ _) _) as [n|e]; rewrite run_bind.
    + destruct (run (rows_affected n) _); [by destruct (_ =? _)%Z|].
      apply shouldRetry_repository. set_solver.
    + apply shouldRetry_repository. set_solver.
  - unfold InsertProcessAssetJobTx. rewrite run_bind.
    destruct (run (tx_stmt _ _ _) _); [done|]. apply shouldRetry_repository. set_solver.
Qed.

End Repository.

#[export] Hint Resolve ends_spans_CreateAsset
  ends_spans_MarkAssetUploadedTx ends_spans_InsertProcessAssetJobTx : spans.
#[export] Hint Resolve keeps_resp_CreateAsset
  keeps_resp_MarkAssetUploadedTx keeps_resp_InsertProcessAssetJobTx : resp.
