(* ===== verification/ExecTransaction.v ===== *)
(** * The retrying transaction helper: ExecTransaction and its backoff
    (internal/repository/asset_repo.go)

    The attempt loop runs on fuel equal to the number of attempts left, so its
    length is the loop's own bound. The callback [fn] may panic; the deferred
    rollbacks of all attempts are a list, newest first, of each transaction with
    the final value of its [rolledBack] variable. *)

From stdpp Require Import base gmap strings list numbers.
From Stdlib Require Import ZArith Lia.
From S2P Require Import Prelude GoStd AppErrors Config Assets World Database Repository.

Section ExecTransaction.
Context {E : Env} {L : GoLib}.

(** [rng.Int63n(n)]: panics unless [n] is positive, else a value below [n]. *)
Definition Int63n (n : Z) : M Z :=
  if (n <=? 0)%Z then panic "invalid argument to Int63n"
  else k ← lift next_tick; mret (env_rand k `mod` n)%Z.

(** [float64(base) * math.Pow(2, attempt-1)] is exact; its conversion to
    [time.Duration] is the platform's when it does not fit. *)
Definition backoff_of (attempt : Z) : Z :=
  let base := (100 * Millisecond)%Z in
  let maxCap := (5 * Second)%Z in
  let exact := (base * 2 ^ (attempt - 1))%Z in
  let backoff := if decide (in_int64 exact) then exact
                 else float_to_int64_overflow exact in
  if (maxCap <? backoff)%Z then maxCap else backoff.

(** The sleep ends early when the context is done; the event records the
    duration asked for. *)
Definition sleepWithBackoff (attempt : Z) : M unit :=
  let backoff := backoff_of attempt in
  r ← Int63n (quot64 backoff 2);
  let jitter := (r - quot64 backoff 4)%Z in
  let sleep := (backoff + jitter)%Z in
  let sleep := if (sleep <? 0)%Z then 0%Z else sleep in
  lift (time_Sleep sleep).

(** The deferred functions: [if !rolledBack { _ = tx.Rollback() }]. *)
Fixpoint run_defers (ds : list (nat * bool)) : IO unit :=
  match ds with
  | [] => mret tt
  | (tx, rolledBack) :: ds' =>
      when (negb rolledBack) (_ ← tx_Rollback tx; mret tt);; run_defers ds'
  end.

(** Leaving the function, by [return] or because of a panic. *)
Definition leave {A} (ds : list (nat * bool)) (r : A) : M A :=
  lift (run_defers ds);; mret r.
Definition panicking {A} (ds : list (nat * bool)) (m : M A) : M A :=
  recovering (λ v, lift (run_defers ds);; panic v) m.

(** The inner function literal: a panic of [fn] becomes an error. *)
Definition call_fn (fn : nat → M (result error unit)) (tx : nat)
    : M (result error unit) :=
  recovering (λ v, mret (Err (EText ("panic in transaction func: " +:+ v)))) (fn tx).

(** [shouldRetry(err) && attempt < maxAttempts && ctx.Err() == nil] *)
Definition may_retry (e : error) (attempt maxAttempts : Z) : IO bool :=
  if shouldRetry (Some e) && (attempt <? maxAttempts)%Z
  then c ← ctx_Err; mret match c with None => true | Some _ => false end
  else mret false.

(** The error reported after a failed callback. *)
Definition combine_rollback (rb : result error unit) (fnErr : error) : error :=
  match rb with
  | Err rbErr =>
      if errors_Is rbErr SErrTxDone then fnErr
      else EWrap ("tx rollback error: " +:+ err_Error rbErr +:+ " (original: "
                  +:+ err_Error fnErr +:+ ")") fnErr
  | Ok _ => fnErr
  end.

(** The loop from [attempt] on, with [fuel] attempts left; [after] is what
    follows the loop. *)
Fixpoint exec_loop (fn : nat → M (result error unit))
    (after : option error → result error unit) (maxAttempts : Z)
    (fuel : nat) (attempt : Z) (lastErr : option error) (ds : list (nat * bool))
    : M (result error unit) :=
  match fuel with
  | O => leave ds (after lastErr)
  | S fuel' =>
      let continue lastErr ds :=
        panicking ds (sleepWithBackoff attempt);;
        exec_loop fn after maxAttempts fuel' (attempt + 1)%Z (Some lastErr) ds in
      c ← lift ctx_Err;
      match c with
      | Some e => leave ds (Err e)
      | None =>
          b ← lift BeginTx;
          match b with
          | Err e =>
              if shouldRetry (Some e) && (attempt <? maxAttempts)%Z then continue e ds
              else leave ds (Err (EWrap ("begin tx: " +:+ err_Error e) e))
          | Ok tx =>
              f ← call_fn fn tx;
              match f with
              | Err fnErr =>
                  rb ← lift (tx_Rollback tx);
                  let lastErr := combine_rollback rb fnErr in
                  let ds := (tx, true) :: ds in
                  again ← lift (may_retry fnErr attempt maxAttempts);
                  if (again : bool) then continue lastErr ds else leave ds (Err lastErr)
              | Ok _ =>
                  cm ← lift (tx_Commit tx);
                  match cm with
                  | Err e =>
                      let lastErr := EWrap ("tx commit: " +:+ err_Error e) e in
                      _ ← lift (tx_Rollback tx);
                      let ds := (tx, true) :: ds in
                      again ← lift (may_retry e attempt maxAttempts);
                      if (again : bool) then continue lastErr ds
                      else leave ds (Err lastErr)
                  | Ok _ => leave ((tx, true) :: ds) (Ok tt)
                  end
              end
          end
      end
  end.

(** [if lastErr == nil { lastErr = ... }; return lastErr] *)
Definition after_loop (lastErr : option error) : result error unit :=
  Err (default (EText "transaction failed after retries") lastErr).

Definition attempts_of (maxAttempts : Z) : Z :=
  if (maxAttempts <=? 0)%Z then 1%Z else maxAttempts.

Definition ExecTransaction (maxAttempts : Z) (fn : nat → M (result error unit))
    : M (result error unit) :=
  let maxAttempts := attempts_of maxAttempts in
  exec_loop fn after_loop maxAttempts (Z.to_nat maxAttempts) 1 None [].

(** ** The backoff *)

Lemma backoff_of_range attempt :
  (1 ≤ attempt ≤ 37)%Z →
  backoff_of attempt = Z.min (5 * Second) (100 * Millisecond * 2 ^ (attempt - 1)) ∧
  (100 * Millisecond ≤ backoff_of attempt ≤ 5 * Second)%Z.
Proof.
  intros H. unfold backoff_of.
  assert (Hp : (1 ≤ 2 ^ (attempt - 1) ≤ 2 ^ 36)%Z).
  { split; [apply (Z.pow_le_mono_r 2 0); lia|apply Z.pow_le_mono_r; lia]. }
  unfold Millisecond, Second in *.
  rewrite decide_True; [|unfold in_int64, min_int64, max_int64; lia].
  destruct (Z.ltb_spec (5 * 1000000000) (100 * 1000000 * 2 ^ (attempt - 1))); lia.
Qed.

(** Where the multiplication no longer fits 64 bits. *)
Lemma backoff_of_overflow attempt :
  (38 ≤ attempt)%Z →
  ¬ in_int64 (100 * Millisecond * 2 ^ (attempt - 1)).
Proof.
  intros H. assert (Hp : (2 ^ 37 ≤ 2 ^ (attempt - 1))%Z)
    by (apply Z.pow_le_mono_r; lia).
  unfold in_int64, max_int64, Millisecond. lia.
Qed.


(** ** The deferred rollbacks *)




(** ** What one attempt does to the store *)


Lemma put_tx_same id t s : s_txs s !! id = Some t → set_txs (<[id := t]> (s_txs s)) s = s.
Proof. apply put_tx_id. Qed.











Lemma keeps_store_ctx_Err : keeps_store ctx_Err.
Proof. done. Qed.






(** The loop never runs out: an attempt retries only while another is left. *)
Lemma exec_loop_after fn after1 after2 maxA fuel : ∀ attempt le ds w,
  fuel = Z.to_nat (maxA - attempt + 1) → (attempt ≤ maxA)%Z →
  exec_loop fn after1 maxA fuel attempt le ds w =
  exec_loop fn after2 maxA fuel attempt le ds w.
Proof.
  induction fuel as [|fuel IH]; intros attempt le ds w Hf Ha; simpl; [lia|].
  assert (Hgo : ∀ le' ds' w', (attempt < maxA)%Z →
    (panicking ds' (sleepWithBackoff attempt);;
     exec_loop fn after1 maxA fuel (attempt + 1)%Z (Some le') ds') w' =
    (panicking ds' (sleepWithBackoff attempt);;
     exec_loop fn after2 maxA fuel (attempt + 1)%Z (Some le') ds') w').
  { intros le' ds' w' Hlt. apply M_bind_ext. intros _ w''. apply IH; lia. }
  assert (Hretry : ∀ e le' ds' w' w'',
    (if run (may_retry e attempt maxA) w' then
       panicking ds' (sleepWithBackoff attempt);;
       exec_loop fn after1 maxA fuel (attempt + 1)%Z (Some le') ds'
     else leave ds' (Err le')) w'' =
    (if run (may_retry e attempt maxA) w' then
       panicking ds' (sleepWithBackoff attempt);;
       exec_loop fn after2 maxA fuel (attempt + 1)%Z (Some le') ds'
     else leave ds' (Err le')) w'').
  { intros e le' ds' w' w''.
    destruct (run (may_retry e attempt maxA) w') eqn:Hm; [|done]. apply Hgo.
    unfold may_retry in Hm. destruct (_ && _) eqn:Hc in Hm; [|done].
    apply andb_prop in Hc as [_ Hc]. by apply Z.ltb_lt. }
  rewrite !M_bind_lift. destruct (run ctx_Err w); [done|].
  rewrite !M_bind_lift. destruct (run BeginTx _) as [tx|e].
  - apply M_bind_ext. intros [[]|fnErr] w'; rewrite !M_bind_lift; [|apply Hretry].
    destruct (run (tx_Commit tx) w') as [|e]; [done|].
    rewrite !M_bind_lift. apply Hretry.
  - destruct (_ && _) eqn:Hc; [|done]. apply Hgo.
    apply andb_prop in Hc as [_ Hc]. by apply Z.ltb_lt.
Qed.




(** ** Properties *)


(** The code after the loop is never reached: with any other continuation
    [after] in place of the "transaction failed after retries" fallback, the
    function behaves the same. *)
Theorem ExecTransaction_fallback_dead after fn maxAttempts w :
  exec_loop fn after (attempts_of maxAttempts) (Z.to_nat (attempts_of maxAttempts))
    1 None [] w = ExecTransaction maxAttempts fn w.
Proof.
  unfold ExecTransaction. apply exec_loop_after; [f_equal; lia|].
  unfold attempts_of. destruct (Z.leb_spec maxAttempts 0); lia.
Qed.

(** A callback error that is not transient ends the call after that attempt:
    one rollback, and the callback's own error (wrapped only if the rollback
    failed too), found again by [errors.Is]. *)
Theorem ExecTransaction_permanent_error fn maxAttempts w tx e w1 :
  run ctx_Err w = None →
  run BeginTx (exec ctx_Err w) = Ok tx →
  call_fn fn tx (exec BeginTx (exec ctx_Err w)) = (Returned (Err e), w1) →
  shouldRetry (Some e) = false →
  ∃ e', ExecTransaction maxAttempts fn w =
          (Returned (Err e'), exec (tx_Rollback tx) w1) ∧
        (e' = e ∨ err_Unwrap e' = Some e) ∧
        (∀ t, errors_Is e' t = errors_Is e t).
Proof.
  intros Hc Hb Hf Hr. exists (combine_rollback (run (tx_Rollback tx) w1) e). split.
  - unfold ExecTransaction.
    destruct (Z.to_nat (attempts_of maxAttempts)) as [|fuel] eqn:Hfuel.
    { unfold attempts_of in Hfuel. destruct (Z.leb_spec maxAttempts 0); lia. }
    simpl. rewrite M_bind_lift, Hc, M_bind_lift, Hb. rewrite (M_bind_returned _ _ _ _ _ Hf).
    rewrite !M_bind_lift. unfold may_retry. rewrite Hr. done.
  - unfold combine_rollback. destruct (run (tx_Rollback tx) w1) as [|rb]; [naive_solver|].
    destruct (errors_Is rb SErrTxDone); naive_solver.
Qed.

(** C28: for the first 37 attempts the backoff is exact, and the sleep asked for is
    within a quarter of it: between 75 ms and 6.25 s, never negative, no
    panic. *)
Theorem sleepWithBackoff_bounds attempt w :
  (1 ≤ attempt ≤ 37)%Z →
  ∃ d w', sleepWithBackoff attempt w = (Returned tt, w') ∧
    o_trace (w_obs w') = EvSleep d :: o_trace (w_obs w) ∧
    (75 * Millisecond ≤ d < 6250 * Millisecond)%Z ∧
    (3 * backoff_of attempt ≤ 4 * d ≤ 5 * backoff_of attempt + 4)%Z ∧
    backoff_of attempt = Z.min (5 * Second) (100 * Millisecond * 2 ^ (attempt - 1)).
Proof.
  intros H. destruct (backoff_of_range attempt H) as [Heq Hb].
  unfold sleepWithBackoff, Int63n. set (b := backoff_of attempt) in *.
  unfold quot64. rewrite !Z.quot_div_nonneg by (unfold Millisecond in *; lia).
  assert (Hn : (0 < b / 2)%Z) by (apply Z.div_str_pos; unfold Millisecond in *; lia).
  destruct (Z.leb_spec (b / 2) 0); [lia|].
  rewrite (M_bind_returned _ _ _ (env_rand (w_tick w) `mod` (b / 2))%Z
    (set_tick (S (w_tick w)) w)) by done.
  set (r := (env_rand (w_tick w) `mod` (b / 2))%Z).
  assert (Hr : (0 ≤ r < b / 2)%Z) by (by apply Z.mod_pos_bound).
  pose proof (Z.div_mod b 4 ltac:(lia)). pose proof (Z.mod_pos_bound b 4 ltac:(lia)).
  pose proof (Z.div_mod b 2 ltac:(lia)). pose proof (Z.mod_pos_bound b 2 ltac:(lia)).
  unfold Millisecond, Second in *.
  destruct (Z.ltb_spec (b + (r - b / 4)) 0); [lia|].
  eexists _, _. split; [done|]. split; [done|]. split; [lia|]. split; [lia|done].
Qed.

(** Where an overflowing float conversion gives the least [int64] (amd64), the
    backoff of attempt 38 and later is negative and [rng.Int63n] panics. *)
Theorem sleepWithBackoff_overflow_panics attempt w :
  (∀ z, float_to_int64_overflow z = min_int64) →
  (38 ≤ attempt)%Z →
  sleepWithBackoff attempt w = (Panicked "invalid argument to Int63n", w).
Proof.
  intros Hamd H. unfold sleepWithBackoff, backoff_of.
  rewrite decide_False by by apply backoff_of_overflow. by rewrite Hamd.
Qed.

End ExecTransaction.

(** ** Witnesses *)
Module ExecDemo.

Definition w0 : world := world_of empty_store None.

(** A callback that only fails. *)
Definition failing (tx : nat) : M (result error unit) := mret (Err (EText "boom")).



Lemma ExecTransaction_permanent_error_witness :
  ∃ e', @ExecTransaction fine_env amd64_golib 3 failing w0 =
        (Returned (Err e'), exec (@tx_Rollback fine_env 0)
           (exec (@BeginTx fine_env) (exec (@ctx_Err fine_env) w0))) ∧
        e' = EText "boom".
Proof.
  destruct (@ExecTransaction_permanent_error fine_env amd64_golib failing 3 w0 0
    (EText "boom") (exec (@BeginTx fine_env) (exec (@ctx_Err fine_env) w0))
    eq_refl eq_refl eq_refl eq_refl) as (e' & He & [->|Hu] & _).
  - exists (EText "boom"). split; [exact He|reflexivity].
  - exfalso. vm_compute in He. injection He as <-. discriminate Hu.
Defined.

Lemma sleepWithBackoff_bounds_witness :
  (1 ≤ 5 ≤ 37)%Z ∧ @backoff_of amd64_golib 5 = (1600 * Millisecond)%Z.
Proof.
  split; [lia|].
  destruct (@sleepWithBackoff_bounds fine_env amd64_golib 5 w0 ltac:(lia))
    as (d & w' & _ & _ & _ & _ & H). rewrite H. reflexivity.
Defined.

Lemma sleepWithBackoff_overflow_panics_witness :
  @sleepWithBackoff fine_env amd64_golib 38 w0 =
    (Panicked "invalid argument to Int63n", w0).
Proof.
  apply (@sleepWithBackoff_overflow_panics fine_env amd64_golib 38 w0);
    [reflexivity|lia].
Defined.

End ExecDemo.
