(* ===== verification/Json.v ===== *)
(** * encoding/json: marshalling of dynamic values

    [json.Marshal] on the values the server marshals: strings, integers,
    booleans, nil and maps with string keys, which Go writes in key order. The
    escaping of strings is Go's, HTML characters and invalid UTF-8 included. *)

From stdpp Require Import base gmap strings list numbers pretty sorting.
From Stdlib Require Import ZArith Lia Ascii.
From S2P Require Import Prelude GoStd AppErrors.

Definition char (n : nat) : string := String (ascii_of_nat n) EmptyString.

(** The double quote and the backslash. *)
Definition dq : string := char 34.
Definition bs : string := char 92.

Definition hex_digit (n : nat) : string :=
  char (if n <? 10 then 48 + n else 87 + n).

(** A byte below 128. *)
Definition escape_ascii (c : ascii) : string :=
  let b := byte_val c in
  if (b =? 34) || (b =? 92) then bs +:+ String c ""
  else if b =? 8 then bs +:+ "b"
  else if b =? 12 then bs +:+ "f"
  else if b =? 10 then bs +:+ "n"
  else if b =? 13 then bs +:+ "r"
  else if b =? 9 then bs +:+ "t"
  else if (b <? 32) || (b =? 60) || (b =? 62) || (b =? 38)
  then bs +:+ "u00" +:+ hex_digit (b / 16) +:+ hex_digit (b mod 16)
  else String c "".

Definition byte_in (lo hi : nat) (c : ascii) : bool :=
  (lo <=? byte_val c) && (byte_val c <=? hi).

(** The length of the UTF-8 encoding that starts with byte [c] and goes on with
    [s], 0 when it is invalid; [c] is at least 128. *)
Definition utf8_size (c : ascii) (s : string) : nat :=
  match s with
  | String c1 s1 =>
      if byte_in 194 223 c then if byte_in 128 191 c1 then 2 else 0
      else
        let second :=
          if byte_in 224 224 c then byte_in 160 191 c1
          else if byte_in 237 237 c then byte_in 128 159 c1
          else if byte_in 240 240 c then byte_in 144 191 c1
          else if byte_in 244 244 c then byte_in 128 143 c1
          else byte_in 128 191 c1 in
        match s1 with
        | String c2 s2 =>
            if byte_in 224 239 c then if second && byte_in 128 191 c2 then 3 else 0
            else match s2 with
            | String c3 _ =>
                if byte_in 240 244 c
                then if second && byte_in 128 191 c2 && byte_in 128 191 c3 then 4 else 0
                else 0
            | EmptyString => 0
            end
        | EmptyString => 0
        end
  | EmptyString => 0
  end.

Fixpoint json_escape (s : string) : string :=
  match s with
  | EmptyString => EmptyString
  | String c s' =>
      if byte_val c <? 128 then escape_ascii c +:+ json_escape s'
      else match utf8_size c s', s' with
      | 2, String c1 s1 => String c (String c1 (json_escape s1))
      | 3, String c1 (String c2 s2) =>
          (* U+2028 and U+2029 are escaped *)
          if byte_in 226 226 c && byte_in 128 128 c1 && byte_in 168 169 c2
          then bs +:+ "u202" +:+ hex_digit (byte_val c2 mod 16) +:+ json_escape s2
          else String c (String c1 (String c2 (json_escape s2)))
      | 4, String c1 (String c2 (String c3 s3)) =>
          String c (String c1 (String c2 (String c3 (json_escape s3))))
      | _, _ => bs +:+ "ufffd" +:+ json_escape s'
      end
  end.

Definition json_string (s : string) : string := dq +:+ json_escape s +:+ dq.

Fixpoint join (sep : string) (l : list string) : string :=
  match l with
  | [] => ""
  | [x] => x
  | x :: l' => x +:+ sep +:+ join sep l'
  end.

(** Order of map keys: byte-wise. *)
Definition key_le (p q : string * string) : Prop := String.le p.1 q.1.
#[export] Instance key_le_dec : RelDecision key_le.
Proof. intros p q. unfold key_le. apply _. Defined.

Fixpoint json_encode (v : any) : string :=
  match v with
  | ANil => "null"
  | AStr s => json_string s
  | AInt z => pretty z
  | ABool true => "true"
  | ABool false => "false"
  | AMap m =>
      let members := List.map (λ '(k, v), (k, json_encode v)) m in
      "{" +:+ join "," (List.map (λ '(k, e), json_string k +:+ ":" +:+ e)
                         (merge_sort key_le members)) +:+ "}"
  | AStruct fields =>
      "{" +:+ join "," (List.map (λ '(k, v), json_string k +:+ ":" +:+ json_encode v)
                          fields) +:+ "}"
  end.

(** These values always marshal. *)
Definition json_Marshal (v : any) : result error string := Ok (json_encode v).
