(* ===== verification/Queue.v ===== *)
(** * The Redis stream producer: internal/queue

    queue.go (options, constructor, [Enqueue] and its retry loop) and redis.go
    (client construction and [XLen]), with the depth callback of
    internal/metrics/metrics.go. Redis itself is the script's [env_xadd],
    [env_xlen] and [redis_ParseURL]. *)

From stdpp Require Import base gmap strings list numbers pretty list_numbers.
From Stdlib Require Import ZArith Lia.
From S2P Require Import Prelude GoStd AppErrors Config Assets World Database Json.

Record RedisQueueOptions := {
  qo_QueueName : string; qo_MaxRetries : Z; qo_RetryInterval : Z;
  qo_ConnectionTimeOut : Z; qo_ReadTimeout : Z; qo_WriteTimeout : Z;
  qo_PoolSize : Z; qo_AddTimestamp : bool; qo_AddSource : bool;
  qo_MaxStreamLength : Z; qo_EnableMetrics : bool;
}.

(** [redis.Options] as MustGetRedisClient sets them. *)
Record RedisClient := {
  rc_cfg : RedisConfig; rc_Addr : string; rc_Password : string; rc_DB : Z;
  rc_MinIdleConns : Z;
}.

(** A nil client is None; [rq_m] says whether the queue holds metrics. *)
Record RedisQueue := {
  rq_redis : option RedisClient; rq_options : RedisQueueOptions; rq_m : bool;
}.

(** The defaults NewRedisQueue fills in. *)
Definition normalize_options (o : RedisQueueOptions) : RedisQueueOptions :=
  let pos x d := if (x <=? 0)%Z then d else x in
  {| qo_QueueName := if qo_QueueName o =s "" then "media:jobs" else qo_QueueName o;
     qo_MaxRetries := if (qo_MaxRetries o <? 0)%Z then 3%Z else qo_MaxRetries o;
     qo_RetryInterval := pos (qo_RetryInterval o) (2 * Second)%Z;
     qo_ConnectionTimeOut := pos (qo_ConnectionTimeOut o) (2 * Second)%Z;
     qo_ReadTimeout := pos (qo_ReadTimeout o) (5 * Second)%Z;
     qo_WriteTimeout := pos (qo_WriteTimeout o) (5 * Second)%Z;
     qo_PoolSize := pos (qo_PoolSize o) 10%Z;
     qo_AddTimestamp := qo_AddTimestamp o;
     qo_AddSource := qo_AddSource o;
     qo_MaxStreamLength := pos (qo_MaxStreamLength o) 10000%Z;
     qo_EnableMetrics := qo_EnableMetrics o |}.

Definition NewRedisQueue (client : option RedisClient) (options : RedisQueueOptions)
    (m : bool) : RedisQueue :=
  {| rq_redis := client; rq_options := normalize_options options; rq_m := m |}.

Section Queue.
Context {E : Env}.

(** The error is a [*errors.ConfigError]; without a connection string the
    address, password and database stay at their zero values. *)
Definition MustGetRedisClient (cfg : RedisConfig) : IO (result error RedisClient) :=
  let build addr password db :=
    {| rc_cfg := cfg; rc_Addr := addr; rc_Password := password; rc_DB := db;
       rc_MinIdleConns := 2 |} in
  if negb (redis_ConnectionString cfg =s "") then
    match redis_ParseURL (redis_ConnectionString cfg) with
    | Err err => mret (Err (NewConfigError "invalid redis URL" (Some err)))
    | Ok (addr, password, db) =>
        log LInform "Connecting to Redis using URL";;
        mret (Ok (build addr password db))
    end
  else mret (Ok (build "" "" 0%Z)).

(** [rc.client] of a nil receiver is a nil dereference. *)
Definition XLen (rc : option RedisClient) (stream : string) : M (result error Z) :=
  match rc with
  | None => panic "runtime error: invalid memory address or nil pointer dereference"
  | Some _ => n ← lift next_tick; mret (env_xlen n)
  end.

(** The callback NewRedisQueue registers when it has metrics: observes the
    depth, or returns the error. *)
Definition depth_callback (rq : RedisQueue) : M (result error unit) :=
  r ← XLen (rq_redis rq) (qo_QueueName (rq_options rq));
  match r with
  | Err err => mret (Err err)
  | Ok n => lift (metric_record QueueDepth n []);; mret (Ok tt)
  end.

(** One call of the client's XAdd, which sends XADD once or, when no reply comes,
    again: an entry for every sending that reached Redis. *)
Definition xadd (args : xadd_args) : IO (result error string) :=
  n ← next_tick;
  s ← get_store;
  let append k := put_store (set_stream (s_stream s ++ replicate k args) s) in
  match env_xadd n with
  | Ok id => append (env_xadd_lost n + 1);; mret (Ok id)
  | Err lr =>
      append (env_xadd_lost n + if lr_applied lr then 1 else 0);;
      mret (Err (lr_error lr))
  end.

(** The loop from [attempt] on; the fuel is the number of iterations left. *)
Fixpoint xadd_loop (rq : RedisQueue) (args : xadd_args) (span fuel : nat)
    (attempt : Z) (lastErr : option error) : IO (result error string) :=
  match fuel with
  | O =>
      match lastErr with Some e => span_RecordError span e | None => mret tt end;;
      span_SetStatus span CodeError "All retry attempts exhausted";;
      mret (Err (NewInternalServerError
                   "Failed to add entry to Redis stream after retries" lastErr))
  | S fuel' =>
      span_AddEvent span "Attempting Redis XADD";;
      r ← xadd args;
      match r with
      | Ok id =>
          span_SetStatus span CodeOk "Message added to stream";;
          mret (Ok id)
      | Err err =>
          if errors_Is err (SCtx Canceled) || errors_Is err (SCtx DeadlineExceeded) then
            span_RecordError span err;;
            span_SetStatus span CodeError "Context cancelled or deadline exceeded";;
            mret (Err err)
          else
            span_AddEvent span "Retry attempt failed";;
            when (attempt <? qo_MaxRetries (rq_options rq))%Z
              (let sleepDuration :=
                 mul64 (attempt + 1) (qo_RetryInterval (rq_options rq)) in
               span_AddEvent span "Waiting before retry";;
               time_Sleep sleepDuration);;
            xadd_loop rq args span fuel' (attempt + 1)%Z (Some err)
      end
  end.

Definition doXAddWithRetry (rq : RedisQueue) (args : xadd_args)
    : IO (result error string) :=
  with_span "RedisQueue.doXAddWithRetry" (λ span,
    xadd_loop rq args span (Z.to_nat (qo_MaxRetries (rq_options rq) + 1)) 0 None).

(** The arguments of XADD for a marshalled payload. *)
Definition stream_entry (rq : RedisQueue) (body : string) : xadd_args :=
  let max := qo_MaxStreamLength (rq_options rq) in
  {| xa_Stream := qo_QueueName (rq_options rq);
     xa_Values := [("body", body)];
     xa_ID := "*";
     xa_Approx := (0 <? max)%Z;
     xa_MaxLen := if (0 <? max)%Z then max else 0%Z |}.

Definition Enqueue (rq : RedisQueue) (payload : list (string * any))
    : IO (result error string) :=
  with_span "RedisQueue.Enqueue" (λ span,
    start ← time_Now;
    match rq_redis rq with
    | None =>
        let err := NewInternalServerError "Redis client is not initialized"
                     (Some (EText "nil redis client")) in
        span_RecordError span err;;
        span_SetStatus span CodeError "Redis client not initialized";;
        mret (Err err)
    | Some _ =>
        match json_Marshal (AMap payload) with
        | Err err =>
            span_RecordError span err;;
            span_SetStatus span CodeError "Failed to marshal payload";;
            mret (Err (NewInternalServerError "Failed to marshal payload" (Some err)))
        | Ok body =>
            r ← doXAddWithRetry rq (stream_entry rq body);
            match r with
            | Err err =>
                span_RecordError span err;;
                span_SetStatus span CodeError "Failed to enqueue message";;
                when (rq_m rq) (metric_add QueueMessageFailed 1
                  [("queue.name", AStr (qo_QueueName (rq_options rq)));
                   ("error.type", AStr "publish_failed")]);;
                mret (Err err)
            | Ok id =>
                now ← time_Now;
                let duration := (now - start)%Z in
                let attrs := [("queue.name", AStr (qo_QueueName (rq_options rq)))] in
                when (rq_m rq)
                  (metric_add QueueMessagePublished 1 attrs;;
                   metric_record QueueProcessingLag duration attrs);;
                span_SetStatus span CodeOk "Message enqueued successfully";;
                mret (Ok id)
            end
        end
    end).

(** ** What the loop does to the stream *)

Lemma wp_xadd args (Q : result error string → world → Prop) w :
  (∀ r n w', n ≤ S redis_retries → (is_ok r = true → 1 ≤ n) →
     w_store w' = set_stream (s_stream (w_store w) ++ replicate n args) (w_store w) →
     Q r w') →
  wp (xadd args) Q w.
Proof.
  intros HQ. unfold xadd. io_cbn. pose proof (env_xadd_lost_le (w_tick w)) as Hle.
  destruct (env_xadd (w_tick w)) as [id|[e []]]; cbn; (eapply HQ; [..|reflexivity]);
    first [lia | done | intros; lia].
Qed.

Lemma wp_xadd_loop rq args span fuel : ∀ attempt le w,
  wp (xadd_loop rq args span fuel attempt le)
    (λ r w', ∃ n, n ≤ fuel * S redis_retries ∧ (is_ok r = true → 1 ≤ n) ∧
       w_store w' = set_stream (s_stream (w_store w) ++ replicate n args) (w_store w)) w.
Proof.
  induction fuel as [|fuel IH]; intros attempt le w; cbn [xadd_loop].
  { rewrite !wp_bind. apply wp_keeps; [by destruct le|]. intros _ w1 Hw1.
    rewrite wp_bind. apply wp_keeps; [done|]. intros _ w2 Hw2. rewrite wp_ret. exists 0.
    split_and!; [done|done|]. cbn. rewrite app_nil_r.
    unfold set_stream. rewrite Hw2, Hw1. by destruct (w_store w). }
  rewrite wp_bind. apply wp_keeps; [done|]. intros _ w1 Hw1.
  rewrite wp_bind. apply wp_xadd; rewrite Hw1. intros [id|e] n w2 Hn Hok2 Hw2.
  - rewrite wp_bind. apply wp_keeps; [done|]. intros _ w3 Hw3.
    rewrite wp_ret. exists n. split_and!; [lia|done|]. by rewrite Hw3, Hw2.
  - destruct (_ || _).
    + rewrite wp_bind. apply wp_keeps; [done|]. intros _ w3 Hw3.
      rewrite wp_bind. apply wp_keeps; [done|]. intros _ w4 Hw4.
      rewrite wp_ret. exists n. split_and!; [lia|done|]. by rewrite Hw4, Hw3, Hw2.
    + rewrite wp_bind. apply wp_keeps; [done|]. intros _ w3 Hw3.
      rewrite wp_bind. apply wp_keeps; [by destruct (_ <? _)%Z|]. intros _ w4 Hw4.
      eapply wp_mono; [|apply IH]. intros r w5 (n' & Hn' & Hok & Hw5).
      exists (n + n'). split_and!; [lia|intros ?%Hok; lia|].
      rewrite Hw5, Hw4, Hw3, Hw2. cbn. by rewrite <-app_assoc, replicate_add.
Qed.

(** The sendings of XADD in a call of [Enqueue], at most: go-redis may send the
    command of each attempt 1 + [redis_retries] times. *)
Definition max_copies (rq : RedisQueue) : nat :=
  Z.to_nat (qo_MaxRetries (rq_options rq) + 1) * S redis_retries.

(** The outcome of [Enqueue] on the store: nothing, or copies of the one entry
    made from the payload, at least one if it succeeds. *)
Definition enqueued (rq : RedisQueue) (payload : list (string * any)) (n : nat)
    (s s' : store) : Prop :=
  s' = set_stream (s_stream s ++
         replicate n (stream_entry rq (json_encode (AMap payload)))) s.

Lemma wp_Enqueue rq payload (Q : result error string → world → Prop) w :
  (∀ r n w', n ≤ max_copies rq →
     (rq_redis rq = None → n = 0 ∧ is_ok r = false) → (is_ok r = true → 1 ≤ n) →
     enqueued rq payload n (w_store w) (w_store w') → Q r w') →
  wp (Enqueue rq payload) Q w.
Proof.
  intros HQ. unfold Enqueue, with_span. rewrite wp_bind.
  apply wp_keeps; [done|]. intros span w1 Hw1. rewrite !wp_bind.
  apply wp_keeps; [done|]. intros start w2 Hw2.
  assert (Hkeep : ∀ r (m : IO unit) w', keeps_store m →
    (∀ w'', w_store w'' = w_store w' → Q r w'') →
    wp (m;; mret r) (λ a, wp (span_End span;; mret a) Q) w').
  { intros r m w' Hm H. rewrite wp_bind. apply wp_keeps; [done|].
    intros _ w'' Hw''. rewrite wp_ret, wp_bind. apply wp_keeps; [done|].
    intros _ w3 Hw3. rewrite wp_ret. apply H. by rewrite Hw3, Hw''. }
  destruct (rq_redis rq) as [rc|] eqn:Hrc; cbn [json_Marshal].
  - unfold json_Marshal, doXAddWithRetry, with_span. rewrite !wp_bind.
    apply wp_keeps; [done|]. intros sp w3 Hw3. rewrite !wp_bind.
    eapply wp_mono; [|apply wp_xadd_loop]. intros r w4 (n & Hn & Hok & Hw4).
    rewrite !wp_bind. apply wp_keeps; [done|]. intros _ w5 Hw5. rewrite wp_ret.
    assert (Hend : ∀ w6, w_store w6 = w_store w5 →
      ∀ r', is_ok r' = is_ok r → Q r' w6).
    { intros w6 Hw6 r' Hr'. eapply (HQ r' n); [done|done|by rewrite Hr'|].
      unfold enqueued. by rewrite Hw6, Hw5, Hw4, Hw3, Hw2, Hw1. }
    destruct r as [id|err].
    + rewrite wp_bind. apply wp_keeps; [done|]. intros now w6 Hw6.
      rewrite wp_bind. apply wp_keeps; [by destruct (rq_m rq)|]. intros _ w7 Hw7.
      apply Hkeep; [done|]. intros w8 Hw8. apply Hend; [|done]. by rewrite Hw8, Hw7.
    + rewrite wp_bind. apply wp_keeps; [done|]. intros _ w6 Hw6.
      rewrite wp_bind. apply wp_keeps; [done|]. intros _ w7 Hw7.
      apply Hkeep; [by destruct (rq_m rq)|]. intros w8 Hw8.
      apply Hend; [|done]. by rewrite Hw8, Hw7.
  - rewrite wp_bind. apply wp_keeps; [done|]. intros _ w3 Hw3.
    apply Hkeep; [done|]. intros w4 Hw4. eapply (HQ _ 0); [lia|done|done|].
    unfold enqueued. cbn. rewrite app_nil_r, Hw4, Hw3, Hw2, Hw1.
    by destruct (w_store w).
Qed.

(** When Redis answers, one XADD is enough. *)
Lemma wp_Enqueue_ok {H : Healthy E} rq payload (Q : result error string → world → Prop) w :
  rq_redis rq ≠ None → (0 ≤ qo_MaxRetries (rq_options rq))%Z →
  (∀ id w', enqueued rq payload 1 (w_store w) (w_store w') → Q (Ok id) w') →
  wp (Enqueue rq payload) Q w.
Proof.
  intros Hrc Hmax HQ. unfold Enqueue. apply wp_with_span. intros span w1 Hw1. wp_skip.
  destruct (rq_redis rq) as [rc|]; [|done]. unfold json_Marshal. rewrite wp_bind.
  unfold doXAddWithRetry. apply wp_with_span. intros sp w3 Hw3.
  replace (Z.to_nat _) with (S (Z.to_nat (qo_MaxRetries (rq_options rq)))) by lia.
  cbn [xadd_loop]. wp_skip. rewrite wp_bind. unfold xadd.
  rewrite wp_bind. apply wp_keeps; [done|]. intros n w5 Hw5.
  destruct (healthy_xadd n) as [id Hid]. rewrite Hid, healthy_lost, wp_bind. unfold get_store.
  rewrite wp_run. cbn [run exec fst snd]. rewrite wp_bind, wp_run, wp_ret.
  set (w6 := exec (put_store _) w5).
  assert (Hw6 : w_store w6 = set_stream (s_stream (w_store w5) ++
    [stream_entry rq (json_encode (AMap payload))]) (w_store w5)) by done.
  clearbody w6. do 1 wp_skip. rewrite wp_ret. intros w8 Hw8.
  destruct (rq_m rq); wp_skips; intros; apply (HQ id); unfold enqueued; by rewrite_stores.
Qed.

(** ** Spans *)

Lemma xadd_obs args w : w_obs (exec (xadd args) w) = w_obs w.
Proof. unfold xadd. io_cbn. destruct (env_xadd _) as [|[? []]]; done. Qed.

Lemma ends_spans_xadd args : ends_spans (xadd args).
Proof. apply ends_spans_obs, xadd_obs. Qed.
#[local] Hint Resolve ends_spans_xadd : spans.

Lemma ends_spans_xadd_loop rq args span fuel : ∀ attempt le,
  ends_spans (xadd_loop rq args span fuel attempt le).
Proof. induction fuel; intros attempt le; cbn [xadd_loop]; solve_spans. Qed.
#[local] Hint Resolve ends_spans_xadd_loop : spans.

Lemma ends_spans_Enqueue rq payload : ends_spans (Enqueue rq payload).
Proof. unfold Enqueue, doXAddWithRetry. solve_spans. Qed.

Lemma keeps_resp_xadd_loop rq args span fuel : ∀ attempt le,
  keeps_resp (xadd_loop rq args span fuel attempt le).
Proof. induction fuel; intros attempt le; cbn [xadd_loop]; unfold xadd; solve_resp. Qed.
#[local] Hint Resolve keeps_resp_xadd_loop : resp.

Lemma keeps_resp_Enqueue rq payload : keeps_resp (Enqueue rq payload).
Proof. unfold Enqueue, doXAddWithRetry. solve_resp. Qed.

(** ** The retry schedule *)

Definition sleeps (l : list event) : list Z :=
  omap (λ e, match e with EvSleep d => Some d | _ => None end) l.

(** The attempts noted in a trace. *)
Definition attempts (l : list event) : list nat :=
  omap (λ e, match e with
    | EvSpanEvent sp name => if name =s "Attempting Redis XADD" then Some sp else None
    | _ => None end) l.

(** The waits before the retries [from], [from]+1, ... *)
Definition schedule (rq : RedisQueue) (from : Z) (k : nat) : list Z :=
  (λ i, mul64 i (qo_RetryInterval (rq_options rq))) <$> seqZ from (Z.of_nat k).

(** The context errors the loop does not retry. *)
Definition is_ctx (e : error) : bool :=
  errors_Is e (SCtx Canceled) || errors_Is e (SCtx DeadlineExceeded).

Lemma sleeps_app l1 l2 : sleeps (l1 ++ l2) = sleeps l1 ++ sleeps l2.
Proof. apply omap_app. Qed.
Lemma attempts_app l1 l2 : attempts (l1 ++ l2) = attempts l1 ++ attempts l2.
Proof. apply omap_app. Qed.

Lemma schedule_S rq from k :
  schedule rq from (S k) =
  mul64 from (qo_RetryInterval (rq_options rq)) :: schedule rq (from + 1) k.
Proof.
  unfold schedule. rewrite seqZ_cons by lia.
  replace (Z.succ from) with (from + 1)%Z by lia.
  by replace (Z.pred (Z.of_nat (S k))) with (Z.of_nat k) by lia.
Qed.

(** The trace of the loop: one attempt more than there are waits, the waits
    follow the schedule, and an error that is not a context error comes only
    after the last attempt. *)
Lemma xadd_loop_schedule rq args span fuel : ∀ attempt le w,
  let m := xadd_loop rq args span fuel attempt le in
  fuel = Z.to_nat (qo_MaxRetries (rq_options rq) - attempt + 1) →
  (attempt ≤ qo_MaxRetries (rq_options rq))%Z →
  ∃ new k, o_trace (w_obs (exec m w)) = new ++ o_trace (w_obs w) ∧ k < fuel ∧
    reverse (sleeps new) = schedule rq (attempt + 1) k ∧
    length (attempts new) = S k ∧
    (∀ e, run m w = Err e → is_ctx e = false → S k = fuel).
Proof.
  induction fuel as [|fuel IH]; intros attempt le w m Hf Ha; [lia|]. subst m.
  cbn [xadd_loop]. rewrite !exec_bind, !run_bind.
  set (w1 := exec (span_AddEvent span "Attempting Redis XADD") w).
  set (w2 := exec (xadd args) w1).
  assert (Hw2 : o_trace (w_obs w2) =
    EvSpanEvent span "Attempting Redis XADD" :: o_trace (w_obs w)).
  { unfold w2. by rewrite xadd_obs. }
  destruct (run (xadd args) w1) as [id|err].
  { exists [EvSpanStatus span CodeOk "Message added to stream";
            EvSpanEvent span "Attempting Redis XADD"], 0.
    rewrite exec_bind, exec_ret. cbn. rewrite Hw2. split_and!; [done|lia|done|done|done]. }
  fold (is_ctx err). destruct (is_ctx err) eqn:Hctx.
  { exists [EvSpanStatus span CodeError "Context cancelled or deadline exceeded";
            EvSpanError span err; EvSpanEvent span "Attempting Redis XADD"], 0.
    rewrite !exec_bind, !run_bind, exec_ret. cbn. rewrite Hw2.
    split_and!; [done|lia|done|done|]. intros e [= <-]. by rewrite Hctx. }
  rewrite !exec_bind, !run_bind.
  destruct (Z.ltb_spec attempt (qo_MaxRetries (rq_options rq))) as [Hlt|Hge]; cbn [when].
  - rewrite exec_bind. set (d := mul64 _ _).
    set (w3 := exec (time_Sleep d) _).
    set (waited := [EvSleep d; EvSpanEvent span "Waiting before retry";
      EvSpanEvent span "Retry attempt failed";
      EvSpanEvent span "Attempting Redis XADD"]).
    assert (Hw3 : o_trace (w_obs w3) = waited ++ o_trace (w_obs w)).
    { unfold w3. cbn. by rewrite Hw2. }
    clearbody w3.
    destruct (IH (attempt + 1)%Z (Some err) w3) as (new & k & Ht & Hk & Hs & Hat & He);
      [lia|lia|].
    exists (new ++ waited), (S k).
    rewrite Ht, Hw3, <-app_assoc. split_and!; [done|lia| | |].
    + rewrite sleeps_app, reverse_app, Hs, schedule_S. done.
    + rewrite attempts_app, length_app, Hat. cbn. lia.
    + intros e Hrun Hc. f_equal. by eapply He.
  - replace fuel with 0 by lia. cbn [xadd_loop].
    exists [EvSpanStatus span CodeError "All retry attempts exhausted";
      EvSpanError span err; EvSpanEvent span "Retry attempt failed";
      EvSpanEvent span "Attempting Redis XADD"], 0.
    rewrite !exec_bind, exec_ret. cbn. rewrite Hw2.
    split_and!; [done|lia|done|done|done].
Qed.

(** ** When the loop gets through *)

Lemma xadd_loop_reaches rq args span id : ∀ k fuel attempt le w,
  (∀ i, i < k → ∃ lr, env_xadd (w_tick w + i) = Err lr ∧ is_ctx (lr_error lr) = false) →
  env_xadd (w_tick w + k) = Ok id → k < fuel →
  run (xadd_loop rq args span fuel attempt le) w = Ok id.
Proof.
  induction k as [|k IH]; intros [|fuel] attempt le w Hbad Hok Hk; [lia| |lia|];
    cbn [xadd_loop]; rewrite run_bind; set (w1 := exec (span_AddEvent _ _) w);
    change (w_tick w) with (w_tick w1) in *; clearbody w1.
  - rewrite Nat.add_0_r in Hok. rewrite run_bind.
    replace (run (xadd args) w1) with (Ok (E := error) id); [done|].
    unfold xadd. io_cbn. by rewrite Hok.
  - destruct (Hbad 0) as (lr & Hlr & Hc); [lia|]. rewrite Nat.add_0_r in Hlr.
    rewrite run_bind. set (w2 := exec (xadd args) w1).
    assert (Hr : run (xadd args) w1 = Err (lr_error lr) ∧ w_tick w2 = S (w_tick w1)).
    { unfold w2, xadd. io_cbn. rewrite Hlr. by destruct (lr_applied lr). }
    destruct Hr as [-> Ht]. fold (is_ctx (lr_error lr)). rewrite Hc.
    rewrite !run_bind. set (w3 := exec (when _ _) _).
    assert (Ht3 : w_tick w3 = S (w_tick w1)).
    { unfold w3. rewrite <-Ht. by destruct (_ <? _)%Z. }
    apply IH; [intros i Hi| |lia].
    + destruct (Hbad (S i)) as (lr' & Hlr' & Hc'); [lia|]. exists lr'.
      rewrite Ht3. by replace (S (w_tick w1) + i) with (w_tick w1 + S i) by lia.
    + rewrite Ht3. by replace (S (w_tick w1) + k) with (w_tick w1 + S k) by lia.
Qed.

(** C18: [Enqueue] delivers at least once or reports an error. Whatever Redis
    answers, it leaves the database alone and appends n copies of the single
    entry built from the payload, at least 1 when it returns an identifier, 0
    (with an error) when the queue has no client, and at most one for each of the
    MaxRetries + 1 attempts and each of the 1 + [redis_retries] times that
    go-redis, left at its default, may send the command of an attempt; a lost
    reply makes n larger than 1, or positive with an error. *)
Theorem Enqueue_delivery rq payload w :
  ∃ n, n ≤ Z.to_nat (qo_MaxRetries (rq_options rq) + 1) * S redis_retries ∧
    enqueued rq payload n (w_store w) (w_store (exec (Enqueue rq payload) w)) ∧
    (is_ok (run (Enqueue rq payload) w) = true → 1 ≤ n) ∧
    (rq_redis rq = None → n = 0 ∧ is_ok (run (Enqueue rq payload) w) = false).
Proof.
  enough (wp (Enqueue rq payload) (λ r w', ∃ n,
    n ≤ max_copies rq ∧
    enqueued rq payload n (w_store w) (w_store w') ∧ (is_ok r = true → 1 ≤ n) ∧
    (rq_redis rq = None → n = 0 ∧ is_ok r = false)) w) by done.
  apply wp_Enqueue. eauto 10.
Qed.

(** C24: the retry schedule of a queue built by [NewRedisQueue], with whatever
    options. A call makes one attempt more than it waits, waits at most
    MaxRetries times, the i-th time for i * RetryInterval (as an int64), and
    gives up before the last attempt only on a context error, which includes
    the time-out of the attempt itself. *)
Theorem Enqueue_retry_schedule client opts m args w :
  let rq := NewRedisQueue client opts m in
  let max := Z.to_nat (qo_MaxRetries (rq_options rq)) in
  ∃ new k, o_trace (w_obs (exec (doXAddWithRetry rq args) w)) = new ++ o_trace (w_obs w) ∧
    k ≤ max ∧ reverse (sleeps new) = schedule rq 1 k ∧
    length (attempts new) = S k ∧
    (∀ e, run (doXAddWithRetry rq args) w = Err e → is_ctx e = false → k = max).
Proof.
  intros rq max.
  assert (Hmax : (0 ≤ qo_MaxRetries (rq_options rq))%Z).
  { cbn. destruct (Z.ltb_spec (qo_MaxRetries opts) 0); lia. }
  unfold doXAddWithRetry, with_span. rewrite !exec_bind, !run_bind, exec_ret.
  set (w1 := exec (tracer_Start _) w). set (sp := run (tracer_Start _) w).
  destruct (xadd_loop_schedule rq args sp (Z.to_nat (qo_MaxRetries (rq_options rq) + 1))
    0 None w1) as (new & k & Ht & Hk & Hs & Ha & He); [f_equal; lia|lia|].
  exists (EvSpanEnd sp :: new ++ [EvSpanStart sp "RedisQueue.doXAddWithRetry"]), k.
  split_and!.
  - change (o_trace (w_obs (exec (span_End sp) (exec ?p w1))))
      with (EvSpanEnd sp :: o_trace (w_obs (exec p w1))).
    rewrite Ht. cbn. by rewrite <-app_assoc.
  - lia.
  - cbn. rewrite sleeps_app. cbn. by rewrite app_nil_r.
  - cbn. rewrite attempts_app. cbn. by rewrite app_nil_r.
  - intros e Hrun Hc. apply He in Hrun; [lia|done].
Qed.

(** C21: [Enqueue] rides out transient failures: when the first k XADDs fail
    with errors that are not context errors and the next one succeeds, with k at
    most MaxRetries, it returns the identifier of that one. *)
Theorem Enqueue_outlasts_failures rq payload w k id :
  rq_redis rq ≠ None →
  k ≤ Z.to_nat (qo_MaxRetries (rq_options rq)) →
  (0 ≤ qo_MaxRetries (rq_options rq))%Z →
  (∀ i, i < k →
     ∃ lr, env_xadd (w_tick w + 1 + i) = Err lr ∧ is_ctx (lr_error lr) = false) →
  env_xadd (w_tick w + 1 + k) = Ok id →
  run (Enqueue rq payload) w = Ok id.
Proof.
  intros Hrc Hk Hpos Hbad Hok. unfold Enqueue, with_span. rewrite !run_bind.
  destruct (rq_redis rq) as [rc|]; [|done].
  unfold json_Marshal, doXAddWithRetry, with_span. rewrite !run_bind.
  set (w1 := exec (tracer_Start _) (exec time_Now _)).
  assert (Ht : w_tick w1 = w_tick w + 1) by (rewrite Nat.add_1_r; done).
  rewrite (xadd_loop_reaches _ _ _ id k); [|by rewrite Ht|by rewrite Ht|lia].
  by destruct (rq_m rq).
Qed.

End Queue.
#[export] Hint Resolve ends_spans_Enqueue : spans.
#[export] Hint Resolve keeps_resp_Enqueue : resp.

Module QueueDemo.

Definition opts (retries : Z) : RedisQueueOptions := {|
  qo_QueueName := ""; qo_MaxRetries := retries; qo_RetryInterval := 0;
  qo_ConnectionTimeOut := 0; qo_ReadTimeout := 0; qo_WriteTimeout := 0; qo_PoolSize := 0;
  qo_AddTimestamp := true; qo_AddSource := true; qo_MaxStreamLength := 0;
  qo_EnableMetrics := true |}.

Definition client : RedisClient := {|
  rc_cfg := {| redis_ConnectionString := "redis://localhost:6379/0"; redis_PoolSize := 10;
    redis_ConnectTimeout := 5 * Second; redis_ReadTimeout := 5 * Second;
    redis_WriteTimeout := 5 * Second |};
  rc_Addr := "localhost:6379"; rc_Password := ""; rc_DB := 0; rc_MinIdleConns := 2 |}.

(** Redis refuses the calls made at ticks 1 and 2. *)
Definition flaky : Env :=
  script_env (λ _, None) (λ _, None) (λ _, None) (λ _, None)
    (λ n, if n <? 3 then Err {| lr_error := EText "EOF"; lr_applied := true |}
          else Ok "7-0") (λ _, None).

Definition rq : RedisQueue := NewRedisQueue (Some client) (opts (-1)) true.
Definition payload : list (string * any) := [("job_id", AInt 7)].

(** As [flaky], with no reply to three sendings of the last call that Redis
    executed all the same. *)
Definition flakier : Env :=
  script_env_lost (λ _, None) (λ _, None) (λ _, None) (λ _, None)
    (λ n, if n <? 3 then Err {| lr_error := EText "EOF"; lr_applied := true |}
          else Ok "7-0") (λ n, if n <? 3 then 0 else 3) (λ _, None).

(** Two lost replies: three copies of the entry are in the stream. *)
Example three_copies :
  length (s_stream (w_store (exec (Enqueue (E := flaky) rq payload)
            (world_of empty_store None)))) = 3.
Proof. reflexivity. Qed.

(** With go-redis's own retries there can be more copies than attempts. *)
Example six_copies :
  qo_MaxRetries (rq_options rq) = 3%Z ∧
  length (s_stream (w_store (exec (Enqueue (E := flakier) rq payload)
            (world_of empty_store None)))) = 6.
Proof. split; reflexivity. Qed.

Lemma Enqueue_outlasts_failures_witness :
  run (Enqueue (E := flaky) rq payload) (world_of empty_store None) = Ok "7-0".
Proof.
  apply (Enqueue_outlasts_failures (E := flaky) rq payload
           (world_of empty_store None) 2 "7-0").
  - discriminate.
  - by vm_compute; repeat constructor.
  - vm_compute. discriminate.
  - intros i Hi. exists {| lr_error := EText "EOF"; lr_applied := true |}.
    destruct i as [|[|i]]; [split; reflexivity|split; reflexivity|exfalso; lia].
  - reflexivity.
Defined.

End QueueDemo.
