(* ===== verification/Storage.v ===== *)
(** * Object storage: pkg/utils/storagex

    The [StorageX] interface as a record of operations with its laws, its two
    implementations (Google Cloud Storage, and S3 or MinIO), and the factory
    [New]. The SDKs of the providers are the class [Cloud]; a reader is the bytes
    it yields. *)

From stdpp Require Import base gmap strings list numbers pretty.
From Stdlib Require Import ZArith Lia Ascii.
From S2P Require Import Prelude GoStd AppErrors Config Assets World.

(** ** config.go and storagex.go *)

Definition Provider := string.
Definition GCPProvider : Provider := "gcp".
Definition GCSProvider : Provider := "gcs".
Definition S3Provider : Provider := "s3".
Definition MinIOProvider : Provider := "minio".

(** The fields nobody reads (project, private key path) are kept. *)
Record sx_Config := {
  sx_Provider : Provider; sx_Region : string; sx_Endpoint : string; sx_Bucket : string;
  sx_AccessKeyID : string; sx_SecretAccessKey : string; sx_SessionToken : string;
  sx_GCPProjectID : string; sx_GCPServiceAccount : string; sx_GCPPrivateKeyPath : string;
}.

(** A nil metadata map is None. *)
Record PutOptions := {
  po_Metadata : option (gmap string string); po_ContentType : string;
}.

Record PresignedURLOptions := {
  pu_ContentType : string; pu_ExpiresInSeconds : Z; pu_Method : string;
}.

(** [&PresignedURLOptions{}] *)
Definition zero_presign : PresignedURLOptions :=
  {| pu_ContentType := ""; pu_ExpiresInSeconds := 0; pu_Method := "" |}.

Record ObjectAttrs := { oa_Size : Z; oa_ContentType : string; oa_ETag : string }.

(** The interface; durations are nanoseconds. *)
Record StorageX := {
  PutObject : string → string → string → option PutOptions → IO (result error unit);
  GetObject : string → string → IO (result error string);
  GetObjectAttrs : string → string → IO (result error ObjectAttrs);
  GeneratePresignedURL : string → string → option PresignedURLOptions →
    IO (result error string);
  PublicURL : string → string → IO (result error string);
  DeleteObject : string → string → IO (result error unit);
  recordOperationMetrics : string → bool → Z → IO unit;
}.

(** What the service relies on: an object store is neither the database nor the
    queue nor the response, its operations end their spans, and a public URL always exists and
    tells the keys of a bucket apart. *)
Class StorageLaws (s : StorageX) : Prop := {
  put_keeps b k d o : keeps_store (PutObject s b k d o);
  get_keeps b k : keeps_store (GetObject s b k);
  attrs_keeps b k : keeps_store (GetObjectAttrs s b k);
  presign_keeps b k o : keeps_store (GeneratePresignedURL s b k o);
  public_keeps b k : keeps_store (PublicURL s b k);
  delete_keeps b k : keeps_store (DeleteObject s b k);
  put_spans b k d o : ends_spans (PutObject s b k d o);
  get_spans b k : ends_spans (GetObject s b k);
  attrs_spans b k : ends_spans (GetObjectAttrs s b k);
  presign_spans b k o : ends_spans (GeneratePresignedURL s b k o);
  public_spans b k : ends_spans (PublicURL s b k);
  delete_spans b k : ends_spans (DeleteObject s b k);
  put_resp b k d o : keeps_resp (PutObject s b k d o);
  get_resp b k : keeps_resp (GetObject s b k);
  attrs_resp b k : keeps_resp (GetObjectAttrs s b k);
  presign_resp b k o : keeps_resp (GeneratePresignedURL s b k o);
  public_resp b k : keeps_resp (PublicURL s b k);
  delete_resp b k : keeps_resp (DeleteObject s b k);
  public_total b k : ∃ url, ∀ w, run (PublicURL s b k) w = Ok url;
  public_inj b k k' w : run (PublicURL s b k) w = run (PublicURL s b k') w → k = k';
}.

#[export] Hint Resolve put_keeps get_keeps attrs_keeps presign_keeps public_keeps
  delete_keeps : store.
#[export] Hint Resolve put_spans get_spans attrs_spans presign_spans public_spans
  delete_spans : spans.
#[export] Hint Resolve put_resp get_resp attrs_resp presign_resp public_resp
  delete_resp : resp.

(** ** The SDKs *)

(** [storage.SignedURLOptions] with the V4 scheme. *)
Record SignedURLOptions := {
  su_GoogleAccessID : string; su_PrivateKey : string; su_Method : string;
  su_Expires : Z; su_ContentType : string;
}.

(** What an S3 client is built from: region, static credentials if any (key,
    secret, token), and the base endpoint with path-style addressing if set. *)
Record s3_client := {
  sc_region : string; sc_credentials : option (string * string * string);
  sc_BaseEndpoint : option string; sc_UsePathStyle : bool;
}.

(** [s3.PutObjectInput]; the body is separate. *)
Record PutObjectInput := {
  pi_Bucket : string; pi_Key : string; pi_ContentType : option string;
  pi_Metadata : option (gmap string string);
}.

(** [s3.HeadObjectOutput]: optional fields are pointers. *)
Record HeadObjectOutput := {
  ho_ContentLength : option Z; ho_ContentType : option string; ho_ETag : option string;
}.

(** Replies are indexed by the call, as in [Env]. Credentials are files. *)
Class Cloud := {
  gcs_NewClient : string → result error unit;
  os_ReadFile : string → result error string;
  json_ServiceAccount : string → result error (string * string);
  (** bucket, key, the writer's content type and metadata, and the data *)
  gcs_Copy : nat → string → string → string → option (gmap string string) → string →
    option error;
  gcs_Close : nat → option error;
  gcs_NewReader : nat → string → string → result error string;
  (** size, content type and etag *)
  gcs_Attrs : nat → string → string → result error (Z * string * string);
  gcs_Delete : nat → string → string → option error;
  gcs_SignedURL : nat → string → string → SignedURLOptions → result error string;
  aws_LoadDefaultConfig : string → option (string * string * string) → option error;
  s3_PutObject : nat → s3_client → PutObjectInput → string → option error;
  s3_GetObject : nat → s3_client → string → string → result error string;
  s3_HeadObject : nat → s3_client → string → string → result error HeadObjectOutput;
  s3_DeleteObject : nat → s3_client → string → string → option error;
  (** the presigned request's URL, if any, and the error *)
  s3_PresignPutObject : nat → s3_client → PutObjectInput → Z → option string * option error;
  s3_PresignGetObject : nat → s3_client → string → string → Z →
    option string * option error;
}.

(** How long a presigned URL is valid: seconds as a [time.Duration], 15 minutes
    if that is zero. *)
Definition expires_in (secs : Z) : Z :=
  let expiresIn := mul64 secs Second in
  if (expiresIn =? 0)%Z then (15 * Minute)%Z else expiresIn.

Definition from_option_error (e : option error) : result error unit :=
  match e with Some err => Err err | None => Ok tt end.

(** Both implementations' recordOperationMetrics, by provider. *)
Definition record_operation (m : bool) (provider operation : string) (success : bool)
    (duration : Z) : IO unit :=
  if negb m then mret tt
  else
    let status := if success then "success" else "error" in
    let attrs := [("storage.operation", AStr operation);
                  ("storage.provider", AStr provider);
                  ("storage.status", AStr status)] in
    (if success then metric_add StorageOperationTotal 1 attrs
     else metric_add StorageOperationErrors 1 attrs);;
    metric_record StorageOperationDuration duration attrs.

(** The end of an operation whose only failure is the SDK's error [r]. *)
Definition finish_span {A} (span : nat) (bad good : string) (r : result error A)
    : IO (result error A) :=
  match r with
  | Err err =>
      span_RecordError span err;;
      span_SetStatus span CodeError bad;;
      mret (Err err)
  | Ok a => span_SetStatus span CodeOk good;; mret (Ok a)
  end.

Section Storage.
Context {E : Env} {L : GoLib} {K : Cloud}.

(** ** Google Cloud Storage: gcs.go *)

Record gcsStorage := {
  gs_secretAccessID : string; gs_privateKey : string; gs_m : bool;
}.

Definition gcs_recordOperationMetrics (g : gcsStorage) : string → bool → Z → IO unit :=
  record_operation (gs_m g) "gcs".

Definition gcs_PutObject (g : gcsStorage) (bucket key data : string)
    (options : option PutOptions) : IO (result error unit) :=
  with_span "GCS.PutObject" (λ span,
    start ← time_Now;
    let fail err msg :=
      span_RecordError span err;;
      span_SetStatus span CodeError msg;;
      now ← time_Now;
      gcs_recordOperationMetrics g "put" false (now - start)%Z;;
      mret (Err err) in
    let ContentType := default "" (po_ContentType <$> options) in
    let Metadata := o ← options; po_Metadata o in
    n ← next_tick;
    match gcs_Copy n bucket key ContentType Metadata data with
    | Some err => fail err "Failed to write object data"
    | None =>
        c ← next_tick;
        match gcs_Close c with
        | Some err => fail err "Failed to close writer"
        | None =>
            now ← time_Now;
            gcs_recordOperationMetrics g "put" true (now - start)%Z;;
            span_SetStatus span CodeOk "Object uploaded successfully";;
            mret (Ok tt)
        end
    end).

Definition gcs_GetObject (g : gcsStorage) (bucket key : string)
    : IO (result error string) :=
  with_span "GCS.GetObject" (λ span,
    n ← next_tick;
    finish_span span "Failed to get object" "Object reader created"
      (gcs_NewReader n bucket key)).

Definition gcs_GetObjectAttrs (g : gcsStorage) (bucket key : string)
    : IO (result error ObjectAttrs) :=
  with_span "GCS.GetObjectAttrs" (λ span,
    n ← next_tick;
    finish_span span "Failed to get object attributes" "Object attributes retrieved"
      (result_map (λ '(size, contentType, etag),
           {| oa_Size := size; oa_ContentType := contentType; oa_ETag := etag |})
         (gcs_Attrs n bucket key))).

Definition gcs_GeneratePresignedURL (g : gcsStorage) (bucket key : string)
    (options : option PresignedURLOptions) : IO (result error string) :=
  with_span "GCS.GeneratePresignedURL" (λ span,
    let options := default zero_presign options in
    if (gs_secretAccessID g =s "") || (String.length (gs_privateKey g) =? 0) then
      let err := NewInternalServerError "GCS signing credentials are not configured"
                   (Some (EText "missing GCS signing credentials")) in
      span_RecordError span err;;
      span_SetStatus span CodeError "Missing GCS signing credentials";;
      mret (Err err)
    else
      now ← time_Now;
      log LDebug "Generating signed URL";;
      n ← next_tick;
      let signedOpts :=
        {| su_GoogleAccessID := gs_secretAccessID g; su_PrivateKey := gs_privateKey g;
           su_Method := pu_Method options;
           su_Expires := (now + expires_in (pu_ExpiresInSeconds options))%Z;
           su_ContentType := pu_ContentType options |} in
      match gcs_SignedURL n bucket key signedOpts with
      | Err err =>
          span_RecordError span err;;
          span_SetStatus span CodeError "Failed to generate signed URL";;
          mret (Err (NewInternalServerError "Failed to generate signed URL" (Some err)))
      | Ok url =>
          span_SetStatus span CodeOk "Presigned URL generated";;
          mret (Ok url)
      end).

Definition gcs_PublicURL (g : gcsStorage) (bucket key : string)
    : IO (result error string) :=
  with_span "GCS.PublicURL" (λ span,
    let url := "https://storage.googleapis.com/" +:+ bucket +:+ "/" +:+ key in
    span_SetStatus span CodeOk "Public URL generated";;
    mret (Ok url)).

Definition gcs_DeleteObject (g : gcsStorage) (bucket key : string)
    : IO (result error unit) :=
  with_span "GCS.DeleteObject" (λ span,
    n ← next_tick;
    finish_span span "Failed to delete object" "Object deleted successfully"
      (from_option_error (gcs_Delete n bucket key))).

Definition gcs_StorageX (g : gcsStorage) : StorageX := {|
  PutObject := gcs_PutObject g;
  GetObject := gcs_GetObject g;
  GetObjectAttrs := gcs_GetObjectAttrs g;
  GeneratePresignedURL := gcs_GeneratePresignedURL g;
  PublicURL := gcs_PublicURL g;
  DeleteObject := gcs_DeleteObject g;
  recordOperationMetrics := gcs_recordOperationMetrics g;
|}.

Definition NewGCSStorageFromServiceAccountJSON (path : string) (m : bool)
    : result error StorageX :=
  match gcs_NewClient path with
  | Err err => Err err
  | Ok _ =>
      match os_ReadFile path with
      | Err err => Err err
      | Ok data =>
          match json_ServiceAccount data with
          | Err err => Err err
          | Ok (secretAccessID, privateKey) =>
              if (secretAccessID =s "") || (String.length privateKey =? 0) then
                Err (NewInternalServerError "Invalid service account JSON"
                       (Some (EText "missing client_email or private_key")))
              else
                Ok (gcs_StorageX {| gs_secretAccessID := secretAccessID;
                                    gs_privateKey := privateKey; gs_m := m |})
          end
      end
  end.

(** ** S3 and MinIO: s3.go *)

Record s3Storage := {
  ss_client : s3_client; ss_region : string; ss_endpoint : string; ss_m : bool;
}.

Definition s3_recordOperationMetrics (s : s3Storage) : string → bool → Z → IO unit :=
  record_operation (ss_m s) "s3".

(** A non-empty string as an optional field. *)
Definition opt_string (s : string) : option string :=
  if s =s "" then None else Some s.

Definition s3Storage_PutObject (s : s3Storage) (bucket key data : string)
    (options : option PutOptions) : IO (result error unit) :=
  with_span "S3.PutObject" (λ span,
    start ← time_Now;
    let inp := {| pi_Bucket := bucket; pi_Key := key;
                  pi_ContentType := o ← options; opt_string (po_ContentType o);
                  pi_Metadata := o ← options; po_Metadata o |} in
    n ← next_tick;
    match s3_PutObject n (ss_client s) inp data with
    | Some err =>
        span_RecordError span err;;
        span_SetStatus span CodeError "Failed to put object";;
        now ← time_Now;
        s3_recordOperationMetrics s "put" false (now - start)%Z;;
        mret (Err err)
    | None =>
        now ← time_Now;
        s3_recordOperationMetrics s "put" true (now - start)%Z;;
        span_SetStatus span CodeOk "Object uploaded successfully";;
        mret (Ok tt)
    end).

Definition s3Storage_GetObject (s : s3Storage) (bucket key : string)
    : IO (result error string) :=
  with_span "S3.GetObject" (λ span,
    n ← next_tick;
    finish_span span "Failed to get object" "Object reader created"
      (s3_GetObject n (ss_client s) bucket key)).

(** Absent fields of the reply become zero values. *)
Definition s3Storage_GetObjectAttrs (s : s3Storage) (bucket key : string)
    : IO (result error ObjectAttrs) :=
  with_span "S3.GetObjectAttrs" (λ span,
    n ← next_tick;
    finish_span span "Failed to get object attributes" "Object attributes retrieved"
      (result_map (λ head, {| oa_Size := default 0%Z (ho_ContentLength head);
                              oa_ContentType := default "" (ho_ContentType head);
                              oa_ETag := default "" (ho_ETag head) |})
         (s3_HeadObject n (ss_client s) bucket key))).

(** The unsupported method returns before the span gets a status. *)
Definition s3Storage_GeneratePresignedURL (s : s3Storage) (bucket key : string)
    (options : option PresignedURLOptions) : IO (result error string) :=
  with_span "S3.GeneratePresignedURL" (λ span,
    let options := default zero_presign options in
    let expiresIn := expires_in (pu_ExpiresInSeconds options) in
    let finish (req : option string * option error) :=
      let '(url, err) := req in
      match err with
      | Some err =>
          span_RecordError span err;;
          span_SetStatus span CodeError "Failed to generate presigned URL";;
          mret (Err (NewInternalServerError "Failed to generate presigned URL" (Some err)))
      | None =>
          span_SetStatus span CodeOk "Presigned URL generated";;
          mret (Ok (default "" url))
      end in
    let method := strings_ToUpper (pu_Method options) in
    if (method =s "") || (method =s "PUT") then
      n ← next_tick;
      finish (s3_PresignPutObject n (ss_client s)
        {| pi_Bucket := bucket; pi_Key := key;
           pi_ContentType := opt_string (pu_ContentType options);
           pi_Metadata := None |} expiresIn)
    else if method =s "GET" then
      n ← next_tick;
      finish (s3_PresignGetObject n (ss_client s) bucket key expiresIn)
    else
      mret (Err (NewInternalServerError "Unsupported presign method"
        (Some (EText ("method " +:+ strconv_Quote (pu_Method options))))))).

Definition s3_url (s : s3Storage) (bucket key : string) : string :=
  if negb (ss_endpoint s =s "") then
    strings_TrimRight (ss_endpoint s) "/" +:+ "/" +:+ bucket +:+ "/" +:+ key
  else "https://" +:+ bucket +:+ ".s3." +:+ ss_region s +:+ ".amazonaws.com/" +:+ key.

Definition s3Storage_PublicURL (s : s3Storage) (bucket key : string)
    : IO (result error string) :=
  with_span "S3.PublicURL" (λ span,
    span_SetStatus span CodeOk "Public URL generated";;
    mret (Ok (s3_url s bucket key))).

Definition s3Storage_DeleteObject (s : s3Storage) (bucket key : string)
    : IO (result error unit) :=
  with_span "S3.DeleteObject" (λ span,
    n ← next_tick;
    finish_span span "Failed to delete object" "Object deleted successfully"
      (from_option_error (s3_DeleteObject n (ss_client s) bucket key))).

Definition s3_StorageX (s : s3Storage) : StorageX := {|
  PutObject := s3Storage_PutObject s;
  GetObject := s3Storage_GetObject s;
  GetObjectAttrs := s3Storage_GetObjectAttrs s;
  GeneratePresignedURL := s3Storage_GeneratePresignedURL s;
  PublicURL := s3Storage_PublicURL s;
  DeleteObject := s3Storage_DeleteObject s;
  recordOperationMetrics := s3_recordOperationMetrics s;
|}.

Definition NewS3Storage (cfg : sx_Config) (m : bool) : result error s3Storage :=
  let region := if sx_Region cfg =s "" then "us-east-1" else sx_Region cfg in
  let creds :=
    if negb (sx_AccessKeyID cfg =s "")
    then Some (sx_AccessKeyID cfg, sx_SecretAccessKey cfg, sx_SessionToken cfg)
    else None in
  match aws_LoadDefaultConfig region creds with
  | Some err => Err (NewInternalServerError "Failed to load AWS config" (Some err))
  | None =>
      Ok {| ss_client := {| sc_region := region; sc_credentials := creds;
              sc_BaseEndpoint := opt_string (sx_Endpoint cfg);
              sc_UsePathStyle := negb (sx_Endpoint cfg =s "") |};
            ss_region := region; ss_endpoint := sx_Endpoint cfg; ss_m := m |}
  end.

(** ** factory.go *)

Definition New (cfg : sx_Config) (m : bool) : result error StorageX :=
  let p := strings_ToLower (sx_Provider cfg) in
  if (p =s GCSProvider) || (p =s GCPProvider) then
    if sx_GCPServiceAccount cfg =s "" then
      Err (EText "GCS service account path (GCS_SA_PATH) is not set")
    else NewGCSStorageFromServiceAccountJSON (sx_GCPServiceAccount cfg) m
  else if (p =s S3Provider) || (p =s MinIOProvider) then
    result_map s3_StorageX (NewS3Storage cfg m)
  else Err (EText ("unknown storage provider: " +:+ strconv_Quote (sx_Provider cfg))).

(** ** The implementations keep the laws *)

Lemma keeps_store_record m p o b d : keeps_store (record_operation m p o b d).
Proof. by destruct m, b. Qed.
Lemma ends_spans_record m p o b d : ends_spans (record_operation m p o b d).
Proof. unfold record_operation. solve_spans. Qed.
Lemma keeps_store_finish {A} sp bad good (r : result error A) :
  keeps_store (finish_span sp bad good r).
Proof. by destruct r. Qed.
Lemma ends_spans_finish {A} sp bad good (r : result error A) :
  ends_spans (finish_span sp bad good r).
Proof. unfold finish_span. solve_spans. Qed.
#[local] Hint Resolve keeps_store_record keeps_store_finish : store.
#[local] Hint Resolve ends_spans_record ends_spans_finish : spans.
Lemma keeps_resp_record m p o b d : keeps_resp (record_operation m p o b d).
Proof. unfold record_operation. solve_resp. Qed.
Lemma keeps_resp_finish {A} sp bad good (r : result error A) :
  keeps_resp (finish_span sp bad good r).
Proof. unfold finish_span. solve_resp. Qed.
#[local] Hint Resolve keeps_resp_record keeps_resp_finish : resp.

Ltac unfold_storage :=
  unfold gcs_PutObject, gcs_GetObject, gcs_GetObjectAttrs, gcs_GeneratePresignedURL,
    gcs_PublicURL, gcs_DeleteObject, s3Storage_PutObject, s3Storage_GetObject,
    s3Storage_GetObjectAttrs, s3Storage_GeneratePresignedURL, s3Storage_PublicURL,
    s3Storage_DeleteObject, gcs_recordOperationMetrics, s3_recordOperationMetrics.

#[export] Instance gcs_laws g : StorageLaws (gcs_StorageX g).
Proof.
  constructor; cbn; intros; unfold_storage; try solve_keeps; try solve_spans;
    try solve_resp.
  - eexists. intros w. unfold with_span. by rewrite !run_bind.
  - revert H. unfold_storage. unfold with_span. rewrite !run_bind. intros [= H].
    repeat apply string_append_cancel in H; congruence.
Qed.

#[export] Instance s3_laws s : StorageLaws (s3_StorageX s).
Proof.
  constructor; cbn; intros; unfold_storage; try solve_keeps; try solve_spans;
    try solve_resp.
  - eexists. intros w. unfold with_span. by rewrite !run_bind.
  - revert H. unfold_storage. unfold with_span. rewrite !run_bind. intros [= H].
    unfold s3_url in H. destruct (negb _); repeat apply string_append_cancel in H; congruence.
Qed.

(** Whatever the factory returns keeps the laws. *)
Lemma New_laws cfg m s : New cfg m = Ok s → StorageLaws s.
Proof.
  unfold New, NewGCSStorageFromServiceAccountJSON, result_map. intros H.
  repeat case_match; simplify_eq; apply _.
Qed.

End Storage.

(** ** Properties *)

(** C29: how long a presigned URL is valid, for every int64 number of seconds. It
    is never zero; it is the requested duration while that fits in a
    [time.Duration]; and the 15 minutes of the default are reached exactly by the
    multiples of 2^55 (not by 0 alone: the product with 10^9 wraps to zero) and,
    being a legitimate request too, by 900 modulo 2^55. *)
Theorem expires_in_spec secs :
  expires_in secs ≠ 0%Z ∧
  (secs ≠ 0%Z → (Z.abs secs ≤ 9223372036)%Z → expires_in secs = (secs * Second)%Z) ∧
  (expires_in secs = (15 * Minute)%Z ↔
     (secs `mod` 2 ^ 55 = 0)%Z ∨ (secs `mod` 2 ^ 55 = 900)%Z).
Proof.
  assert (Hwrap : ∀ c, (0 ≤ c * Second < 2 ^ 63)%Z →
    (mul64 secs Second = c * Second ↔ (secs - c) `mod` 2 ^ 55 = 0)%Z).
  { intros c Hc. unfold mul64, wrap64, Second in *. split; intros H.
    - assert (Hd : (2 ^ 55 * 2 ^ 9 | (secs - c) * 5 ^ 9 * 2 ^ 9)%Z).
      { exists ((secs * 1000000000 + 2 ^ 63) `div` 2 ^ 64)%Z.
        pose proof (Z.div_mod (secs * 1000000000 + 2 ^ 63) (2 ^ 64)). lia. }
      apply Z.mul_divide_cancel_r in Hd; [|lia]. apply Z.mod_divide; [lia|].
      rewrite Z.mul_comm in Hd. apply Z.gauss in Hd; [done|reflexivity].
    - apply Z.mod_divide in H as [k Hk]; [|lia].
      replace (secs * 1000000000 + 2 ^ 63)%Z
        with (c * 1000000000 + 2 ^ 63 + k * 5 ^ 9 * 2 ^ 64)%Z by lia.
      rewrite Z.mod_add by lia. rewrite Z.mod_small by lia. lia. }
  assert (Hz := Hwrap 0%Z ltac:(unfold Second; lia)).
  assert (Hd := Hwrap 900%Z ltac:(unfold Second; lia)).
  rewrite Z.sub_0_r in Hz. unfold expires_in.
  destruct (Z.eqb_spec (mul64 secs Second) 0) as [H0|H0].
  - split_and!; [done| |].
    + intros Hne Hb. unfold mul64 in H0.
      rewrite wrap64_id in H0; unfold in_int64, min_int64, max_int64, Second in *; lia.
    + split; [|done]. intros _. left. by apply Hz.
  - split_and!; [done| |].
    + intros _ Hb. apply wrap64_id. unfold in_int64, min_int64, max_int64, Second. lia.
    + change (15 * Minute)%Z with (900 * Second)%Z. rewrite Hd.
      split; [intros H|intros [H|H]].
      * right. apply Z.mod_divide in H as [k Hk]; [|lia].
        replace secs with (900 + k * 2 ^ 55)%Z by lia.
        rewrite Z.mod_add by lia. reflexivity.
      * by apply Hz in H.
      * rewrite Zminus_mod, H. reflexivity.
Qed.

(** Every client the factory builds keeps the interface's laws, whichever
    implementation it is: no operation touches the database or the queue, each
    ends its spans, and public URLs always exist and are distinct for distinct
    keys. The factory builds one only for the four provider names, up to case,
    and a Google client only from a service-account path. *)
Theorem New_contract `{E : Env, L : GoLib, K : Cloud} cfg m s :
  New cfg m = Ok s →
  StorageLaws s ∧
  strings_ToLower (sx_Provider cfg) ∈ [GCSProvider; GCPProvider; S3Provider; MinIOProvider] ∧
  (strings_ToLower (sx_Provider cfg) ∈ [GCSProvider; GCPProvider] →
     sx_GCPServiceAccount cfg ≠ "").
Proof.
  intros H. split; [by eapply New_laws|]. unfold New in H.
  destruct (_ || _)%bool eqn:Hg in H.
  - case_match eqn:Hsa; [done|]. simpl_eqb.
    apply orb_true_iff in Hg as [Hp|Hp]; simpl_eqb; rewrite Hp; split; set_solver.
  - destruct (_ || _)%bool eqn:Hs in H; [|done]. simpl_eqb.
    apply orb_true_iff in Hs as [Hp|Hp]; simpl_eqb; rewrite Hp in *; split; set_solver.
Qed.

(** ** A cloud for running the model

    Every call succeeds; [exists_] says which objects a HEAD request finds. *)
Definition demo_cloud (exists_ : string → string → bool) : Cloud := {|
  gcs_NewClient := λ _, Ok tt;
  os_ReadFile := λ p, Ok p;
  json_ServiceAccount := λ _, Ok ("robot@project", "key");
  gcs_Copy := λ _ _ _ _ _ _, None;
  gcs_Close := λ _, None;
  gcs_NewReader := λ _ _ _, Ok "data";
  gcs_Attrs := λ _ b k, if exists_ b k then Ok (4%Z, "video/mp4", "etag")
                        else Err (EText "storage: object doesn't exist");
  gcs_Delete := λ _ _ _, None;
  gcs_SignedURL := λ _ b k o, Ok ("https://signed/" +:+ b +:+ "/" +:+ k);
  aws_LoadDefaultConfig := λ _ _, None;
  s3_PutObject := λ _ _ _ _, None;
  s3_GetObject := λ _ _ _ _, Ok "data";
  s3_HeadObject := λ _ _ b k,
    if exists_ b k then Ok {| ho_ContentLength := Some 4%Z; ho_ContentType := None;
                              ho_ETag := None |}
    else Err (EText "NotFound");
  s3_DeleteObject := λ _ _ _ _, None;
  s3_PresignPutObject := λ _ _ i _,
    (Some ("https://signed/" +:+ pi_Bucket i +:+ "/" +:+ pi_Key i), None);
  s3_PresignGetObject := λ _ _ b k _, (Some ("https://signed/" +:+ b +:+ "/" +:+ k), None);
|}.

Module StorageDemo.

Definition minio : sx_Config := {|
  sx_Provider := "MinIO"; sx_Region := ""; sx_Endpoint := "http://minio:9000/";
  sx_Bucket := "mpiper"; sx_AccessKeyID := "ak"; sx_SecretAccessKey := "sk";
  sx_SessionToken := ""; sx_GCPProjectID := ""; sx_GCPServiceAccount := "";
  sx_GCPPrivateKeyPath := "" |}.

Definition minio_storage : s3Storage := {|
  ss_client := {| sc_region := "us-east-1"; sc_credentials := Some ("ak", "sk", "");
    sc_BaseEndpoint := Some "http://minio:9000/"; sc_UsePathStyle := true |};
  ss_region := "us-east-1"; ss_endpoint := "http://minio:9000/"; ss_m := true |}.

Example public_url :
  s3_url minio_storage "mpiper" "media/raw/7" = "http://minio:9000/mpiper/media/raw/7".
Proof. reflexivity. Qed.

Lemma New_contract_witness :
  StorageLaws (s3_StorageX (E := fine_env) (L := amd64_golib)
                 (K := demo_cloud (λ _ _, true)) minio_storage).
Proof.
  apply (New_contract (E := fine_env) (L := amd64_golib) (K := demo_cloud (λ _ _, true))
           minio true). reflexivity.
Defined.

End StorageDemo.
