(* ===== verification/Service.v ===== *)
(** * The asset service: internal/service/asset.go

    Construction, [CreateAsset] (presign, then insert) and [MarkAssetUploaded]
    (check the object, confirm the upload and insert its job in one transaction,
    then enqueue). [confirm] is the abstract specification of the latter. *)

From stdpp Require Import base gmap strings list numbers pretty.
From Stdlib Require Import ZArith Lia.
From S2P Require Import Prelude GoStd AppErrors Config Assets World Database.
From S2P Require Import Repository Json Queue Storage.

(** [as_repo_m]: the repository holds metrics. *)
Record assetService := {
  as_repo_m : bool; as_storage : StorageX; as_bucket : string;
  as_queue : RedisQueue; as_m : bool;
}.

(** [logger.Fatalf]: the process exits; nothing the callers would do next is
    done. *)
Definition Fatalf {A} (msg : string) : M A := lift (log LFatal msg);; panic msg.

Definition service_queue_options : RedisQueueOptions := {|
  qo_QueueName := "media:jobs"; qo_MaxRetries := 3; qo_RetryInterval := 2 * Second;
  qo_ConnectionTimeOut := 2 * Second; qo_ReadTimeout := 0; qo_WriteTimeout := 0;
  qo_PoolSize := 0; qo_AddTimestamp := false; qo_AddSource := false;
  qo_MaxStreamLength := 10000; qo_EnableMetrics := true |}.

Section Service.
Context {E : Env} {L : GoLib} {K : Cloud}.

(** The bucket of the provider: S3 has its own. *)
Definition effective_bucket (storeCfg : StorageConfig) : string :=
  let p := strings_ToLower (st_Provider storeCfg) in
  if (p =s S3Provider) || (p =s MinIOProvider) then s3c_Bucket (st_S3 storeCfg)
  else st_Bucket storeCfg.

Definition storage_config (storeCfg : StorageConfig) : sx_Config := {|
  sx_Provider := st_Provider storeCfg;
  sx_Bucket := effective_bucket storeCfg;
  sx_Region := s3c_Region (st_S3 storeCfg);
  sx_Endpoint := s3c_EndpointURL (st_S3 storeCfg);
  sx_AccessKeyID := s3c_AccessKeyID (st_S3 storeCfg);
  sx_SecretAccessKey := s3c_SecretAccessKey (st_S3 storeCfg);
  sx_SessionToken := "";
  sx_GCPProjectID := "";
  sx_GCPServiceAccount := gcs_SAPath (st_GCS storeCfg);
  sx_GCPPrivateKeyPath := "" |}.

(** The error of MustGetRedisClient is dropped: the queue gets a nil client. *)
Definition NewAssetService (redisCfg : RedisConfig) (repo_m m : bool) : M assetService :=
  cfg ← (λ w, from_outcome (MustGet (w_cfg w)) w);
  let storeCfg := cfg_Storage cfg in
  match New (storage_config storeCfg) m with
  | Err err => Fatalf ("Failed to initialize storage client: " +:+ err_Error err)
  | Ok storageClient =>
      rc ← lift (MustGetRedisClient redisCfg);
      let client := match rc with Ok c => Some c | Err _ => None end in
      mret {| as_repo_m := repo_m; as_storage := storageClient;
              as_bucket := effective_bucket storeCfg;
              as_queue := NewRedisQueue client service_queue_options m; as_m := m |}
  end.

(** Where the object of an asset lives. *)
Definition object_key (assetID : uuid) : string := "media/raw/" +:+ uuid_String assetID.

Definition CreateAsset (s : assetService) (request : UploadAssetRequest)
    : IO (result error UploadAssetResponse) :=
  with_span "AssetService.CreateAsset" (λ span,
    start ← time_Now;
    assetID ← uuid_New;
    let objectKey := object_key assetID in
    '(_, signed) ← in_span "StorageClient.GeneratePresignedURL"
      (GeneratePresignedURL (as_storage s) (as_bucket s) objectKey
         (Some {| pu_Method := "PUT"; pu_ContentType := req_ContentType request;
                  pu_ExpiresInSeconds := 60 * 5 |}));
    log LDebug "Generated signed URL: ";;
    match signed with
    | Err err =>
        span_RecordError span err;;
        span_SetStatus span CodeError "Failed to generate presigned URL";;
        log LError ("Failed to generate presigned URL: " +:+ err_Error err);;
        mret (Err err)
    | Ok signedUrl =>
        '(_, public) ← in_span "StorageClient.PublicURL"
          (PublicURL (as_storage s) (as_bucket s) objectKey);
        match public with
        | Err err =>
            span_RecordError span err;;
            span_SetStatus span CodeError "Failed to get public URL";;
            log LError ("Failed to get public URL: " +:+ err_Error err);;
            mret (Err err)
        | Ok publicUrl =>
            log LDebug "Public URL: ";;
            '(spanStorage, created) ← in_span "AssetRepo.CreateAsset"
              (Repository.CreateAsset (as_repo_m s) assetID publicUrl (req_Size request)
                 (ToAssetTypeFromMimeType (req_ContentType request))
                 (req_ContentType request));
            match created with
            | Err err =>
                span_RecordError spanStorage err;;
                when (as_m s) (metric_add AssetUploadTotal 1
                  [("status", AStr "error"); ("error.type", AStr "db_error")]);;
                mret (Err err)
            | Ok _ =>
                now ← time_Now;
                let duration := (now - start)%Z in
                let attrs := [("status", AStr "success");
                  ("asset_type", AStr (ToAssetTypeFromMimeType (req_ContentType request)))] in
                when (as_m s)
                  (metric_add AssetUploadTotal 1 attrs;;
                   metric_record AssetUploadDuration duration attrs;;
                   metric_record AssetSizeBytes (req_Size request) attrs);;
                span_SetStatus span CodeOk "Asset created successfully";;
                mret (Ok {| resp_UploadUrl := signedUrl;
                            resp_AssetID := uuid_String assetID;
                            resp_Method := "PUT";
                            resp_Headers := [("Content-Type", req_ContentType request)];
                            resp_ObjectPath := req_FileName request;
                            resp_PublicUrl := publicUrl;
                            resp_ExpiresAt := 60 * 5 |})
            end
        end
    end).

(** What the deferred function of MarkAssetUploaded does with the variable [tx];
    it then ends [spanTx]. *)
Definition deferred_rollback (tx : option nat) : IO unit :=
  match tx with
  | None => mret tt
  | Some id =>
      r ← tx_Rollback id;
      match r with
      | Err err =>
          when (negb (errors_Is err (SCtx Canceled)))
            (log LError ("Failed to rollback transaction: " +:+ err_Error err))
      | Ok _ => mret tt
      end
  end.

Definition job_payload (jobID : Z) (assetID : uuid) (now : Z) : list (string * any) :=
  [("job_id", AInt jobID); ("asset_id", AStr (uuid_String assetID));
   ("event", AStr "asset_uploaded"); ("timestamp", AStr (time_RFC3339 now))].

(** The part after COMMIT, where [tx] is nil. *)
Definition enqueue_job (s : assetService) (assetID : uuid) (span : nat) (jobID : Z)
    : IO (result error unit) :=
  '(spanQueue, sent) ← in_span "Queue.Enqueue"
    (now ← time_Now; Enqueue (as_queue s) (job_payload jobID assetID now));
  match sent with
  | Err err =>
      span_RecordError spanQueue err;;
      span_SetStatus spanQueue CodeError "Failed to enqueue job";;
      span_RecordError span err;;
      span_SetStatus span CodeError "Queue enqueue failed";;
      mret (Err err)
  | Ok _ =>
      span_SetStatus spanQueue CodeOk "Job enqueued successfully";;
      span_SetStatus span CodeOk "Asset marked as uploaded and job queued";;
      mret (Ok tt)
  end.

(** The part with an open transaction, with the value of [tx] at the return. *)
Definition mark_in_tx (s : assetService) (assetID : uuid) (span spanTx tx : nat)
    : IO (option nat * result error unit) :=
  '(spanUpdate, changed) ← in_span "AssetRepo.MarkAssetUploadedTx"
    (MarkAssetUploadedTx tx assetID);
  match changed with
  | Err err =>
      span_RecordError spanUpdate err;;
      span_SetStatus spanUpdate CodeError "Failed to mark asset as uploaded";;
      span_RecordError span err;;
      span_SetStatus span CodeError "Database update failed";;
      mret (Some tx, Err err)
  | Ok false =>
      span_AddEvent spanUpdate "Asset already uploaded";;
      span_AddEvent span "Asset already in uploaded state";;
      log LInform ("Asset " +:+ uuid_String assetID +:+ " already marked as uploaded");;
      mret (Some tx, Ok tt)
  | Ok true =>
      '(spanJob, job) ← in_span "AssetRepo.InsertProcessAssetJobTx"
        (InsertProcessAssetJobTx tx assetID);
      match job with
      | Err err =>
          span_RecordError spanJob err;;
          span_SetStatus spanJob CodeError "Failed to create processing job";;
          span_RecordError span err;;
          span_SetStatus span CodeError "Job creation failed";;
          log LError ("Failed to insert process asset job: " +:+ err_Error err);;
          mret (Some tx, Err err)
      | Ok jobID =>
          committed ← tx_Commit tx;
          match committed with
          | Err err =>
              span_RecordError spanTx err;;
              span_SetStatus spanTx CodeError "Transaction commit failed";;
              span_RecordError span err;;
              span_SetStatus span CodeError "Failed to commit transaction";;
              mret (Some tx, Err err)
          | Ok _ =>
              span_SetStatus spanTx CodeOk "Transaction committed";;
              res ← enqueue_job s assetID span jobID;
              mret (None, res)
          end
      end
  end.

Definition MarkAssetUploaded (s : assetService) (assetID : uuid)
    : IO (result error unit) :=
  with_span "AssetService.MarkAssetUploaded" (λ span,
    '(spanStorage, attrs) ← in_span "StorageClient.GetObjectAttrs"
      (GetObjectAttrs (as_storage s) (as_bucket s) (object_key assetID));
    match attrs with
    | Err err =>
        span_RecordError spanStorage err;;
        span_SetStatus spanStorage CodeError "Object not found in storage";;
        span_RecordError span err;;
        span_SetStatus span CodeError "Failed to verify object in storage";;
        log LError ("Failed to get object attrs: " +:+ err_Error err);;
        mret (Err err)
    | Ok _ =>
        with_span "Database.Transaction" (λ spanTx,
          begun ← BeginTx;
          '(tx, res) ← match begun with
            | Err err =>
                span_RecordError spanTx err;;
                span_SetStatus spanTx CodeError "Failed to begin transaction";;
                span_RecordError span err;;
                span_SetStatus span CodeError "Transaction initialization failed";;
                log LError ("Failed to begin transaction: " +:+ err_Error err);;
                mret (None, Err err)
            | Ok tx => mark_in_tx s assetID span spanTx tx
            end;
          deferred_rollback tx;;
          mret res)
    end).

(** ** CreateAsset against the laws of the storage client *)

(** The row CreateAsset inserts. *)
Definition new_asset (request : UploadAssetRequest) (url : string) (now : Z) : asset_row := {|
  a_original_url := url; a_type := ToAssetTypeFromMimeType (req_ContentType request);
  a_status := StatusUploading; a_mime_type := req_ContentType request;
  a_size_bytes := req_Size request; a_created_at := now; a_updated_at := now |}.

(** The outcome of creating an asset: no change and an error, or a new row, in
    which case a failure can only be a lost reply. *)
Inductive created (s : assetService) (request : UploadAssetRequest) (st : store)
    : result error UploadAssetResponse → store → Prop :=
| created_not e : created s request st (Err e) st
| created_row r id url now w :
    t_assets (s_db st) !! id = None →
    run (PublicURL (as_storage s) (as_bucket s) (object_key id)) w = Ok url →
    (∀ resp, r = Ok resp →
       ∃ signed w', run (GeneratePresignedURL (as_storage s) (as_bucket s) (object_key id)
           (Some {| pu_Method := "PUT"; pu_ContentType := req_ContentType request;
                    pu_ExpiresInSeconds := 300 |})) w' = Ok signed ∧
         resp = {| resp_UploadUrl := signed; resp_AssetID := uuid_String id;
         resp_Method := "PUT"; resp_Headers := [("Content-Type", req_ContentType request)];
         resp_ObjectPath := req_FileName request; resp_PublicUrl := url;
         resp_ExpiresAt := 300 |}) →
    created s request st r
      (set_db (set_assets (<[id := new_asset request url now]> (t_assets (s_db st)))
         (s_db st)) st).

Lemma insert_asset_row id url req now d d' :
  sql_insert_asset id url (ToAssetTypeFromMimeType (req_ContentType req))
    (req_ContentType req) StatusUploading (req_Size req) now d = Ok d' →
  t_assets d !! id = None ∧
  d' = set_assets (<[id := new_asset req url now]> (t_assets d)) d.
Proof.
  intros (Hn & Hj & Ha)%sql_insert_asset_Ok. split; [done|].
  destruct d'; simpl in *. unfold set_assets. by subst.
Qed.

Lemma wp_CreateAsset_created s request `{!StorageLaws (as_storage s)}
    (Q : result error UploadAssetResponse → world → Prop) w :
  (∀ r w', created s request (w_store w) r (w_store w') → Q r w') →
  wp (CreateAsset s request) Q w.
Proof.
  intros HQ. apply wp_with_span. intros span w1 Hw1. do 2 wp_skip.
  rewrite wp_bind. apply wp_in_span. intros sp1 w4 Hw4.
  rewrite wp_run. destruct (run (GeneratePresignedURL _ _ _ _) w4) as [signed|err] eqn:Hsig;
    intros w6 Hw6; rewrite presign_keeps in Hw6; wp_skip;
    [|wp_skips; intros; apply HQ; rewrite_stores; constructor].
  rewrite wp_bind. apply wp_in_span. intros sp2 w8 Hw8.
  destruct (public_total (as_bucket s) (object_key a0)) as [url Hurl].
  rewrite wp_run, Hurl. intros w9 Hw9. rewrite public_keeps in Hw9.
  wp_skip. rewrite wp_bind. apply wp_in_span. intros sp3 w11 Hw11.
  apply Repository.wp_CreateAsset.
  - intros e w12 Hw12 w13 Hw13. destruct (as_m s); wp_skips; intros; apply HQ;
      rewrite_stores; constructor.
  - intros d r now w12 Hins Hw12 w13 Hw13.
    assert (Hst : w_store w11 = w_store w) by (rewrite_stores; done).
    rewrite Hst in Hins, Hw12. apply insert_asset_row in Hins as [Hnone ->].
    destruct r as [[]|e]; destruct (as_m s); wp_skips; intros; apply HQ; rewrite_stores;
      (eapply created_row; [done|by apply (Hurl w)|]); naive_solver.
Qed.

(** ** MarkAssetUploaded and its abstract specification *)

(** The tables once the upload of [id] is confirmed: its row updated and its job,
    numbered [j], inserted. *)
Definition upload_confirmed (id : uuid) (r : asset_row) (now j : Z) (t : tables) : tables := {|
  t_assets := <[id := row_uploaded StatusUploaded now r]> (t_assets t);
  t_jobs := <[(id, process_asset) := {| j_job_id := j; j_status := StatusProcessing;
    j_attempts := 0; j_last_error := None; j_created_at := now; j_updated_at := now |}]>
    (t_jobs t) |}.

(** The queue entry of a job. *)
Definition job_entry (rq : RedisQueue) (id : uuid) (j ts : Z) : xadd_args :=
  stream_entry rq (json_encode (AMap (job_payload j id ts))).

(** What confirming the upload of [id] may do to tables, sequence and stream:
    nothing (an error, or the asset is not waiting for its upload, in which case
    it may succeed), or everything in the database together with some copies of
    the job's entry in the stream, at least one if it succeeds and at most one per
    sending of the XADD. *)
Inductive confirm (rq : RedisQueue) (id : uuid) (st : store)
    : result error unit → store → Prop :=
| confirm_refused e st' :
    s_db st' = s_db st → s_stream st' = s_stream st →
    (s_seq st ≤ s_seq st')%Z → confirm rq id st (Err e) st'
| confirm_again st' :
    (∀ r, t_assets (s_db st) !! id = Some r → a_status r ≠ StatusUploading) →
    s_db st' = s_db st → s_stream st' = s_stream st →
    s_seq st' = s_seq st → confirm rq id st (Ok tt) st'
| confirm_done res r now ts n st' :
    t_assets (s_db st) !! id = Some r → a_status r = StatusUploading →
    s_db st' = upload_confirmed id r now (s_seq st) (s_db st) →
    s_seq st' = (s_seq st + 1)%Z →
    s_stream st' = s_stream st ++ replicate n (job_entry rq id (s_seq st) ts) →
    n ≤ max_copies rq → (res = Ok tt → 1 ≤ n) → (rq_redis rq = None → n = 0) →
    confirm rq id st res st'.

(** Every transaction begun on the way is finished. *)
Definition txs_closed (st st' : store) : Prop :=
  ∃ new, s_txs st' = s_txs st ++ new ∧ Forall (λ t, tx_done t = true) new.

Lemma txs_closed_refl st : txs_closed st st.
Proof. exists []. by rewrite app_nil_r. Qed.

Lemma put_tx_last t t' st l :
  s_txs st = l ++ [t] → s_txs (put_tx (length l) t' st) = l ++ [t'].
Proof. intros H. cbn. rewrite H, insert_app_r_alt, Nat.sub_diag; done. Qed.

(** The deferred rollback of an open transaction, which is the last one. *)
Lemma wp_deferred_open l t (Q : unit → world → Prop) w :
  s_txs (w_store w) = l ++ [t] → tx_done t = false →
  (∀ w', w_store w' = set_txs (l ++ [tx_finish t]) (w_store w) → Q tt w') →
  wp (deferred_rollback (Some (length l))) Q w.
Proof.
  intros Hl Ht HQ. unfold deferred_rollback. rewrite wp_bind.
  eapply wp_tx_Rollback; [|done|].
  { by rewrite Hl, lookup_app_r, Nat.sub_diag by lia. }
  intros r w' Hw'. assert (Hw : w_store w' = set_txs (l ++ [tx_finish t]) (w_store w)).
  { rewrite Hw'. unfold put_tx. by rewrite Hl, insert_app_r_alt, Nat.sub_diag by lia. }
  destruct r as [|err]; [by apply HQ|]. apply wp_keeps; [solve_keeps|].
  intros [] w'' Hw''. apply HQ. by rewrite Hw''.
Qed.

(** After a COMMIT that failed, the rollback finds the transaction finished. *)
Lemma wp_deferred_done l t (Q : unit → world → Prop) w :
  s_txs (w_store w) = l ++ [t] → tx_done t = true →
  (∀ w', w_store w' = w_store w → Q tt w') →
  wp (deferred_rollback (Some (length l))) Q w.
Proof.
  intros Hl Ht HQ. unfold deferred_rollback. rewrite wp_bind.
  eapply wp_tx_Rollback_done; [|done|].
  { by rewrite Hl, lookup_app_r, Nat.sub_diag by lia. }
  intros w' Hw'. apply wp_keeps; [solve_keeps|].
  intros [] w'' Hw''. apply HQ. by rewrite Hw''.
Qed.

(** The part after COMMIT. *)
Lemma wp_enqueue_job s id span j (Q : result error unit → world → Prop) w :
  (∀ res n ts w',
     w_store w' = set_stream (s_stream (w_store w) ++
       replicate n (job_entry (as_queue s) id j ts)) (w_store w) →
     n ≤ max_copies (as_queue s) → (res = Ok tt → 1 ≤ n) → (rq_redis (as_queue s) = None → n = 0) → Q res w') →
  wp (enqueue_job s id span j) Q w.
Proof.
  intros HQ. unfold enqueue_job. rewrite wp_bind. apply wp_in_span. intros sp w1 Hw1.
  wp_skip. apply wp_Enqueue. intros r n w3 Hn Hnil Hok Hst w4 Hw4. unfold enqueued in Hst.
  destruct r as [id'|e]; wp_skips; (eapply (HQ _ n a); [rewrite_stores; done|done| |]);
    naive_solver.
Qed.

(** A return with the transaction still open: it is rolled back and the tables
    and the stream are as before. *)
Lemma wp_abandon st t res (Q : result error unit → world → Prop) w :
  s_txs (w_store w) = s_txs st ++ [t] → tx_done t = false →
  (∀ w', s_db (w_store w') = s_db (w_store w) → s_stream (w_store w') = s_stream (w_store w) →
     s_seq (w_store w') = s_seq (w_store w) → txs_closed st (w_store w') → Q res w') →
  wp (deferred_rollback (Some (length (s_txs st)));; mret res) Q w.
Proof.
  intros Hl Ht HQ. rewrite wp_bind. eapply wp_deferred_open; [done..|].
  intros w' Hw'. rewrite wp_ret. apply HQ; rewrite Hw'; [done..|].
  exists [tx_finish t]. split; [done|]. by repeat constructor.
Qed.

(** From COMMIT on, with the confirmed tables in the open transaction [t]. *)
Lemma wp_commit_part s id span spanTx st t r now (Q : result error unit → world → Prop) w :
  s_txs (w_store w) = s_txs st ++ [t] → tx_done t = false → tx_aborted t = false →
  s_db (w_store w) = s_db st → s_stream (w_store w) = s_stream st →
  s_seq (w_store w) = (s_seq st + 1)%Z →
  t_assets (s_db st) !! id = Some r → a_status r = StatusUploading →
  tx_tables t = upload_confirmed id r now (s_seq st) (s_db st) →
  (∀ res w', confirm (as_queue s) id st res (w_store w') →
     txs_closed st (w_store w') → Q res w') →
  wp (committed ← tx_Commit (length (s_txs st));
      match committed with
      | Err err =>
          span_RecordError spanTx err;;
          span_SetStatus spanTx CodeError "Transaction commit failed";;
          span_RecordError span err;;
          span_SetStatus span CodeError "Failed to commit transaction";;
          mret (Some (length (s_txs st)), Err err)
      | Ok _ =>
          span_SetStatus spanTx CodeOk "Transaction committed";;
          res ← enqueue_job s id span (s_seq st);
          mret (None, res)
      end)
    (λ '(tx, res), wp (deferred_rollback tx;; mret res) Q) w.
Proof.
  intros Htx Hd Ha Hdb Hstr Hseq Hr Hst Htabs HQ. rewrite wp_bind.
  assert (Hlast : s_txs (put_tx (length (s_txs st)) (tx_finish t) (w_store w)) =
    s_txs st ++ [tx_finish t]) by (by eapply put_tx_last).
  assert (Hclosed : ∀ st', s_txs st' = s_txs st ++ [tx_finish t] → txs_closed st st').
  { intros st' H. exists [tx_finish t]. split; [done|]. by repeat constructor. }
  eapply wp_tx_Commit; [|done..| |].
  { by rewrite Htx, lookup_app_r, Nat.sub_diag by lia. }
  - intros w1 Hw1. wp_skip. rewrite wp_bind. apply wp_enqueue_job.
    intros res n ts w3 Hw3 Hmax Hn Hnil. rewrite wp_ret, wp_bind. cbn [deferred_rollback].
    rewrite !wp_ret. rewrite H, Hw1 in Hw3. apply HQ; rewrite Hw3.
    + eapply confirm_done; [done|done|cbn; by rewrite Htabs|done|cbn|done..].
      by rewrite Hstr.
    + apply Hclosed. cbn. exact Hlast.
  - intros e w1 Hw1. wp_skips. intros.
    assert (Hl : s_txs (w_store w1) = s_txs st ++ [tx_finish t]).
    { destruct Hw1 as [-> | ->]; exact Hlast. }
    rewrite wp_bind. eapply wp_deferred_done; [by rewrite_stores|done|].
    intros w6 Hw6. rewrite wp_ret. apply HQ; rewrite_stores; [|by apply Hclosed].
    destruct Hw1 as [Hw1|Hw1]; rewrite Hw1.
    + eapply (confirm_done _ _ _ _ r now 0%Z 0);
        [done|done|cbn; by rewrite Htabs|done|cbn; by rewrite Hstr, app_nil_r|lia|done..].
    + constructor; cbn; [done|done|lia].
Qed.

Lemma wp_tx_part s id span spanTx st now (Q : result error unit → world → Prop) w :
  w_store w = set_txs (s_txs st ++ [open_tx now (s_db st)]) st →
  tables_wf (s_seq st) (s_db st) →
  (∀ res w', confirm (as_queue s) id st res (w_store w') →
     txs_closed st (w_store w') → Q res w') →
  wp (mark_in_tx s id span spanTx (length (s_txs st)))
    (λ '(tx, res), wp (deferred_rollback tx;; mret res) Q) w.
Proof.
  intros Hw Hwf HQ. unfold mark_in_tx. rewrite wp_bind. apply wp_in_span.
  intros sp w1 Hw1. rewrite Hw in Hw1.
  assert (Hput : ∀ t t' st', s_txs st' = s_txs st ++ [t] →
    s_txs (put_tx (length (s_txs st)) t' st') = s_txs st ++ [t']).
  { intros. by eapply put_tx_last. }
  apply (wp_MarkAssetUploadedTx _ _ _ _ (open_tx now (s_db st))); [|done|done|..].
  { rewrite Hw1. cbn. by rewrite lookup_app_r, Nat.sub_diag by lia. }
  - intros e t' w2 Ht' Hw2 w3 Hw3. wp_skips. eapply (wp_abandon st t'); [|done|].
    + rewrite_stores. by eapply Hput.
    + intros wy Hdb Hstr Hsq Hcl. apply HQ; [|done].
      constructor; rewrite ?Hdb, ?Hstr, ?Hsq; rewrite_stores; [done..|reflexivity].
  - intros w2 Hno Hw2 w3 Hw3. wp_skips.
    eapply (wp_abandon st (open_tx now (s_db st))); [by rewrite_stores|done|].
    intros wy Hdb Hstr Hsq Hcl. apply HQ; [|done].
    apply confirm_again; rewrite ?Hdb, ?Hstr, ?Hsq; rewrite_stores; done.
  - intros r w2 Hr Hst Hw2 w3 Hw3. rewrite wp_bind. apply wp_in_span. intros spj w4 Hw4.
    cbn in Hr. pose proof (confirm_upload_wf _ _ now now _ _ Hwf Hr Hst) as Hconf.
    destruct Hconf
      as (d & Hins & _ & Hda & Hdj).
    set (t1 := tx_with (set_assets (<[id:=row_uploaded StatusUploaded now r]>
                 (t_assets (s_db st))) (s_db st)) (open_tx now (s_db st))).
    assert (Htx : s_txs (w_store w4) = s_txs st ++ [t1]).
    { rewrite_stores. eapply Hput. done. }
    apply (wp_InsertProcessAssetJobTx _ _ _ _ t1); [|done|done|..].
    { by rewrite Htx, lookup_app_r, Nat.sub_diag by lia. }
    + intros e t' c w5 Ht' Hw5 w6 Hw6. wp_skips.
      eapply (wp_abandon st t'); [|done|].
      * clear Hw4. rewrite_stores. eapply Hput. by destruct c.
      * intros wy Hdb Hstr Hsq Hcl. apply HQ; [|done].
        constructor; rewrite ?Hdb, ?Hstr, ?Hsq; rewrite_stores; cbn;
          [by destruct c..|destruct c; cbn; lia].
    + intros j d' w5 Hins' Hw5 w6 Hw6.
      assert (Hseq : s_seq (w_store w4) = s_seq st) by (rewrite_stores; done).
      cbn in Hins'. rewrite Hseq, Hins in Hins'. simplify_eq.
      eapply (wp_commit_part s id span spanTx st); [..|exact HQ]; rewrite_stores; try done.
      { eapply Hput. by eapply Hput. }
      all: try done. cbn. destruct d'; cbn in *. by subst.
Qed.

(** Every run of MarkAssetUploaded is one [confirm] allows, and leaves no
    transaction open. *)
Lemma wp_MarkAssetUploaded s id `{!StorageLaws (as_storage s)}
    (Q : result error unit → world → Prop) w :
  tables_wf (s_seq (w_store w)) (s_db (w_store w)) →
  (∀ res w', confirm (as_queue s) id (w_store w) res (w_store w') →
     txs_closed (w_store w) (w_store w') → Q res w') →
  wp (MarkAssetUploaded s id) Q w.
Proof.
  intros Hwf HQ. apply wp_with_span. intros span w1 Hw1.
  rewrite wp_bind. apply wp_in_span. intros sp w2 Hw2.
  apply wp_keeps; [solve_keeps|]. intros attrs w3 Hw3 w4 Hw4.
  assert (Hrefused : ∀ e w', w_store w' = w_store w → Q (Err e) w').
  { intros e w' H. apply HQ; rewrite H; [by constructor|apply txs_closed_refl]. }
  destruct attrs as [attrs|e]; [|wp_skips; intros; apply Hrefused; by rewrite_stores].
  apply wp_with_span. intros spanTx w5 Hw5. rewrite wp_bind.
  assert (Hst : w_store w5 = w_store w) by (by rewrite_stores).
  apply wp_BeginTx; rewrite Hst.
  - intros e w6 Hw6. rewrite wp_bind. do 5 wp_skip. rewrite wp_ret, wp_bind.
    cbn [deferred_rollback]. rewrite !wp_ret. intros. apply Hrefused. by rewrite_stores.
  - intros now w6 Hw6. rewrite wp_bind. eapply wp_mono; cycle 1.
    + eapply (wp_tx_part s id span spanTx (w_store w) now
        (λ a w2, ∀ w3, w_store w3 = w_store w2 → ∀ w0, w_store w0 = w_store w3 → Q a w0));
        [done|done|].
      intros res w' Hc Hcl w7 Hw7 w8 Hw8. apply HQ; by rewrite_stores.
    + intros [tx res] w7 H. exact H.
Qed.

(** *** When nothing fails *)

Lemma wp_enqueue_job_ok {H : Healthy E} s id span j
    (Q : result error unit → world → Prop) w :
  rq_redis (as_queue s) ≠ None → (0 ≤ qo_MaxRetries (rq_options (as_queue s)))%Z →
  (∀ ts w', w_store w' = set_stream (s_stream (w_store w) ++
       [job_entry (as_queue s) id j ts]) (w_store w) → Q (Ok tt) w') →
  wp (enqueue_job s id span j) Q w.
Proof.
  intros Hrc Hmax HQ. unfold enqueue_job. rewrite wp_bind. apply wp_in_span. intros sp w1 Hw1.
  wp_skip. apply wp_Enqueue_ok; [done..|]. intros id' w3 Hst w4 Hw4. unfold enqueued in Hst.
  wp_skips. apply (HQ a). by rewrite_stores.
Qed.

Lemma wp_MarkAssetUploaded_ok {H : Healthy E} s id `{!StorageLaws (as_storage s)}
    r (Q : result error unit → world → Prop) w :
  tables_wf (s_seq (w_store w)) (s_db (w_store w)) →
  (∀ w', is_ok (run (GetObjectAttrs (as_storage s) (as_bucket s) (object_key id)) w')) →
  rq_redis (as_queue s) ≠ None → (0 ≤ qo_MaxRetries (rq_options (as_queue s)))%Z →
  t_assets (s_db (w_store w)) !! id = Some r → a_status r = StatusUploading →
  (∀ now ts w',
     s_db (w_store w') = upload_confirmed id r now (s_seq (w_store w)) (s_db (w_store w)) →
     s_stream (w_store w') = s_stream (w_store w) ++
       [job_entry (as_queue s) id (s_seq (w_store w)) ts] → Q (Ok tt) w') →
  wp (MarkAssetUploaded s id) Q w.
Proof.
  intros Hwf Hobj Hrc Hmax Hr Hst HQ. apply wp_with_span. intros span w1 Hw1.
  rewrite wp_bind. apply wp_in_span. intros sp w2 Hw2. rewrite wp_run. intros w4 Hw4.
  rewrite attrs_keeps in Hw4. specialize (Hobj w2).
  destruct (run _ w2) as [attrs|e]; [|done]. clear Hobj.
  apply wp_with_span. intros spanTx w5 Hw5. rewrite wp_bind.
  assert (Hw : w_store w5 = w_store w) by (by rewrite_stores).
  apply wp_BeginTx_ok. rewrite Hw. clear Hw1 Hw2 Hw4 Hw5 Hw w1 w2 w4 w5.
  intros now w1 Hw1. unfold mark_in_tx. rewrite !wp_bind. apply wp_in_span.
  intros sp1 w2 Hw2. set (st := w_store w) in *.
  assert (Hput : ∀ t t' st', s_txs st' = s_txs st ++ [t] →
    s_txs (put_tx (length (s_txs st)) t' st') = s_txs st ++ [t']).
  { intros. by eapply put_tx_last. }
  assert (Hlast : ∀ st' t, s_txs st' = s_txs st ++ [t] →
    s_txs st' !! length (s_txs st) = Some t).
  { intros st' t ->. by rewrite lookup_app_r, Nat.sub_diag by lia. }
  pose proof (confirm_upload_wf _ _ now now _ _ Hwf Hr Hst) as (d & Hins & _ & Hda & Hdj).
  eapply wp_MarkAssetUploadedTx_ok; [eapply Hlast; by rewrite Hw2, Hw1
    |reflexivity|reflexivity|exact Hr|exact Hst|].
  intros w3 Hw3 w4 Hw4. rewrite wp_bind. apply wp_in_span. intros sp2 w5 Hw5.
  set (t1 := tx_with (set_assets (<[id:=row_uploaded StatusUploaded now r]>
               (t_assets (s_db st))) (s_db st)) (open_tx now (s_db st))) in *.
  assert (Htx : s_txs (w_store w5) = s_txs st ++ [t1])
    by (rewrite_stores; by eapply Hput).
  eapply (wp_InsertProcessAssetJobTx_ok _ _ _ _ t1); [by eapply Hlast|reflexivity|reflexivity| |].
  { rewrite_stores. exact Hins. }
  intros w6 Hw6 w7 Hw7. rewrite wp_bind.
  apply (wp_tx_Commit_ok _ _ _ (tx_with d t1)); [eapply Hlast|reflexivity|reflexivity|].
  { clear Hw5. rewrite_stores. by eapply Hput. }
  intros w8 Hw8. wp_skip. rewrite wp_bind. apply wp_enqueue_job_ok; [done..|].
  intros ts w10 Hw10. rewrite wp_ret. cbn [deferred_rollback]. wp_skips.
  intros w11 Hw11 w12 Hw12. apply (HQ now ts); rewrite_stores; [|done].
  cbn. destruct d; cbn in *. by subst.
Qed.

(** ** Spans *)

Lemma ends_spans_deferred tx : ends_spans (deferred_rollback tx).
Proof. unfold deferred_rollback. solve_spans. Qed.
Lemma ends_spans_enqueue_job s id span j : ends_spans (enqueue_job s id span j).
Proof. unfold enqueue_job. solve_spans. Qed.
#[local] Hint Resolve ends_spans_deferred ends_spans_enqueue_job : spans.
Lemma ends_spans_mark_in_tx s id span spanTx tx :
  ends_spans (mark_in_tx s id span spanTx tx).
Proof. unfold mark_in_tx. solve_spans. Qed.
#[local] Hint Resolve ends_spans_mark_in_tx : spans.

Lemma ends_spans_service_CreateAsset s request `{!StorageLaws (as_storage s)} :
  ends_spans (CreateAsset s request).
Proof. unfold CreateAsset. solve_spans. Qed.
Lemma ends_spans_MarkAssetUploaded s id `{!StorageLaws (as_storage s)} :
  ends_spans (MarkAssetUploaded s id).
Proof. unfold MarkAssetUploaded. solve_spans. Qed.

(** The service never touches the response. *)
Lemma keeps_resp_service_CreateAsset s request `{!StorageLaws (as_storage s)} :
  keeps_resp (CreateAsset s request).
Proof. unfold CreateAsset. solve_resp. Qed.
Lemma keeps_resp_MarkAssetUploaded s id `{!StorageLaws (as_storage s)} :
  keeps_resp (MarkAssetUploaded s id).
Proof.
  unfold MarkAssetUploaded, mark_in_tx, enqueue_job, deferred_rollback. solve_resp.
Qed.

(** ** The invariant of the store *)

(** An entry announces a committed job: its identifier and its asset's. *)
Definition announces (rq : RedisQueue) (t : tables) (e : xadd_args) : Prop :=
  ∃ id j ts, t_jobs t !! (id, process_asset) = Some j ∧ e = job_entry rq id (j_job_id j) ts.

Record store_wf (rq : RedisQueue) (st : store) : Prop := {
  sw_tables : tables_wf (s_seq st) (s_db st);
  sw_txs : Forall (λ t, tx_done t = true) (s_txs st);
  sw_stream : Forall (announces rq (s_db st)) (s_stream st);
}.

Lemma empty_store_wf rq : store_wf rq empty_store.
Proof. constructor; [apply empty_tables_wf|constructor..]. Qed.

(** The queues this code makes: their options are the service's constants. *)
Definition service_queue (rq : RedisQueue) : Prop :=
  rq_options rq = normalize_options service_queue_options.

(** The invariant is about the options of the queue, not its client. *)
Lemma store_wf_options rq rq' st :
  rq_options rq = rq_options rq' → store_wf rq st → store_wf rq' st.
Proof.
  intros Ho [Ht Hx Hs]. constructor; [done..|]. eapply Forall_impl; [exact Hs|].
  intros e (id & j & ts & Hj & ->). exists id, j, ts. split; [done|].
  unfold job_entry, stream_entry. by rewrite Ho.
Qed.

Lemma service_queue_wf rq rq' st :
  service_queue rq → service_queue rq' → store_wf rq st → store_wf rq' st.
Proof. intros H H'. apply store_wf_options. by rewrite H, H'. Qed.

(** New tables keep what the stream announces if the jobs already there keep
    their numbers. *)
Lemma announces_mono rq t t' e :
  (∀ k j, t_jobs t !! k = Some j → ∃ j', t_jobs t' !! k = Some j' ∧
     j_job_id j' = j_job_id j) →
  announces rq t e → announces rq t' e.
Proof.
  intros H (id & j & ts & Hj & ->). destruct (H _ _ Hj) as (j' & Hj' & Hid).
  exists id, j', ts. by rewrite Hid.
Qed.

Lemma created_wf s request st r st' rq :
  store_wf rq st → created s request st r st' → store_wf rq st'.
Proof.
  intros [Ht Hx Hs] [|r' id url now w Hnone]; [by constructor|].
  constructor; cbn; [|done|].
  - eapply sql_insert_asset_wf; [done|]. unfold sql_insert_asset. rewrite Hnone.
    reflexivity.
  - eapply Forall_impl; [exact Hs|]. intros e. apply announces_mono. eauto.
Qed.

Lemma upload_confirmed_wf st id r now :
  tables_wf (s_seq st) (s_db st) →
  t_assets (s_db st) !! id = Some r → a_status r = StatusUploading →
  t_jobs (s_db st) !! (id, process_asset) = None ∧
  tables_wf (s_seq st + 1) (upload_confirmed id r now (s_seq st) (s_db st)).
Proof.
  intros Hwf Hr Hst. split.
  { apply eq_None_not_Some. rewrite (tw_job _ _ Hwf id r Hr). by intros []. }
  destruct (confirm_upload_wf _ _ now now _ _ Hwf Hr Hst) as (d & _ & Hd & Hda & Hdj).
  replace (upload_confirmed _ _ _ _ _) with d; [done|].
  destruct d; cbn in *. by subst.
Qed.

Lemma confirm_wf rq id st res st' :
  store_wf rq st → confirm rq id st res st' → txs_closed st st' → store_wf rq st'.
Proof.
  intros [Ht Hx Hs] Hc (new & Htx & Hnew).
  assert (Forall (λ t, tx_done t = true) (s_txs st')) by (rewrite Htx; by apply Forall_app).
  destruct Hc as [e st' Hdb Hstr Hsq|st' _ Hdb Hstr Hsq|res r now ts n st' Hr Hst Hdb Hsq Hstr].
  - constructor; rewrite ?Hdb, ?Hstr; [|done..]. by eapply tables_wf_seq.
  - constructor; rewrite ?Hdb, ?Hstr; [|done..]. by rewrite Hsq.
  - destruct (upload_confirmed_wf st id r now Ht Hr Hst) as [Hnone Hwf'].
    constructor; rewrite ?Hdb, ?Hstr, ?Hsq; [done..|]. apply Forall_app. split.
    + eapply Forall_impl; [exact Hs|]. intros e. apply announces_mono. intros k j Hj.
      exists j. cbn. rewrite lookup_insert_ne; [done|]. intros <-. by rewrite Hnone in Hj.
    + apply Forall_replicate. eexists id, _, ts. cbn. by rewrite lookup_insert_eq.
Qed.

(** Two worlds that agree on the store are the same to [confirm]. *)
Lemma MarkAssetUploaded_confirm s id `{!StorageLaws (as_storage s)} w :
  tables_wf (s_seq (w_store w)) (s_db (w_store w)) →
  confirm (as_queue s) id (w_store w) (run (MarkAssetUploaded s id) w)
    (w_store (exec (MarkAssetUploaded s id) w)) ∧
  txs_closed (w_store w) (w_store (exec (MarkAssetUploaded s id) w)).
Proof.
  intros Hwf. enough (wp (MarkAssetUploaded s id) (λ r w',
    confirm (as_queue s) id (w_store w) r (w_store w') ∧
    txs_closed (w_store w) (w_store w')) w) by done.
  by apply wp_MarkAssetUploaded.
Qed.

(** An asset not waiting for its upload: tables and stream stay. *)
Lemma confirm_settled rq id st res st' :
  confirm rq id st res st' →
  (∀ r, t_assets (s_db st) !! id = Some r → a_status r ≠ StatusUploading) →
  s_db st' = s_db st ∧ s_stream st' = s_stream st.
Proof. intros [] Hno; [done|done|]. by edestruct Hno. Qed.

(** *** Sequences of requests *)

Inductive request := ReqCreate (r : UploadAssetRequest) | ReqUploaded (id : uuid).

Definition serve (s : assetService) (q : request) : IO unit :=
  match q with
  | ReqCreate r => _ ← CreateAsset s r; mret tt
  | ReqUploaded id => _ ← MarkAssetUploaded s id; mret tt
  end.

Fixpoint serve_all (s : assetService) (l : list request) : IO unit :=
  match l with
  | [] => mret tt
  | q :: l' => serve s q;; serve_all s l'
  end.

Lemma serve_wf s q `{!StorageLaws (as_storage s)} w :
  store_wf (as_queue s) (w_store w) →
  store_wf (as_queue s) (w_store (exec (serve s q) w)).
Proof.
  intros Hwf. destruct q as [r|id]; cbn [serve]; rewrite exec_bind, exec_ret.
  - enough (wp (CreateAsset s r) (λ _ w', store_wf (as_queue s) (w_store w')) w) by done.
    apply wp_CreateAsset_created; [done|]. intros. by eapply created_wf.
  - destruct (MarkAssetUploaded_confirm s id w); [apply Hwf|]. by eapply confirm_wf.
Qed.

Lemma serve_uploaded_settled s id ids `{!StorageLaws (as_storage s)} : ∀ w,
  tables_wf (s_seq (w_store w)) (s_db (w_store w)) →
  Forall (λ i, i = id) ids →
  (∀ r, t_assets (s_db (w_store w)) !! id = Some r → a_status r ≠ StatusUploading) →
  s_db (w_store (exec (serve_all s (ReqUploaded <$> ids)) w)) = s_db (w_store w) ∧
  s_stream (w_store (exec (serve_all s (ReqUploaded <$> ids)) w)) = s_stream (w_store w).
Proof.
  induction ids as [|i ids IH]; intros w Hwf Hids Hno; [done|].
  apply Forall_cons in Hids as [-> Hids]. cbn [fmap list_fmap serve_all].
  rewrite exec_bind. cbn [serve]. rewrite exec_bind, exec_ret.
  set (w1 := exec (MarkAssetUploaded s id) w).
  destruct (MarkAssetUploaded_confirm s id w Hwf) as [Hc _].
  destruct (confirm_settled _ _ _ _ _ Hc Hno) as [Hdb Hstr].
  fold w1 in Hc, Hdb, Hstr.
  assert (Hseq : (s_seq (w_store w) ≤ s_seq (w_store w1))%Z).
  { destruct Hc as [|?? ? ? Heq|??????? ? ? Heq]; [done|by rewrite Heq|]. lia. }
  destruct (IH w1) as [-> ->]; rewrite ?Hdb, ?Hstr; [|done..].
  eapply tables_wf_seq; [exact Hseq|done].
Qed.

(** When nothing fails, a first confirmation succeeds. *)
Lemma MarkAssetUploaded_ok {H : Healthy E} s id r `{!StorageLaws (as_storage s)} w :
  tables_wf (s_seq (w_store w)) (s_db (w_store w)) →
  (∀ w', is_ok (run (GetObjectAttrs (as_storage s) (as_bucket s) (object_key id)) w')) →
  rq_redis (as_queue s) ≠ None → (0 ≤ qo_MaxRetries (rq_options (as_queue s)))%Z →
  t_assets (s_db (w_store w)) !! id = Some r → a_status r = StatusUploading →
  let w' := exec (MarkAssetUploaded s id) w in
  run (MarkAssetUploaded s id) w = Ok tt ∧
  ∃ now ts,
    s_db (w_store w') = upload_confirmed id r now (s_seq (w_store w)) (s_db (w_store w)) ∧
    s_stream (w_store w') = s_stream (w_store w) ++
      [job_entry (as_queue s) id (s_seq (w_store w)) ts].
Proof.
  intros Hwf Hobj Hrc Hmax Hr Hst. enough (wp (MarkAssetUploaded s id) (λ res w',
    res = Ok tt ∧ ∃ now ts,
      s_db (w_store w') = upload_confirmed id r now (s_seq (w_store w)) (s_db (w_store w)) ∧
      s_stream (w_store w') = s_stream (w_store w) ++
        [job_entry (as_queue s) id (s_seq (w_store w)) ts]) w) by done.
  eapply wp_MarkAssetUploaded_ok; [done..|]. eauto.
Qed.

Lemma CreateAsset_created s request `{!StorageLaws (as_storage s)} w :
  created s request (w_store w) (run (CreateAsset s request) w)
    (w_store (exec (CreateAsset s request) w)).
Proof.
  enough (wp (CreateAsset s request)
    (λ r w', created s request (w_store w) r (w_store w')) w) by done.
  by apply wp_CreateAsset_created.
Qed.

(** ** Properties *)

(** C3: [CreateAsset] refines its specification [created] for every storage
    client that keeps the laws: it fails without a trace, or inserts exactly one
    row (a fresh identifier, status "uploading", the request's type and size, the
    public URL of its object), which an error can only hide when PostgreSQL's
    reply was lost; a response carries that identifier and URL, the presigned PUT
    of that very object for 300 seconds, and the client's file name. *)
Theorem CreateAsset_refines s request `{!StorageLaws (as_storage s)} w :
  created s request (w_store w) (run (CreateAsset s request) w)
    (w_store (exec (CreateAsset s request) w)).
Proof. by apply CreateAsset_created. Qed.

(** C1: [MarkAssetUploaded] refines its specification [confirm]. Whatever the
    storage provider, PostgreSQL and Redis answer, the row and the job change
    together or not at all, the queue entry is added only after both are
    committed and names that job, success of a first confirmation means at least
    one entry, and no transaction is left open. *)
Theorem MarkAssetUploaded_refines s id `{!StorageLaws (as_storage s)} w :
  tables_wf (s_seq (w_store w)) (s_db (w_store w)) →
  confirm (as_queue s) id (w_store w) (run (MarkAssetUploaded s id) w)
    (w_store (exec (MarkAssetUploaded s id) w)) ∧
  txs_closed (w_store w) (w_store (exec (MarkAssetUploaded s id) w)).
Proof. intros Hwf. by apply MarkAssetUploaded_confirm. Qed.

(** C2: the invariant of the system. From any state that satisfies it, the empty
    one in particular, after any sequence of requests and under any failures:
    jobs belong to assets and have distinct numbers, an asset has a processing
    job exactly when its upload was confirmed, every transaction is finished, and
    every entry of the stream announces a committed job of that asset. *)
Theorem service_invariant s l `{!StorageLaws (as_storage s)} w :
  store_wf (as_queue s) (w_store w) →
  store_wf (as_queue s) (w_store (exec (serve_all s l) w)).
Proof.
  revert w. induction l as [|q l IH]; intros w Hwf; [done|].
  cbn [serve_all]. rewrite exec_bind. by apply IH, serve_wf.
Qed.

(** C25: confirming is idempotent. Once a confirmation has succeeded, confirming
    the same asset again, at any later time with the same store, leaves tables
    and stream as they are. *)
Theorem MarkAssetUploaded_idempotent s id `{!StorageLaws (as_storage s)} w w' :
  tables_wf (s_seq (w_store w)) (s_db (w_store w)) →
  run (MarkAssetUploaded s id) w = Ok tt →
  w_store w' = w_store (exec (MarkAssetUploaded s id) w) →
  s_db (w_store (exec (MarkAssetUploaded s id) w')) = s_db (w_store w') ∧
  s_stream (w_store (exec (MarkAssetUploaded s id) w')) = s_stream (w_store w').
Proof.
  intros Hwf Hok Hw'. destruct (MarkAssetUploaded_confirm s id w Hwf) as [Hc _].
  rewrite Hok, <-Hw' in Hc.
  assert (H : tables_wf (s_seq (w_store w')) (s_db (w_store w')) ∧
    (∀ r, t_assets (s_db (w_store w')) !! id = Some r → a_status r ≠ StatusUploading)).
  { inversion Hc as [|st' Hno Hdb ? Hsq|res r now ts n st' Hr Hst Hdb Hsq]; subst.
    - rewrite Hdb, Hsq. by split.
    - rewrite Hdb, Hsq. split; [by apply upload_confirmed_wf|].
      intros r'. cbn. rewrite lookup_insert_eq. by intros [= <-]. }
  destruct H as [Hwf' Hno]. destruct (MarkAssetUploaded_confirm s id w' Hwf') as [Hc' _].
  by apply (confirm_settled _ _ _ _ _ Hc').
Qed.

(** C19: a confirmed asset is never enqueued again. Once its status has left
    "uploading", whatever number of confirmations follow, and however Redis
    behaves, neither the tables nor the stream change: a job whose first XADD
    failed after the COMMIT is not sent by a retry of the request. *)
Theorem confirmed_never_requeued s id n `{!StorageLaws (as_storage s)} w :
  tables_wf (s_seq (w_store w)) (s_db (w_store w)) →
  (∀ r, t_assets (s_db (w_store w)) !! id = Some r → a_status r ≠ StatusUploading) →
  let w' := exec (serve_all s (ReqUploaded <$> replicate n id)) w in
  s_db (w_store w') = s_db (w_store w) ∧ s_stream (w_store w') = s_stream (w_store w).
Proof.
  intros Hwf Hno. apply serve_uploaded_settled with (id := id); [done|done| |done].
  by apply Forall_replicate.
Qed.

(** C20: when nothing fails, confirming a waiting asset succeeds: its status
    becomes "uploaded", its job is inserted with the next number, and exactly one
    entry for that job is appended to the stream. *)
Theorem MarkAssetUploaded_succeeds {H : Healthy E} s id r
    `{!StorageLaws (as_storage s)} w :
  tables_wf (s_seq (w_store w)) (s_db (w_store w)) →
  (∀ w', is_ok (run (GetObjectAttrs (as_storage s) (as_bucket s) (object_key id)) w')) →
  rq_redis (as_queue s) ≠ None → (0 ≤ qo_MaxRetries (rq_options (as_queue s)))%Z →
  t_assets (s_db (w_store w)) !! id = Some r → a_status r = StatusUploading →
  let w' := exec (MarkAssetUploaded s id) w in
  run (MarkAssetUploaded s id) w = Ok tt ∧
  ∃ now ts,
    s_db (w_store w') = upload_confirmed id r now (s_seq (w_store w)) (s_db (w_store w)) ∧
    s_stream (w_store w') = s_stream (w_store w) ++
      [job_entry (as_queue s) id (s_seq (w_store w)) ts].
Proof. intros. by apply MarkAssetUploaded_ok. Qed.

(** C26: an upload is never confirmed without its object. If the provider does
    not find the object under the key CreateAsset presigned, the request fails
    and the store is untouched. *)
Theorem missing_object_refused s id `{!StorageLaws (as_storage s)} w :
  (∀ w', is_ok (run (GetObjectAttrs (as_storage s) (as_bucket s) (object_key id)) w')
         = false) →
  is_ok (run (MarkAssetUploaded s id) w) = false ∧
  w_store (exec (MarkAssetUploaded s id) w) = w_store w.
Proof.
  intros Hno. enough (wp (MarkAssetUploaded s id) (λ res w',
    is_ok res = false ∧ w_store w' = w_store w) w) by done.
  apply wp_with_span. intros span w1 Hw1. rewrite wp_bind. apply wp_in_span.
  intros sp w2 Hw2. rewrite wp_run. specialize (Hno w2).
  destruct (run _ w2) as [|e]; [done|]. intros w3 Hw3. rewrite attrs_keeps in Hw3.
  wp_skips. intros. split; [done|]. by rewrite_stores.
Qed.

(** Both operations end every span they start, exactly once, on every path;
    in particular the deferred function ends the transaction's span. *)
Theorem service_ends_spans s request id `{!StorageLaws (as_storage s)} :
  ends_spans (CreateAsset s request) ∧ ends_spans (MarkAssetUploaded s id).
Proof. split; [by apply ends_spans_service_CreateAsset|by apply ends_spans_MarkAssetUploaded]. Qed.

(** Construction. A service that is returned satisfies what the theorems
    about it assume: its storage client keeps the laws, its queue retries three
    times; and it has no Redis client exactly when the Redis URL is set and
    invalid (the constructor drops that error). Without a configuration it
    panics. *)
Theorem NewAssetService_contract redisCfg repo_m m w :
  match w_cfg w, NewAssetService redisCfg repo_m m w with
  | None, (o, w') => w' = w ∧ ∃ v, o = Panicked v
  | Some cfg, (Returned s, w') =>
      w_store w' = w_store w ∧ StorageLaws (as_storage s) ∧
      as_bucket s = effective_bucket (cfg_Storage cfg) ∧
      qo_MaxRetries (rq_options (as_queue s)) = 3%Z ∧
      (rq_redis (as_queue s) = None ↔
         redis_ConnectionString redisCfg ≠ "" ∧
         is_ok (redis_ParseURL (redis_ConnectionString redisCfg)) = false)
  | Some cfg, (Panicked _, w') =>
      w_store w' = w_store w ∧ is_ok (New (storage_config (cfg_Storage cfg)) m) = false
  end.
Proof.
  destruct (w_cfg w) as [cfg|] eqn:Hcfg; unfold NewAssetService, mbind, M_bind, MustGet;
    rewrite Hcfg; [|cbn; eauto]. cbn [from_outcome].
  destruct (New (storage_config (cfg_Storage cfg)) m) as [st|e] eqn:Hnew; [|done].
  assert (StorageLaws st).
  { revert Hnew. apply New_laws. }
  unfold lift, MustGetRedisClient.
  destruct (String.eqb_spec (redis_ConnectionString redisCfg) "") as [Hs|Hs]; cbn.
  { split_and!; [done..|]. naive_solver. }
  destruct (redis_ParseURL _) as [[[a p] d]|e]; cbn; split_and!; naive_solver.
Qed.

End Service.

(** ** Runs of the service *)
Module ServiceDemo.

(** A Redis that refuses the first 40 external calls of the script. *)
Definition redis_down : Env :=
  script_env (λ _, None) (λ _, None) (λ _, None) (λ _, None)
    (λ n, if n <? 40 then Err {| lr_error := EText "connection refused"; lr_applied := false |}
          else Ok "1-0") (λ _, None).

Section Demo.
Context (E : Env) (found : bool).

Definition svc : assetService := {|
  as_repo_m := true;
  as_storage := s3_StorageX (L := amd64_golib) (K := demo_cloud (λ _ _, found))
                  StorageDemo.minio_storage;
  as_bucket := "mpiper";
  as_queue := NewRedisQueue (Some QueueDemo.client) service_queue_options true;
  as_m := true |}.

#[export] Instance svc_laws : StorageLaws (as_storage svc).
Proof. apply s3_laws. Qed.
End Demo.

Definition request0 : UploadAssetRequest :=
  {| req_FileName := "a.mp4"; req_ContentType := "video/mp4"; req_Size := 4 |}.

(** Asset 7 waits for its upload. *)
Definition waiting : asset_row := new_asset request0 "http://minio:9000/mpiper/media/raw/7" 0.
Definition store7 : store :=
  set_db {| t_assets := {[7%N := waiting]}; t_jobs := ∅ |} empty_store.
Definition w7 : world := world_of store7 None.

Lemma tables7_wf : tables_wf 1%Z (s_db store7).
Proof.
  apply (sql_insert_asset_wf 1 7%N "http://minio:9000/mpiper/media/raw/7" VideoAsset "video/mp4"
           4 0 empty_tables); [apply empty_tables_wf|reflexivity].
Qed.

Lemma store7_wf {E : Env} rq : store_wf rq store7.
Proof. constructor; [apply tables7_wf|constructor..]. Qed.

Lemma CreateAsset_refines_witness :
  created (E := fine_env) (svc fine_env true) request0 empty_store
    (run (CreateAsset (E := fine_env) (svc fine_env true) request0) (world_of empty_store None))
    (w_store (exec (CreateAsset (E := fine_env) (svc fine_env true) request0) (world_of empty_store None))).
Proof. apply (CreateAsset_refines (E := fine_env) (svc fine_env true) request0 (world_of empty_store None)). Defined.

Lemma MarkAssetUploaded_refines_witness :
  confirm (E := redis_down) (as_queue (svc redis_down true)) 7%N store7
    (run (MarkAssetUploaded (E := redis_down) (svc redis_down true) 7%N) w7)
    (w_store (exec (MarkAssetUploaded (E := redis_down) (svc redis_down true) 7%N) w7)).
Proof. apply (MarkAssetUploaded_refines (E := redis_down) (svc redis_down true) 7%N w7). apply tables7_wf. Defined.

Lemma service_invariant_witness :
  store_wf (E := fine_env) (as_queue (svc fine_env true))
    (w_store (exec (serve_all (E := fine_env) (svc fine_env true)
       [ReqCreate request0; ReqUploaded 7%N; ReqUploaded 7%N]) w7)).
Proof.
  apply (service_invariant (E := fine_env) (svc fine_env true)
           [ReqCreate request0; ReqUploaded 7%N; ReqUploaded 7%N] w7).
  apply store7_wf.
Defined.

Lemma MarkAssetUploaded_idempotent_witness :
  let w' := exec (MarkAssetUploaded (E := fine_env) (svc fine_env true) 7%N) w7 in
  s_stream (w_store (exec (MarkAssetUploaded (E := fine_env) (svc fine_env true) 7%N) w')) =
  s_stream (w_store w').
Proof.
  intros w'. apply (MarkAssetUploaded_idempotent (E := fine_env) (svc fine_env true) 7%N w7 w').
  - apply tables7_wf.
  - vm_compute. reflexivity.
  - reflexivity.
Defined.

(** The lost job: the first request fails after its COMMIT; Redis is back, the
    client retries three times and is told each time that all is well, and the
    stream is still empty. *)
Definition w_lost : world := exec (MarkAssetUploaded (E := redis_down) (svc redis_down true) 7%N) w7.

Lemma set_tick_store n w : w_store (set_tick n w) = w_store w.
Proof. done. Qed.

Lemma lost_wf : tables_wf (s_seq (w_store w_lost)) (s_db (w_store w_lost)).
Proof.
  destruct (MarkAssetUploaded_confirm (E := redis_down) (svc redis_down true) 7%N w7 tables7_wf)
    as [Hc Hx].
  exact (sw_tables _ _ (confirm_wf _ _ _ _ _ (store7_wf _) Hc Hx)).
Qed.

Lemma confirmed_never_requeued_witness :
  is_ok (run (MarkAssetUploaded (E := redis_down) (svc redis_down true) 7%N) w7) = false ∧
  is_ok (run (MarkAssetUploaded (E := redis_down) (svc redis_down true) 7%N) (set_tick 40 w_lost)) = true ∧
  is_Some (t_jobs (s_db (w_store w_lost)) !! (7%N, process_asset)) ∧
  s_stream (w_store (exec (serve_all (E := redis_down) (svc redis_down true)
    (ReqUploaded <$> replicate 3 7%N)) (set_tick 40 w_lost))) = [].
Proof.
  split_and!; [vm_compute; reflexivity|vm_compute; reflexivity|vm_compute; by eexists|].
  etransitivity.
  - apply (confirmed_never_requeued (E := redis_down) (svc redis_down true) 7%N 3 (set_tick 40 w_lost)).
    + rewrite !set_tick_store. exact lost_wf.
    + intros r. vm_compute. by intros [= <-].
  - vm_compute. reflexivity.
Defined.

(** An identifier without a row is confirmed all the same, as long as the provider
    has an object under its key; nothing is written. *)
Example unknown_asset_confirmed :
  let w := world_of empty_store None in
  let w' := exec (MarkAssetUploaded (E := fine_env) (svc fine_env true) 7%N) w in
  run (MarkAssetUploaded (E := fine_env) (svc fine_env true) 7%N) w = Ok tt ∧
  t_assets (s_db (w_store w)) !! 7%N = None ∧
  s_db (w_store w') = empty_tables ∧ s_stream (w_store w') = [].
Proof. vm_compute. repeat split. Qed.

Lemma MarkAssetUploaded_succeeds_witness :
  run (MarkAssetUploaded (E := fine_env) (svc fine_env true) 7%N) w7 = Ok tt ∧
  t_assets (s_db store7) !! 7%N = Some waiting.
Proof.
  split; [|reflexivity].
  apply (MarkAssetUploaded_succeeds (E := fine_env) (svc fine_env true) 7%N waiting w7).
  - apply tables7_wf.
  - intros w'. reflexivity.
  - discriminate.
  - vm_compute. discriminate.
  - reflexivity.
  - reflexivity.
Defined.

Lemma missing_object_refused_witness :
  is_ok (run (MarkAssetUploaded (E := fine_env) (svc fine_env false) 7%N) w7) = false.
Proof.
  apply (missing_object_refused (E := fine_env) (svc fine_env false) 7%N w7). intros w'. reflexivity.
Defined.

Lemma service_ends_spans_witness :
  ends_spans (MarkAssetUploaded (E := redis_down) (svc redis_down true) 7%N).
Proof. apply (service_ends_spans (E := redis_down) (svc redis_down true) request0 7%N). Defined.

End ServiceDemo.
