(* ===== verification/JsonDecode.v ===== *)
(** * encoding/json: decoding a request body

    [json.NewDecoder(body).Decode(&req)] for [UploadAssetRequest]: the scanner
    reads the first JSON value of the body (what follows is ignored), strings are
    unquoted as Go does (escapes, surrogate pairs, invalid UTF-8), and the value
    is stored into the struct's fields, whose names are matched up to case. Only
    the error's text is a parameter.

    The parser recurses with fuel, twice the length of the text; [parse_value_fuel]
    shows that more changes nothing. *)

From stdpp Require Import base gmap strings list numbers pretty.
From Stdlib Require Import ZArith Lia Ascii.
From S2P Require Import Prelude GoStd AppErrors Assets Json.

(** ** Values *)

(** Numbers keep their text. *)
Inductive jvalue :=
| JNull
| JBool (b : bool)
| JNum (lit : string)
| JStr (s : string)
| JArr (l : list jvalue)
| JObj (l : list (string * jvalue)).

(** ** Strings *)

Definition is_code (c : ascii) (n : nat) : bool := byte_val c =? n.

Definition hex_val (c : ascii) : option nat :=
  let b := byte_val c in
  if (48 <=? b) && (b <=? 57) then Some (b - 48)
  else if (97 <=? b) && (b <=? 102) then Some (b - 87)
  else if (65 <=? b) && (b <=? 70) then Some (b - 55)
  else None.

Definition hex4 (a b c d : ascii) : option N :=
  match hex_val a, hex_val b, hex_val c, hex_val d with
  | Some a, Some b, Some c, Some d =>
      Some (4096 * N.of_nat a + 256 * N.of_nat b + 16 * N.of_nat c + N.of_nat d)%N
  | _, _, _, _ => None
  end.

Definition byte_of (n : N) : string := String (ascii_of_N n) EmptyString.

(** [utf8.AppendRune] below U+110000; surrogates never get here. *)
Definition utf8_encode (r : N) : string :=
  (if r <? 128 then byte_of r
   else if r <? 2048 then byte_of (192 + r / 64) +:+ byte_of (128 + r mod 64)
   else if r <? 65536 then
     byte_of (224 + r / 4096) +:+ byte_of (128 + r / 64 mod 64) +:+ byte_of (128 + r mod 64)
   else byte_of (240 + r / 262144) +:+ byte_of (128 + r / 4096 mod 64) +:+
        byte_of (128 + r / 64 mod 64) +:+ byte_of (128 + r mod 64))%N.

Definition replacement : string := utf8_encode 65533.

Definition is_surrogate (r : N) : bool := (55296 <=? r)%N && (r <? 57344)%N.

(** [utf16.DecodeRune] of a high and a low surrogate. *)
Definition decode_surrogate (r1 r2 : N) : option N :=
  if (55296 <=? r1)%N && (r1 <? 56320)%N && (56320 <=? r2)%N && (r2 <? 57344)%N
  then Some ((r1 - 55296) * 1024 + (r2 - 56320) + 65536)%N else None.

Definition simple_escape (c : ascii) : option nat :=
  match byte_val c with
  | 34 => Some 34 | 92 => Some 92 | 47 => Some 47 | 98 => Some 8 | 102 => Some 12
  | 110 => Some 10 | 114 => Some 13 | 116 => Some 9 | _ => None
  end.

Definition push (t : string) (r : option (string * string)) : option (string * string) :=
  match r with Some (s, rest) => Some (t +:+ s, rest) | None => None end.

(** The contents of a string after its opening quote, and what follows its
    closing one. *)
Fixpoint unquote (s : string) : option (string * string) :=
  match s with
  | EmptyString => None
  | String c s' =>
      if is_code c 34 then Some (EmptyString, s')
      else if is_code c 92 then
        match s' with
        | EmptyString => None
        | String e s2 =>
            match simple_escape e with
            | Some d => push (char d) (unquote s2)
            | None =>
                if is_code e 117 then
                  match s2 with
                  | String a (String b (String d (String f s3))) =>
                      match hex4 a b d f with
                      | None => None
                      | Some r =>
                          if is_surrogate r then
                            match s3 with
                            | String x (String y (String a' (String b' (String d' (String f' s4))))) =>
                                let r2 := if is_code x 92 && is_code y 117
                                          then hex4 a' b' d' f' else None in
                                match r2 ≫= decode_surrogate r with
                                | Some rune => push (utf8_encode rune) (unquote s4)
                                | None => push replacement (unquote s3)
                                end
                            | _ => push replacement (unquote s3)
                            end
                          else push (utf8_encode r) (unquote s3)
                      end
                  | _ => None
                  end
                else None
            end
        end
      else if byte_val c <? 32 then None
      else if byte_val c <? 128 then push (String c EmptyString) (unquote s')
      else match utf8_size c s', s' with
      | 2, String c1 s1 => push (String c (String c1 EmptyString)) (unquote s1)
      | 3, String c1 (String c2 s2) =>
          push (String c (String c1 (String c2 EmptyString))) (unquote s2)
      | 4, String c1 (String c2 (String c3 s3)) =>
          push (String c (String c1 (String c2 (String c3 EmptyString)))) (unquote s3)
      | _, _ => push replacement (unquote s')
      end
  end.

(** ** Numbers and literals *)

(** The digits a text begins with, and the rest. *)
Fixpoint span_digits (s : string) : string * string :=
  match s with
  | EmptyString => (EmptyString, EmptyString)
  | String c s' =>
      if is_digit c then let '(d, r) := span_digits s' in (String c d, r)
      else (EmptyString, s)
  end.

(** At least one digit. *)
Definition digits1 (s : string) : option (string * string) :=
  match span_digits s with (EmptyString, _) => None | dr => Some dr end.

(** No digit follows a leading zero. *)
Definition scan_int (s : string) : option (string * string) :=
  match s with
  | String c s' => if is_code c 48 then Some (String c EmptyString, s') else digits1 s
  | EmptyString => None
  end.

Definition scan_frac (s : string) : option (string * string) :=
  match s with
  | String c s' =>
      if is_code c 46 then push (String c EmptyString) (digits1 s') else Some (EmptyString, s)
  | EmptyString => Some (EmptyString, s)
  end.

Definition scan_exp (s : string) : option (string * string) :=
  match s with
  | String e s' =>
      if is_code e 101 || is_code e 69 then
        match s' with
        | String g s2 =>
            if is_code g 43 || is_code g 45
            then push (String e (String g EmptyString)) (digits1 s2)
            else push (String e EmptyString) (digits1 s')
        | EmptyString => None
        end
      else Some (EmptyString, s)
  | EmptyString => Some (EmptyString, s)
  end.

Definition scan_unsigned (s : string) : option (string * string) :=
  match scan_int s with
  | None => None
  | Some (i, s1) =>
      match scan_frac s1 with
      | None => None
      | Some (f, s2) =>
          match scan_exp s2 with
          | None => None
          | Some (e, s3) => Some (i +:+ f +:+ e, s3)
          end
      end
  end.

Definition scan_number (s : string) : option (string * string) :=
  match s with
  | String c s' =>
      if is_code c 45 then push (String c EmptyString) (scan_unsigned s')
      else scan_unsigned s
  | EmptyString => None
  end.

(** The rest after a fixed text. *)
Fixpoint strip (p s : string) : option string :=
  match p, s with
  | EmptyString, _ => Some s
  | String c p', String d s' => if decide (c = d) then strip p' s' else None
  | _, EmptyString => None
  end.

Definition json_space (c : ascii) : bool :=
  is_code c 32 || is_code c 9 || is_code c 10 || is_code c 13.

Definition skip_ws (s : string) : string := trim_left json_space s.

(** ** Values of a text *)

(** Nesting beyond this is an error. *)
Definition maxNestingDepth : nat := 100 * 100.

Fixpoint parse_value (fuel depth : nat) (s : string) : option (jvalue * string) :=
  match fuel with
  | O => None
  | S fuel' =>
      match skip_ws s with
      | EmptyString => None
      | String c s' =>
          if is_code c 34 then
            match unquote s' with Some (t, r) => Some (JStr t, r) | None => None end
          else if is_code c 123 then
            if maxNestingDepth <=? depth then None
            else match skip_ws s' with
            | String d r =>
                if is_code d 125 then Some (JObj [], r)
                else match parse_members fuel' (S depth) s' with
                     | Some (l, r) => Some (JObj l, r) | None => None end
            | EmptyString => None
            end
          else if is_code c 91 then
            if maxNestingDepth <=? depth then None
            else match skip_ws s' with
            | String d r =>
                if is_code d 93 then Some (JArr [], r)
                else match parse_elements fuel' (S depth) s' with
                     | Some (l, r) => Some (JArr l, r) | None => None end
            | EmptyString => None
            end
          else if is_code c 116 then
            match strip "rue" s' with Some r => Some (JBool true, r) | None => None end
          else if is_code c 102 then
            match strip "alse" s' with Some r => Some (JBool false, r) | None => None end
          else if is_code c 110 then
            match strip "ull" s' with Some r => Some (JNull, r) | None => None end
          else match scan_number (String c s') with
               | Some (n, r) => Some (JNum n, r) | None => None end
      end
  end
with parse_elements (fuel depth : nat) (s : string) : option (list jvalue * string) :=
  match fuel with
  | O => None
  | S fuel' =>
      match parse_value fuel' depth s with
      | None => None
      | Some (v, r) =>
          match skip_ws r with
          | String c r' =>
              if is_code c 93 then Some ([v], r')
              else if is_code c 44 then
                match parse_elements fuel' depth r' with
                | Some (l, r2) => Some (v :: l, r2) | None => None end
              else None
          | EmptyString => None
          end
      end
  end
with parse_members (fuel depth : nat) (s : string) : option (list (string * jvalue) * string) :=
  match fuel with
  | O => None
  | S fuel' =>
      match skip_ws s with
      | String q s1 =>
          if is_code q 34 then
            match unquote s1 with
            | None => None
            | Some (k, s2) =>
                match skip_ws s2 with
                | String colon s3 =>
                    if is_code colon 58 then
                      match parse_value fuel' depth s3 with
                      | None => None
                      | Some (v, r) =>
                          match skip_ws r with
                          | String c r' =>
                              if is_code c 125 then Some ([(k, v)], r')
                              else if is_code c 44 then
                                match parse_members fuel' depth r' with
                                | Some (l, r2) => Some ((k, v) :: l, r2) | None => None end
                              else None
                          | EmptyString => None
                          end
                      end
                    else None
                | EmptyString => None
                end
            end
          else None
      | EmptyString => None
      end
  end.

(** The first value of a text. *)
Definition json_parse (s : string) : option jvalue :=
  fst <$> parse_value (2 * String.length s + 2) 0 s.

(** ** Storing into the struct *)

(** The folding of field names: case, and the two letters outside ASCII that fold
    into it (U+017F is an s, U+212A a k). *)
Fixpoint foldName (s : string) : string :=
  match s with
  | String c s' =>
      if byte_val c =? 197 then
        match s' with
        | String d s2 => if byte_val d =? 191 then "s" +:+ foldName s2
                         else String c (foldName s')
        | EmptyString => s
        end
      else if byte_val c =? 226 then
        match s' with
        | String d (String e s3) =>
            if (byte_val d =? 132) && (byte_val e =? 170) then "k" +:+ foldName s3
            else String c (foldName s')
        | _ => String c (foldName s')
        end
      else String (ascii_lower c) (foldName s')
  | EmptyString => EmptyString
  end.

(** The request so far and whether a value had the wrong type. *)
Definition set_field (st : UploadAssetRequest * bool) (kv : string * jvalue)
    : UploadAssetRequest * bool :=
  let '(req, bad) := st in
  let '(k, v) := kv in
  let name := foldName k in
  if name =s "filename" then
    match v with
    | JStr s => ({| req_FileName := s; req_ContentType := req_ContentType req;
                    req_Size := req_Size req |}, bad)
    | JNull => st
    | _ => (req, true)
    end
  else if name =s "contenttype" then
    match v with
    | JStr s => ({| req_FileName := req_FileName req; req_ContentType := s;
                    req_Size := req_Size req |}, bad)
    | JNull => st
    | _ => (req, true)
    end
  else if name =s "size" then
    match v with
    | JNum lit =>
        match strconv_ParseInt lit with
        | Some z => ({| req_FileName := req_FileName req;
                        req_ContentType := req_ContentType req; req_Size := z |}, bad)
        | None => (req, true)
        end
    | JNull => st
    | _ => (req, true)
    end
  else st.

Definition zero_request : UploadAssetRequest :=
  {| req_FileName := ""; req_ContentType := ""; req_Size := 0 |}.

(** The text of the error for a body. *)
Class JsonErrors := { json_error : string → error }.

(** [utils.ParseJSON(body, &req)] *)
Definition ParseJSON `{JsonErrors} (body : string) : result error UploadAssetRequest :=
  match json_parse body with
  | None => Err (json_error body)
  | Some JNull => Ok zero_request
  | Some (JObj l) =>
      let '(req, bad) := foldl set_field (zero_request, false) l in
      if bad : bool then Err (json_error body) else Ok req
  | Some _ => Err (json_error body)
  end.

(** What a client of this API sends: the marshalled request. *)
Definition request_json (req : UploadAssetRequest) : any :=
  AStruct [("fileName", AStr (req_FileName req));
           ("contentType", AStr (req_ContentType req)); ("size", AInt (req_Size req))].

(** ** Every step of the parser reads something *)

Lemma trim_left_length p s : String.length (trim_left p s) ≤ String.length s.
Proof. induction s as [|c s IH]; [done|]. simpl. destruct (p c); simpl; lia. Qed.

Lemma push_Some t r s rest :
  push t r = Some (s, rest) → ∃ s', r = Some (s', rest) ∧ s = (t +:+ s')%string.
Proof. destruct r as [[s' r']|]; [|done]. intros [= <- <-]. eauto. Qed.

(** The tails a step of [unquote] may go on with. *)
Lemma unquote_length s t r : unquote s = Some (t, r) → String.length r < String.length s.
Proof.
  remember (String.length s) as n eqn:Hn. revert s t r Hn.
  induction n as [n IH] using lt_wf_ind. intros s t r -> H.
  assert (Hpush : ∀ u s', String.length s' < String.length s →
    push u (unquote s') = Some (t, r) → String.length r < String.length s).
  { intros u s' Hlt (s1 & Hr & _)%push_Some.
    pose proof (IH _ Hlt s' s1 r eq_refl Hr). lia. }
  destruct s as [|c s']; [done|]. cbn [unquote] in H.
  repeat case_match; simplify_eq; try (simpl; lia);
    (eapply Hpush; [|exact H]; simpl; lia).
Qed.

Lemma span_digits_length s d r :
  span_digits s = (d, r) → String.length s = String.length d + String.length r.
Proof.
  revert d r. induction s as [|c s IH]; intros d r; simpl; [by intros [= <- <-]|].
  destruct (is_digit c); [|by intros [= <- <-]].
  destruct (span_digits s) as [d' r']. intros [= <- <-]. simpl.
  by rewrite (IH d' r' eq_refl).
Qed.

Lemma digits1_length s d r : digits1 s = Some (d, r) → String.length r < String.length s.
Proof.
  unfold digits1. destruct (span_digits s) as [d' r'] eqn:E.
  apply span_digits_length in E. destruct d'; [done|]. intros [= <- <-]. simpl in E. lia.
Qed.

Lemma scan_int_length s d r : scan_int s = Some (d, r) → String.length r < String.length s.
Proof.
  destruct s as [|c s']; [done|]. simpl. destruct (is_code c 48); [|apply digits1_length].
  intros [= <- <-]. lia.
Qed.

Lemma scan_frac_length s d r : scan_frac s = Some (d, r) → String.length r ≤ String.length s.
Proof.
  destruct s as [|c s']; simpl; [by intros [= <- <-]|].
  destruct (is_code c 46); [|by intros [= <- <-]].
  intros (? & H%digits1_length & _)%push_Some. lia.
Qed.

Lemma scan_exp_length s d r : scan_exp s = Some (d, r) → String.length r ≤ String.length s.
Proof.
  destruct s as [|c s']; simpl; [by intros [= <- <-]|].
  destruct (_ || _); [|by intros [= <- <-]]. destruct s' as [|g s2]; [done|].
  destruct (_ || _); intros (? & H%digits1_length & _)%push_Some; simpl in *; lia.
Qed.

Lemma scan_unsigned_length s d r :
  scan_unsigned s = Some (d, r) → String.length r < String.length s.
Proof.
  unfold scan_unsigned. destruct (scan_int s) as [[i s1]|] eqn:Hi; [|done].
  destruct (scan_frac s1) as [[f s2]|] eqn:Hf; [|done].
  destruct (scan_exp s2) as [[e s3]|] eqn:He; [|done]. intros [= _ <-].
  apply scan_int_length in Hi. apply scan_frac_length in Hf. apply scan_exp_length in He.
  lia.
Qed.

Lemma scan_number_length s d r :
  scan_number s = Some (d, r) → String.length r < String.length s.
Proof.
  destruct s as [|c s']; [done|]. cbn [scan_number]. destruct (is_code c 45).
  - intros (? & H%scan_unsigned_length & _)%push_Some. simpl. lia.
  - apply scan_unsigned_length.
Qed.

Lemma strip_length p s r : strip p s = Some r → String.length r ≤ String.length s.
Proof.
  revert s. induction p as [|c p IH]; intros s; simpl; [by intros [= <-]|].
  destruct s as [|d s]; [done|]. case_decide; [|done]. intros ?%IH. simpl. lia.
Qed.

(** What remains of a text after white space, in terms of its first character. *)
Lemma skip_ws_cons s c s' : skip_ws s = String c s' → S (String.length s') ≤ String.length s.
Proof.
  intros H. pose proof (trim_left_length json_space s) as Hl. unfold skip_ws in H.
  rewrite H in Hl. exact Hl.
Qed.

Ltac parse_lengths :=
  repeat match goal with
  | H : skip_ws _ = String _ _ |- _ => apply skip_ws_cons in H
  | H : unquote _ = Some _ |- _ => apply unquote_length in H
  | H : strip _ _ = Some _ |- _ => apply strip_length in H
  | H : scan_number _ = Some _ |- _ => apply scan_number_length in H
  end; simpl in *.

Lemma parse_length fuel :
  (∀ d s v r, parse_value fuel d s = Some (v, r) → String.length r < String.length s) ∧
  (∀ d s l r, parse_elements fuel d s = Some (l, r) → String.length r < String.length s) ∧
  (∀ d s l r, parse_members fuel d s = Some (l, r) → String.length r < String.length s).
Proof.
  induction fuel as [|f (IHv & IHe & IHm)]; [done|].
  split_and!; intros d s v r H.
  - cbn [parse_value] in H. repeat case_match; simplify_eq;
      repeat match goal with
      | H : parse_elements _ _ _ = Some _ |- _ => apply IHe in H
      | H : parse_members _ _ _ = Some _ |- _ => apply IHm in H
      end; parse_lengths; lia.
  - cbn [parse_elements] in H. repeat case_match; simplify_eq;
      repeat match goal with
      | H : parse_elements _ _ _ = Some _ |- _ => apply IHe in H
      | H : parse_value _ _ _ = Some _ |- _ => apply IHv in H
      end; parse_lengths; lia.
  - cbn [parse_members] in H. repeat case_match; simplify_eq;
      repeat match goal with
      | H : parse_members _ _ _ = Some _ |- _ => apply IHm in H
      | H : parse_value _ _ _ = Some _ |- _ => apply IHv in H
      end; parse_lengths; lia.
Qed.
(** *** Fuel *)

(** More fuel than twice the length changes nothing. *)
Lemma parse_fuel n :
  (∀ s f g d, String.length s ≤ n → 2 * String.length s < f → 2 * String.length s < g →
     parse_value f d s = parse_value g d s) ∧
  (∀ s f g d, String.length s ≤ n → 2 * String.length s + 1 < f →
     2 * String.length s + 1 < g → parse_elements f d s = parse_elements g d s) ∧
  (∀ s f g d, String.length s ≤ n → 2 * String.length s + 1 < f →
     2 * String.length s + 1 < g → parse_members f d s = parse_members g d s).
Proof.
  induction n as [n IH] using lt_wf_ind.
  assert (HIv : ∀ m s f g d, m < n → String.length s ≤ m → 2 * String.length s < f →
    2 * String.length s < g → parse_value f d s = parse_value g d s).
  { intros m s f g d Hm. by apply (IH m Hm). }
  assert (HIe : ∀ m s f g d, m < n → String.length s ≤ m → 2 * String.length s + 1 < f →
    2 * String.length s + 1 < g → parse_elements f d s = parse_elements g d s).
  { intros m s f g d Hm. by apply (IH m Hm). }
  assert (HIm : ∀ m s f g d, m < n → String.length s ≤ m → 2 * String.length s + 1 < f →
    2 * String.length s + 1 < g → parse_members f d s = parse_members g d s).
  { intros m s f g d Hm. by apply (IH m Hm). }
  clear IH.
  assert (Hv : ∀ s f g d, String.length s ≤ n → 2 * String.length s < f →
    2 * String.length s < g → parse_value f d s = parse_value g d s).
  { intros s [|f] [|g] d Hn Hf Hg; [lia..|]. cbn [parse_value].
    destruct (skip_ws s) as [|c s'] eqn:Hws; [done|]. apply skip_ws_cons in Hws.
    rewrite (HIe (String.length s') s' f g (S d)) by lia.
    by rewrite (HIm (String.length s') s' f g (S d)) by lia. }
  split_and!; [exact Hv| |].
  - intros s [|f] [|g] d Hn Hf Hg; [lia..|]. cbn [parse_elements].
    rewrite (Hv s f g d) by lia.
    destruct (parse_value g d s) as [[v r]|] eqn:Hp; [|done].
    apply (proj1 (parse_length g)) in Hp.
    destruct (skip_ws r) as [|c r'] eqn:Hws; [done|]. apply skip_ws_cons in Hws.
    by rewrite (HIe (String.length r') r' f g d) by lia.
  - intros s [|f] [|g] d Hn Hf Hg; [lia..|]. cbn [parse_members].
    destruct (skip_ws s) as [|q s1] eqn:Hws; [done|]. apply skip_ws_cons in Hws.
    destruct (is_code q 34); [|done].
    destruct (unquote s1) as [[k s2]|] eqn:Hu; [|done]. apply unquote_length in Hu.
    destruct (skip_ws s2) as [|colon s3] eqn:Hws2; [done|]. apply skip_ws_cons in Hws2.
    destruct (is_code colon 58); [|done].
    rewrite (HIv (String.length s3) s3 f g d) by lia.
    destruct (parse_value g d s3) as [[v r]|] eqn:Hp; [|done].
    apply (proj1 (parse_length g)) in Hp.
    destruct (skip_ws r) as [|c r'] eqn:Hws3; [done|]. apply skip_ws_cons in Hws3.
    by rewrite (HIm (String.length r') r' f g d) by lia.
Qed.

Lemma parse_value_fuel s f d :
  2 * String.length s + 2 ≤ f →
  parse_value f d s = parse_value (2 * String.length s + 2) d s.
Proof. intros H. apply (parse_fuel (String.length s)); lia. Qed.

(** ** Reading back what Go writes *)

(** What Go makes of a string on the way: every invalid byte becomes U+FFFD. *)
Fixpoint to_valid_utf8 (s : string) : string :=
  match s with
  | EmptyString => EmptyString
  | String c s' =>
      if byte_val c <? 128 then String c (to_valid_utf8 s')
      else match utf8_size c s', s' with
      | 2, String c1 s1 => String c (String c1 (to_valid_utf8 s1))
      | 3, String c1 (String c2 s2) => String c (String c1 (String c2 (to_valid_utf8 s2)))
      | 4, String c1 (String c2 (String c3 s3)) =>
          String c (String c1 (String c2 (String c3 (to_valid_utf8 s3))))
      | _, _ => replacement +:+ to_valid_utf8 s'
      end
  end.

Lemma to_valid_utf8_ascii s : is_ascii s = true → to_valid_utf8 s = s.
Proof.
  unfold is_ascii. induction s as [|c s IH]; [done|]. cbn [string_forall to_valid_utf8].
  intros [Hc Hs]%andb_prop. by rewrite Hc, IH.
Qed.

Lemma push_push t u r : push t (push u r) = push (t +:+ u)%string r.
Proof. destruct r as [[s rest]|]; [|done]. simpl. by rewrite string_append_assoc. Qed.

Lemma unquote_escape_ascii c u :
  byte_val c < 128 → unquote (escape_ascii c +:+ u) = push (String c EmptyString) (unquote u).
Proof. destruct c as [[] [] [] [] [] [] [] []]; intros H; (vm_compute in H; lia) || reflexivity. Qed.

Lemma utf8_size_2 c c1 s1 u :
  utf8_size c (String c1 s1) = 2 → utf8_size c (String c1 u) = 2.
Proof.
  cbn [utf8_size]. destruct (byte_in 194 223 c); [done|].
  destruct s1 as [|c2 s2]; [done|]. destruct (byte_in 224 239 c).
  - by destruct (_ && _).
  - destruct s2; [done|]. destruct (byte_in 240 244 c); [|done]. by destruct (_ && _).
Qed.

Lemma utf8_size_3 c c1 c2 s2 u :
  utf8_size c (String c1 (String c2 s2)) = 3 → utf8_size c (String c1 (String c2 u)) = 3.
Proof.
  cbn [utf8_size]. destruct (byte_in 194 223 c); [by destruct (byte_in 128 191 c1)|].
  destruct (byte_in 224 239 c); [done|].
  destruct s2; [done|]. destruct (byte_in 240 244 c); [|done]. by destruct (_ && _).
Qed.

Lemma utf8_size_4 c c1 c2 c3 s3 u :
  utf8_size c (String c1 (String c2 (String c3 s3))) = 4 →
  utf8_size c (String c1 (String c2 (String c3 u))) = 4.
Proof. done. Qed.

(** A valid encoding of three bytes or more has as many. *)
Lemma utf8_size_long c s' :
  match utf8_size c s' with
  | 0 => True
  | 2 => ∃ c1 s1, s' = String c1 s1
  | 3 => ∃ c1 c2 s2, s' = String c1 (String c2 s2)
  | 4 => ∃ c1 c2 c3 s3, s' = String c1 (String c2 (String c3 s3))
  | _ => False
  end.
Proof.
  unfold utf8_size. destruct s' as [|c1 s1]; [done|].
  destruct (byte_in 194 223 c); [destruct (byte_in 128 191 c1); [by do 2 eexists|done]|].
  destruct s1 as [|c2 s2]; [done|]. destruct (byte_in 224 239 c).
  { destruct (_ && _); [by do 3 eexists|done]. }
  destruct s2 as [|c3 s3]; [done|]. destruct (byte_in 240 244 c); [|done].
  destruct (_ && _); [by do 4 eexists|done].
Qed.

Lemma unquote_high c s' :
  128 ≤ byte_val c →
  unquote (String c s') =
  match utf8_size c s', s' with
  | 2, String c1 s1 => push (String c (String c1 EmptyString)) (unquote s1)
  | 3, String c1 (String c2 s2) =>
      push (String c (String c1 (String c2 EmptyString))) (unquote s2)
  | 4, String c1 (String c2 (String c3 s3)) =>
      push (String c (String c1 (String c2 (String c3 EmptyString)))) (unquote s3)
  | _, _ => push replacement (unquote s')
  end.
Proof.
  intros H. cbn [unquote]. unfold is_code.
  destruct (Nat.eqb_spec (byte_val c) 34); [lia|].
  destruct (Nat.eqb_spec (byte_val c) 92); [lia|].
  destruct (Nat.ltb_spec (byte_val c) 32); [lia|].
  by destruct (Nat.ltb_spec (byte_val c) 128); [lia|].
Qed.

Lemma byte_val_inj c n : n < 256 → byte_val c = n → c = ascii_of_nat n.
Proof. intros Hn <-. unfold byte_val. by rewrite ascii_nat_embedding. Qed.

Lemma byte_in_spec lo hi c : byte_in lo hi c = true → lo ≤ byte_val c ≤ hi.
Proof. unfold byte_in. intros [?%Nat.leb_le ?%Nat.leb_le]%andb_prop. lia. Qed.

(** The escapes of U+2028 and U+2029. *)
Lemma unquote_line_sep c2 u :
  byte_in 168 169 c2 = true →
  unquote (bs +:+ "u202" +:+ hex_digit (byte_val c2 mod 16) +:+ u) =
  push (String (ascii_of_nat 226) (String (ascii_of_nat 128) (String c2 EmptyString)))
    (unquote u).
Proof.
  intros H%byte_in_spec. assert (byte_val c2 = 168 ∨ byte_val c2 = 169) as [Hc|Hc] by lia;
    apply byte_val_inj in Hc; try lia; subst; reflexivity.
Qed.

Lemma unquote_json_escape s t :
  unquote (json_escape s +:+ dq +:+ t) = Some (to_valid_utf8 s, t).
Proof.
  remember (String.length s) as n eqn:Hn. revert s Hn.
  induction n as [n IH] using lt_wf_ind. intros s ->.
  destruct s as [|c s']; [reflexivity|]. cbn [json_escape to_valid_utf8].
  destruct (Nat.ltb_spec (byte_val c) 128) as [Hc|Hc].
  { rewrite string_append_assoc, unquote_escape_ascii by done.
    by rewrite (IH (String.length s')) by (simpl; lia). }
  assert (Hbad : unquote ((bs +:+ "ufffd" +:+ json_escape s') +:+ dq +:+ t) =
    Some (replacement +:+ to_valid_utf8 s', t)%string).
  { rewrite string_append_assoc.
    change (unquote (bs +:+ ("ufffd" +:+ json_escape s') +:+ dq +:+ t))
      with (push replacement (unquote (json_escape s' +:+ dq +:+ t))).
    by rewrite (IH (String.length s')) by (simpl; lia). }
  pose proof (utf8_size_long c s') as Hlong.
  destruct (utf8_size c s') as [|[|[|[|[|k]]]]] eqn:Hsz; try done.
  - destruct Hlong as (c1 & s1 & ->). rewrite !string_cons_append, unquote_high by done.
    rewrite (utf8_size_2 _ _ _ _ Hsz). by rewrite (IH (String.length s1)) by (simpl; lia).
  - destruct Hlong as (c1 & c2 & s2 & ->).
    destruct (_ && _) eqn:Hsep.
    + simpl_eqb. rewrite !string_append_assoc, unquote_line_sep by done.
      rewrite (IH (String.length s2)) by (simpl; lia).
      repeat match goal with H : byte_in _ _ _ = true |- _ => apply byte_in_spec in H end.
      assert (Hc0 : byte_val c = 226) by lia. assert (Hc1 : byte_val c1 = 128) by lia.
      apply byte_val_inj in Hc0; [|lia]. apply byte_val_inj in Hc1; [|lia]. by subst.
    + rewrite !string_cons_append, unquote_high by done.
      rewrite (utf8_size_3 _ _ _ _ _ Hsz). by rewrite (IH (String.length s2)) by (simpl; lia).
  - destruct Hlong as (c1 & c2 & c3 & s3 & ->).
    rewrite !string_cons_append, unquote_high by done.
    rewrite (utf8_size_4 _ _ _ _ _ _ Hsz). by rewrite (IH (String.length s3)) by (simpl; lia).
Qed.

(** Numbers: the decimal text of an integer followed by a closing brace. *)
Lemma span_digits_app d t :
  string_forall is_digit d = true →
  span_digits (d +:+ String "}" t) = (d, String "}" t)%string.
Proof.
  induction d as [|c d IH]; [done|]. cbn [string_forall]. intros [Hc Hd]%andb_prop.
  rewrite string_cons_append. cbn [span_digits]. by rewrite Hc, IH.
Qed.

Lemma scan_unsigned_pretty x t :
  scan_unsigned (pretty (x : N) +:+ String "}" t) = Some (pretty x, String "}" t)%string.
Proof.
  destruct (pretty_N_digits x) as (c & d & Hx & Hd & Hz). rewrite Hx in *.
  cbn [string_forall] in Hd. pose proof Hd as [Hc Hd']%andb_prop.
  assert (Hint : scan_int (String c d +:+ String "}" t) = Some (String c d, String "}" t)).
  { rewrite string_cons_append. cbn [scan_int]. unfold is_code.
    destruct (Nat.eqb_spec (byte_val c) 48) as [H0|_]; [by rewrite (Hz H0)|].
    unfold digits1. cbn [span_digits]. by rewrite Hc, span_digits_app. }
  unfold scan_unsigned. rewrite Hint.
  change (Some ((String c d +:+ "" +:+ "")%string, String "}" t) =
          Some (String c d, String "}" t)).
  by rewrite !string_append_nil_r.
Qed.

Lemma scan_number_pretty z t :
  scan_number (pretty (z : Z) +:+ String "}" t) = Some (pretty z, String "}" t)%string.
Proof.
  assert (Hpos : ∀ x : N, scan_number (pretty x +:+ String "}" t) =
    Some (pretty x, String "}" t)%string).
  { intros x. destruct (pretty_N_digits x) as (c & d & Hx & Hd & _).
    pose proof (scan_unsigned_pretty x t) as Hs. rewrite Hx in *.
    rewrite string_cons_append in *. cbn [scan_number]. cbn [string_forall] in Hd.
    apply andb_prop in Hd as [Hc _]. unfold is_digit in Hc.
    apply andb_prop in Hc as [?%Nat.leb_le _]. unfold is_code.
    by destruct (Nat.eqb_spec (byte_val c) 45); [lia|]. }
  destruct z as [|p|p]; [apply (Hpos 0%N)|apply (Hpos (Npos p))|].
  change (pretty (Z.neg p)) with (String "-" (pretty (Npos p))).
  rewrite string_cons_append. cbn [scan_number].
  change (is_code "-" 45) with true. cbv iota. by rewrite scan_unsigned_pretty.
Qed.

Lemma parse_string_value f d s t :
  parse_value (S f) d (json_string s +:+ t) = Some (JStr (to_valid_utf8 s), t).
Proof.
  unfold json_string. rewrite !string_append_assoc.
  change (parse_value (S f) d (dq +:+ json_escape s +:+ dq +:+ t))
    with (match unquote (json_escape s +:+ dq +:+ t) with
          | Some (x, r) => Some (JStr x, r) | None => None end).
  by rewrite unquote_json_escape.
Qed.

Lemma parse_int_value f d z t :
  parse_value (S f) d (pretty (z : Z) +:+ String "}" t) = Some (JNum (pretty z), String "}" t).
Proof.
  pose proof (scan_number_pretty z t) as Hs.
  assert (Hhead : ∃ c u, pretty z = String c u ∧ (is_digit c || is_code c 45) = true).
  { destruct z as [|p|p]; [by exists "0"%char, ""| |by exists "-"%char, (pretty (Npos p))].
    destruct (pretty_N_digits (Npos p)) as (c & u & Hx & Hd & _). cbn [string_forall] in Hd.
    apply andb_prop in Hd as [Hc _]. exists c, u. split; [exact Hx|by rewrite Hc]. }
  destruct Hhead as (c & u & Hz & Hc). rewrite Hz in *. rewrite string_cons_append in *.
  cbn [parse_value]. unfold skip_ws. cbn [trim_left].
  assert (Hne : json_space c = false ∧ is_code c 34 = false ∧ is_code c 123 = false ∧
    is_code c 91 = false ∧ is_code c 116 = false ∧ is_code c 102 = false ∧
    is_code c 110 = false).
  { revert Hc. by destruct c as [[] [] [] [] [] [] [] []]. }
  destruct Hne as (-> & -> & -> & -> & -> & -> & ->). by rewrite Hs.
Qed.

(** A member whose value is followed by [c]. *)
Lemma parse_member f d k vt v c rest :
  json_space c = false →
  parse_value f d (vt +:+ String c rest) = Some (v, String c rest) →
  parse_members (S f) d (json_string k +:+ String ":" (vt +:+ String c rest)) =
    if is_code c 125 then Some ([(to_valid_utf8 k, v)], rest)
    else if is_code c 44 then
      match parse_members f d rest with
      | Some (l, r2) => Some ((to_valid_utf8 k, v) :: l, r2) | None => None end
    else None.
Proof.
  intros Hc Hv. unfold json_string. rewrite !string_append_assoc. cbn [parse_members].
  change (skip_ws (dq +:+ ?x)) with (String (ascii_of_nat 34) x). cbv beta iota.
  change (is_code (ascii_of_nat 34) 34) with true. cbv iota.
  rewrite unquote_json_escape. change (skip_ws (String ":" ?x)) with (String ":" x).
  cbv beta iota. change (is_code ":" 58) with true. cbv iota. rewrite Hv.
  unfold skip_ws. cbn [trim_left]. by rewrite Hc.
Qed.

Lemma json_parse_request req :
  json_parse (json_encode (request_json req)) = Some (JObj
    [("fileName", JStr (to_valid_utf8 (req_FileName req)));
     ("contentType", JStr (to_valid_utf8 (req_ContentType req)));
     ("size", JNum (pretty (req_Size req)))]).
Proof.
  unfold json_parse. set (s := json_encode _).
  rewrite <-(parse_value_fuel s (6 + (2 * String.length s + 2)) 0) by lia.
  generalize (2 * String.length s + 2). intros n. subst s.
  unfold request_json. cbn [json_encode List.map join].
  rewrite !string_append_assoc. cbn [Nat.add].
  rewrite !string_cons_append, !string_nil_append.
  change (fst <$> parse_value (S (S (S (S (S (S n)))))) 0
            (String "{" (json_string "fileName" +:+ ?x)))
    with (fst <$> match parse_members (S (S (S (S (S n))))) 1 (json_string "fileName" +:+ x) with
          | Some (l, r) => Some (JObj l, r) | None => None end).
  rewrite (parse_member _ _ _ (json_string _) (JStr (to_valid_utf8 (req_FileName req))));
    [|done|apply parse_string_value].
  cbv [is_code byte_val nat_of_ascii N_of_ascii N_of_digits]. cbn [N.to_nat Nat.eqb].
  rewrite (parse_member _ _ _ (json_string _) (JStr (to_valid_utf8 (req_ContentType req))));
    [|done|apply parse_string_value].
  rewrite (parse_member _ _ _ (pretty _) (JNum (pretty (req_Size req))));
    [|done|apply parse_int_value].
  reflexivity.
Qed.

Lemma set_fileName req bad s :
  set_field (req, bad) ("fileName", JStr s) =
  ({| req_FileName := s; req_ContentType := req_ContentType req;
      req_Size := req_Size req |}, bad).
Proof. reflexivity. Qed.
Lemma set_contentType req bad s :
  set_field (req, bad) ("contentType", JStr s) =
  ({| req_FileName := req_FileName req; req_ContentType := s;
      req_Size := req_Size req |}, bad).
Proof. reflexivity. Qed.
Lemma set_size req bad lit z :
  strconv_ParseInt lit = Some z →
  set_field (req, bad) ("size", JNum lit) =
  ({| req_FileName := req_FileName req; req_ContentType := req_ContentType req;
      req_Size := z |}, bad).
Proof.
  intros H. change (set_field (req, bad) ("size", JNum lit)) with
    (match strconv_ParseInt lit with
     | Some z => ({| req_FileName := req_FileName req;
                     req_ContentType := req_ContentType req; req_Size := z |}, bad)
     | None => (req, true) end). by rewrite H.
Qed.

(** ** Properties *)

(** C40: decoding undoes encoding. For every request with an int64 size, parsing
    the JSON that marshalling it gives (whatever characters its strings hold)
    gives the request back, invalid UTF-8 in the strings being replaced by
    U+FFFD; text that is ASCII comes back unchanged. *)
Theorem ParseJSON_roundtrip `{JsonErrors} req :
  in_int64 (req_Size req) →
  ParseJSON (json_encode (request_json req)) =
    Ok {| req_FileName := to_valid_utf8 (req_FileName req);
          req_ContentType := to_valid_utf8 (req_ContentType req);
          req_Size := req_Size req |} ∧
  (is_ascii (req_FileName req) = true → is_ascii (req_ContentType req) = true →
   ParseJSON (json_encode (request_json req)) = Ok req).
Proof.
  intros Hz. assert (Hp : ParseJSON (json_encode (request_json req)) = Ok {|
    req_FileName := to_valid_utf8 (req_FileName req);
    req_ContentType := to_valid_utf8 (req_ContentType req); req_Size := req_Size req |}).
  { unfold ParseJSON. rewrite json_parse_request. cbn [foldl].
    rewrite set_fileName, set_contentType.
    by rewrite (set_size _ _ _ _ (strconv_ParseInt_Itoa _ Hz)). }
  split; [done|]. intros Hf Hc. rewrite Hp, !to_valid_utf8_ascii by done. by destruct req.
Qed.

(** The fuel of the parser is enough: with any amount from twice the length
    of the text plus two, the parser gives the result [json_parse] uses, so a
    text is rejected for what it says and never for lack of fuel. *)
Theorem json_parse_fuel s fuel :
  2 * String.length s + 2 ≤ fuel → fst <$> parse_value fuel 0 s = json_parse s.
Proof. intros H. unfold json_parse. by rewrite <-(parse_value_fuel s fuel 0). Qed.

Definition demo_json_errors : JsonErrors :=
  {| json_error := λ b, EText ("invalid JSON: " +:+ b) |}.

Example parse_ok : ParseJSON (H := demo_json_errors)
  (json_encode (request_json {| req_FileName := "a<b>" +:+ char 10;
     req_ContentType := "video/mp4"; req_Size := -7 |}))
  = Ok {| req_FileName := "a<b>" +:+ char 10; req_ContentType := "video/mp4"; req_Size := -7 |}.
Proof. vm_compute. reflexivity. Qed.

Lemma ParseJSON_roundtrip_witness :
  ParseJSON (H := demo_json_errors)
    (json_encode (request_json {| req_FileName := "caf" +:+ byte_of 233;
       req_ContentType := "image/png"; req_Size := 9 |}))
  = Ok {| req_FileName := "caf" +:+ replacement; req_ContentType := "image/png";
          req_Size := 9 |}.
Proof.
  apply (ParseJSON_roundtrip (H := demo_json_errors)
    {| req_FileName := "caf" +:+ byte_of 233; req_ContentType := "image/png"; req_Size := 9 |}).
  vm_compute. split; discriminate.
Defined.

Lemma json_parse_fuel_witness :
  fst <$> parse_value 30 0 "{}" = json_parse "{}".
Proof. apply (json_parse_fuel "{}" 30). vm_compute. repeat constructor. Defined.
