(* ===== verification/Http.v ===== *)
(** * HTTP responses: net/http and pkg/utils/response.go

    Requests, response writers (the connection's, to which the middlewares'
    wrappers delegate), handlers, [http.Error], and the JSON responses of
    pkg/utils/response.go.

    A writer is a record of operations. The connection's keeps the first status
    it is given with the headers as they are then, panics on a status out of
    range, and refuses a body where the status allows none; writing to the
    network is taken to succeed. *)

From stdpp Require Import base gmap strings list numbers pretty.
From Stdlib Require Import ZArith Lia Ascii.
From S2P Require Import Prelude GoStd AppErrors Config Assets World Json.

(** [http.Request] with what the server reads of it, the URL parameter and route
    pattern chi found, and the two context values the middlewares add. *)
Record Request := {
  r_Method : string; r_Path : string; r_RemoteAddr : string;
  r_Header : gmap string string; r_Body : string; r_ContentLength : Z;
  r_assetID : string; r_route : string;
  r_user : option string; r_logger : bool;
}.

Definition Header_Get (r : Request) (key : string) : string :=
  default "" (r_Header r !! key).

Record ResponseWriter := {
  hw_Set : string → string → IO unit;
  hw_Del : string → IO unit;
  hw_WriteHeader : Z → M unit;
  hw_Write : string → M Z;
}.

Definition Handler := ResponseWriter → Request → M unit.

(** ** Status codes *)

Definition StatusOK : Z := 200.
Definition StatusNoContent : Z := 204.
Definition StatusBadRequest : Z := 400.
Definition StatusUnauthorized : Z := 401.
Definition StatusTooManyRequests : Z := 429.
Definition StatusInternalServerError : Z := 500.

Definition valid_status (code : Z) : bool := (100 <=? code)%Z && (code <=? 999)%Z.

(** 1xx statuses other than 101 are informational: the final one is to come. *)
Definition informational (code : Z) : bool :=
  (100 <=? code)%Z && (code <=? 199)%Z && negb (code =? 101)%Z.

Definition body_allowed (code : Z) : bool :=
  negb ((100 <=? code)%Z && (code <=? 199)%Z) && negb (code =? 204)%Z &&
  negb (code =? 304)%Z.

(** [http.StatusText]: the empty string for a status without a name. *)
Definition status_texts : list (Z * string) := [
    (100, "Continue"); (101, "Switching Protocols"); (102, "Processing");
    (103, "Early Hints"); (200, "OK"); (201, "Created"); (202, "Accepted");
    (203, "Non-Authoritative Information"); (204, "No Content"); (205, "Reset Content");
    (206, "Partial Content"); (207, "Multi-Status"); (208, "Already Reported");
    (226, "IM Used"); (300, "Multiple Choices"); (301, "Moved Permanently"); (302, "Found");
    (303, "See Other"); (304, "Not Modified"); (305, "Use Proxy");
    (307, "Temporary Redirect"); (308, "Permanent Redirect"); (400, "Bad Request");
    (401, "Unauthorized"); (402, "Payment Required"); (403, "Forbidden");
    (404, "Not Found"); (405, "Method Not Allowed"); (406, "Not Acceptable");
    (407, "Proxy Authentication Required"); (408, "Request Timeout"); (409, "Conflict");
    (410, "Gone"); (411, "Length Required"); (412, "Precondition Failed");
    (413, "Request Entity Too Large"); (414, "Request URI Too Long");
    (415, "Unsupported Media Type"); (416, "Requested Range Not Satisfiable");
    (417, "Expectation Failed"); (418, "I'm a teapot"); (421, "Misdirected Request");
    (422, "Unprocessable Entity"); (423, "Locked"); (424, "Failed Dependency");
    (425, "Too Early"); (426, "Upgrade Required"); (428, "Precondition Required");
    (429, "Too Many Requests"); (431, "Request Header Fields Too Large");
    (451, "Unavailable For Legal Reasons"); (500, "Internal Server Error");
    (501, "Not Implemented"); (502, "Bad Gateway"); (503, "Service Unavailable");
    (504, "Gateway Timeout"); (505, "HTTP Version Not Supported");
    (506, "Variant Also Negotiates"); (507, "Insufficient Storage"); (508, "Loop Detected");
    (510, "Not Extended"); (511, "Network Authentication Required")
  ]%Z.

Definition http_StatusText (code : Z) : string :=
  match List.find (λ p, (p.1 =? code)%Z) status_texts with
  | Some (_, text) => text | None => EmptyString end.

(** ** The connection's writer *)

Definition send_header (code : Z) (h : http) : http :=
  match h_status h with
  | Some _ => h
  | None =>
      if informational code then h
      else {| h_header := h_header h; h_status := Some code; h_sent := h_header h;
              h_body := h_body h; h_cells := h_cells h |}
  end.

Definition send_body (b : string) (h : http) : Z * http :=
  let h := match h_status h with None => send_header StatusOK h | Some _ => h end in
  if body_allowed (default 0%Z (h_status h)) then
    (Z.of_nat (String.length b),
     {| h_header := h_header h; h_status := h_status h; h_sent := h_sent h;
        h_body := h_body h +:+ b; h_cells := h_cells h |})
  else (0%Z, h).

Definition edit_header (f : gmap string string → gmap string string) (h : http) : http :=
  {| h_header := f (h_header h); h_status := h_status h; h_sent := h_sent h;
     h_body := h_body h; h_cells := h_cells h |}.

Definition modify_http (f : http → http) : IO unit := λ w, (tt, set_http (f (w_http w)) w).

Definition conn : ResponseWriter := {|
  hw_Set k v := modify_http (edit_header <[k := v]>);
  hw_Del k := modify_http (edit_header (delete k));
  hw_WriteHeader code :=
    if valid_status code then lift (modify_http (send_header code))
    else panic ("invalid WriteHeader code " +:+ pretty code);
  hw_Write b := λ w,
    let '(n, h) := send_body b (w_http w) in (Returned n, set_http h w);
|}.

(** ** Cells: the structs the middlewares allocate *)

Definition new_cell (status bytes : Z) : IO nat := λ w,
  let h := w_http w in
  (length (h_cells h),
   set_http {| h_header := h_header h; h_status := h_status h; h_sent := h_sent h;
               h_body := h_body h; h_cells := h_cells h ++ [(status, bytes)] |} w).

Definition get_cell (i : nat) : IO (Z * Z) := λ w,
  (default (0, 0)%Z (h_cells (w_http w) !! i), w).

Definition set_cell (i : nat) (c : Z * Z) : IO unit :=
  modify_http (λ h, {| h_header := h_header h; h_status := h_status h;
    h_sent := h_sent h; h_body := h_body h; h_cells := <[i := c]> (h_cells h) |}).

(** ** Spans and deferred calls around code that may panic *)
Definition with_spanM {A} (name : string) (body : nat → M A) : M A :=
  sp ← lift (tracer_Start name); defer (span_End sp) (body sp).

(** ** pkg/utils/response.go *)

(** A nil value writes no body. The encoder ends the document with a newline. *)
Definition RespondJSON (w : ResponseWriter) (v : option any) (status : Z) : M unit :=
  lift (hw_Set w "Content-Type" "application/json");;
  hw_WriteHeader w status;;
  match v with
  | None => mret tt
  | Some v =>
      _ ← hw_Write w (json_encode v +:+ String (ascii_of_nat 10) EmptyString);
      mret tt
  end.

(** The API error behind a typed error, by the type switch. *)
Definition response_error (err : error) : ApiError :=
  match err with
  | EApi _ a => a
  | _ => {| api_Message := "Internal server error"; api_Code := "INTERNAL_ERROR";
            api_Details := ANil; api_StatusCode := StatusInternalServerError |}
  end.

Definition WriteErrorResponse (w : ResponseWriter) (err : error) : M unit :=
  lift (hw_Set w "Content-Type" "application/json");;
  let apiErr := response_error err in
  hw_WriteHeader w (api_StatusCode apiErr);;
  _ ← hw_Write w (json_encode (AMap
    [("success", ABool false); ("message", AStr (api_Message apiErr));
     ("error", AMap [("code", AStr (api_Code apiErr)); ("details", api_Details apiErr)])])
     +:+ String (ascii_of_nat 10) EmptyString);
  mret tt.

(** [http.Error]: plain text, whatever the body looks like. *)
Definition http_Error (w : ResponseWriter) (msg : string) (code : Z) : M unit :=
  lift (hw_Del w "Content-Length");;
  lift (hw_Set w "Content-Type" "text/plain; charset=utf-8");;
  lift (hw_Set w "X-Content-Type-Options" "nosniff");;
  hw_WriteHeader w code;;
  _ ← hw_Write w (msg +:+ String (ascii_of_nat 10) EmptyString);
  mret tt.

(** ** Lemmas *)

(** The response as it stands: status, headers sent and body. *)
Definition response (h : http) : option Z * gmap string string * string :=
  (h_status h, h_sent h, h_body h).

(** A JSON response on a connection that sent nothing. *)
Definition responded_json (status : Z) (v : any) (h : http) : http := {|
  h_header := <["Content-Type" := "application/json"]> (h_header h);
  h_status := Some status;
  h_sent := <["Content-Type" := "application/json"]> (h_header h);
  h_body := h_body h +:+ json_encode v +:+ String (ascii_of_nat 10) EmptyString;
  h_cells := h_cells h |}.

Definition final_status (code : Z) : bool :=
  valid_status code && negb (informational code) && body_allowed code.

Lemma RespondJSON_conn v status w :
  h_status (w_http w) = None → final_status status = true →
  RespondJSON conn (Some v) status w =
    (Returned tt, set_http (responded_json status v (w_http w)) w).
Proof.
  intros Hn Hs. unfold final_status in Hs. simpl_eqb.
  unfold RespondJSON. rewrite M_bind_lift. unfold mbind, M_bind. cbn -[json_encode].
  rewrite H. unfold lift, modify_http, send_body, send_header. cbn -[json_encode].
  rewrite Hn, H1. cbn -[json_encode body_allowed]. by rewrite H0.
Qed.

Lemma WriteErrorResponse_conn err w :
  let a := response_error err in
  h_status (w_http w) = None → final_status (api_StatusCode a) = true →
  WriteErrorResponse conn err w =
    (Returned tt, set_http (responded_json (api_StatusCode a) (AMap
       [("success", ABool false); ("message", AStr (api_Message a));
        ("error", AMap [("code", AStr (api_Code a)); ("details", api_Details a)])])
       (w_http w)) w).
Proof. intros a Hn Hs. rewrite <-RespondJSON_conn by done. reflexivity. Qed.

Lemma http_Error_conn msg code w :
  h_status (w_http w) = None → final_status code = true →
  ∃ hd, http_Error conn msg code w = (Returned tt, set_http {|
    h_header := hd; h_status := Some code; h_sent := hd;
    h_body := h_body (w_http w) +:+ msg +:+ String (ascii_of_nat 10) EmptyString;
    h_cells := h_cells (w_http w) |} w) ∧
    hd !! "Content-Type" = Some "text/plain; charset=utf-8".
Proof.
  intros Hn Hs. unfold final_status in Hs. simpl_eqb.
  unfold http_Error. rewrite !M_bind_lift. unfold mbind, M_bind. cbn.
  rewrite H. unfold lift, modify_http, send_body, send_header. cbn.
  rewrite Hn, H1. cbn -[body_allowed]. rewrite H0. eexists. split; [reflexivity|].
  rewrite lookup_insert_ne by done. by rewrite lookup_insert_eq.
Qed.

(** ** Proving handlers

    Most of what a handler does besides responding and calling its service is
    observation: it leaves store, response and configuration as they are. *)

Definition alike (w w' : world) : Prop :=
  w_store w' = w_store w ∧ w_http w' = w_http w ∧ w_cfg w' = w_cfg w.

#[export] Instance alike_preorder : PreOrder alike.
Proof. unfold alike. split; [done|]. intros w1 w2 w3. intuition congruence. Qed.

Definition quiet {A} (m : IO A) : Prop := ∀ w, alike w (exec m w).

Lemma quiet_intro {A} (m : IO A) : keeps_store m → keeps_resp m → quiet m.
Proof. intros Hs Hr w. destruct (Hr w). by repeat split. Qed.

Lemma wpM_quiet {A B} (m : IO A) (f : A → M B) Q P w :
  keeps_store m → keeps_resp m →
  (∀ a w', alike w w' → wpM (f a) Q P w') → wpM (lift m ≫= f) Q P w.
Proof.
  intros Hs Hr H. rewrite wpM_bind, wpM_lift. apply H. by apply quiet_intro.
Qed.

(** The same, measured from an earlier world. *)
Lemma wpM_quiet_from {A B} (m : IO A) (f : A → M B) Q P w0 w :
  keeps_store m → keeps_resp m → alike w0 w →
  (∀ a w', alike w0 w' → wpM (f a) Q P w') → wpM (lift m ≫= f) Q P w.
Proof.
  intros Hs Hr H0 H. apply wpM_quiet; [done..|]. intros a w' Hw'. apply H.
  by transitivity w.
Qed.

Lemma wpM_quiet_last {A} (m : IO A) (Q : A → world → Prop) P w0 w :
  keeps_store m → keeps_resp m → alike w0 w →
  (∀ a w', alike w0 w' → Q a w') → wpM (lift m) Q P w.
Proof.
  intros Hs Hr H0 H. rewrite wpM_lift. apply H. transitivity w; [done|].
  by apply quiet_intro.
Qed.

(** Steps over the observations of a handler that began in [w0]. *)
Ltac wpM_skip w0 :=
  apply (wpM_quiet_from _ _ _ _ w0); [solve_keeps|solve_resp|eassumption|];
  let a := fresh "a" in let w := fresh "w" in let H := fresh "Ha" in intros a w H.

(** A deferred observation. *)
Lemma wpM_defer {A} (c : IO unit) (m : M A) (Q : A → world → Prop) P w :
  quiet c →
  wpM m (λ a w', ∀ w'', alike w' w'' → Q a w'') (λ v w', ∀ w'', alike w' w'' → P v w'') w →
  wpM (defer c m) Q P w.
Proof.
  intros Hc H. unfold wpM, defer in *. destruct (m w) as [[a|v] w'];
    specialize (Hc w'); unfold exec in Hc; destruct (c w'); by apply H.
Qed.

Lemma wpM_with_span {A} name (body : nat → M A) (Q : A → world → Prop) P w :
  (∀ sp w1, alike w w1 →
     wpM (body sp) (λ a w2, ∀ w3, alike w2 w3 → Q a w3)
       (λ v w2, ∀ w3, alike w2 w3 → P v w3) w1) →
  wpM (with_spanM name body) Q P w.
Proof.
  intros H. unfold with_spanM. apply wpM_quiet; [done|done|]. intros sp w1 Hw1.
  apply wpM_defer; [done|]. by apply H.
Qed.

(** ** Writers like the connection's

    A middleware's wrapper delegates to the writer it wraps and keeps a struct of
    its own: up to those structs it acts as the connection does. *)

Definition bare (h : http) : http := {|
  h_header := h_header h; h_status := h_status h; h_sent := h_sent h;
  h_body := h_body h; h_cells := [] |}.

Definition sim (w w' : world) : Prop :=
  w_store w' = w_store w ∧ w_cfg w' = w_cfg w ∧ bare (w_http w') = bare (w_http w).

#[export] Instance sim_equivalence : Equivalence sim.
Proof.
  unfold sim. split; [done|..].
  - intros w1 w2. intuition congruence.
  - intros w1 w2 w3. intuition congruence.
Qed.

(** Programs that do the same up to [sim]. *)
Definition simM {A} (m m' : M A) : Prop :=
  ∀ w w', sim w w' → fst (m' w') = fst (m w) ∧ sim (snd (m w)) (snd (m' w')).

Class ConnLike (wr : ResponseWriter) : Prop := {
  like_set k v : simM (lift (hw_Set conn k v)) (lift (hw_Set wr k v));
  like_del k : simM (lift (hw_Del conn k)) (lift (hw_Del wr k));
  like_head code : simM (hw_WriteHeader conn code) (hw_WriteHeader wr code);
  like_write b : simM (hw_Write conn b) (hw_Write wr b);
}.

Lemma simM_ret {A} (a : A) : simM (mret a) (mret a).
Proof. by intros w w' H. Qed.

Lemma simM_bind {A B} (m m' : M A) (f f' : A → M B) :
  simM m m' → (∀ a, simM (f a) (f' a)) → simM (m ≫= f) (m' ≫= f').
Proof.
  intros Hm Hf w w' H. destruct (Hm w w' H) as [Ho Hs]. unfold mbind, M_bind.
  destruct (m w) as [o w1], (m' w') as [o' w1']. cbn in *. subst o'.
  destruct o as [a|v]; [by apply Hf|done].
Qed.

Lemma send_header_bare code h : bare (send_header code h) = send_header code (bare h).
Proof.
  unfold send_header. destruct h as [? [st|] ? ? ?]; cbn; [done|].
  by destruct (informational code).
Qed.

Lemma send_body_bare b h :
  send_body b (bare h) = (fst (send_body b h), bare (snd (send_body b h))).
Proof.
  unfold send_body. destruct h as [hd [st|] sent bd cells]; cbn.
  - by destruct (body_allowed st).
  - done.
Qed.

(** An edit of the response that does not look at the cells. *)
Lemma simM_modify f : (∀ h, bare (f h) = f (bare h)) →
  simM (lift (modify_http f)) (lift (modify_http f)).
Proof.
  intros Hf w w' (Hs & Hc & Hh). split; [done|]. unfold sim. cbn.
  split_and!; [done..|]. by rewrite !Hf, Hh.
Qed.

#[export] Instance conn_like : ConnLike conn.
Proof.
  constructor; intros; cbn.
  - by apply simM_modify.
  - by apply simM_modify.
  - destruct (valid_status code); [by apply simM_modify, send_header_bare|].
    intros w w' H. done.
  - intros w w' (Hs & Hc & Hh). pose proof (send_body_bare b (w_http w)) as H1.
    pose proof (send_body_bare b (w_http w')) as H2. rewrite Hh, H1 in H2.
    destruct (send_body b (w_http w)) as [n h1], (send_body b (w_http w')) as [n' h2].
    pose proof (f_equal fst H2) as Hn. pose proof (f_equal snd H2) as Hb. cbn in Hn, Hb.
    cbn. by rewrite Hn.
Qed.

Lemma RespondJSON_like wr v status `{!ConnLike wr} :
  simM (RespondJSON conn v status) (RespondJSON wr v status).
Proof.
  apply simM_bind; [apply like_set|intros _]. apply simM_bind; [apply like_head|intros _].
  destruct v; [|apply simM_ret]. apply simM_bind; [apply like_write|]. intros _. apply simM_ret.
Qed.

Lemma WriteErrorResponse_like wr err `{!ConnLike wr} :
  simM (WriteErrorResponse conn err) (WriteErrorResponse wr err).
Proof.
  apply simM_bind; [apply like_set|intros _]. apply simM_bind; [apply like_head|intros _].
  apply simM_bind; [apply like_write|]. intros _. apply simM_ret.
Qed.

Lemma http_Error_like wr msg code `{!ConnLike wr} :
  simM (http_Error conn msg code) (http_Error wr msg code).
Proof.
  apply simM_bind; [apply like_del|intros _]. do 2 (apply simM_bind; [apply like_set|intros _]).
  apply simM_bind; [apply like_head|intros _]. apply simM_bind; [apply like_write|].
  intros _. apply simM_ret.
Qed.

(** [w'] is [w] after a JSON response and nothing else in store, configuration
    and response. *)
Definition responded (status : Z) (v : any) (w w' : world) : Prop :=
  bare (w_http w') = responded_json status v (bare (w_http w)).

(** Responding on a writer that sent nothing. *)
Lemma wpM_RespondJSON wr v status (Q : unit → world → Prop) P w `{!ConnLike wr} :
  h_status (w_http w) = None → final_status status = true →
  (∀ w', w_store w' = w_store w → w_cfg w' = w_cfg w → responded status v w w' → Q tt w') →
  wpM (RespondJSON wr (Some v) status) Q P w.
Proof.
  intros Hn Hs H. unfold wpM.
  destruct (RespondJSON_like wr (Some v) status w w) as [Ho Hsim]; [done|].
  rewrite RespondJSON_conn in Ho, Hsim by done. destruct (RespondJSON wr _ _ w) as [o w'].
  cbn in *. subst o. destruct Hsim as (? & ? & ?). by apply H.
Qed.
