(* ===== verification/Handler.v ===== *)
(** * The asset handlers: internal/handler/asset_handler.go

    [CreateAsset] and [MarkAssetUploaded] over the interface of the asset service,
    which the service of [Service] implements. The deferred calls are in the order
    the code defers them. *)

From stdpp Require Import base gmap strings list numbers pretty.
From Stdlib Require Import ZArith Lia.
From S2P Require Import Prelude GoStd AppErrors Config Assets World Json JsonDecode.
From S2P Require Import Queue Storage Service Http.

(** The [AssetService] interface; the response is a pointer. *)
Record AssetService := {
  svc_CreateAsset : UploadAssetRequest → IO (result error (option UploadAssetResponse));
  svc_MarkAssetUploaded : uuid → IO (result error unit);
}.

(** What the handlers rely on. *)
Class ServiceLaws (s : AssetService) : Prop := {
  create_resp req : keeps_resp (svc_CreateAsset s req);
  mark_resp id : keeps_resp (svc_MarkAssetUploaded s id);
}.

Record AssetHandler := { ah_svc : AssetService; ah_m : bool }.

(** [{"status": "error", "message": msg}] *)
Definition error_body (msg : string) : any :=
  AMap [("status", AStr "error"); ("message", AStr msg)].

Definition error_body_with (msg : string) (err : error) : any :=
  AMap [("status", AStr "error"); ("message", AStr msg); ("error", AStr (err_Error err))].

(** The response marshalled by its struct tags. *)
Definition response_any (res : UploadAssetResponse) : any :=
  AStruct [("uploadUrl", AStr (resp_UploadUrl res)); ("assetId", AStr (resp_AssetID res));
    ("method", AStr (resp_Method res));
    ("headers", AMap (List.map (λ '(k, v), (k, AStr v)) (resp_Headers res)));
    ("objectPath", AStr (resp_ObjectPath res)); ("publicUrl", AStr (resp_PublicUrl res));
    ("expiresAt", AInt (resp_ExpiresAt res))].

Definition success_body (res : UploadAssetResponse) : any :=
  AMap [("status", AStr "success"); ("data", response_any res)].

Definition marked_body : any :=
  AMap [("status", AStr "success"); ("message", AStr "Asset marked as uploaded")].

(** Panics before [config.Init]. *)
Definition maxAssetSize : M Z :=
  cfg ← (λ w, from_outcome (MustGet (w_cfg w)) w); mret (cfg_MaxAssetSizeBytes cfg).

Section Handler.
Context {E : Env} {J : JsonErrors}.

(** The service of [Service] behind the interface. *)
Definition as_AssetService {L : GoLib} (s : assetService) : AssetService := {|
  svc_CreateAsset req := r ← Service.CreateAsset s req; mret (result_map Some r);
  svc_MarkAssetUploaded := Service.MarkAssetUploaded s;
|}.

(** [span.SetStatus(codes.Error, why)] and a 400 response. *)
Definition bad_request (w : ResponseWriter) (span : nat) (why msg : string) : M unit :=
  lift (span_SetStatus span CodeError why);;
  RespondJSON w (Some (error_body msg)) StatusBadRequest.

(** The time-out of the request's context is seen where the code asks for it. *)
Definition CreateAsset (h : AssetHandler) : Handler := λ w r,
  with_spanM "AssetHandler.CreateAsset" (λ span,
    start ← lift time_Now;
    defer (when (ah_m h)
             (now ← time_Now; metric_record AssetUploadDuration (now - start)%Z []))
     (lift (when (ah_m h) (metric_add AssetUploadTotal 1 []));;
      match ParseJSON (r_Body r) with
      | Err err =>
          lift (log LError "Failed to parse create asset request");;
          lift (span_RecordError span err);;
          bad_request w span "Invalid request payload" "Invalid request payload"
      | Ok req =>
          if req_ContentType req =s "" then
            bad_request w span "ContentType is required" "ContentType is required"
          else if negb (IsSupportedMIMEType (req_ContentType req)) then
            bad_request w span "unsupported content type" "unsupported content type"
          else
            max ← maxAssetSize;
            if (max <? req_Size req)%Z then
              bad_request w span "file too large" "file exceeds maximum allowed size"
            else
              cancelled ← lift ctx_Err;
              match cancelled with
              | Some err =>
                  lift (span_RecordError span err);;
                  lift (span_SetStatus span CodeError "Request cancelled")
              | None =>
                  res ← lift (svc_CreateAsset (ah_svc h) req);
                  match res with
                  | Err err =>
                      lift (log LError "Failed to create asset");;
                      lift (span_RecordError span err);;
                      lift (span_SetStatus span CodeError "Failed to create asset");;
                      lift (when (ah_m h) (metric_add AssetProcessingFailed 1 []));;
                      RespondJSON w (Some (error_body_with "Failed to create asset" err))
                        StatusInternalServerError
                  | Ok None =>
                      lift (span_SetStatus span CodeError "Nil response from CreateAsset");;
                      lift (when (ah_m h) (metric_add AssetProcessingFailed 1 []));;
                      RespondJSON w (Some (error_body "Internal server error"))
                        StatusInternalServerError
                  | Ok (Some res) =>
                      lift (log LInform ("Asset created: " +:+ resp_AssetID res));;
                      lift (span_SetStatus span CodeOk "Asset created successfully");;
                      RespondJSON w (Some (success_body res)) StatusOK
                  end
              end
      end)).

Definition MarkAssetUploaded (h : AssetHandler) : Handler := λ w r,
  with_spanM "AssetHandler.MarkAssetUploaded" (λ span,
    let assetID := r_assetID r in
    if assetID =s "" then
      bad_request w span "Asset ID is required" "asset id is required"
    else match uuid_Parse assetID with
    | Err err =>
        lift (span_RecordError span err);;
        bad_request w span "Invalid asset ID format" "invalid asset id"
    | Ok parsedID =>
        res ← lift (svc_MarkAssetUploaded (ah_svc h) parsedID);
        match res with
        | Err err =>
            lift (log LError ("Failed to mark asset uploaded: " +:+ err_Error err));;
            lift (span_RecordError span err);;
            lift (span_SetStatus span CodeError "Failed to mark asset uploaded");;
            RespondJSON w (Some (error_body_with "Failed to mark asset uploaded" err))
              StatusInternalServerError
        | Ok _ =>
            lift (span_SetStatus span CodeOk "Asset marked as uploaded");;
            RespondJSON w (Some marked_body) StatusOK
        end
    end).

(** ** The decision tables *)

(** What the handler checks of a request before it calls the service: the message
    it refuses with, or the request it passes on. *)
Definition screen (max : Z) (body : string) : string + UploadAssetRequest :=
  match ParseJSON body with
  | Err _ => inl "Invalid request payload"
  | Ok req =>
      if req_ContentType req =s "" then inl "ContentType is required"
      else if negb (IsSupportedMIMEType (req_ContentType req)) then
        inl "unsupported content type"
      else if (max <? req_Size req)%Z then inl "file exceeds maximum allowed size"
      else inr req
  end.

(** The identifier of a completion request, or the message it is refused with. *)
Definition parse_assetID (assetID : string) : result string uuid :=
  if assetID =s "" then Err "asset id is required"
  else match uuid_Parse assetID with
       | Ok id => Ok id | Err _ => Err "invalid asset id" end.

(** Status and body for what the service answered. *)
Definition create_reply (res : result error (option UploadAssetResponse)) : Z * any :=
  match res with
  | Err err => (500, error_body_with "Failed to create asset" err)
  | Ok None => (500, error_body "Internal server error")
  | Ok (Some res) => (200, success_body res)
  end%Z.

Definition mark_reply (res : result error unit) : Z * any :=
  match res with
  | Err err => (500, error_body_with "Failed to mark asset uploaded" err)
  | Ok _ => (200, marked_body)
  end%Z.

(** A reply sent without touching the store. *)
Definition replied (status : Z) (v : any) (w w' : world) : Prop :=
  w_store w' = w_store w ∧ responded status v w w'.

(** The service was called in a world like [w], and its answer was sent. *)
Definition served {A} (m : IO A) (reply : A → Z * any) (w w' : world) : Prop :=
  ∃ w1, alike w w1 ∧ w_store w' = w_store (exec m w1) ∧
    let '(status, v) := reply (run m w1) in responded status v w w'.

(** The writer is the connection's or a wrapper of it. *)
Context (wr : ResponseWriter) `{!ConnLike wr}.

(** A response, from a world [w1] that the observations did not change. *)
Lemma wpM_reply v status (Q : unit → world → Prop) P w0 w1 w :
  alike w1 w → w_http w1 = w_http w0 → h_status (w_http w0) = None →
  final_status status = true →
  (∀ w', w_store w' = w_store w1 → responded status v w0 w' → Q tt w') →
  wpM (RespondJSON wr (Some v) status) Q P w.
Proof.
  intros (Hs & Hh & _) Hh1 Hn Hf HQ. apply wpM_RespondJSON; [done|by rewrite Hh, Hh1|done|].
  intros w' Hw' _ Hr. apply HQ; [by rewrite Hw'|]. unfold responded in *.
  by rewrite Hr, Hh, Hh1.
Qed.

Lemma wpM_bad_request span why msg (Q : unit → world → Prop) P w0 w :
  alike w0 w → h_status (w_http w0) = None →
  (∀ w', replied 400 (error_body msg) w0 w' → Q tt w') →
  wpM (bad_request wr span why msg) Q P w.
Proof.
  intros Ha Hn HQ. unfold bad_request. wpM_skip w0.
  apply (wpM_reply _ _ _ _ w0 w0); [done..|]. intros w' Hs Hh. by apply HQ.
Qed.

Lemma wpM_service {A B} (m : IO A) (f : A → M B) Q P w0 w :
  keeps_resp m → alike w0 w →
  (∀ w', w_store w' = w_store (exec m w) → w_http w' = w_http w0 → w_cfg w' = w_cfg w0 →
     wpM (f (run m w)) Q P w') →
  wpM (lift m ≫= f) Q P w.
Proof.
  intros Hm (_ & Hh & Hc) H. rewrite wpM_bind, wpM_lift. destruct (Hm w) as [Hh' Hc'].
  apply H; [done|by rewrite <-Hh, <-Hh'|by rewrite <-Hc, <-Hc'].
Qed.

Lemma responded_status status v w w' :
  responded status v w w' → h_status (w_http w') = Some status.
Proof. intros H. exact (f_equal h_status H). Qed.

Lemma replied_alike status v w w1 w2 : replied status v w w1 → alike w1 w2 → replied status v w w2.
Proof.
  intros [Hs Hh] (Hs' & Hh' & _). unfold replied, responded in *. by rewrite Hs', Hh'.
Qed.

Lemma served_alike {A} (m : IO A) reply w w1 w2 :
  served m reply w w1 → alike w1 w2 → served m reply w w2.
Proof.
  intros (w0 & Ha & Hs & Hr) (Hs' & Hh' & _). exists w0. split; [done|].
  rewrite Hs'. split; [done|]. destruct (reply _). unfold responded in *. by rewrite Hh'.
Qed.

(** The verdict on a create request: refused, passed on, or dropped without a
    response when its context was done. *)
Definition create_verdict (h : AssetHandler) (max : Z) (body : string) (w w' : world) : Prop :=
  match screen max body with
  | inl msg => replied StatusBadRequest (error_body msg) w w'
  | inr req =>
      served (svc_CreateAsset (ah_svc h) req) create_reply w w' ∨
      ((∃ n c, env_ctx n = Some c) ∧ alike w w')
  end.

Lemma create_verdict_alike h max body w w1 w2 :
  create_verdict h max body w w1 → alike w1 w2 → create_verdict h max body w w2.
Proof.
  unfold create_verdict. destruct (screen max body).
  - apply replied_alike.
  - intros [H|[Hc H]] Ha; [left; by eapply served_alike|right].
    split; [done|by transitivity w1].
Qed.

Lemma wpM_maxAssetSize {B} (f : Z → M B) Q P cfg w :
  w_cfg w = Some cfg → wpM (f (cfg_MaxAssetSizeBytes cfg)) Q P w →
  wpM (maxAssetSize ≫= f) Q P w.
Proof.
  intros Hc H. unfold maxAssetSize, wpM, mbind, M_bind, MustGet in *. by rewrite Hc.
Qed.

(** Asking the context. *)
Lemma wpM_ctx {B} (f : option error → M B) Q P w0 w :
  alike w0 w →
  (∀ n c w', env_ctx n = Some c → alike w0 w' → wpM (f (Some (ESentinel (SCtx c)))) Q P w') →
  (∀ w', alike w0 w' → wpM (f None) Q P w') →
  wpM (lift ctx_Err ≫= f) Q P w.
Proof.
  intros Ha Hs Hn. unfold ctx_Err. rewrite wpM_bind, wpM_lift, wp_bind, wp_run, wp_ret.
  destruct (env_ctx _) as [c|] eqn:Hctx; [by eapply Hs|by apply Hn].
Qed.

(** The part of [CreateAsset] that calls the service. *)
Lemma wpM_create_service h span req w0 w `{!ServiceLaws (ah_svc h)}
    (Q : unit → world → Prop) P :
  alike w0 w → h_status (w_http w0) = None →
  (∀ w', served (svc_CreateAsset (ah_svc h) req) create_reply w0 w' → Q tt w') →
  wpM (res ← lift (svc_CreateAsset (ah_svc h) req);
       match res with
       | Err err =>
           lift (log LError "Failed to create asset");;
           lift (span_RecordError span err);;
           lift (span_SetStatus span CodeError "Failed to create asset");;
           lift (when (ah_m h) (metric_add AssetProcessingFailed 1 []));;
           RespondJSON wr (Some (error_body_with "Failed to create asset" err))
             StatusInternalServerError
       | Ok None =>
           lift (span_SetStatus span CodeError "Nil response from CreateAsset");;
           lift (when (ah_m h) (metric_add AssetProcessingFailed 1 []));;
           RespondJSON wr (Some (error_body "Internal server error"))
             StatusInternalServerError
       | Ok (Some res) =>
           lift (log LInform ("Asset created: " +:+ resp_AssetID res));;
           lift (span_SetStatus span CodeOk "Asset created successfully");;
           RespondJSON wr (Some (success_body res)) StatusOK
       end) Q P w.
Proof.
  intros Ha Hn HQ. eapply wpM_service; [apply create_resp|done|].
  intros w1 Hs Hh _.
  assert (Hserved : ∀ w2 w' status v, alike w1 w2 →
    create_reply (run (svc_CreateAsset (ah_svc h) req) w) = (status, v) →
    w_store w' = w_store w2 → responded status v w0 w' → Q tt w').
  { intros w2 w' status v (Hs2 & _) Hr Hs' Hh'. apply HQ. exists w. split; [done|].
    rewrite Hr. split; [by rewrite Hs', Hs2|done]. }
  assert (Hlast : ∀ w2 status v, alike w1 w2 → final_status status = true →
    create_reply (run (svc_CreateAsset (ah_svc h) req) w) = (status, v) →
    wpM (RespondJSON wr (Some v) status) Q P w2).
  { intros w2 status v Ha2 Hf Hr. apply (wpM_reply _ _ _ _ w0 w1); [done..|].
    intros w' Hs' Hh'. apply HQ. exists w. rewrite Hr. by rewrite Hs', Hs. }
  clear Ha HQ. assert (Ha : alike w1 w1) by done.
  destruct (run (svc_CreateAsset (ah_svc h) req) w) as [[res|]|err];
    repeat wpM_skip w1; by apply Hlast.
Qed.

Lemma CreateAsset_wp h r cfg w `{!ServiceLaws (ah_svc h)} :
  w_cfg w = Some cfg → h_status (w_http w) = None →
  wpM (CreateAsset h wr r)
    (λ _ w', create_verdict h (cfg_MaxAssetSizeBytes cfg) (r_Body r) w w') (λ _ _, False) w.
Proof.
  intros Hc Hn. apply wpM_with_span. intros span w1 Ha1.
  wpM_skip w. apply wpM_defer; [apply quiet_intro; [solve_keeps|solve_resp]|].
  eapply (wpM_mono _ (λ _ w', create_verdict h (cfg_MaxAssetSizeBytes cfg) (r_Body r) w w')
    _ (λ _ _, False)); [|done|].
  { intros _ w2 Hv w3 Ha3 w4 Ha4. eapply create_verdict_alike; [|exact Ha4].
    by eapply create_verdict_alike. }
  wpM_skip w. unfold create_verdict, screen.
  destruct (ParseJSON (r_Body r)) as [req|err].
  - destruct (req_ContentType req =s ""); [by eapply wpM_bad_request|].
    destruct (negb _); [by eapply wpM_bad_request|].
    eapply wpM_maxAssetSize.
    { match goal with H : alike w ?x |- w_cfg ?x = _ => by destruct H as (_ & _ & ->) end. }
    destruct (_ <? _)%Z; [by eapply wpM_bad_request|].
    eapply wpM_ctx; [eassumption| |].
    + intros n c w' Hctx Ha'. wpM_skip w. apply (wpM_quiet_last _ _ _ w); [done..|]. eauto.
    + intros w' Ha'. eapply wpM_create_service; [done..|]. by left.
  - do 2 wpM_skip w. by eapply wpM_bad_request.
Qed.

Lemma MarkAssetUploaded_wp h r w `{!ServiceLaws (ah_svc h)} :
  h_status (w_http w) = None →
  wpM (MarkAssetUploaded h wr r) (λ _ w',
    match parse_assetID (r_assetID r) with
    | Err msg => replied StatusBadRequest (error_body msg) w w'
    | Ok id => served (svc_MarkAssetUploaded (ah_svc h) id) mark_reply w w'
    end) (λ _ _, False) w.
Proof.
  intros Hn. apply wpM_with_span. intros span w1 Ha1. unfold parse_assetID. cbv zeta.
  destruct (r_assetID r =s "").
  { eapply wpM_bad_request; [done..|]. intros w2 Hr w3 Ha3. by eapply replied_alike. }
  destruct (uuid_Parse (r_assetID r)) as [id|err].
  - eapply wpM_service; [apply mark_resp|done|]. intros w2 Hs Hh _.
    assert (Hlast : ∀ w3 status v, alike w2 w3 → final_status status = true →
      mark_reply (run (svc_MarkAssetUploaded (ah_svc h) id) w1) = (status, v) →
      wpM (RespondJSON wr (Some v) status) (λ _ w', ∀ w'', alike w' w'' →
        served (svc_MarkAssetUploaded (ah_svc h) id) mark_reply w w'') (λ _ _, False) w3).
    { intros w3 status v Ha3 Hf Hr. apply (wpM_reply _ _ _ _ w w2); [done..|].
      intros w' Hs' Hh' w'' Ha''. eapply served_alike; [|exact Ha'']. exists w1. rewrite Hr.
      by rewrite Hs', Hs. }
    assert (Ha2 : alike w2 w2) by done.
    destruct (run (svc_MarkAssetUploaded (ah_svc h) id) w1) as [[]|err];
      repeat wpM_skip w2;
      (eapply wpM_mono; [| |by apply Hlast]; [auto|done]).
  - wpM_skip w. eapply wpM_bad_request; [done..|]. intros w3 Hr w4 Ha4.
    by eapply replied_alike.
Qed.

(** The repository's service keeps the interface's law. *)
#[export] Instance as_AssetService_laws {L : GoLib} s `{!StorageLaws (as_storage s)} :
  ServiceLaws (as_AssetService s).
Proof.
  constructor; intros.
  - apply keeps_resp_bind; [by apply keeps_resp_service_CreateAsset|]. done.
  - by apply keeps_resp_MarkAssetUploaded.
Qed.

Lemma created_any_wf {L : GoLib} s req `{!StorageLaws (as_storage s)} w :
  store_wf (as_queue s) (w_store w) →
  store_wf (as_queue s) (w_store (exec (svc_CreateAsset (as_AssetService s) req) w)).
Proof.
  intros Hwf. cbn. rewrite exec_bind, exec_ret.
  pose proof (serve_wf s (ReqCreate req) w Hwf) as H. cbn [serve] in H.
  by rewrite exec_bind, exec_ret in H.
Qed.

(** ** Properties *)

(** C36: the create handler's decision table. On a connection that sent nothing
    and with a configuration, for every service that keeps off the response and
    every body, it does not panic, and either refuses with the 400 and message
    its checks give and no change to the store, or calls the service with exactly
    the decoded request and sends the answer's status and body, or, only when the
    context is done, sends nothing at all and changes nothing. *)
Theorem CreateAsset_decision h r cfg w `{!ServiceLaws (ah_svc h)} :
  w_cfg w = Some cfg → h_status (w_http w) = None →
  match CreateAsset h wr r w with
  | (Returned _, w') => create_verdict h (cfg_MaxAssetSizeBytes cfg) (r_Body r) w w'
  | (Panicked _, _) => False
  end.
Proof. intros Hc Hn. by apply CreateAsset_wp. Qed.

(** The completion handler's decision table: 400 without touching the store
    for a missing or malformed identifier, otherwise the service is called with
    the parsed identifier and every error, a missing object included, is a 500. *)
Theorem MarkAssetUploaded_decision h r w `{!ServiceLaws (ah_svc h)} :
  h_status (w_http w) = None →
  match MarkAssetUploaded h wr r w with
  | (Returned _, w') =>
      match parse_assetID (r_assetID r) with
      | Err msg => replied StatusBadRequest (error_body msg) w w'
      | Ok id => served (svc_MarkAssetUploaded (ah_svc h) id) mark_reply w w'
      end
  | (Panicked _, _) => False
  end.
Proof. intros Hn. by apply MarkAssetUploaded_wp. Qed.

(** What the completion endpoint promises of the worlds before and after. *)
Definition completed (q : RedisQueue) (assetID : string) (w' : world) : Prop :=
  store_wf q (w_store w') ∧
  h_status (w_http w') ∈ [Some 200; Some 400; Some 500]%Z ∧
  (h_status (w_http w') = Some 200%Z →
   ∃ id, uuid_Parse assetID = Ok id ∧
     ∀ row, t_assets (s_db (w_store w')) !! id = Some row → a_status row ≠ StatusUploading).

(** A document on a line of its own, as [Encoder.Encode] writes it. *)
Definition json_line (v : any) : string :=
  json_encode v +:+ String (Ascii.ascii_of_nat 10) EmptyString.

(** The status and the document that were sent. *)
Definition answered (status : Z) (v : any) (w w' : world) : Prop :=
  h_status (w_http w') = Some status ∧
  h_body (w_http w') = h_body (w_http w) +:+ json_line v.

Lemma responded_answered status v w w' :
  responded status v w w' → answered status v w w'.
Proof. intros H. split; [exact (f_equal h_status H)|exact (f_equal h_body H)]. Qed.

(** The store changes as the specification of the confirmation says, and the
    answer is the service's. *)
Definition decided (q : RedisQueue) (assetID : string) (w w' : world) : Prop :=
  store_wf q (w_store w') ∧
  match parse_assetID assetID with
  | Err msg => answered 400 (error_body msg) w w' ∧ w_store w' = w_store w
  | Ok id => ∃ res, confirm q id (w_store w) res (w_store w') ∧
      match res with
      | Ok _ => answered 200 marked_body w w'
      | Err err => answered 500 (error_body_with "Failed to mark asset uploaded" err) w w'
      end
  end.

Lemma decided_completed q assetID w w' : decided q assetID w w' → completed q assetID w'.
Proof.
  intros [Hwf H]. split; [done|]. unfold parse_assetID in H.
  destruct (assetID =s ""); [destruct H as [[-> _] _]; set_solver|].
  destruct (uuid_Parse assetID) as [id|]; [|destruct H as [[-> _] _]; set_solver].
  destruct H as ([[]|err] & Hc & -> & _); (split; [set_solver|]); [|done].
  intros _. exists id. split; [done|].
  inversion Hc as [|st' Hno Hdb|res row now ts n st' Hrow Hst Hdb]; subst; rewrite Hdb.
  - done.
  - intros row'. cbn. rewrite lookup_insert_eq. by intros [= <-].
Qed.

Lemma wpM_decided {L : GoLib} s m r w `{!StorageLaws (as_storage s)} :
  store_wf (as_queue s) (w_store w) → h_status (w_http w) = None →
  wpM (MarkAssetUploaded {| ah_svc := as_AssetService s; ah_m := m |} wr r)
    (λ _ w', decided (as_queue s) (r_assetID r) w w') (λ _ _, False) w.
Proof.
  intros Hwf Hn. set (h := {| ah_svc := as_AssetService s; ah_m := m |}).
  pose proof (MarkAssetUploaded_wp h r w (ServiceLaws0 := as_AssetService_laws s) Hn) as H.
  unfold wpM in *. fold h. destruct (MarkAssetUploaded h wr r w) as [[[]|] w']; [|done].
  unfold decided. destruct (parse_assetID _) as [id|msg].
  2: { destruct H as [-> Hr%responded_answered]. done. }
  destruct H as (w1 & (Hs1 & _) & -> & Hr).
  cbn [svc_MarkAssetUploaded as_AssetService h ah_svc] in *. rewrite <-Hs1 in Hwf.
  destruct (MarkAssetUploaded_confirm s id w1 (sw_tables _ _ Hwf)) as [Hc Hcl].
  split; [by eapply confirm_wf|]. rewrite <-Hs1. eexists. split; [exact Hc|].
  destruct (run (Service.MarkAssetUploaded s id) w1) as [[]|err]; by apply responded_answered.
Qed.

(** The upload of [id] is confirmed and announced, and the answer says so. *)
Definition confirmed (s : assetService) (id : uuid) (row : asset_row) (w w' : world) : Prop :=
  answered 200 marked_body w w' ∧
  ∃ now ts,
    s_db (w_store w') = upload_confirmed id row now (s_seq (w_store w)) (s_db (w_store w)) ∧
    s_stream (w_store w') = s_stream (w_store w) ++
      [job_entry (as_queue s) id (s_seq (w_store w)) ts].

Lemma wpM_confirmed {L : GoLib} {HE : Healthy E} s m r id row w `{!StorageLaws (as_storage s)} :
  store_wf (as_queue s) (w_store w) → h_status (w_http w) = None →
  parse_assetID (r_assetID r) = Ok id →
  (∀ w', is_ok (run (GetObjectAttrs (as_storage s) (as_bucket s) (object_key id)) w')) →
  rq_redis (as_queue s) ≠ None → (0 ≤ qo_MaxRetries (rq_options (as_queue s)))%Z →
  t_assets (s_db (w_store w)) !! id = Some row → a_status row = StatusUploading →
  wpM (MarkAssetUploaded {| ah_svc := as_AssetService s; ah_m := m |} wr r)
    (λ _ w', confirmed s id row w w') (λ _ _, False) w.
Proof.
  intros Hwf Hn Hid Hobj Hrc Hmax Hrow Hst.
  set (h := {| ah_svc := as_AssetService s; ah_m := m |}).
  pose proof (MarkAssetUploaded_wp h r w (ServiceLaws0 := as_AssetService_laws s) Hn) as H.
  unfold wpM in *. destruct (MarkAssetUploaded h wr r w) as [[[]|] w']; [|done].
  rewrite Hid in H. destruct H as (w1 & (Hs1 & _) & Hs' & Hr).
  cbn [svc_MarkAssetUploaded as_AssetService h ah_svc] in *.
  destruct (MarkAssetUploaded_ok s id row w1) as [Hok Hpost]; rewrite ?Hs1;
    [apply Hwf|done..|].
  rewrite Hok in Hr. split; [by apply responded_answered|]. by rewrite Hs', <-Hs1.
Qed.

Lemma wpM_complete {L : GoLib} s m r w `{!StorageLaws (as_storage s)} :
  store_wf (as_queue s) (w_store w) → h_status (w_http w) = None →
  wpM (MarkAssetUploaded {| ah_svc := as_AssetService s; ah_m := m |} wr r)
    (λ _ w', completed (as_queue s) (r_assetID r) w') (λ _ _, False) w.
Proof.
  intros Hwf Hn. eapply wpM_mono; [| |by apply wpM_decided]; [|done].
  intros [] w'. apply decided_completed.
Qed.

(** End to end, the completion endpoint over the repository's service. It
    keeps the store's invariant, answers 200, 400 or 500, and a 200 means the
    identifier is well-formed and its asset, if there is one, is no longer
    waiting for its upload. *)
Theorem complete_endpoint {L : GoLib} s m r w `{!StorageLaws (as_storage s)} :
  store_wf (as_queue s) (w_store w) → h_status (w_http w) = None →
  match MarkAssetUploaded {| ah_svc := as_AssetService s; ah_m := m |} wr r w with
  | (Returned _, w') => completed (as_queue s) (r_assetID r) w'
  | (Panicked _, _) => False
  end.
Proof. intros Hwf Hn. by apply wpM_complete. Qed.

(** End to end, the create endpoint keeps the store's invariant whatever the
    body, and changes no table unless the body decodes to a request with a
    supported content type and a size within the limit. *)
Theorem presign_endpoint {L : GoLib} s m r cfg w `{!StorageLaws (as_storage s)} :
  store_wf (as_queue s) (w_store w) → h_status (w_http w) = None → w_cfg w = Some cfg →
  match CreateAsset {| ah_svc := as_AssetService s; ah_m := m |} wr r w with
  | (Returned _, w') =>
      store_wf (as_queue s) (w_store w') ∧
      (w_store w' ≠ w_store w → ∃ req, ParseJSON (r_Body r) = Ok req ∧
         is_Some (SupportedMIMETypes !! req_ContentType req) ∧
         (req_Size req ≤ cfg_MaxAssetSizeBytes cfg)%Z)
  | (Panicked _, _) => False
  end.
Proof.
  intros Hwf Hn Hcfg. set (h := {| ah_svc := as_AssetService s; ah_m := m |}).
  pose proof (CreateAsset_wp h r cfg w (ServiceLaws0 := as_AssetService_laws s) Hcfg Hn) as H.
  unfold wpM in H. destruct (CreateAsset h wr r w) as [[[]|] w']; [|done].
  unfold create_verdict, screen in H.
  destruct (ParseJSON (r_Body r)) as [req|err]; [|by destruct H as [-> _]].
  destruct (req_ContentType req =s ""); [by destruct H as [-> _]|].
  destruct (IsSupportedMIMEType (req_ContentType req)) eqn:Hmime; cbn [negb] in H;
    [|by destruct H as [-> _]].
  destruct (Z.ltb_spec (cfg_MaxAssetSizeBytes cfg) (req_Size req)) as [|Hsize];
    [by destruct H as [-> _]|].
  split.
  - destruct H as [(w1 & (Hs1 & _) & -> & _)|(_ & -> & _)]; [|done].
    apply created_any_wf; [done|by rewrite Hs1].
  - intros _. exists req. split_and!; [done| |done]. unfold IsSupportedMIMEType in Hmime.
    by destruct (SupportedMIMETypes !! req_ContentType req).
Qed.

(** What the create endpoint promises when its context is never done: a request
    the checks refuse is answered 400 with their message; any other changes the
    store as the service's specification says, and is answered 200 with what the
    service gave, or 500. *)
Definition presigned {L : GoLib} (s : assetService) (max : Z) (body : string)
    (w w' : world) : Prop :=
  match screen max body with
  | inl msg => answered 400 (error_body msg) w w' ∧ w_store w' = w_store w
  | inr req =>
      store_wf (as_queue s) (w_store w') ∧
      ∃ res, created s req (w_store w) res (w_store w') ∧
        match res with
        | Ok resp => answered 200 (success_body resp) w w'
        | Err err => answered 500 (error_body_with "Failed to create asset" err) w w'
        end
  end.

Lemma wpM_presign {L : GoLib} s m r cfg w `{!StorageLaws (as_storage s)} :
  store_wf (as_queue s) (w_store w) → h_status (w_http w) = None → w_cfg w = Some cfg →
  (∀ n, env_ctx n = None) →
  wpM (CreateAsset {| ah_svc := as_AssetService s; ah_m := m |} wr r)
    (λ _ w', presigned s (cfg_MaxAssetSizeBytes cfg) (r_Body r) w w') (λ _ _, False) w.
Proof.
  intros Hwf Hn Hcfg Hctx. set (h := {| ah_svc := as_AssetService s; ah_m := m |}).
  pose proof (CreateAsset_wp h r cfg w (ServiceLaws0 := as_AssetService_laws s) Hcfg Hn) as H.
  unfold wpM in *. destruct (CreateAsset h wr r w) as [[[]|] w']; [|done]. revert H.
  unfold create_verdict, presigned. destruct (screen _ _) as [msg|req].
  { intros [-> H%responded_answered]. done. }
  intros [(w1 & (Hs1 & _) & -> & Hr)|((n & c & Hc) & _)]; [|by rewrite Hctx in Hc].
  split; [by apply created_any_wf; [done|rewrite Hs1]|].
  exists (run (Service.CreateAsset s req) w1). cbn in Hr |- *.
  rewrite exec_bind, exec_ret. rewrite run_bind in Hr. split.
  - rewrite <-Hs1. by apply CreateAsset_created.
  - destruct (run (Service.CreateAsset s req) w1) as [resp|err]; cbn in Hr;
      by apply responded_answered.
Qed.

End Handler.

(** ** Runs *)
Module HandlerDemo.

Definition E := fine_env.
Definition h : AssetHandler :=
  {| ah_svc := as_AssetService (E := E) (L := amd64_golib) (ServiceDemo.svc E true);
     ah_m := true |}.

Definition post (body : string) : Request := {|
  r_Method := "POST"; r_Path := "/api/v1/storage/presign"; r_RemoteAddr := "10.0.0.1:5000";
  r_Header := ∅; r_Body := body; r_ContentLength := -1; r_assetID := "";
  r_route := ""; r_user := None; r_logger := true |}.

Definition complete (id : string) : Request := {|
  r_Method := "GET"; r_Path := "/api/v1/assets/x/complete"; r_RemoteAddr := "10.0.0.1:5000";
  r_Header := ∅; r_Body := ""; r_ContentLength := 0; r_assetID := id;
  r_route := ""; r_user := None; r_logger := true |}.

Definition good_body : string :=
  json_encode (request_json ServiceDemo.request0).

Definition cfg0 : EnvConfig := ConfigDemo.cfg.

Definition w7 : world := world_of ServiceDemo.store7 (Some cfg0).

Definition serve_post (body : string) : world :=
  snd (CreateAsset (E := E) (J := demo_json_errors) h conn (post body) w7).

Definition uploads_counted (w : world) : nat :=
  length (List.filter (λ e, match e with EvAdd AssetUploadTotal _ _ => true | _ => false end)
            (o_trace (w_obs w))).

(** One successful upload is counted twice, once here and once in the service. *)
Example upload_counted_twice :
  h_status (w_http (serve_post good_body)) = Some 200%Z ∧
  uploads_counted (serve_post good_body) = 2.
Proof. vm_compute. split; reflexivity. Qed.

(** A negative size passes the checks. *)
Example negative_size_accepted :
  h_status (w_http (serve_post (json_encode (request_json
    {| req_FileName := "a"; req_ContentType := "image/png"; req_Size := -1 |}))))
  = Some 200%Z.
Proof. vm_compute. reflexivity. Qed.

Lemma CreateAsset_decision_witness :
  match CreateAsset (E := E) (J := demo_json_errors) h conn (post "{}") w7 with
  | (Returned _, w') => h_status (w_http w') = Some 400%Z
  | (Panicked _, _) => False
  end.
Proof.
  pose proof (CreateAsset_decision (E := E) (J := demo_json_errors) conn h (post "{}") cfg0 w7
    (ServiceLaws0 := as_AssetService_laws (E := E) (L := amd64_golib) (ServiceDemo.svc E true))
    eq_refl eq_refl) as H.
  destruct (CreateAsset h conn (post "{}") w7) as [[[]|] w']; [|exact H].
  destruct H as [_ Hh]. exact (f_equal h_status Hh).
Defined.

Lemma MarkAssetUploaded_decision_witness :
  match MarkAssetUploaded (E := E) h conn (complete "nonsense") w7 with
  | (Returned _, w') => h_status (w_http w') = Some 400%Z
  | (Panicked _, _) => False
  end.
Proof.
  pose proof (MarkAssetUploaded_decision (E := E) conn h (complete "nonsense") w7
    (ServiceLaws0 := as_AssetService_laws (E := E) (L := amd64_golib) (ServiceDemo.svc E true))
    eq_refl) as H.
  destruct (MarkAssetUploaded h conn (complete "nonsense") w7) as [[[]|] w']; [|exact H].
  destruct H as [_ Hh]. exact (f_equal h_status Hh).
Defined.

Lemma complete_endpoint_witness :
  match MarkAssetUploaded (E := E) h conn (complete "uuid-7") w7 with
  | (Returned _, w') => store_wf (E := E) (as_queue (ServiceDemo.svc E true)) (w_store w')
  | (Panicked _, _) => False
  end.
Proof.
  pose proof (complete_endpoint (E := E) conn (L := amd64_golib) (ServiceDemo.svc E true) true
    (complete "uuid-7") w7 (ServiceDemo.store7_wf _) eq_refl) as H.
  fold h in H.
  destruct (MarkAssetUploaded h conn (complete "uuid-7") w7) as [[[]|] w']; [|exact H].
  apply H.
Defined.

Lemma presign_endpoint_witness :
  match CreateAsset (E := E) (J := demo_json_errors) h conn (post good_body) w7 with
  | (Returned _, w') => store_wf (E := E) (as_queue (ServiceDemo.svc E true)) (w_store w')
  | (Panicked _, _) => False
  end.
Proof.
  pose proof (presign_endpoint (E := E) conn (L := amd64_golib) (J := demo_json_errors)
    (ServiceDemo.svc E true) true (post good_body) cfg0 w7
    (ServiceDemo.store7_wf _) eq_refl eq_refl) as H.
  fold h in H.
  destruct (CreateAsset h conn (post good_body) w7) as [[[]|] w']; [|exact H].
  apply H.
Defined.

End HandlerDemo.
