(* ===== verification/Auth.v ===== *)
(** * Tokens and authorization: pkg/utils/crypt.go and middleware/authorization.go

    Unpadded URL-safe base64 as Go decodes it, the encrypted tokens, and the
    middleware that admits a request only with one. AES-GCM, the source of
    nonces and bcrypt are the class [Crypto]; what is assumed of them is
    [CryptoLaws]. *)

From stdpp Require Import base gmap strings list numbers pretty.
From Stdlib Require Import ZArith Lia Ascii ZifyNat.
From S2P Require Import Prelude GoStd AppErrors Config Assets World Json Storage Http.

(** ** base64.RawURLEncoding *)

Definition bytes_of (s : string) : list nat := byte_val <$> String.list_ascii_of_string s.
Definition of_bytes (l : list nat) : string :=
  String.string_of_list_ascii (ascii_of_nat <$> l).

(** The alphabet: A-Z, a-z, 0-9, - and _. *)
Definition b64_char (n : nat) : ascii :=
  ascii_of_nat (if n <? 26 then 65 + n else if n <? 52 then 71 + n
                else if n <? 62 then n - 4 else if n =? 62 then 45 else 95).

Definition b64_val (c : ascii) : option nat :=
  let b := byte_val c in
  if (65 <=? b) && (b <=? 90) then Some (b - 65)
  else if (97 <=? b) && (b <=? 122) then Some (b - 71)
  else if (48 <=? b) && (b <=? 57) then Some (b + 4)
  else if b =? 45 then Some 62
  else if b =? 95 then Some 63
  else None.

(** Three bytes are four sextets; a rest of one or two is not padded. *)
Fixpoint sextets (l : list nat) : list nat :=
  match l with
  | a :: b :: c :: l' =>
      a / 4 :: (a mod 4) * 16 + b / 16 :: (b mod 16) * 4 + c / 64 :: c mod 64 :: sextets l'
  | [a; b] => [a / 4; (a mod 4) * 16 + b / 16; (b mod 16) * 4]
  | [a] => [a / 4; (a mod 4) * 16]
  | [] => []
  end.

(** The bits left over at the end are not looked at. *)
Fixpoint octets (l : list nat) : list nat :=
  match l with
  | a :: b :: c :: d :: l' =>
      a * 4 + b / 16 :: (b mod 16) * 16 + c / 4 :: (c mod 4) * 64 + d :: octets l'
  | [a; b; c] => [a * 4 + b / 16; (b mod 16) * 16 + c / 4]
  | [a; b] => [a * 4 + b / 16]
  | _ => []
  end.

Definition b64_Encode (s : string) : string :=
  String.string_of_list_ascii (b64_char <$> sextets (bytes_of s)).

(** The sextets of a text from byte [i] on, or where its first bad byte is; line
    breaks are skipped. *)
Fixpoint b64_scan (i : nat) (s : string) : result nat (list nat) :=
  match s with
  | EmptyString => Ok []
  | String c s' =>
      if (byte_val c =? 10) || (byte_val c =? 13) then b64_scan (S i) s'
      else match b64_val c with
           | None => Err i
           | Some v => result_map (cons v) (b64_scan (S i) s')
           end
  end.

Definition CorruptInputError (i : nat) : error :=
  EText ("illegal base64 data at input byte " +:+ pretty i).

Definition b64_Decode (s : string) : result error string :=
  match b64_scan 0 s with
  | Err i => Err (CorruptInputError i)
  | Ok l => if length l mod 4 =? 1 then Err (CorruptInputError (String.length s - 1))
            else Ok (of_bytes (octets l))
  end.

(** ** Cryptography *)

Definition key_size : nat := 32.
Definition nonce_size : nat := 12.

(** Key, nonce and text; a nonce per call of the random reader. *)
Class Crypto := {
  gcm_Seal : string → string → string → string;
  gcm_Open : string → string → string → option string;
  rand_nonce : nat → result error string;
  bcrypt_Generate : nat → string → result error string;
  bcrypt_Compare : string → string → bool;
}.

(** AES-GCM with a 32-byte key and a 12-byte nonce: opening is exactly the
    inverse of sealing. The random reader fills the nonce or fails. *)
Class CryptoLaws (C : Crypto) : Prop := {
  gcm_open_seal k n p c : String.length k = key_size → String.length n = nonce_size →
    (gcm_Open k n c = Some p ↔ c = gcm_Seal k n p);
  nonce_length i n : rand_nonce i = Ok n → String.length n = nonce_size;
}.

Section Crypt.
Context {E : Env} {C : Crypto}.

Definition GenerateHash (target : string) : IO (result error string) :=
  n ← next_tick; mret (bcrypt_Generate n target).

Definition CompareHashAndPassword (hash password : string) : bool :=
  bcrypt_Compare hash password.

Definition parseKey (key : string) : result error string :=
  if negb (String.length key =? 32) then
    Err (EText ("encryption key must be exactly 32 bytes for AES-256, got " +:+
                pretty (String.length key)))
  else Ok key.

(** A 32-byte key makes a cipher. *)
Definition GenerateToken (userID key : string) : IO (result error string) :=
  match parseKey key with
  | Err err => mret (Err err)
  | Ok k =>
      n ← next_tick;
      match rand_nonce n with
      | Err err => mret (Err err)
      | Ok nonce =>
          let ciphertext := gcm_Seal k nonce userID in
          mret (Ok (b64_Encode (nonce +:+ ciphertext)))
      end
  end.

Definition open_error : error := EText "cipher: message authentication failed".

Definition DecryptToken (token key : string) : result error string :=
  match b64_Decode token with
  | Err err => Err err
  | Ok data =>
      match parseKey key with
      | Err err => Err err
      | Ok k =>
          if String.length data <? nonce_size then Err (EText "invalid token length")
          else
            let nonce := slice_to data nonce_size in
            let ciphertext := slice_from data nonce_size in
            match gcm_Open k nonce ciphertext with
            | None => Err (EWrap ("failed to decrypt token: " +:+ err_Error open_error)
                             open_error)
            | Some plaintext => Ok plaintext
            end
      end
  end.

(** ** The middleware *)

Context {L : GoLib}.

(** [context.WithValue(ctx, userIDKey, userID)] *)
Definition with_user (userID : string) (r : Request) : Request := {|
  r_Method := r_Method r; r_Path := r_Path r; r_RemoteAddr := r_RemoteAddr r;
  r_Header := r_Header r; r_Body := r_Body r; r_ContentLength := r_ContentLength r;
  r_assetID := r_assetID r; r_route := r_route r;
  r_user := Some userID; r_logger := r_logger r |}.

Definition GetUserID (r : Request) : string * bool :=
  match r_user r with Some u => (u, true) | None => ("", false) end.

Definition unauthorized (w : ResponseWriter) (warning msg : string) (cause : option error)
    : M unit :=
  lift (log LWarn warning);; WriteErrorResponse w (NewUnauthorizedError msg cause).

Definition AuthMiddleware (next : Handler) : Handler := λ w r,
  let authHeader := Header_Get r "Authorization" in
  if authHeader =s "" then
    unauthorized w "Authorization header is empty" "Missing Authorization header" None
  else
    match strings_SplitN2 authHeader " " with
    | [scheme; token] =>
        if negb (strings_ToLower scheme =s "bearer") then
          unauthorized w "Invalid Authorization header format"
            "Invalid Authorization format" None
        else if token =s "" then unauthorized w "Token is empty" "Empty token" None
        else
          cfg ← (λ wd, from_outcome (MustGet (w_cfg wd)) wd);
          match DecryptToken token (cfg_EncryptionKey cfg) with
          | Err err =>
              unauthorized w "Invalid or expired token" "Invalid token" (Some err)
          | Ok userID => next w (with_user userID r)
          end
    | _ => unauthorized w "Invalid Authorization header format"
             "Invalid Authorization format" None
    end.

End Crypt.

(** ** base64 lemmas *)

Lemma byte_val_bound c : byte_val c < 256.
Proof. apply nat_ascii_bounded. Qed.

Lemma of_bytes_of s : of_bytes (bytes_of s) = s.
Proof.
  unfold of_bytes, bytes_of. induction s as [|c s IH]; [done|]. cbn.
  unfold byte_val at 1. rewrite ascii_nat_embedding. f_equal. exact IH.
Qed.

Lemma bytes_of_bound s : Forall (λ n, n < 256) (bytes_of s).
Proof.
  unfold bytes_of. induction s as [|c s IH]; [constructor|]. cbn.
  constructor; [apply byte_val_bound|exact IH].
Qed.

(** Induction three elements at a time. *)
Lemma list_ind3 {A} (P : list A → Prop) :
  P [] → (∀ a, P [a]) → (∀ a b, P [a; b]) →
  (∀ a b c l, P l → P (a :: b :: c :: l)) → ∀ l, P l.
Proof.
  intros H0 H1 H2 H3 l. remember (length l) as n eqn:Hn. revert l Hn.
  induction n as [n IH] using lt_wf_ind. intros [|a [|b [|c l]]] ->; auto.
  apply H3, (IH (length l)); simpl; lia.
Qed.

#[local] Ltac Zify.zify_post_hook ::= Z.div_mod_to_equations.

Ltac div_lia := lia.

(** The three bytes come back from their four sextets. *)
Lemma quantum a b c :
  a < 256 → b < 256 → c < 256 →
  a / 4 * 4 + ((a mod 4) * 16 + b / 16) / 16 = a ∧
  (((a mod 4) * 16 + b / 16) mod 16) * 16 + ((b mod 16) * 4 + c / 64) / 4 = b ∧
  (((b mod 16) * 4 + c / 64) mod 4) * 64 + c mod 64 = c.
Proof. intros Ha Hb Hc. split_and!; div_lia. Qed.

Lemma octets_sextets l : Forall (λ n, n < 256) l → octets (sextets l) = l.
Proof.
  induction l as [|a|a b|a b c l IH] using list_ind3; intros Hl.
  - done.
  - rewrite Forall_singleton in Hl. cbn [sextets octets].
    destruct (quantum a 0 0) as [H _]; [lia..|]. rewrite Nat.Div0.div_0_l, Nat.add_0_r in H.
    by rewrite H.
  - rewrite !Forall_cons in Hl. destruct Hl as (Ha & Hb & _). cbn beta in *. cbn [sextets octets].
    destruct (quantum a b 0) as (H1 & H2 & _); [lia..|].
    rewrite Nat.Div0.div_0_l, Nat.add_0_r in H2. by rewrite H1, H2.
  - rewrite !Forall_cons in Hl. destruct Hl as (Ha & Hb & Hc & Hl). cbn beta in Ha, Hb, Hc.
    cbn [sextets octets]. destruct (quantum a b c) as (-> & -> & ->); [done..|].
    by rewrite IH.
Qed.

Lemma sextets_bound l : Forall (λ n, n < 256) l → Forall (λ n, n < 64) (sextets l).
Proof.
  induction l as [|a|a b|a b c l IH] using list_ind3; cbn [sextets];
    rewrite ?Forall_cons; intros Hl; destruct_and?; split_and?; auto using Forall_nil;
    cbn beta in *; div_lia.
Qed.

Lemma b64_val_char n : n < 64 → b64_val (b64_char n) = Some n ∧
  (byte_val (b64_char n) =? 10) || (byte_val (b64_char n) =? 13) = false.
Proof. intros H. do 64 (destruct n as [|n]; [split; reflexivity|]). lia. Qed.

Lemma b64_scan_chars l i :
  Forall (λ n, n < 64) l →
  b64_scan i (String.string_of_list_ascii (b64_char <$> l)) = Ok l.
Proof.
  intros Hl. revert i. induction Hl as [|n l Hn Hl IH]; intros i; [done|]. cbn.
  destruct (b64_val_char n Hn) as [-> ->]. by rewrite IH.
Qed.

Lemma sextets_length l : length (sextets l) mod 4 ≠ 1.
Proof.
  induction l as [|a|a b|a b c l IH] using list_ind3; [done..|]. cbn [sextets length].
  replace (S (S (S (S (length (sextets l)))))) with (length (sextets l) + 1 * 4) by lia.
  by rewrite Nat.Div0.mod_add.
Qed.

(** Decoding undoes encoding. *)
Lemma b64_roundtrip s : b64_Decode (b64_Encode s) = Ok s.
Proof.
  unfold b64_Decode, b64_Encode.
  rewrite b64_scan_chars by apply sextets_bound, bytes_of_bound.
  destruct (Nat.eqb_spec (length (sextets (bytes_of s)) mod 4) 1) as [H|_].
  { by apply sextets_length in H. }
  by rewrite octets_sextets, of_bytes_of by apply bytes_of_bound.
Qed.

(** ** Properties *)

Section Properties.
Context {E : Env} {C : Crypto} {CL : CryptoLaws C} {L : GoLib}.

Lemma parseKey_cases key :
  (String.length key = key_size ∧ parseKey key = Ok key) ∨
  (String.length key ≠ key_size ∧ is_ok (parseKey key) = false).
Proof.
  unfold parseKey, key_size. destruct (Nat.eqb_spec (String.length key) 32); auto.
Qed.

(** Base64 decoding undoes encoding for every byte string, and the text of a
    token is never longer than four thirds of its bytes rounded up. *)
Theorem base64_roundtrip s :
  b64_Decode (b64_Encode s) = Ok s ∧
  3 * String.length (b64_Encode s) ≤ 4 * String.length s + 2.
Proof.
  split; [apply b64_roundtrip|]. unfold b64_Encode, bytes_of.
  assert (Hlen : ∀ l : list ascii, String.length (String.string_of_list_ascii l) = length l).
  { induction l; simpl; auto. }
  rewrite Hlen, length_fmap.
  assert (Hb : length (byte_val <$> String.list_ascii_of_string s) = String.length s).
  { rewrite length_fmap. induction s; simpl; auto. }
  rewrite <-Hb. generalize (byte_val <$> String.list_ascii_of_string s). intros l. clear.
  induction l as [|a|a b|a b c l IH] using list_ind3; cbn [sextets length]; lia.
Qed.

(** A token opens to what it was made from: with any key, the user a token
    was generated for is the one decrypting it yields, at any later time. *)
Theorem token_roundtrip userID key w token :
  run (GenerateToken userID key) w = Ok token → DecryptToken token key = Ok userID.
Proof.
  unfold GenerateToken, DecryptToken. intros H.
  destruct (parseKey_cases key) as [[Hlen Hk]|[_ Hk]].
  2: { by destruct (parseKey key). }
  rewrite Hk in *. rewrite run_bind in H.
  destruct (rand_nonce _) as [nonce|] eqn:Hn; [|done]. apply nonce_length in Hn.
  injection H as <-. rewrite b64_roundtrip. cbv zeta. rewrite string_length_append, Hn.
  destruct (Nat.ltb_spec (nonce_size + String.length (gcm_Seal key nonce userID)) nonce_size)
    as [|_]; [lia|].
  rewrite <-Hn. destruct (slice_append nonce (gcm_Seal key nonce userID)) as [-> ->].
  by rewrite (proj2 (gcm_open_seal key nonce userID _ Hlen Hn) eq_refl).
Qed.

(** C38: only tokens sealed under the key are accepted: decrypting yields a user
    exactly when the key has 32 bytes and the token decodes to a 12-byte nonce
    followed by what AES-GCM makes of that user under that key and nonce. *)
Theorem DecryptToken_exact token key userID :
  DecryptToken token key = Ok userID ↔
  String.length key = key_size ∧ ∃ nonce, String.length nonce = nonce_size ∧
    b64_Decode token = Ok (nonce +:+ gcm_Seal key nonce userID).
Proof.
  unfold DecryptToken. destruct (parseKey_cases key) as [[Hlen Hk]|[Hlen Hk]].
  - rewrite Hk. split.
    + destruct (b64_Decode token) as [data|]; [|done]. cbv zeta.
      destruct (Nat.ltb_spec (String.length data) nonce_size) as [|Hd]; [done|].
      destruct (slice_split data nonce_size Hd) as [Hsplit Hn].
      destruct (gcm_Open _ _ _) as [p|] eqn:Ho; [|done]. intros [= ->].
      apply gcm_open_seal in Ho; [|done..]. split; [done|].
      exists (slice_to data nonce_size). split; [done|]. by rewrite <-Ho, <-Hsplit.
    + intros (_ & nonce & Hn & ->). cbv zeta. rewrite string_length_append, Hn.
      destruct (Nat.ltb_spec (nonce_size + String.length (gcm_Seal key nonce userID)) nonce_size)
        as [|_]; [lia|].
      rewrite <-Hn. destruct (slice_append nonce (gcm_Seal key nonce userID)) as [-> ->].
      by rewrite (proj2 (gcm_open_seal key nonce userID _ Hlen Hn) eq_refl).
  - split; [|by intros [? _]]. destruct (b64_Decode token); [|done].
    by destruct (parseKey key).
Qed.

(** A request carries a credential for [userID]: a bearer token, in the header
    after one space, that decrypts under the key. *)
Definition authenticated (key : string) (r : Request) (userID : string) : Prop :=
  ∃ scheme token, Header_Get r "Authorization" = (scheme +:+ String " " token)%string ∧
    strings_Cut scheme " " = None ∧ strings_ToLower scheme = "bearer" ∧ token ≠ "" ∧
    DecryptToken token key = Ok userID.

(** A 401 response with an error document. *)
Definition refused (w w' : world) : Prop :=
  w_store w' = w_store w ∧ w_cfg w' = w_cfg w ∧
  ∃ msg details, responded StatusUnauthorized (AMap
    [("success", ABool false); ("message", AStr msg);
     ("error", AMap [("code", AStr "UNAUTHORIZED_ERROR"); ("details", details)])]) w w'.

(** The writer is the connection's or a wrapper of it. *)
Context (wr : ResponseWriter) `{!ConnLike wr}.

Lemma unauthorized_refused warning msg cause w :
  h_status (w_http w) = None →
  ∃ w', unauthorized wr warning msg cause w = (Returned tt, w') ∧ refused w w'.
Proof.
  intros Hn. unfold unauthorized. rewrite M_bind_lift.
  set (w1 := exec (log LWarn warning) w).
  destruct (WriteErrorResponse_like wr (NewUnauthorizedError msg cause) w1 w1) as [Ho Hs];
    [done|].
  rewrite WriteErrorResponse_conn in Ho, Hs by done.
  destruct (WriteErrorResponse wr _ w1) as [o w']. cbn in Ho. subst o.
  exists w'. split; [done|]. destruct Hs as (Hst & Hc & Hh).
  split_and!; [exact Hst|exact Hc|]. eexists msg, _. exact Hh.
Qed.

Lemma strings_SplitN2_two s a b : strings_SplitN2 s " " = [a; b] ↔
  s = (a +:+ String " " b)%string ∧ strings_Cut a " " = None.
Proof.
  unfold strings_SplitN2. split.
  - destruct (strings_Cut s " ") as [[a' b']|] eqn:Hc; [|done]. intros [= -> ->].
    by apply strings_Cut_Some.
  - intros [-> Ha]. by rewrite strings_Cut_append.
Qed.

(** The two ways a request may go, as a property of how the outcome depends on
    the next handler. *)
Definition gate (key : string) (r : Request) (w : world)
    (F : Handler → outcome unit * world) : Prop :=
  (∃ userID, authenticated key r userID ∧
     ∀ next, F next = next wr (with_user userID r) w) ∨
  ((∀ userID, ¬ authenticated key r userID) ∧
   ∃ w', refused w w' ∧ ∀ next, F next = (Returned tt, w')).

Lemma gate_ext key r w F G : (∀ next, F next = G next) → gate key r w G → gate key r w F.
Proof.
  intros H [(u & Ha & HG)|(Hna & w' & Href & HG)]; [left|right].
  - exists u. split; [done|]. intros next. by rewrite H.
  - split; [done|]. exists w'. split; [done|]. intros next. by rewrite H.
Qed.

Lemma gate_refused key r w warning msg cause :
  h_status (w_http w) = None → (∀ userID, ¬ authenticated key r userID) →
  gate key r w (λ _, unauthorized wr warning msg cause w).
Proof.
  intros Hn Hna. right. split; [done|].
  destruct (unauthorized_refused warning msg cause w Hn) as (w' & Hw' & Href). eauto.
Qed.

Lemma authenticated_split key r userID :
  authenticated key r userID →
  ∃ scheme token, strings_SplitN2 (Header_Get r "Authorization") " " = [scheme; token] ∧
    strings_ToLower scheme = "bearer" ∧ token ≠ "" ∧ DecryptToken token key = Ok userID.
Proof.
  intros (scheme & token & Hh & Hc & ?). exists scheme, token.
  split; [by apply strings_SplitN2_two|done].
Qed.

(** The middleware once the configuration was read. *)
Definition auth_checked (next : Handler) (key : string) (r : Request)
    (w : world) : outcome unit * world :=
  if Header_Get r "Authorization" =s "" then
    unauthorized wr "Authorization header is empty" "Missing Authorization header" None w
  else
    match strings_SplitN2 (Header_Get r "Authorization") " " with
    | [scheme; token] =>
        if negb (strings_ToLower scheme =s "bearer") then
          unauthorized wr "Invalid Authorization header format"
            "Invalid Authorization format" None w
        else if token =s "" then unauthorized wr "Token is empty" "Empty token" None w
        else match DecryptToken token key with
             | Err err => unauthorized wr "Invalid or expired token" "Invalid token" (Some err) w
             | Ok userID => next wr (with_user userID r) w
             end
    | _ => unauthorized wr "Invalid Authorization header format"
             "Invalid Authorization format" None w
    end.

Lemma AuthMiddleware_checked next cfg r w :
  w_cfg w = Some cfg →
  AuthMiddleware next wr r w = auth_checked next (cfg_EncryptionKey cfg) r w.
Proof.
  intros Hcfg. unfold AuthMiddleware, auth_checked, MustGet.
  destruct (_ =s ""); [done|].
  destruct (strings_SplitN2 _ _) as [|scheme [|token [|]]]; try done.
  destruct (negb _); [done|]. destruct (token =s ""); [done|].
  unfold mbind, M_bind. rewrite Hcfg. cbn [from_outcome]. by destruct (DecryptToken _ _).
Qed.

Lemma AuthMiddleware_gated r cfg w :
  w_cfg w = Some cfg → h_status (w_http w) = None →
  gate (cfg_EncryptionKey cfg) r w (λ next, AuthMiddleware next wr r w).
Proof.
  intros Hcfg Hn.
  apply (gate_ext _ _ _ _ (λ next, auth_checked next (cfg_EncryptionKey cfg) r w)).
  { intros next. by apply AuthMiddleware_checked. }
  unfold auth_checked. destruct (Header_Get r "Authorization" =s "") eqn:Hempty.
  { apply gate_refused; [done|]. intros userID Ha. apply authenticated_split in Ha.
    simpl_eqb. rewrite Hempty in Ha. by destruct Ha as (? & ? & [=] & _). }
  assert (Hno : ∀ warning msg cause,
    (∀ scheme token userID, strings_SplitN2 (Header_Get r "Authorization") " " = [scheme; token] →
       strings_ToLower scheme = "bearer" → token ≠ "" →
       DecryptToken token (cfg_EncryptionKey cfg) ≠ Ok userID) →
    gate (cfg_EncryptionKey cfg) r w (λ _, unauthorized wr warning msg cause w)).
  { intros warning msg cause H. apply gate_refused; [done|]. intros userID Ha.
    apply authenticated_split in Ha as (? & ? & Hs & Hb & Ht & Hd). by eapply H. }
  destruct (strings_SplitN2 _ _) as [|scheme [|token [|]]] eqn:Hsplit;
    try (apply Hno; intros; congruence).
  destruct (strings_ToLower scheme =s "bearer") eqn:Hb; cbn [negb]; simpl_eqb.
  2: { apply Hno. intros. congruence. }
  destruct (token =s "") eqn:Ht; simpl_eqb; [apply Hno; intros; congruence|].
  destruct (DecryptToken token (cfg_EncryptionKey cfg)) as [userID|err] eqn:Hd.
  - left. exists userID. split; [|done]. apply strings_SplitN2_two in Hsplit as [Hh Hc].
    by exists scheme, token.
  - apply Hno. intros. congruence.
Qed.

(** C37: the gate. With a configuration and on a writer that sent nothing, a
    request that carries a credential for a user reaches the next handler, with
    that user in its context and nothing done before; any other request is
    answered with 401 and an error document, the store untouched, without the
    next handler running at all (the outcome does not depend on it). *)
Theorem AuthMiddleware_gate r cfg w :
  w_cfg w = Some cfg → h_status (w_http w) = None →
  (∃ userID, authenticated (cfg_EncryptionKey cfg) r userID ∧
     ∀ next, AuthMiddleware next wr r w = next wr (with_user userID r) w) ∨
  ((∀ userID, ¬ authenticated (cfg_EncryptionKey cfg) r userID) ∧
   ∃ w', refused w w' ∧ ∀ next, AuthMiddleware next wr r w = (Returned tt, w')).
Proof. apply AuthMiddleware_gated. Qed.

End Properties.

(** ** A cipher for running the model

    The tag is made of the key's first bytes and the nonce. *)
Module AuthDemo.

Fixpoint drop_prefix (p s : string) : option string :=
  match p, s with
  | EmptyString, _ => Some s
  | String c p', String d s' => if decide (c = d) then drop_prefix p' s' else None
  | _, EmptyString => None
  end.

Lemma drop_prefix_spec p s t : drop_prefix p s = Some t ↔ s = (p +:+ t)%string.
Proof.
  revert s. induction p as [|c p IH]; intros s; simpl.
  - rewrite string_nil_append. naive_solver.
  - rewrite string_cons_append. destruct s as [|d s]; [done|].
    case_decide; [subst; rewrite IH|]; naive_solver.
Qed.

Definition tag (k n : string) : string := slice_to k 4 +:+ n.

Definition toy_crypto : Crypto := {|
  gcm_Seal k n p := tag k n +:+ p;
  gcm_Open k n c := drop_prefix (tag k n) c;
  rand_nonce _ := Ok "nonce-000001";
  bcrypt_Generate _ s := Ok ("$2a$10$" +:+ s);
  bcrypt_Compare h p := h =s "$2a$10$" +:+ p;
|}.

#[export] Instance toy_laws : CryptoLaws toy_crypto.
Proof.
  constructor.
  - intros k n p c _ _. apply drop_prefix_spec.
  - intros i n [= <-]. reflexivity.
Qed.

Definition key : string := "0123456789abcdef0123456789abcdef".
Definition w0 : world := world_of empty_store (Some ConfigDemo.cfg).

Definition token : string :=
  match run (GenerateToken (C := toy_crypto) "user-42" key) w0 with
  | Ok t => t | Err _ => "" end.

Definition req (header : string) : Request := {|
  r_Method := "GET"; r_Path := "/api/v1/assets/x/complete"; r_RemoteAddr := "10.0.0.1:5000";
  r_Header := if header =s "" then ∅ else {["Authorization" := header]};
  r_Body := ""; r_ContentLength := 0; r_assetID := "x"; r_route := "";
  r_user := None; r_logger := true |}.

(** Answers 200 and tells whether the user is in the context. *)
Definition next_ok : Handler := λ w r,
  hw_WriteHeader w (if (GetUserID r).2 then 200 else 500).

Definition status_of (header : string) : option Z :=
  h_status (w_http (snd (AuthMiddleware (C := toy_crypto) (L := amd64_golib)
    next_ok conn (req header) w0))).

(** The cases of the repository's own test of the middleware. *)
Example rejects :
  List.map status_of [""; "Basic abc123"; "Bearer "; "Bearer not-a-valid-token"]
  = [Some 401; Some 401; Some 401; Some 401]%Z.
Proof. vm_compute. reflexivity. Qed.

Example accepts :
  status_of ("Bearer " +:+ token) = Some 200%Z ∧ status_of ("bEARER " +:+ token) = Some 200%Z.
Proof. vm_compute. split; reflexivity. Qed.

Lemma token_roundtrip_witness :
  run (GenerateToken (C := toy_crypto) "user-42" key) w0 = Ok token ∧
  DecryptToken (C := toy_crypto) token key = Ok "user-42".
Proof.
  split; [vm_compute; reflexivity|].
  apply (token_roundtrip (C := toy_crypto) "user-42" key w0). vm_compute. reflexivity.
Defined.

Lemma DecryptToken_exact_witness :
  (∃ nonce, b64_Decode token =
     Ok (nonce +:+ gcm_Seal (Crypto := toy_crypto) key nonce "user-42")) ∧
  DecryptToken (C := toy_crypto) token key ≠ Ok "user-43".
Proof.
  split; [|vm_compute; discriminate].
  destruct (proj1 (DecryptToken_exact (C := toy_crypto) token key "user-42"))
    as (_ & n & _ & Hn); [vm_compute; reflexivity|]. exists n. exact Hn.
Defined.

Lemma AuthMiddleware_gate_witness :
  (∃ userID, authenticated (C := toy_crypto) (L := amd64_golib) (cfg_EncryptionKey ConfigDemo.cfg)
     (req "Bearer x") userID) ∨
  (∃ w', refused w0 w' ∧ ∀ next, AuthMiddleware (C := toy_crypto) (L := amd64_golib) next conn
     (req "Bearer x") w0 = (Returned tt, w')).
Proof.
  destruct (AuthMiddleware_gate (C := toy_crypto) (L := amd64_golib) conn (req "Bearer x")
    ConfigDemo.cfg w0 eq_refl eq_refl) as [(u & Hu & _)|(_ & w' & Hw')].
  - left. exists u. exact Hu.
  - right. exists w'. exact Hw'.
Defined.

End AuthDemo.
