(* ===== verification/RateLimit.v ===== *)
(** * The presign rate limiter: internal/router/router.go, lines 30-79

    The map of clients and its limiters (shared by pointer, so limiters live in a
    heap), the eviction of idle clients, and the middleware. Requests run
    concurrently: between looking its limiter up, reading the clock and taking the
    limiter's lock, a request can be overtaken by others and by the evictor, and be
    held up for any time, so the system is a step relation over these actions.
    golang.org/x/time/rate is the class [RateLib]. *)

From stdpp Require Import base gmap strings list numbers pretty.
From Stdlib Require Import ZArith Lia Ascii.
From S2P Require Import Prelude GoStd AppErrors Config Assets World Http.

(** [rate.NewLimiter(rate.Limit(r), b)] and [Allow] at a time. *)
Class RateLib := {
  limiter : Type;
  NewLimiter : Z → Z → limiter;
  lim_Allow : limiter → Z → bool * limiter;
}.

Section RateLimit.
Context {R : RateLib}.

(** 10 requests a second, a burst of 20. *)
Definition presign_limiter : limiter := NewLimiter 10 20.

(** The pointer of the entry's limiter, and when the client was last seen. *)
Record entry := { en_lim : nat; en_lastSeen : Z }.

Record limiters := { lm_clients : gmap string entry; lm_heap : list limiter }.

Definition no_limiters : limiters := {| lm_clients := ∅; lm_heap := [] |}.

(** Under the mutex. *)
Definition getLimiter (ip : string) (now : Z) (st : limiters) : nat * limiters :=
  match lm_clients st !! ip with
  | Some e =>
      (en_lim e,
       {| lm_clients := <[ip := {| en_lim := en_lim e; en_lastSeen := now |}]> (lm_clients st);
          lm_heap := lm_heap st |})
  | None =>
      let p := length (lm_heap st) in
      (p, {| lm_clients := <[ip := {| en_lim := p; en_lastSeen := now |}]> (lm_clients st);
             lm_heap := lm_heap st ++ [presign_limiter] |})
  end.

(** One tick of the evictor, which reads the clock for each entry. *)
Definition evict (now : string → Z) (st : limiters) : limiters :=
  {| lm_clients := map_imap (λ ip e,
       if (5 * Minute <? now ip - en_lastSeen e)%Z then None else Some e) (lm_clients st);
     lm_heap := lm_heap st |}.

(** [Allow] through the pointer. *)
Definition Allow (p : nat) (now : Z) (st : limiters) : bool * limiters :=
  match lm_heap st !! p with
  | Some l =>
      let '(b, l') := lim_Allow l now in
      (b, {| lm_clients := lm_clients st; lm_heap := <[p := l']> (lm_heap st) |})
  | None => (false, st)
  end.

(** ** The middleware *)

Context {L : GoLib}.

(** The key of a request's client. *)
Definition client_key (r : Request) : string :=
  let xff := Header_Get r "X-Forwarded-For" in
  let ip := if negb (xff =s "")
            then match strings_SplitN2 xff "," with a :: _ => a | [] => "" end
            else r_RemoteAddr r in
  strings_TrimSpace ip.

Definition rate_limit_message : string :=
  "{" +:+ String dq_char "status" +:+ String dq_char ":" +:+ String dq_char "error" +:+
  String dq_char "," +:+ String dq_char "message" +:+ String dq_char ":" +:+
  String dq_char "rate limit exceeded" +:+ String dq_char "}".

(** [allow] stands for [getLimiter(ip).Allow()]. *)
Definition presignRateLimiter (allow : string → IO bool) (next : Handler) : Handler := λ w r,
  ok ← lift (allow (client_key r));
  if negb ok then http_Error w rate_limit_message StatusTooManyRequests else next w r.

(** ** The concurrent system *)

(** A request's thread between [getLimiter] and its answer: its key, the limiter it
    got and when it got it, and the time [Allow] has read, once it has. *)
Record pending := {
  pd_key : string; pd_lim : nat; pd_since : Z; pd_clock : option Z;
}.

(** An answer given: the key, the limiter asked, when the request got the limiter,
    the time [Allow] read, when the limiter was asked, and the verdict. *)
Record answer := {
  an_key : string; an_lim : nat; an_since : Z; an_time : Z; an_done : Z; an_ok : bool;
}.

Record system := {
  sy_now : Z; sy_lim : limiters; sy_pend : gmap nat pending; sy_log : list answer;
}.

Definition start : system :=
  {| sy_now := 0; sy_lim := no_limiters; sy_pend := ∅; sy_log := [] |}.

Definition read_clock (now : Z) (pd : pending) : pending :=
  {| pd_key := pd_key pd; pd_lim := pd_lim pd; pd_since := pd_since pd;
     pd_clock := Some now |}.

(** The actions of a request, each atomic, and the evictor's tick: [getLimiter]
    under the mutex; [Allow] reading the clock; [Allow] under the limiter's own
    lock. Time does not go back; anything may happen between two actions, and any
    time may pass. *)
Inductive step : system → system → Prop :=
| step_get s tid ip now p lim :
    (sy_now s ≤ now)%Z → sy_pend s !! tid = None →
    getLimiter ip now (sy_lim s) = (p, lim) →
    step s {| sy_now := now; sy_lim := lim;
              sy_pend := <[tid := {| pd_key := ip; pd_lim := p; pd_since := now;
                                     pd_clock := None |}]> (sy_pend s);
              sy_log := sy_log s |}
| step_clock s tid pd now :
    (sy_now s ≤ now)%Z → sy_pend s !! tid = Some pd → pd_clock pd = None →
    step s {| sy_now := now; sy_lim := sy_lim s;
              sy_pend := <[tid := read_clock now pd]> (sy_pend s); sy_log := sy_log s |}
| step_allow s tid pd t now b lim :
    (sy_now s ≤ now)%Z → sy_pend s !! tid = Some pd → pd_clock pd = Some t →
    Allow (pd_lim pd) t (sy_lim s) = (b, lim) →
    step s {| sy_now := now; sy_lim := lim; sy_pend := delete tid (sy_pend s);
              sy_log := sy_log s ++ [{| an_key := pd_key pd; an_lim := pd_lim pd;
                an_since := pd_since pd; an_time := t; an_done := now; an_ok := b |}] |}
| step_evict s nows now :
    (sy_now s ≤ now)%Z → (∀ ip, (sy_now s ≤ nows ip ≤ now)%Z) →
    step s {| sy_now := now; sy_lim := evict nows (sy_lim s); sy_pend := sy_pend s;
              sy_log := sy_log s |}.

Inductive steps : system → Prop :=
| steps_start : steps start
| steps_step s s' : steps s → step s s' → steps s'.

(** ** The specification: private limiters *)

(** The answers given to a key, and those a limiter gave. *)
Definition log_of (ip : string) (log : list answer) : list answer :=
  filter (λ a, an_key a = ip) log.
Definition given_by (p : nat) (log : list answer) : list answer :=
  filter (λ a, an_lim a = p) log.

(** A limiter after being asked at the given times, in this order. *)
Definition after (ts : list Z) : limiter := foldl (λ l t, (lim_Allow l t).2) presign_limiter ts.

(** What it answers. *)
Fixpoint answers (l : limiter) (ts : list Z) : list bool :=
  match ts with
  | [] => []
  | t :: ts' => let '(b, l') := lim_Allow l t in b :: answers l' ts'
  end.

(** A request of the key asks its limiter at most this long after it got it: five
    minutes less the two seconds an empty bucket takes to fill. *)
Definition grace : Z := 5 * Minute - 2 * Second.
#[local] Arguments grace : simpl never.

Definition prompt (ip : string) (log : list answer) : Prop :=
  Forall (λ a, an_key a = ip → (an_done a ≤ an_since a + grace)%Z) log.

Lemma answers_app l ts1 ts2 :
  answers l (ts1 ++ ts2) = answers l ts1 ++ answers (foldl (λ l t, (lim_Allow l t).2) l ts1) ts2.
Proof.
  revert l. induction ts1 as [|t ts1 IH]; intros l; [done|]. simpl.
  destruct (lim_Allow l t) as [b l']. simpl. by rewrite IH.
Qed.

Lemma after_snoc ts t : after (ts ++ [t]) = (lim_Allow (after ts) t).2.
Proof. unfold after. by rewrite foldl_app. Qed.

Lemma answers_snoc ts t :
  answers presign_limiter (ts ++ [t]) =
  answers presign_limiter ts ++ [(lim_Allow (after ts) t).1].
Proof.
  rewrite answers_app. f_equal. cbn. fold (after ts). by destruct (lim_Allow (after ts) t).
Qed.

(** No time later than [u]. *)
Definition until (u : Z) (ts : list Z) : Prop := Forall (λ t, (t ≤ u)%Z) ts.

(** What x/time/rate promises of a bucket that was left alone for the two
    seconds it takes to fill: it answers, and goes on, as a new one. *)
Class RateLaws : Prop :=
  idle_is_new ts u now : until u ts → (u + 2 * Second ≤ now)%Z →
    lim_Allow (after ts) now = lim_Allow presign_limiter now.

Definition times (ip : string) (log : list answer) : list Z := an_time <$> log_of ip log.
Definition times_at (p : nat) (log : list answer) : list Z := an_time <$> given_by p log.

(** The key's last request is long enough ago for its bucket to be full. *)
Definition idle (ip : string) (log : list answer) (now : Z) : Prop :=
  ∃ u, until u (times ip log) ∧ (u + 2 * Second ≤ now)%Z.

Lemma until_mono ts u u' : until u ts → (u ≤ u')%Z → until u' ts.
Proof. intros H Hle. eapply Forall_impl; [exact H|]. cbn. lia. Qed.

Lemma until_snoc ts t u : until u ts → (t ≤ u)%Z → until u (ts ++ [t]).
Proof. intros H Ht. apply Forall_app. split; [exact H|by constructor]. Qed.

Lemma idle_mono ip log now now' : (now ≤ now')%Z → idle ip log now → idle ip log now'.
Proof. intros Hle (u & Ho & Hu). exists u. split; [done|lia]. Qed.

Lemma log_of_snoc ip log a :
  log_of ip (log ++ [a]) = if decide (an_key a = ip) then log_of ip log ++ [a] else log_of ip log.
Proof.
  unfold log_of. rewrite filter_app, filter_cons, filter_nil. case_decide; [done|].
  by rewrite app_nil_r.
Qed.

Lemma given_by_snoc p log a :
  given_by p (log ++ [a]) = if decide (an_lim a = p) then given_by p log ++ [a] else given_by p log.
Proof.
  unfold given_by. rewrite filter_app, filter_cons, filter_nil. case_decide; [done|].
  by rewrite app_nil_r.
Qed.

(** ** Limiters have one user, whatever happens *)

(** The key [k] uses the limiter [p]: through the map, a request under way, or an
    answer it got. *)
Definition uses (s : system) (p : nat) (k : string) : Prop :=
  (∃ e, lm_clients (sy_lim s) !! k = Some e ∧ en_lim e = p) ∨
  (∃ tid pd, sy_pend s !! tid = Some pd ∧ pd_lim pd = p ∧ pd_key pd = k) ∨
  (∃ a, a ∈ sy_log s ∧ an_lim a = p ∧ an_key a = k).

Record lim_inv (s : system) : Prop := {
  li_owner p k1 k2 : uses s p k1 → uses s p k2 → k1 = k2;
  li_bound p k : uses s p k → p < length (lm_heap (sy_lim s));
  li_heap p l : lm_heap (sy_lim s) !! p = Some l → l = after (times_at p (sy_log s));
  li_answers p : an_ok <$> given_by p (sy_log s) =
    answers presign_limiter (times_at p (sy_log s));
  li_since tid pd : sy_pend s !! tid = Some pd → (pd_since pd ≤ sy_now s)%Z;
  li_clock tid pd t : sy_pend s !! tid = Some pd → pd_clock pd = Some t →
    (pd_since pd ≤ t ≤ sy_now s)%Z;
}.

Lemma start_lim : lim_inv start.
Proof.
  assert (Hno : ∀ p k, ¬ uses start p k).
  { intros p k [(e & He & _)|[(tid & pd & Hp & _)|(a & Ha & _)]]; [done..|]. by apply elem_of_nil in Ha. }
  constructor; try done; intros p k; [intros k2 H|intros H]; by apply Hno in H.
Qed.

(** Nothing was asked of a limiter that is yet to be made. *)
Lemma times_at_fresh s : lim_inv s → times_at (length (lm_heap (sy_lim s))) (sy_log s) = [].
Proof.
  intros Hinv. unfold times_at. destruct (given_by _ _) as [|a l] eqn:He; [done|]. exfalso.
  assert (Ha : a ∈ given_by (length (lm_heap (sy_lim s))) (sy_log s)) by (rewrite He; left).
  apply list_elem_of_filter in Ha as [Hl Ha].
  assert (an_lim a < length (lm_heap (sy_lim s))); [|lia].
  eapply (li_bound s Hinv _ (an_key a)). right. right. by exists a.
Qed.

(** Keeping the limiters and their users keeps the invariant. *)
Lemma lim_inv_same s s' :
  lim_inv s → (∀ p k, uses s' p k → uses s p k) →
  lm_heap (sy_lim s') = lm_heap (sy_lim s) → sy_log s' = sy_log s →
  (∀ tid pd, sy_pend s' !! tid = Some pd → (pd_since pd ≤ sy_now s')%Z) →
  (∀ tid pd t, sy_pend s' !! tid = Some pd → pd_clock pd = Some t →
     (pd_since pd ≤ t ≤ sy_now s')%Z) →
  lim_inv s'.
Proof.
  intros [Ho Hb Hh Ha _ _] Hu Eh El Hs Hc. constructor; rewrite ?Eh, ?El; eauto.
Qed.

Lemma getLimiter_cases ip now st p st' :
  getLimiter ip now st = (p, st') →
  lm_clients st' = <[ip := {| en_lim := p; en_lastSeen := now |}]> (lm_clients st) ∧
  ((∃ e, lm_clients st !! ip = Some e ∧ p = en_lim e ∧ lm_heap st' = lm_heap st) ∨
   (lm_clients st !! ip = None ∧ p = length (lm_heap st) ∧
    lm_heap st' = lm_heap st ++ [presign_limiter])).
Proof.
  unfold getLimiter. destruct (lm_clients st !! ip) as [e|] eqn:He; intros [= <- <-]; cbn.
  - split; [done|]. left. by exists e.
  - split; [done|]. by right.
Qed.

Lemma get_lim s tid ip now p lim :
  lim_inv s → (sy_now s ≤ now)%Z → getLimiter ip now (sy_lim s) = (p, lim) →
  lim_inv {| sy_now := now; sy_lim := lim;
             sy_pend := <[tid := {| pd_key := ip; pd_lim := p; pd_since := now;
                                    pd_clock := None |}]> (sy_pend s);
             sy_log := sy_log s |}.
Proof.
  intros Hinv Hnow Hget. apply getLimiter_cases in Hget as [Hcl Hcase].
  pose proof Hinv as [Ho Hb Hh Ha Hs Hc].
  set (s' := {| sy_now := now; sy_lim := lim; sy_pend := _; sy_log := _ |}).
  assert (Hu : ∀ q k, uses s' q k → uses s q k ∨ (q = p ∧ k = ip)).
  { intros q k [(e & He & Hl)|[(t & pd & Hp & Hl & Hk)|(a & Hin & Hl & Hk)]]; cbn in *.
    - rewrite Hcl, lookup_insert_Some in He. destruct He as [[<- <-]|[_ He]]; [by right|].
      left. left. by exists e.
    - apply lookup_insert_Some in Hp as [[_ <-]|[_ Hp]]; [by right|].
      left. right. left. by exists t, pd.
    - left. right. right. by exists a. }
  assert (Hs' : ∀ t pd, sy_pend s' !! t = Some pd → (pd_since pd ≤ now)%Z).
  { cbn. intros t pd [[_ <-]|[_ H]]%lookup_insert_Some; [done|]. apply Hs in H. lia. }
  assert (Hc' : ∀ t pd x, sy_pend s' !! t = Some pd → pd_clock pd = Some x →
    (pd_since pd ≤ x ≤ now)%Z).
  { cbn. intros t pd x [[_ <-]|[_ H]]%lookup_insert_Some Hx; [done|].
    specialize (Hc _ _ _ H Hx). lia. }
  destruct Hcase as [(e & He & -> & Eh)|(Hnone & -> & Eh)].
  - apply (lim_inv_same s s'); [done| |done|done|done|done].
    intros q k [H|[-> ->]]%Hu; [done|]. left. by exists e.
  - constructor; cbn [sy_lim sy_log s']; [| | |done|done|done].
    + intros q k1 k2 [H1|[Hq ->]]%Hu [H2|[Hq' ->]]%Hu; [by eapply Ho| | |done].
      * apply Hb in H1. lia.
      * apply Hb in H2. lia.
    + intros q k [H|[-> _]]%Hu; rewrite Eh, length_app; cbn; [apply Hb in H|]; lia.
    + intros q l. rewrite Eh, lookup_app_Some. intros [H|[Hq H]]; [by apply Hh|].
      apply list_lookup_singleton_Some in H as [Hz <-].
      replace q with (length (lm_heap (sy_lim s))) by lia. by rewrite times_at_fresh.
Qed.

Lemma Allow_eq p l t st :
  lm_heap st !! p = Some l →
  Allow p t st = ((lim_Allow l t).1,
    {| lm_clients := lm_clients st; lm_heap := <[p := (lim_Allow l t).2]> (lm_heap st) |}).
Proof. intros H. unfold Allow. rewrite H. by destruct (lim_Allow l t). Qed.

Lemma allow_lim s tid pd t now b lim :
  lim_inv s → (sy_now s ≤ now)%Z → sy_pend s !! tid = Some pd → pd_clock pd = Some t →
  Allow (pd_lim pd) t (sy_lim s) = (b, lim) →
  lim_inv {| sy_now := now; sy_lim := lim; sy_pend := delete tid (sy_pend s);
             sy_log := sy_log s ++ [{| an_key := pd_key pd; an_lim := pd_lim pd;
               an_since := pd_since pd; an_time := t; an_done := now; an_ok := b |}] |}.
Proof.
  intros Hinv Hnow Hpd Hclock Hallow. set (a := {| an_key := _ |}).
  pose proof Hinv as [Ho Hb Hh Ha Hs Hc].
  assert (Huse : uses s (pd_lim pd) (pd_key pd)) by (right; left; by exists tid, pd).
  destruct (lookup_lt_is_Some_2 _ _ (Hb _ _ Huse)) as [l Hl].
  rewrite (Allow_eq _ _ _ _ Hl) in Hallow. injection Hallow as Hb' <-.
  apply Hh in Hl as ->. set (s' := {| sy_now := now; sy_lim := _ |}).
  assert (Hu : ∀ q k, uses s' q k → uses s q k).
  { intros q k [(e & He & El)|[(tid' & pd' & Hp & El & Ek)|(a' & Hin & El & Ek)]]; cbn in *.
    - left. by exists e.
    - apply lookup_delete_Some in Hp as [_ Hp]. right. left. by exists tid', pd'.
    - apply elem_of_app in Hin as [Hin|Hin]; [right; right; by exists a'|].
      apply list_elem_of_singleton in Hin as ->. cbn in El, Ek. by subst. }
  constructor; cbn [sy_lim sy_log sy_pend sy_now s' lm_heap].
  - intros q k1 k2 H1%Hu H2%Hu. by eapply Ho.
  - intros q k H%Hu. rewrite length_insert. by eapply Hb.
  - intros q l. unfold times_at. rewrite given_by_snoc. cbn [an_lim a].
    rewrite list_lookup_insert_Some. case_decide as Hd.
    + intros [(_ & <- & _)|[? _]]; [|done]. rewrite fmap_app. cbn. rewrite after_snoc.
      by subst q.
    + intros [(? & _)|[_ H]]; [done|by apply Hh].
  - intros q. unfold times_at. rewrite given_by_snoc. cbn [an_lim a]. case_decide as Hd; [|apply Ha].
    rewrite !fmap_app. cbn. rewrite answers_snoc, Ha. by subst q b.
  - intros t' pd' [_ H]%lookup_delete_Some. apply Hs in H. lia.
  - intros t' pd' x [_ H]%lookup_delete_Some Hx. specialize (Hc _ _ _ H Hx). lia.
Qed.

Lemma evict_lookup nows st ip e :
  lm_clients (evict nows st) !! ip = Some e ↔
  lm_clients st !! ip = Some e ∧ (nows ip - en_lastSeen e ≤ 5 * Minute)%Z.
Proof.
  cbn. rewrite map_lookup_imap. destruct (lm_clients st !! ip) as [e'|]; [|naive_solver].
  cbn. destruct (Z.ltb_spec (5 * Minute) (nows ip - en_lastSeen e'));
    split; try naive_solver lia.
Qed.

Lemma step_lim s s' : lim_inv s → step s s' → lim_inv s'.
Proof.
  intros Hinv Hstep. destruct Hstep as [s tid ip now p lim Hn Ht Hg|s tid pd now Hn Hp Hc
    |s tid pd t now b lim Hn Hp Hc Ha|s nows now Hn Hns].
  - by eapply get_lim.
  - pose proof Hinv as [_ _ _ _ Hs Hk].
    eapply lim_inv_same; [exact Hinv| |done|done| |]; cbn.
    + intros q k [(e & He & El)|[(tid' & pd' & H & El & Ek)|H]]; cbn in *.
      * left. by exists e.
      * right. left. apply lookup_insert_Some in H as [[<- <-]|[_ H]]; [by exists tid, pd|].
        by exists tid', pd'.
      * right. by right.
    + intros t pd' [[_ <-]|[_ H]]%lookup_insert_Some; cbn; [apply Hs in Hp|apply Hs in H]; lia.
    + intros t pd' x [[_ <-]|[_ H]]%lookup_insert_Some Hx; cbn in *.
      * injection Hx as <-. apply Hs in Hp. lia.
      * specialize (Hk _ _ _ H Hx). lia.
  - by eapply allow_lim.
  - pose proof Hinv as [_ _ _ _ Hs Hk].
    eapply lim_inv_same; [exact Hinv| |done|done| |]; cbn -[evict].
    + intros q k [(e & [He _]%evict_lookup & El)|H]; [left; by exists e|by right].
    + intros t pd H. apply Hs in H. lia.
    + intros t pd x H Hx. specialize (Hk _ _ _ H Hx). lia.
Qed.

Lemma steps_lim s : steps s → lim_inv s.
Proof. induction 1 as [|s s' _ IH Hstep]; [apply start_lim|by eapply step_lim]. Qed.

(** ** A key whose requests are prompt has one limiter, for ever *)

Section PromptKey.
Context {RL : RateLaws} (ip : string).

(** An idle key's next limiter may be a new one: until a request asks it, the
    requests that hold it all got it when the key had long been idle. *)
Definition renewed (s : system) (p : nat) : Prop :=
  times_at p (sy_log s) = [] ∧ idle ip (sy_log s) (sy_now s) ∧
  ∀ tid pd, sy_pend s !! tid = Some pd → pd_lim pd = p → idle ip (sy_log s) (pd_since pd).

Record key_inv (s : system) : Prop := {
  (** the limiter in the map has given all the key's answers, or is a new one in
      place of an idle one *)
  ki_lim e : lm_clients (sy_lim s) !! ip = Some e →
    lm_heap (sy_lim s) !! en_lim e = Some (after (times ip (sy_log s))) ∨
    renewed s (en_lim e);
  ki_seen e : lm_clients (sy_lim s) !! ip = Some e →
    (en_lastSeen e ≤ sy_now s)%Z ∧ until (en_lastSeen e + grace) (times ip (sy_log s));
  ki_none : lm_clients (sy_lim s) !! ip = None → idle ip (sy_log s) (sy_now s);
  ki_order : until (sy_now s) (times ip (sy_log s));
  (** a request that can still be prompt holds the limiter in the map *)
  ki_pend tid pd : sy_pend s !! tid = Some pd → pd_key pd = ip →
    (sy_now s ≤ pd_since pd + grace)%Z →
    ∃ e, lm_clients (sy_lim s) !! ip = Some e ∧ en_lim e = pd_lim pd ∧
      (pd_since pd ≤ en_lastSeen e)%Z;
  ki_answers : an_ok <$> log_of ip (sy_log s) = answers presign_limiter (times ip (sy_log s));
}.

Lemma start_key : key_inv start.
Proof.
  constructor; try done.
  - intros _. exists (-2 * Second)%Z. split; [constructor|]. cbn. lia.
  - constructor.
Qed.

Lemma grace_nonneg : (0 ≤ grace)%Z.
Proof. unfold grace, Minute, Second. lia. Qed.

Lemma get_key s tid ip' now p lim :
  lim_inv s → key_inv s → (sy_now s ≤ now)%Z → getLimiter ip' now (sy_lim s) = (p, lim) →
  key_inv {| sy_now := now; sy_lim := lim;
             sy_pend := <[tid := {| pd_key := ip'; pd_lim := p; pd_since := now;
                                    pd_clock := None |}]> (sy_pend s);
             sy_log := sy_log s |}.
Proof.
  intros Hlim [Hl Hseen Hnone Hord Hpend Hans] Hnow Hget.
  apply getLimiter_cases in Hget as [Hcl Hcase]. pose proof grace_nonneg as Hg.
  set (s' := {| sy_now := now; sy_lim := lim; sy_pend := _; sy_log := _ |}).
  assert (Hidle : ∀ t, idle ip (sy_log s) t → (t ≤ now)%Z → idle ip (sy_log s) now)
    by (intros t H1 H2; by eapply idle_mono).
  (* a limiter that stays renewed *)
  assert (Hren : ∀ q, renewed s q → renewed s' q).
  { intros q (H1 & H2 & H3). split; [done|]. split; [by eapply Hidle|]. cbn.
    intros t pd [[_ <-]|[_ H]]%lookup_insert_Some Hq; [by eapply Hidle|by eapply H3]. }
  constructor; cbn [sy_lim sy_log sy_pend sy_now s'].
  - intros e. rewrite Hcl, lookup_insert_Some. intros [[-> <-]|[Hne He]]; cbn.
    + destruct Hcase as [(e & He & -> & Eh)|(Hno & -> & Eh)].
      * rewrite Eh. destruct (Hl e He); [by left|right; by apply Hren].
      * right. split; [by apply (times_at_fresh s)|]. specialize (Hnone Hno).
        split; [by eapply Hidle|]. cbn. intros t pd [[_ <-]|[_ H]]%lookup_insert_Some Hq.
        -- by eapply Hidle.
        -- assert (pd_lim pd < length (lm_heap (sy_lim s))); [|lia].
           eapply (li_bound s Hlim _ (pd_key pd)). right. left. by exists t, pd.
    + destruct (Hl e He) as [Hheap|?]; [left|right; by apply Hren]. destruct Hcase as [(e' & _ & _ & ->)|(_ & _ & ->)]; [done|].
      rewrite lookup_app_l; [done|]. by eapply lookup_lt_Some.
  - intros e. rewrite Hcl, lookup_insert_Some. intros [[_ <-]|[_ He]]; cbn.
    + split; [done|]. eapply until_mono; [exact Hord|lia].
    + destruct (Hseen e He). split; [lia|done].
  - rewrite Hcl, lookup_insert_None. intros [H _]. by eapply Hidle; [apply Hnone|].
  - by eapply until_mono.
  - intros t pd [[_ <-]|[_ H]]%lookup_insert_Some Hk Hgr; cbn in Hk |- *.
    + subst ip'. eexists. rewrite Hcl, lookup_insert_eq. done.
    + destruct (Hpend t pd H Hk ltac:(lia)) as (e & He & El & Es). rewrite Hcl.
      destruct (decide (ip' = ip)) as [->|Hne].
      * rewrite lookup_insert_eq. eexists. split; [done|]. cbn.
        pose proof (li_since s Hlim _ _ H). split; [|lia].
        destruct Hcase as [(e' & He' & -> & _)|(Hno & _ & _)]; congruence.
      * rewrite lookup_insert_ne by done. by exists e.
  - done.
Qed.

Lemma clock_key s tid pd now :
  key_inv s → (sy_now s ≤ now)%Z → sy_pend s !! tid = Some pd →
  key_inv {| sy_now := now; sy_lim := sy_lim s;
             sy_pend := <[tid := read_clock now pd]> (sy_pend s); sy_log := sy_log s |}.
Proof.
  intros [Hl Hseen Hnone Hord Hpend Hans] Hnow Hp.
  constructor; cbn [sy_lim sy_log sy_pend sy_now]; [| | | | |done].
  - intros e He. destruct (Hl e He) as [?|(H1 & H2 & H3)]; [by left|]. right.
    split; [done|]. split; [by eapply idle_mono|]. cbn.
    intros t pd' [[_ <-]|[_ H]]%lookup_insert_Some Hq; [exact (H3 tid pd Hp Hq)|by eapply H3].
  - intros e He. destruct (Hseen e He). split; [lia|done].
  - intros H. eapply idle_mono; [exact Hnow|by apply Hnone].
  - by eapply until_mono.
  - intros t pd' [[_ <-]|[_ H]]%lookup_insert_Some Hk Hgr; cbn in Hk, Hgr |- *.
    + apply (Hpend tid); [done|done|lia].
    + apply (Hpend t); [done|done|lia].
Qed.

Lemma evict_key s nows now :
  key_inv s → (sy_now s ≤ now)%Z → (∀ i, (sy_now s ≤ nows i ≤ now)%Z) →
  key_inv {| sy_now := now; sy_lim := evict nows (sy_lim s); sy_pend := sy_pend s;
             sy_log := sy_log s |}.
Proof.
  intros [Hl Hseen Hnone Hord Hpend Hans] Hnow Hnows.
  constructor; cbn [sy_lim sy_log sy_pend sy_now]; [| | | | |done].
  - intros e [He _]%evict_lookup. destruct (Hl e He) as [?|(H1 & H2 & H3)]; [by left|].
    right. split; [done|]. split; [by eapply idle_mono|done].
  - intros e [He _]%evict_lookup. destruct (Hseen e He). split; [lia|done].
  - intros Hno. destruct (lm_clients (sy_lim s) !! ip) as [e|] eqn:He.
    2: { eapply idle_mono; [exact Hnow|by apply Hnone]. }
    exists (en_lastSeen e + grace)%Z. split; [by apply Hseen|].
    assert (¬ (nows ip - en_lastSeen e ≤ 5 * Minute)%Z).
    { intros Hle. assert (H := proj2 (evict_lookup nows _ _ _) (conj He Hle)). congruence. }
    specialize (Hnows ip). unfold grace. lia.
  - by eapply until_mono.
  - intros t pd Hp Hk Hgr. destruct (Hpend t pd Hp Hk ltac:(lia)) as (e & He & El & Es).
    exists e. split; [|done]. apply evict_lookup. split; [done|].
    specialize (Hnows ip). unfold grace, Minute, Second in *. lia.
Qed.

(** The limiter a prompt request holds answers as the key's ideal one. *)
Lemma held_answers s e tid pd t :
  lim_inv s → key_inv s → lm_clients (sy_lim s) !! ip = Some e →
  sy_pend s !! tid = Some pd → pd_lim pd = en_lim e → pd_clock pd = Some t →
  ∃ l, lm_heap (sy_lim s) !! en_lim e = Some l ∧
    lim_Allow l t = lim_Allow (after (times ip (sy_log s))) t.
Proof.
  intros Hlim Hkey He Hp Hl Ht. pose proof (li_clock s Hlim _ _ _ Hp Ht) as Hc.
  assert (Hin : uses s (en_lim e) ip) by (left; by exists e).
  destruct (lookup_lt_is_Some_2 _ _ (li_bound s Hlim _ _ Hin)) as [l Hheap].
  pose proof (li_heap s Hlim _ _ Hheap) as El. exists l. split; [done|].
  destruct (ki_lim s Hkey e He) as [E|(E & _ & H3)].
  - congruence.
  - rewrite El, E. destruct (H3 tid pd Hp Hl) as (u & Hu & Hle). symmetry.
    apply (idle_is_new _ u); [done|lia].
Qed.

Lemma allow_key s tid pd t now b lim :
  lim_inv s → key_inv s → (sy_now s ≤ now)%Z → sy_pend s !! tid = Some pd →
  pd_clock pd = Some t → Allow (pd_lim pd) t (sy_lim s) = (b, lim) →
  (pd_key pd = ip → (now ≤ pd_since pd + grace)%Z) →
  key_inv {| sy_now := now; sy_lim := lim; sy_pend := delete tid (sy_pend s);
             sy_log := sy_log s ++ [{| an_key := pd_key pd; an_lim := pd_lim pd;
               an_since := pd_since pd; an_time := t; an_done := now; an_ok := b |}] |}.
Proof.
  intros Hlim Hkey Hnow Hpd Hclock Hallow Hprompt. set (a := {| an_key := _ |}).
  pose proof Hkey as [Hl Hseen Hnone Hord Hpend Hans].
  pose proof (li_clock s Hlim _ _ _ Hpd Hclock) as Hc.
  assert (Huse : uses s (pd_lim pd) (pd_key pd)) by (right; left; by exists tid, pd).
  destruct (lookup_lt_is_Some_2 _ _ (li_bound s Hlim _ _ Huse)) as [l Hheap].
  rewrite (Allow_eq _ _ _ _ Hheap) in Hallow. injection Hallow as Hb <-.
  destruct (decide (pd_key pd = ip)) as [Ek|Ek].
  - specialize (Hprompt Ek). destruct (Hpend tid pd Hpd Ek ltac:(lia)) as (e & He & El & Es).
    destruct (held_answers s e tid pd t Hlim Hkey He Hpd (eq_sym El) Hclock) as (l' & Hl' & Hans').
    rewrite El, Hheap in Hl'. injection Hl' as <-. rewrite Hans' in *.
    assert (Ht : times ip (sy_log s ++ [a]) = times ip (sy_log s) ++ [t]).
    { unfold times. rewrite log_of_snoc. cbn [an_key a]. rewrite decide_True by done.
      by rewrite fmap_app. }
    destruct (Hseen e He) as [Hs1 Hs2].
    constructor; cbn [sy_lim sy_log sy_pend sy_now lm_clients lm_heap]; rewrite ?Ht.
    + intros e' He'. assert (e' = e) as -> by congruence. left. rewrite El, after_snoc.
      apply list_lookup_insert_eq. by eapply lookup_lt_Some.
    + intros e' He'. assert (e' = e) as -> by congruence. split; [lia|].
      apply until_snoc; [done|lia].
    + congruence.
    + apply until_snoc; [exact (until_mono _ _ _ Hord Hnow)|lia].
    + intros t' pd' [_ H]%lookup_delete_Some Hk' Hgr. apply (Hpend t'); [done|done|lia].
    + rewrite log_of_snoc. cbn [an_key a]. rewrite decide_True by done.
      rewrite fmap_app. cbn. by rewrite answers_snoc, Hans, <-Hb.
  - assert (Ht : times ip (sy_log s ++ [a]) = times ip (sy_log s)).
    { unfold times. rewrite log_of_snoc. cbn [an_key a]. by rewrite decide_False. }
    assert (Hne : ∀ e, lm_clients (sy_lim s) !! ip = Some e → en_lim e ≠ pd_lim pd).
    { intros e He E. apply Ek. eapply (li_owner s Hlim _ _ _ Huse). left. by exists e. }
    assert (Hid : ∀ x, idle ip (sy_log s) x → idle ip (sy_log s ++ [a]) x).
    { intros x. unfold idle. by rewrite Ht. }
    constructor; cbn [sy_lim sy_log sy_pend sy_now lm_clients lm_heap]; rewrite ?Ht.
    + intros e He. specialize (Hne e He).
      assert (Hat : times_at (en_lim e) (sy_log s ++ [a]) = times_at (en_lim e) (sy_log s)).
      { unfold times_at. rewrite given_by_snoc. cbn [an_lim a]. by rewrite decide_False. }
      destruct (Hl e He) as [?|(H1 & H2 & H3)]; [left; by rewrite list_lookup_insert_ne|].
      right. unfold renewed. cbn [sy_log sy_now sy_pend]. rewrite Hat.
      split; [done|]. split; [by eapply Hid, idle_mono|].
      intros t' pd' [_ H]%lookup_delete_Some Hq. by eapply Hid, H3.
    + intros e He. destruct (Hseen e He). split; [lia|done].
    + intros H. eapply Hid, idle_mono; [exact Hnow|by apply Hnone].
    + by eapply until_mono.
    + intros t' pd' [_ H]%lookup_delete_Some Hk' Hgr. apply (Hpend t'); [done|done|lia].
    + rewrite log_of_snoc. cbn [an_key a]. by rewrite decide_False.
Qed.

Lemma steps_key s : steps s → prompt ip (sy_log s) → key_inv s.
Proof.
  induction 1 as [|s s' Hs IH Hstep]; [intros _; apply start_key|]. intros Hp.
  apply steps_lim in Hs.
  destruct Hstep as [s tid ip' now p lim Hn Ht Hg|s tid pd now Hn Hpd Hc
    |s tid pd t now b lim Hn Hpd Hc Ha|s nows now Hn Hns]; cbn [sy_log] in Hp.
  - eapply get_key; eauto.
  - by apply clock_key; [apply IH|..].
  - apply Forall_app in Hp as [Hp1 Hp2]. rewrite Forall_singleton in Hp2.
    apply (allow_key s tid pd t now b lim); [done|by apply IH|done..].
  - by apply evict_key; [apply IH|..].
Qed.

End PromptKey.

(** ** Properties *)

Section Properties.
Context {RL : RateLaws}.

(** C39: the rate limiter, under every interleaving of requests, clock readings and
    evictions, with any delays. No limiter ever serves two keys, and each answers
    as one limiter of 10 requests a second and a burst of 20 that nobody else uses.
    Moreover a key none of whose requests took longer than [grace] (298 s) between
    getting its limiter and asking it is answered as by a single such limiter that
    is never evicted, whatever the other keys' requests do: the evictor cannot be
    noticed. ([slow_request_escapes] shows that a slower request can be.) *)
Theorem presign_limit_per_key s :
  steps s →
  (∀ a1 a2, a1 ∈ sy_log s → a2 ∈ sy_log s → an_lim a1 = an_lim a2 → an_key a1 = an_key a2) ∧
  (∀ p, an_ok <$> given_by p (sy_log s) =
     answers presign_limiter (an_time <$> given_by p (sy_log s))) ∧
  (∀ ip, prompt ip (sy_log s) →
     an_ok <$> log_of ip (sy_log s) =
     answers presign_limiter (an_time <$> log_of ip (sy_log s))).
Proof.
  intros H. pose proof (steps_lim s H) as Hlim. split_and!.
  - intros a1 a2 H1 H2 E. apply (li_owner s Hlim (an_lim a1)); right; right; eauto.
  - apply (li_answers s Hlim).
  - intros ip Hp. by apply (ki_answers ip s), steps_key.
Qed.

(** The map does not grow without bound: after a tick of the evictor it holds
    exactly the clients it held that were seen in the five minutes before. *)
Theorem evict_keeps_recent nows st ip e :
  lm_clients (evict nows st) !! ip = Some e ↔
  lm_clients st !! ip = Some e ∧ (nows ip - en_lastSeen e ≤ 5 * Minute)%Z.
Proof. apply evict_lookup. Qed.

End Properties.

(** The key is what the client says it is. A request with an X-Forwarded-For
    header is limited under the first element of that header, trimmed, whatever
    its address: any ASCII key without a comma or surrounding blanks can be
    claimed by any client. *)
Theorem client_key_forgeable r key rest :
  Header_Get r "X-Forwarded-For" = key ∨
  Header_Get r "X-Forwarded-For" = (key +:+ String "," rest)%string →
  key ≠ "" → strings_Cut key "," = None → strings_TrimSpace key = key →
  client_key r = key.
Proof.
  intros Hh Hne Hcut Htrim. unfold client_key, strings_SplitN2.
  destruct Hh as [-> | ->].
  - rewrite Hcut. destruct key; [done|]. exact Htrim.
  - rewrite strings_Cut_append by done. destruct key; [done|]. exact Htrim.
Qed.

(** The middleware passes a request on exactly when its limiter allows it,
    and otherwise answers 429 with a JSON text that is labelled plain text. *)
Theorem presignRateLimiter_spec wr allow next r w `{!ConnLike wr} :
  h_status (w_http w) = None → (∀ ip, keeps_resp (allow ip)) →
  let ok := run (allow (client_key r)) w in
  let w1 := exec (allow (client_key r)) w in
  (ok = true → presignRateLimiter allow next wr r w = next wr r w1) ∧
  (ok = false → ∃ w', presignRateLimiter allow next wr r w = (Returned tt, w') ∧
     h_status (w_http w') = Some 429%Z ∧ w_store w' = w_store w1 ∧
     h_sent (w_http w') !! "Content-Type" = Some "text/plain; charset=utf-8").
Proof.
  intros Hn Hk ok w1. unfold presignRateLimiter. rewrite M_bind_lift. fold ok w1.
  split; intros Hok; rewrite Hok; cbn [negb]; [done|].
  destruct (Hk (client_key r) w) as [Hh _]. fold w1 in Hh.
  destruct (http_Error_conn rate_limit_message StatusTooManyRequests w1)
    as (hd & Heq & Hct); [by rewrite Hh|done|].
  destruct (http_Error_like wr rate_limit_message StatusTooManyRequests w1 w1)
    as [Ho Hs]; [done|]. rewrite Heq in Ho, Hs.
  destruct (http_Error wr _ _ w1) as [o w']. cbn in Ho. subst o.
  destruct Hs as (Hst & _ & Hb). exists w'. split_and!; [done| |exact Hst|].
  - exact (f_equal h_status Hb).
  - pose proof (f_equal h_sent Hb) as H. cbn in H. by rewrite H.
Qed.

End RateLimit.

(** ** A token bucket for running the model

    The level is in nanoseconds of refill: a token is a tenth of a second. *)
Module RateDemo.

Record bucket := { bk_cap : Z; bk_cost : Z; bk_level : Z; bk_last : Z }.

Definition refilled (b : bucket) (now : Z) : Z :=
  Z.min (bk_cap b) (bk_level b + Z.max 0 (now - bk_last b)).

Definition bucket_lib : RateLib := {|
  limiter := bucket;
  NewLimiter r burst := {| bk_cap := burst * (Second / r); bk_cost := Second / r;
    bk_level := burst * (Second / r); bk_last := 0 |};
  lim_Allow b now :=
    if (bk_cost b <=? refilled b now)%Z
    then (true, {| bk_cap := bk_cap b; bk_cost := bk_cost b;
                   bk_level := refilled b now - bk_cost b; bk_last := now |})
    else (false, b);
|}.

#[local] Existing Instance bucket_lib.

(** A used bucket: its parameters, a level that is not negative, and its last use,
    unless it is as new. *)
Definition used (b : bucket) (u : Z) : Prop :=
  bk_cap b = (2 * Second)%Z ∧ bk_cost b = (Second / 10)%Z ∧ (0 ≤ bk_level b)%Z ∧
  (bk_level b = bk_cap b ∨ (bk_last b ≤ u)%Z).

Lemma after_used ts u : until u ts → used (after ts) u.
Proof.
  induction ts as [|t ts IH] using rev_ind.
  { intros _. split_and!; [done..|by left]. }
  intros [Hts Ht]%Forall_app. rewrite Forall_singleton in Ht.
  destruct (IH Hts) as (Hc & Hk & Hl & Hu). rewrite after_snoc.
  set (b := after (R := bucket_lib) ts : bucket) in *. cbn.
  destruct (Z.leb_spec (bk_cost b) (refilled b t)) as [H|H]; cbn.
  - split_and!; cbn; [done|done|lia|by right].
  - done.
Qed.

#[export] Instance bucket_laws : RateLaws.
Proof.
  intros ts u now Ho Hu. destruct (after_used ts u Ho) as (Hc & Hk & Hl & Hlast).
  assert (Hfull : refilled (after (R := bucket_lib) ts) now = (2 * Second)%Z).
  { unfold refilled. rewrite Hc. destruct Hlast as [->|Hlast]; [rewrite Hc|]; lia. }
  assert (Hnew : refilled (presign_limiter (R := bucket_lib)) now = (2 * Second)%Z).
  { unfold refilled. cbn. unfold Second. change (1000000000 / 10)%Z with 100000000%Z. lia. }
  cbn [lim_Allow bucket_lib]. rewrite Hfull, Hnew, Hc, Hk. reflexivity.
Qed.

(** One client, 21 requests at the same instant: the last is refused. *)
Example burst : answers presign_limiter (repeat 7%Z 21) = repeat true 20 ++ [false].
Proof. vm_compute. reflexivity. Qed.

(** Requests over new connections have keys of their own: no header, another
    port, another limiter. *)
Definition from (addr : string) (xff : string) : Request := {|
  r_Method := "POST"; r_Path := "/api/v1/storage/presign"; r_RemoteAddr := addr;
  r_Header := if xff =s "" then ∅ else {["X-Forwarded-For" := xff]};
  r_Body := ""; r_ContentLength := 0; r_assetID := ""; r_route := "";
  r_user := None; r_logger := true |}.

Example key_has_port :
  client_key (L := amd64_golib) (from "10.0.0.1:5000" "") = "10.0.0.1:5000".
Proof. vm_compute. reflexivity. Qed.

(** A request that does everything at one instant. *)
Definition serve (ip : string) (now : Z) (s : system) : system :=
  let '(p, lim) := getLimiter ip now (sy_lim s) in
  let '(b, lim') := Allow p now lim in
  {| sy_now := now; sy_lim := lim'; sy_pend := sy_pend s;
     sy_log := sy_log s ++ [{| an_key := ip; an_lim := p; an_since := now;
                               an_time := now; an_done := now; an_ok := b |}] |}.

Lemma serve_steps ip now s :
  steps s → sy_pend s !! 1 = None → (sy_now s ≤ now)%Z → steps (serve ip now s).
Proof.
  intros Hs Hp Hn. unfold serve. destruct (getLimiter ip now (sy_lim s)) as [p lim] eqn:Hg.
  destruct (Allow p now lim) as [b lim'] eqn:Ha.
  pose proof (steps_step _ _ Hs (step_get s 1 ip now p lim Hn Hp Hg)) as H1.
  set (pd := {| pd_key := ip; pd_lim := p; pd_since := now; pd_clock := None |}) in H1.
  match type of H1 with steps ?x => set (s1 := x) in H1 end.
  assert (Hp1 : sy_pend s1 !! 1 = Some pd) by apply lookup_insert_eq.
  pose proof (steps_step _ _ H1 (step_clock s1 1 pd now (Z.le_refl now) Hp1 eq_refl)) as H2.
  match type of H2 with steps ?x => set (s2 := x) in H2 end.
  assert (Hp2 : sy_pend s2 !! 1 = Some (read_clock now pd)) by apply lookup_insert_eq.
  pose proof (steps_step _ _ H2 (step_allow s2 1 (read_clock now pd) now now b lim'
    (Z.le_refl now) Hp2 eq_refl Ha)) as H3.
  cbn in H3. by rewrite insert_insert_eq, delete_insert_id in H3.
Qed.

Lemma serve_keeps ip now s : sy_pend (serve ip now s) = sy_pend s ∧ sy_now (serve ip now s) = now.
Proof. unfold serve. destruct (getLimiter _ _ _) as [p lim]. by destruct (Allow _ _ _). Qed.

Lemma serves_steps ip now s n :
  steps s → sy_pend s !! 1 = None → (sy_now s ≤ now)%Z →
  steps (Nat.iter n (serve ip now) s) ∧
  sy_pend (Nat.iter n (serve ip now) s) = sy_pend s ∧
  (sy_now (Nat.iter n (serve ip now) s) ≤ now)%Z.
Proof.
  intros Hs Hp Hn. induction n as [|n (IH1 & IH2 & IH3)]; [done|].
  change (Nat.iter (S n) (serve ip now) s) with (serve ip now (Nat.iter n (serve ip now) s)).
  destruct (serve_keeps ip now (Nat.iter n (serve ip now) s)) as [-> ->].
  split; [|done]. apply serve_steps; [done|by rewrite IH2|done].
Qed.

(** Twenty-one requests of one client at the same instant. *)
Definition busy : system := Nat.iter 21 (serve "a" 7) start.

Lemma presign_limit_per_key_witness :
  an_ok <$> log_of "a" (sy_log busy) = repeat true 20 ++ [false] ∧
  an_ok <$> log_of "a" (sy_log busy) =
    answers presign_limiter (an_time <$> log_of "a" (sy_log busy)).
Proof.
  split; [vm_compute; reflexivity|].
  destruct (serves_steps "a" 7 start 21 steps_start eq_refl ltac:(vm_compute; discriminate))
    as (Hs & _ & _).
  destruct (presign_limit_per_key busy Hs) as (_ & _ & H). apply (H "a").
  unfold prompt. apply Forall_forall. intros x Hx _. revert x Hx.
  apply Forall_forall. vm_compute. repeat constructor; discriminate.
Defined.

(** The condition is needed. A request gets its limiter and is then held up for
    more than five minutes; its client's entry is evicted; twenty requests empty
    the client's next limiter; and the first request is still let through by the
    old one, the twenty-first in an instant. *)
Definition late : Z := 400 * Second.
Definition held : system := {| sy_now := 1; sy_lim := snd (getLimiter "a" 1 no_limiters);
  sy_pend := {[0 := {| pd_key := "a"; pd_lim := 0; pd_since := 1; pd_clock := None |}]};
  sy_log := [] |}.
Definition evicted : system := {| sy_now := late; sy_lim := evict (λ _, late) (sy_lim held);
  sy_pend := sy_pend held; sy_log := [] |}.
Definition emptied : system := Nat.iter 20 (serve "a" late) evicted.

Theorem slow_request_escapes :
  ∃ s, steps s ∧ an_ok <$> log_of "a" (sy_log s) = repeat true 21 ∧
    answers presign_limiter (an_time <$> log_of "a" (sy_log s)) = repeat true 20 ++ [false].
Proof.
  assert (Hheld : steps held).
  { apply (steps_step start held); [apply steps_start|].
    by apply (step_get start 0 "a" 1 0 (snd (getLimiter "a" 1 no_limiters))). }
  assert (Hev : steps evicted).
  { apply (steps_step held evicted Hheld). by apply (step_evict held (λ _, late) late). }
  assert (Hall : steps emptied ∧ sy_pend emptied = sy_pend evicted ∧ (sy_now emptied ≤ late)%Z)
    by exact (serves_steps "a" late evicted 20 Hev eq_refl (Z.le_refl _)).
  destruct Hall as (Hem & Hp & Hn).
  set (pd := {| pd_key := "a"; pd_lim := 0; pd_since := 1; pd_clock := None |}).
  assert (Hpd : sy_pend emptied !! 0 = Some pd) by (rewrite Hp; reflexivity).
  pose proof (steps_step _ _ Hem (step_clock emptied 0 pd late Hn Hpd eq_refl)) as H1.
  match type of H1 with steps ?x => set (s1 := x) in H1 end.
  assert (Hp1 : sy_pend s1 !! 0 = Some (read_clock late pd)) by apply lookup_insert_eq.
  assert (Ha : Allow 0 late (sy_lim s1) = (true, snd (Allow 0 late (sy_lim s1))))
    by (vm_compute; reflexivity).
  pose proof (steps_step _ _ H1 (step_allow s1 0 (read_clock late pd) late late _ _
    (Z.le_refl _) Hp1 eq_refl Ha)) as H2.
  eexists. split; [exact H2|]. cbn [sy_log]. split; vm_compute; reflexivity.
Qed.

Lemma client_key_forgeable_witness :
  client_key (L := amd64_golib) (from "10.0.0.1:5000" "somebody-else, 1.2.3.4")
  = "somebody-else".
Proof.
  apply (client_key_forgeable (L := amd64_golib)
           (from "10.0.0.1:5000" "somebody-else, 1.2.3.4") "somebody-else" " 1.2.3.4").
  - right. reflexivity.
  - discriminate.
  - reflexivity.
  - reflexivity.
Defined.

Lemma presignRateLimiter_spec_witness :
  let w := world_of empty_store None in
  ∃ w', presignRateLimiter (L := amd64_golib) (λ _, mret false) (λ _ _, panic "unreachable")
          conn (from "10.0.0.1:5000" "") w = (Returned tt, w') ∧
    h_status (w_http w') = Some 429%Z.
Proof.
  intros w.
  destruct (presignRateLimiter_spec (L := amd64_golib) conn (λ _, mret false)
    (λ _ _, panic "unreachable") (from "10.0.0.1:5000" "") w eq_refl
    (λ _, keeps_resp_ret false)) as [_ H].
  destruct (H eq_refl) as (w' & H1 & H2 & _). exists w'. split; [exact H1|exact H2].
Defined.

End RateDemo.
