(* ===== verification/Middleware.v ===== *)
(** * The application's middlewares: internal/middleware

    recovery.go, slow_request.go, tracing.go, metrics.go and logging.go, with the
    request-scoped logger of pkg/logger/context.go. (authorization.go is in
    [Auth].) A middleware takes the next handler to a handler; the structs that
    wrap the response writer are cells of the response. The logger installed by
    [zap.ReplaceGlobals] does not exist, so outside a request scope [zap.L()]
    drops what it is given. chi's own wrapper of the writer is the class
    [ChiWriter].

    A log line is an event with its level and message; its fields (durations,
    status, stack) are left out. *)

From stdpp Require Import base gmap strings list numbers pretty.
From Stdlib Require Import ZArith Lia Ascii.
From S2P Require Import Prelude GoStd AppErrors Config Assets World Json Http.

(** ** chi *)

(** [middleware.NewWrapResponseWriter] and its methods, [middleware.GetReqID],
    and [time.Format] with the layout of the request identifiers. *)
Class ChiWriter := {
  WrapResponseWriter : Type;
  NewWrapResponseWriter : ResponseWriter → IO WrapResponseWriter;
  ww_writer : WrapResponseWriter → ResponseWriter;
  ww_Status : WrapResponseWriter → IO Z;
  ww_BytesWritten : WrapResponseWriter → IO Z;
  GetReqID : Request → string;
  time_Stamp : Z → string;
}.

(** ** The request-scoped logger *)

(** [applogger.WithLogger] on the request's context. *)
Definition with_logger (r : Request) : Request := {|
  r_Method := r_Method r; r_Path := r_Path r; r_RemoteAddr := r_RemoteAddr r;
  r_Header := r_Header r; r_Body := r_Body r; r_ContentLength := r_ContentLength r;
  r_assetID := r_assetID r; r_route := r_route r; r_user := r_user r; r_logger := true |}.

(** Logging through [LoggerFromContext(r.Context())]. *)
Definition ctx_log (r : Request) (l : level) (msg : string) : IO unit :=
  when (r_logger r) (log l msg).

(** ** recovery.go *)

Definition recovery_body : string :=
  "{" +:+ String dq_char "error" +:+ String dq_char ": " +:+ String dq_char
  "Internal Server Error" +:+ String dq_char "}".

Definition RecoveryMiddleware (next : Handler) : Handler := λ w r,
  recovering (λ err,
      lift (ctx_log r LError "Panic recovered");;
      hw_WriteHeader w StatusInternalServerError;;
      _ ← hw_Write w recovery_body;
      mret tt)
    (next w r).

Section Middleware.
Context {E : Env} {W : ChiWriter}.

(** ** slow_request.go *)

Definition SlowRequestMiddleware (threshold : Z) (next : Handler) : Handler := λ w r,
  start ← lift time_Now;
  next w r;;
  now ← lift time_Now;
  lift (when (threshold <? now - start)%Z (ctx_log r LWarn "Slow request detected")).

(** ** tracing.go *)

(** Remembers the last status it was given. *)
Definition responseWriter (cell : nat) (w : ResponseWriter) : ResponseWriter := {|
  hw_Set := hw_Set w; hw_Del := hw_Del w;
  hw_WriteHeader code :=
    lift (c ← get_cell cell; set_cell cell (code, c.2));; hw_WriteHeader w code;
  hw_Write := hw_Write w;
|}.

(** The remote parent and the attributes of the span are left out. *)
Definition TracingMiddleware (next : Handler) : Handler := λ w r,
  with_spanM (r_Path r) (λ span,
    cell ← lift (new_cell StatusOK 0);
    let wrapped := responseWriter cell w in
    next wrapped r;;
    c ← lift (get_cell cell);
    lift (when (400 <=? c.1)%Z (span_SetStatus span CodeError (http_StatusText c.1)))).

(** ** metrics.go *)

Definition metricsResponseWriter (cell : nat) (w : ResponseWriter) : ResponseWriter := {|
  hw_Set := hw_Set w; hw_Del := hw_Del w;
  hw_WriteHeader code :=
    lift (c ← get_cell cell; set_cell cell (code, c.2));; hw_WriteHeader w code;
  hw_Write b :=
    n ← hw_Write w b;
    lift (c ← get_cell cell; set_cell cell (c.1, wrap64 (c.2 + n)));;
    mret n;
|}.

Definition recordHTTPMetrics (m : bool) (r : Request) (cell : nat) (start : Z)
    (baseAttrs : attributes) : IO unit :=
  if negb m then mret tt
  else
    now ← time_Now;
    '(statusCode, bytesWritten) ← get_cell cell;
    let attrs := baseAttrs ++ [("http.status_code", AInt statusCode)] in
    metric_record HTTPRequestDuration (now - start)%Z attrs;;
    metric_add HTTPRequestCount 1 attrs;;
    let reqSize := if (r_ContentLength r <? 0)%Z then 0%Z else r_ContentLength r in
    metric_record HTTPRequestSize reqSize attrs;;
    metric_record HTTPResponseSize bytesWritten attrs.

Definition http_attrs (r : Request) : attributes :=
  [("http.method", AStr (r_Method r));
   ("http.route", AStr (if r_route r =s "" then "unknown" else r_route r))].

Definition MetricsMiddleware (m : bool) (next : Handler) : Handler := λ w r,
  start ← lift time_Now;
  cell ← lift (new_cell StatusOK 0);
  let wrapped := metricsResponseWriter cell w in
  let attrs := http_attrs r in
  lift (when m (metric_add HTTPActiveRequests 1 attrs));;
  defer (when m (metric_add HTTPActiveRequests (-1) attrs))
    (recovering (λ rec,
        lift (c ← get_cell cell; set_cell cell (StatusInternalServerError, c.2));;
        lift (recordHTTPMetrics m r cell start attrs);;
        panic rec)
      (next wrapped r;;
       lift (recordHTTPMetrics m r cell start attrs))).

(** ** logging.go *)

Definition charset : string := "abcdefghijklmnopqrstuvwxyz0123456789".

Fixpoint randomString (length : nat) : IO string :=
  match length with
  | 0 => mret EmptyString
  | S length =>
      n ← next_tick;
      let i := Z.to_nat (env_rand n mod Z.of_nat (String.length charset)) in
      rest ← randomString length;
      mret (String (default Ascii.zero (String.get i charset)) rest)
  end.

Definition generateRequestID : IO string :=
  now ← time_Now; s ← randomString 8; mret (time_Stamp now +:+ "-" +:+ s).

Definition LoggerMiddleware (next : Handler) : Handler := λ w r,
  start ← lift time_Now;
  requestID ← lift (if GetReqID r =s "" then generateRequestID else mret (GetReqID r));
  let r := with_logger r in
  ww ← lift (NewWrapResponseWriter w);
  lift (hw_Set (ww_writer ww) "X-Request-ID" requestID);;
  lift (log LInform "Incoming request");;
  next (ww_writer ww) r;;
  status ← lift (ww_Status ww);
  now ← lift time_Now;
  let l := if (500 <=? status)%Z then LError
           else if (400 <=? status)%Z then LWarn else LInform in
  bytes ← lift (ww_BytesWritten ww);
  lift (log l "Request completed").

End Middleware.

(** ** What a client and the database see *)

Definition visible (w : world) : store * option EnvConfig * option Z * string :=
  (w_store w, w_cfg w, h_status (w_http w), h_body (w_http w)).

Definition unseen {A} (m : IO A) : Prop := ∀ w, visible (exec m w) = visible w.

Lemma sim_visible w w' : sim w w' → visible w' = visible w.
Proof.
  intros (Hs & Hc & Hh). unfold visible. rewrite Hs, Hc.
  pose proof (f_equal h_status Hh) as H1. pose proof (f_equal h_body Hh) as H2.
  cbn in H1, H2. by rewrite H1, H2.
Qed.

Lemma unseen_ret {A} (a : A) : unseen (mret a).
Proof. done. Qed.
Lemma unseen_bind {A B} (m : IO A) (f : A → IO B) :
  unseen m → (∀ a, unseen (f a)) → unseen (m ≫= f).
Proof. intros Hm Hf w. by rewrite exec_bind, Hf. Qed.
Lemma unseen_when b m : unseen m → unseen (when b m).
Proof. by destruct b. Qed.
Lemma unseen_emit e : unseen (emit e).
Proof. done. Qed.
Lemma unseen_new_cell st n : unseen (new_cell st n).
Proof. done. Qed.
Lemma unseen_get_cell i : unseen (get_cell i).
Proof. done. Qed.
Lemma unseen_set_cell i c : unseen (set_cell i c).
Proof. done. Qed.

Lemma unseen_hw_Set wr k v `{!ConnLike wr} : unseen (hw_Set wr k v).
Proof.
  intros w. destruct (like_set (wr := wr) k v w w) as [_ H]; [done|].
  apply sim_visible in H. unfold lift, exec in *.
  destruct (hw_Set wr k v w) as [u w']. exact H.
Qed.

Create HintDb unseen discriminated.
#[export] Hint Resolve unseen_ret unseen_emit unseen_new_cell unseen_get_cell
  unseen_set_cell unseen_hw_Set : unseen.

Ltac solve_unseen :=
  repeat lazymatch goal with
  | |- forall _, _ => intro
  | |- unseen (when _ _) => apply unseen_when
  | |- unseen (match ?x with _ => _ end) => destruct x
  | |- unseen (let _ := _ in _) => cbv zeta
  | |- unseen (mbind _ _) => apply unseen_bind
  | |- unseen _ => solve [auto with unseen | by intro]
  end.

(** ** Invariants through code that may panic

    [always I m]: [m] keeps an invariant of store and configuration, however it
    ends. *)
Definition inv := store → option EnvConfig → Prop.

Definition holds (I : inv) (w : world) : Prop := I (w_store w) (w_cfg w).

Definition always {A} (I : inv) (m : M A) : Prop :=
  ∀ w, holds I w → holds I (snd (m w)).

Section Always.
Context (I : inv).

Lemma always_ret {A} (a : A) : always I (mret a).
Proof. by intros w H. Qed.
Lemma always_panic {A} v : always I (panic (A := A) v).
Proof. by intros w H. Qed.
Lemma always_bind {A B} (m : M A) (f : A → M B) :
  always I m → (∀ a, always I (f a)) → always I (m ≫= f).
Proof.
  intros Hm Hf w Hw. unfold mbind, M_bind. specialize (Hm w Hw).
  destruct (m w) as [[a|v] w1]; [by apply Hf|done].
Qed.
Lemma always_lift {A} (m : IO A) : (∀ w, holds I w → holds I (exec m w)) → always I (lift m).
Proof. intros Hm w Hw. specialize (Hm w Hw). unfold lift, exec in *. by destruct (m w). Qed.
Lemma always_unseen {A} (m : IO A) : unseen m → always I (lift m).
Proof.
  intros Hm. apply always_lift. intros w. specialize (Hm w). unfold visible, holds in *.
  by injection Hm as -> -> _ _.
Qed.
Lemma always_quiet {A} (m : IO A) : keeps_store m → keeps_resp m → always I (lift m).
Proof.
  intros Hs Hr. apply always_lift. intros w. unfold holds. rewrite Hs.
  by destruct (Hr w) as [_ ->].
Qed.
Lemma always_defer {A} (c : IO unit) (m : M A) :
  always I (lift c) → always I m → always I (defer c m).
Proof.
  intros Hc Hm w Hw. specialize (Hm w Hw). unfold defer. destruct (m w) as [o w1].
  specialize (Hc w1 Hm). unfold lift in Hc. by destruct (c w1).
Qed.
Lemma always_recovering {A} (h : string → M A) (m : M A) :
  (∀ v, always I (h v)) → always I m → always I (recovering h m).
Proof.
  intros Hh Hm w Hw. specialize (Hm w Hw). unfold recovering.
  destruct (m w) as [[a|v] w1]; [done|by apply Hh].
Qed.
Lemma always_with_span {A} name (body : nat → M A) :
  (∀ sp, always I (body sp)) → always I (with_spanM name body).
Proof.
  intros Hb. apply always_bind; [by apply always_unseen|]. intros sp.
  apply always_defer; [by apply always_unseen|done].
Qed.
End Always.

(** A writer on which an invariant of store and configuration is safe, and which
    does not panic on a valid status. *)
Record safe_writer (wr : ResponseWriter) : Prop := {
  safe_Set I k v : always I (lift (hw_Set wr k v));
  safe_Del I k : always I (lift (hw_Del wr k));
  safe_WriteHeader I code : always I (hw_WriteHeader wr code);
  safe_Write I b : always I (hw_Write wr b);
  valid_WriteHeader code w : valid_status code = true →
    fst (hw_WriteHeader wr code w) = Returned tt;
  valid_Write b w : ∃ n, fst (hw_Write wr b w) = Returned n;
}.

Lemma simM_always {A} I (m m' : M A) : simM m m' → always I m → always I m'.
Proof.
  intros H Hm w Hw. destruct (H w w) as [_ (Hs & Hc & _)]; [done|].
  unfold holds. rewrite Hs, Hc. by apply Hm.
Qed.

Lemma conn_safe : safe_writer conn.
Proof.
  constructor; intros; cbn; try (by apply always_lift).
  - destruct (valid_status code); [by apply always_lift|apply always_panic].
  - intros w Hw. cbn. by destruct (send_body b (w_http w)).
  - by rewrite H.
  - destruct (send_body b (w_http w)) as [n h]. by exists n.
Qed.

Lemma like_safe wr `{!ConnLike wr} : safe_writer wr.
Proof.
  constructor; intros.
  - eapply simM_always; [apply like_set|apply conn_safe].
  - eapply simM_always; [apply like_del|apply conn_safe].
  - eapply simM_always; [apply like_head|apply conn_safe].
  - eapply simM_always; [apply like_write|apply conn_safe].
  - destruct (like_head (wr := wr) code w w) as [-> _]; [done|].
    by apply (valid_WriteHeader _ conn_safe).
  - destruct (like_write (wr := wr) b w w) as [-> _]; [done|].
    apply (valid_Write _ conn_safe).
Qed.

Ltac solve_always :=
  repeat lazymatch goal with
  | |- forall _, _ => intro
  | |- always _ (with_spanM _ _) => apply always_with_span
  | |- always _ (defer _ _) => apply always_defer
  | |- always _ (recovering _ _) => apply always_recovering
  | |- always _ (panic _) => apply always_panic
  | |- always _ (mret _) => apply always_ret
  | |- always _ (hw_WriteHeader _ _) => by apply safe_WriteHeader
  | |- always _ (hw_Write _ _) => by apply safe_Write
  | |- always _ (lift (hw_Set _ _ _)) => by apply safe_Set
  | |- always _ (lift (hw_Del _ _)) => by apply safe_Del
  | |- always _ (match ?x with _ => _ end) => destruct x
  | |- always _ (let _ := _ in _) => cbv zeta
  | |- always _ (mbind _ _) => apply always_bind
  | |- always _ (lift _) => apply always_unseen; solve_unseen
  | |- always _ _ => solve [eauto with always]
  end.

Create HintDb always discriminated.

Lemma always_RespondJSON I wr v status : safe_writer wr → always I (RespondJSON wr v status).
Proof. intros Hwr. unfold RespondJSON. solve_always. Qed.
Lemma always_WriteErrorResponse I wr err :
  safe_writer wr → always I (WriteErrorResponse wr err).
Proof. intros Hwr. unfold WriteErrorResponse. solve_always. Qed.
Lemma always_http_Error I wr msg code : safe_writer wr → always I (http_Error wr msg code).
Proof. intros Hwr. unfold http_Error. solve_always. Qed.
#[export] Hint Resolve always_RespondJSON always_WriteErrorResponse always_http_Error : always.

Lemma responseWriter_safe cell wr : safe_writer wr → safe_writer (responseWriter cell wr).
Proof.
  intros Hwr. constructor; intros; cbn; try solve_always.
  - rewrite M_bind_lift. by apply (valid_WriteHeader _ Hwr).
  - apply (valid_Write _ Hwr).
Qed.

Lemma metricsResponseWriter_safe cell wr :
  safe_writer wr → safe_writer (metricsResponseWriter cell wr).
Proof.
  intros Hwr. constructor; intros; cbn; try solve_always.
  - rewrite M_bind_lift. by apply (valid_WriteHeader _ Hwr).
  - destruct (valid_Write _ Hwr b w) as [n Hn]. exists n.
    destruct (hw_Write wr b w) as [o w1] eqn:Heq. cbn in Hn. subst o.
    by rewrite (M_bind_returned _ _ _ _ _ Heq), M_bind_lift.
Qed.
#[export] Hint Resolve responseWriter_safe metricsResponseWriter_safe like_safe conn_safe : always.

(** Steps over what is not seen, measured from the world [w0]. *)
Lemma wpM_unseen {A B} (m : IO A) (f : A → M B) Q P w0 w :
  unseen m → visible w = visible w0 →
  (∀ a w', visible w' = visible w0 → wpM (f a) Q P w') → wpM (lift m ≫= f) Q P w.
Proof. intros Hm Hw H. rewrite wpM_bind, wpM_lift. apply H. rewrite <-Hw. apply Hm. Qed.

Lemma wpM_unseen_last {A} (m : IO A) (Q : A → world → Prop) P w0 w :
  unseen m → visible w = visible w0 →
  (∀ a w', visible w' = visible w0 → Q a w') → wpM (lift m) Q P w.
Proof. intros Hm Hw H. rewrite wpM_lift. apply H. rewrite <-Hw. apply Hm. Qed.

Ltac unseen_step :=
  eapply wpM_unseen; [solve_unseen|first [eassumption|reflexivity]|];
  let a := fresh "a" in let w := fresh "w" in let H := fresh "Hv" in intros a w H.

(** ** The middlewares are transparent

    A specification of a handler relates request, world before and world after.
    It is [stable] when it is about what is visible and what the client sent. *)
Definition spec := Request → world → world → Prop.

(** What the client sent; middlewares change the rest of a request. *)
Definition same_request (r r' : Request) : Prop :=
  r_Method r' = r_Method r ∧ r_Path r' = r_Path r ∧ r_Header r' = r_Header r ∧
  r_Body r' = r_Body r.

Record stable (S : spec) : Prop := {
  stable_visible r w1 w1' w2 w2' :
    S r w1 w1' → visible w2 = visible w1 → visible w2' = visible w1' → S r w2 w2';
  stable_request r r' w w' : same_request r r' → S r' w w' → S r w w';
}.

(** A class of requests that is about what the client sent. *)
Definition closed (P : Request → Prop) : Prop :=
  ∀ r r', same_request r r' → P r → P r'.

(** On every writer like the connection's that sent nothing, the handler returns
    from every request of the class and meets the specification. *)
Definition answers (cfg : EnvConfig) (P : Request → Prop) (S : spec) (next : Handler) : Prop :=
  ∀ wr r w, ConnLike wr → P r → w_cfg w = Some cfg → h_status (w_http w) = None →
    wpM (next wr r) (λ _ w', S r w w') (λ _ _, False) w.

Lemma answers_from cfg P S next wr r w0 w :
  stable S → answers cfg P S next → ConnLike wr → P r → w_cfg w0 = Some cfg →
  h_status (w_http w0) = None → visible w = visible w0 →
  wpM (next wr r) (λ _ w', S r w0 w') (λ _ _, False) w.
Proof.
  intros HS Hn Hwr Hr Hc Hst Hv. pose proof Hv as Hv'. injection Hv' as _ Hc1 Hh1 _.
  eapply wpM_mono; [| |apply Hn; [done|done|by rewrite Hc1|by rewrite Hh1]]; [|done].
  intros [] w' HSw. eapply stable_visible; [done|exact HSw|done|done].
Qed.

(** A deferred observation, and a recovery that has nothing to recover. *)
Lemma wpM_defer_end {A} (c : IO unit) (m : M A) (Q : A → world → Prop) w :
  wpM m (λ a w', Q a (exec c w')) (λ _ _, False) w → wpM (defer c m) Q (λ _ _, False) w.
Proof.
  unfold wpM, defer, exec. destruct (m w) as [[a|v] w1]; [|done]. by destruct (c w1).
Qed.

Lemma wpM_recovering {A} (h : string → M A) (m : M A) (Q : A → world → Prop) w :
  wpM m Q (λ _ _, False) w → wpM (recovering h m) Q (λ _ _, False) w.
Proof. unfold wpM, recovering. by destruct (m w) as [[a|v] w1]. Qed.

(** Calls the next handler and goes on. *)
Lemma wpM_next {B} cfg C S next wr r (f : unit → M B) Q P w0 w :
  stable S → answers cfg C S next → ConnLike wr → C r → w_cfg w0 = Some cfg →
  h_status (w_http w0) = None → visible w = visible w0 →
  (∀ w', S r w0 w' → wpM (f tt) Q P w') → wpM (next wr r ≫= f) Q P w.
Proof.
  intros HS Hn Hwr Hr Hc Hst Hv H. rewrite wpM_bind.
  eapply wpM_mono; [| |by eapply answers_from]; [|done]. intros [] w' HSw. by apply H.
Qed.

(** The cells are invisible to the connection. *)
Lemma set_cell_sim (f : Z * Z → Z * Z) i w :
  sim w (exec (c ← get_cell i; set_cell i (f c)) w).
Proof. done. Qed.

(** Ignoring a cell before or after an operation. *)
Lemma simM_cell_l {A} i f (m m' : M A) :
  simM m m' → simM m (lift (c ← get_cell i; set_cell i (f c));; m').
Proof.
  intros Hm w w' H. rewrite M_bind_lift. apply Hm. rewrite H. apply set_cell_sim.
Qed.

Lemma simM_cell_r i (f : Z → Z * Z → Z * Z) (m m' : M Z) :
  simM m m' → simM m (n ← m'; lift (c ← get_cell i; set_cell i (f n c));; mret n).
Proof.
  intros Hm w w' H. destruct (Hm w w' H) as [Ho Hs].
  destruct (m' w') as [[n|v] w1] eqn:Heq; cbn in Ho, Hs.
  - rewrite (M_bind_returned _ _ _ _ _ Heq), M_bind_lift. split; [exact Ho|].
    rewrite Hs. apply set_cell_sim.
  - unfold mbind, M_bind. rewrite Heq. by split.
Qed.

#[export] Instance responseWriter_like cell wr `{!ConnLike wr} : ConnLike (responseWriter cell wr).
Proof.
  constructor; intros; cbn; [apply like_set|apply like_del| |apply like_write].
  apply (simM_cell_l cell (λ c, (code, c.2))), like_head.
Qed.

#[export] Instance metricsResponseWriter_like cell wr `{!ConnLike wr} :
  ConnLike (metricsResponseWriter cell wr).
Proof.
  constructor; intros; cbn; [apply like_set|apply like_del| |].
  - apply (simM_cell_l cell (λ c, (code, c.2))), like_head.
  - apply (simM_cell_r cell (λ n c, (c.1, wrap64 (c.2 + n)))), like_write.
Qed.

(** What is relied on of chi's wrapper: it passes everything on, and keeps
    nothing but a struct of its own. *)
Class ChiWriterLaws (W : ChiWriter) : Prop := {
  ww_like wr w : ConnLike wr → ConnLike (ww_writer (run (NewWrapResponseWriter wr) w));
  ww_safe wr w : safe_writer wr → safe_writer (ww_writer (run (NewWrapResponseWriter wr) w));
  ww_new_unseen wr : unseen (NewWrapResponseWriter wr);
  ww_status_unseen ww : unseen (ww_Status ww);
  ww_bytes_unseen ww : unseen (ww_BytesWritten ww);
}.
#[export] Hint Resolve ww_new_unseen ww_status_unseen ww_bytes_unseen : unseen.

Section Transparent.
Context {E : Env} {W : ChiWriter} {WL : ChiWriterLaws W}.
Context (cfg : EnvConfig) (P : Request → Prop) (HP : closed P) (S : spec) (HS : stable S).

Lemma unseen_now : unseen time_Now.
Proof. done. Qed.
Lemma unseen_ctx_log r l msg : unseen (ctx_log r l msg).
Proof. unfold ctx_log. solve_unseen. Qed.
Lemma unseen_record m r c start attrs : unseen (recordHTTPMetrics m r c start attrs).
Proof. unfold recordHTTPMetrics. solve_unseen; auto using unseen_now. Qed.
Hint Resolve unseen_now unseen_ctx_log unseen_record : unseen.

Lemma stable_end r w0 w1 w2 : S r w0 w1 → visible w2 = visible w1 → S r w0 w2.
Proof. intros H Hv. by eapply stable_visible. Qed.

Lemma answers_slow threshold next :
  answers cfg P S next → answers cfg P S (SlowRequestMiddleware threshold next).
Proof.
  intros Hn wr r w Hwr Hr Hc Hst. unfold SlowRequestMiddleware. unseen_step.
  eapply wpM_next; [done..|]. intros w1 HS1.
  eapply (wpM_unseen _ _ _ _ w1); [solve_unseen|done|]. intros now w2 Hv2.
  eapply wpM_unseen_last; [solve_unseen|done|]. intros _ w3 Hv3. by eapply stable_end.
Qed.

Lemma answers_tracing next : answers cfg P S next → answers cfg P S (TracingMiddleware next).
Proof.
  intros Hn wr r w Hwr Hr Hc Hst. unfold TracingMiddleware, with_spanM. unseen_step.
  assert (Hend : ∀ w1 w2, visible w2 = visible w1 → S r w w1 → S r w (exec (span_End a) w2)).
  { intros w1 w2 Hv2 HSw. by eapply stable_end. }
  apply wpM_defer_end. eapply wpM_unseen; [solve_unseen|exact Hv|]. intros c w1 Hv1.
  eapply wpM_next; [done|done|apply _|done..|]. intros w2 HS2.
  eapply (wpM_unseen _ _ _ _ w2); [solve_unseen|done|]. intros st w3 Hv3.
  eapply wpM_unseen_last; [solve_unseen|done|]. intros _ w4 Hv4. by eapply Hend.
Qed.

Lemma answers_metrics m next : answers cfg P S next → answers cfg P S (MetricsMiddleware m next).
Proof.
  intros Hn wr r w Hwr Hr Hc Hst. unfold MetricsMiddleware. do 3 unseen_step.
  apply wpM_defer_end, wpM_recovering.
  eapply wpM_next; [done|done|apply _|done..|]. intros w' HSw.
  eapply (wpM_unseen_last _ _ _ w'); [solve_unseen|done|]. intros _ w'' Hv'.
  eapply stable_end; [exact HSw|]. rewrite <-Hv'. by destruct m.
Qed.

Lemma unseen_randomString n : unseen (randomString n).
Proof. induction n; cbn; solve_unseen. Qed.
Lemma unseen_requestID r :
  unseen (if GetReqID r =s "" then generateRequestID else mret (GetReqID r)).
Proof. unfold generateRequestID. solve_unseen; apply unseen_randomString. Qed.

Lemma answers_logger next : answers cfg P S next → answers cfg P S (LoggerMiddleware next).
Proof.
  intros Hn wr r w Hwr Hr Hc Hst. unfold LoggerMiddleware. unseen_step.
  eapply wpM_unseen; [apply unseen_requestID|exact Hv|]. intros id w1 Hv1.
  rewrite wpM_bind, wpM_lift, wp_run.
  pose proof (ww_like wr w1 Hwr) as Hww. pose proof (ww_new_unseen wr w1) as Hv2.
  set (ww := run (NewWrapResponseWriter wr) w1) in *.
  set (w2 := exec (NewWrapResponseWriter wr) w1) in *.
  assert (Hv3 : visible w2 = visible w) by congruence. do 2 unseen_step.
  eapply wpM_next; [done|done|done|by apply (HP r)|done..|]. intros w' HSw.
  do 3 (eapply (wpM_unseen _ _ _ _ w'); [solve_unseen|eassumption || reflexivity|]; intros ? ? ?).
  eapply (wpM_unseen_last _ _ _ w'); [solve_unseen|eassumption|]. intros _ w'' Hv'.
  apply (stable_request _ HS _ (with_logger r)); [done|]. by eapply stable_end.
Qed.

(** The recovery middleware is transparent to what does not panic. *)
Lemma answers_recovery next : answers cfg P S next → answers cfg P S (RecoveryMiddleware next).
Proof.
  intros Hn wr r w Hwr Hr Hc Hst. unfold RecoveryMiddleware. apply wpM_recovering.
  by apply Hn.
Qed.

End Transparent.

(** ** Panics *)

(** The server's answer to a panic on a connection in the state of [w]: the
    status is 500 unless another was already sent. *)
Definition recovered (w w' : world) : Prop :=
  w_store w' = w_store w ∧ w_cfg w' = w_cfg w ∧
  h_status (w_http w') = Some (default StatusInternalServerError (h_status (w_http w))) ∧
  h_sent (w_http w') = match h_status (w_http w) with
                       | Some _ => h_sent (w_http w) | None => h_header (w_http w) end ∧
  h_body (w_http w') = h_body (w_http w) +:+
    (if body_allowed (default StatusInternalServerError (h_status (w_http w)))
     then recovery_body else "").

Lemma recovery_conn w : ∃ w',
  (hw_WriteHeader conn StatusInternalServerError;;
   _ ← hw_Write conn recovery_body; mret tt) w = (Returned tt, w') ∧
  w_obs w' = w_obs w ∧ recovered w w'.
Proof.
  destruct w as [tick st ob c [hd [code|] sent body cells]];
    unfold mbind, M_bind, recovered, conn, lift, modify_http, send_body, send_header;
    cbn -[body_allowed recovery_body].
  - destruct (body_allowed code); cbn -[body_allowed recovery_body];
      eexists; (split; [reflexivity|]); cbn -[body_allowed recovery_body];
      by rewrite ?string_append_nil_r.
  - eexists. split; [reflexivity|]. done.
Qed.

(** C15: nothing panics through the recovery middleware. Whatever the next handler
    does on the connection, the middleware returns: with the handler's own outcome
    when it returned, and after a panic with the store as the handler left it and
    a 500, unless a status had been sent already, which then stands with the error
    document appended to the body. The panic is logged exactly when the request
    the middleware itself was given carries a logger. *)
Theorem Recovery_contains_panics next r w :
  ∃ w', RecoveryMiddleware next conn r w = (Returned tt, w') ∧
  match next conn r w with
  | (Returned _, w1) => w' = w1
  | (Panicked _, w1) =>
      recovered w1 w' ∧
      o_trace (w_obs w') = (if r_logger r then [EvLog LError "Panic recovered"] else [])
                           ++ o_trace (w_obs w1)
  end.
Proof.
  unfold RecoveryMiddleware, recovering. destruct (next conn r w) as [[[]|v] w1]; [by exists w1|].
  rewrite M_bind_lift. set (w2 := exec (ctx_log r LError "Panic recovered") w1).
  destruct (recovery_conn w2) as (w' & Heq & Hobs & Hrec). exists w'. split; [done|].
  rewrite Hobs. subst w2. unfold ctx_log in *. by destruct (r_logger r).
Qed.

(** ** Metrics *)

Lemma lift_eq {A} (m : IO A) w : lift m w = (Returned (run m w), exec m w).
Proof. unfold lift, run, exec. by destruct (m w). Qed.

Lemma M_bind_panicked {A B} (m : M A) (f : A → M B) w v w' :
  m w = (Panicked v, w') → (m ≫= f) w = (Panicked v, w').
Proof. intros H. unfold mbind, M_bind. by rewrite H. Qed.

Lemma defer_eq {A} (c : IO unit) (m : M A) w o w' :
  m w = (o, w') → defer c m w = (o, exec c w').
Proof. intros H. unfold defer, exec. rewrite H. by destruct (c w'). Qed.

Section Metrics.
Context {E : Env}.

(** Requests in flight, by the gauge. *)
Definition in_flight (w : world) : Z :=
  foldr (λ e n, match e with EvAdd HTTPActiveRequests k _ => (k + n)%Z | _ => n end)
    0%Z (o_trace (w_obs w)).

(** The world in which the next handler runs. *)
Definition metrics_entered (r : Request) (w : world) : world :=
  exec (time_Now;; new_cell StatusOK 0;; metric_add HTTPActiveRequests 1 (http_attrs r)) w.

(** The events of one request, newest first. *)
Definition request_events (r : Request) (status bytes duration : Z) : list event :=
  let attrs := http_attrs r ++ [("http.status_code", AInt status)] in
  [EvAdd HTTPActiveRequests (-1) (http_attrs r);
   EvRecord HTTPResponseSize bytes attrs;
   EvRecord HTTPRequestSize (Z.max 0 (r_ContentLength r)) attrs;
   EvAdd HTTPRequestCount 1 attrs;
   EvRecord HTTPRequestDuration duration attrs].

Lemma record_events r c start s b w :
  h_cells (w_http w) !! c = Some (s, b) →
  ∃ d w', exec (recordHTTPMetrics true r c start (http_attrs r);;
                metric_add HTTPActiveRequests (-1) (http_attrs r)) w = w' ∧
  visible w' = visible w ∧
  o_trace (w_obs w') = request_events r s b d ++ o_trace (w_obs w).
Proof.
  intros Hc.
  assert (Hmax : Z.max 0 (r_ContentLength r) =
    (if (r_ContentLength r <? 0)%Z then 0%Z else r_ContentLength r)).
  { destruct (Z.ltb_spec (r_ContentLength r) 0); lia. }
  unfold request_events. rewrite Hmax. unfold recordHTTPMetrics. cbn [negb].
  assert (Hg : run (get_cell c) (exec time_Now w) = (s, b)).
  { change (default (0, 0)%Z (h_cells (w_http w) !! c) = (s, b)). by rewrite Hc. }
  rewrite exec_bind, (exec_bind time_Now), (exec_bind (get_cell c)), Hg. eexists _, _. split; [reflexivity|].
  split; reflexivity.
Qed.

Lemma metrics_recorded next wr r w o w1 s b :
  let c := length (h_cells (w_http w)) in
  next (metricsResponseWriter c wr) r (metrics_entered r w) = (o, w1) →
  h_cells (w_http w1) !! c = Some (s, b) →
  let status := match o with Returned _ => s | Panicked _ => StatusInternalServerError end in
  ∃ d w', MetricsMiddleware true next wr r w = (o, w') ∧ visible w' = visible w1 ∧
    o_trace (w_obs w') = request_events r status b d ++ o_trace (w_obs w1) ∧
    (in_flight w1 = in_flight (metrics_entered r w) → in_flight w' = in_flight w).
Proof.
  intros c Hnext Hc status. set (start := run time_Now w).
  set (w2 := match o with
             | Returned _ => w1
             | Panicked _ => exec (x ← get_cell c; set_cell c (StatusInternalServerError, x.2)) w1
             end).
  assert (Hc2 : h_cells (w_http w2) !! c = Some (status, b)).
  { subst w2 status. destruct o; [done|]. rewrite exec_bind.
    change (run (get_cell c) w1) with (default (0, 0)%Z (h_cells (w_http w1) !! c)).
    rewrite Hc. apply list_lookup_insert_eq. by eapply lookup_lt_Some. }
  destruct (record_events r c start status b w2 Hc2) as (d & w' & Hw' & Hv & Ht).
  exists d, w'. assert (Ht1 : o_trace (w_obs w2) = o_trace (w_obs w1)) by by destruct o.
  assert (Hv1 : visible w2 = visible w1) by by destruct o.
  split_and!; [|by rewrite Hv|by rewrite Ht, Ht1|].
  - subst w'. unfold MetricsMiddleware. rewrite !M_bind_lift.
    change (exec (when true _) _) with (metrics_entered r w).
    change (run (new_cell StatusOK 0) (exec time_Now w)) with c. fold start.
    rewrite exec_bind. destruct o as [[]|v].
    + apply (defer_eq (when true _) _ _ (Returned tt)).
      unfold recovering. rewrite (M_bind_returned _ _ _ _ _ Hnext).
      rewrite lift_eq. by destruct (run _ w1).
    + apply (defer_eq (when true _) _ _ (Panicked v)).
      unfold recovering. by rewrite (M_bind_panicked _ _ _ _ _ Hnext), !M_bind_lift.
  - intros Hin. unfold in_flight at 1. rewrite Ht, Ht1, foldr_app.
    fold (in_flight w1). rewrite Hin.
    change (in_flight (metrics_entered r w)) with (1 + in_flight w)%Z. cbn. lia.
Qed.

(** ** What a handler does with its writer

    A handler's calls on its writer, with what they returned. *)
Inductive call := CHeader (code : Z) | CWrite (n : Z).

(** Code that leaves the struct at [c] alone, from the world [w]. *)
Definition spared {A} (c : nat) (m : M A) (w : world) : Prop :=
  h_cells (w_http (snd (m w))) !! c = h_cells (w_http w) !! c.

(** [m] run in [w] makes the calls [l] on [wr], in this order, and otherwise leaves
    the struct at [c] alone. A WriteHeader counts even if it panics. *)
Inductive makes (c : nat) (wr : ResponseWriter) : ∀ {A}, M A → world → list call → Prop :=
| makes_header code w : makes c wr (hw_WriteHeader wr code) w [CHeader code]
| makes_write b w n w1 :
    hw_Write wr b w = (Returned n, w1) → makes c wr (hw_Write wr b) w [CWrite n]
| makes_else {A} (m : M A) w : spared c m w → makes c wr m w []
| makes_bind {A B} (m : M A) (f : A → M B) w a w1 l1 l2 :
    makes c wr m w l1 → m w = (Returned a, w1) → makes c wr (f a) w1 l2 →
    makes c wr (m ≫= f) w (l1 ++ l2)
| makes_bind_panics {A B} (m : M A) (f : A → M B) w v w1 l :
    makes c wr m w l → m w = (Panicked v, w1) → makes c wr (m ≫= f) w l
| makes_defer {A} (d : IO unit) (m : M A) w l :
    makes c wr m w l → (∀ w', spared c (lift d) w') → makes c wr (defer d m) w l
| makes_recovering {A} (h : string → M A) (m : M A) w a w1 l :
    makes c wr m w l → m w = (Returned a, w1) → makes c wr (recovering h m) w l
| makes_recovered {A} (h : string → M A) (m : M A) w v w1 l1 l2 :
    makes c wr m w l1 → m w = (Panicked v, w1) → makes c wr (h v) w1 l2 →
    makes c wr (recovering h m) w (l1 ++ l2).

(** The status given last, and the bytes written, as an int64. *)
Definition last_status (s : Z) (l : list call) : Z :=
  foldl (λ s x, match x with CHeader code => code | CWrite _ => s end) s l.
Definition bytes_written (b : Z) (l : list call) : Z :=
  foldl (λ b x, match x with CHeader _ => b | CWrite n => wrap64 (b + n) end) b l.

(** A writer without a use for the struct at [c]. *)
Record spares (c : nat) (wr : ResponseWriter) : Prop := {
  spares_header code w : spared c (hw_WriteHeader wr code) w;
  spares_write b w : spared c (hw_Write wr b) w;
}.

Lemma spares_conn c : spares c conn.
Proof.
  split; intros; unfold spared; cbn.
  - destruct (valid_status code); [|done]. cbn. unfold send_header.
    destruct (h_status _); [done|]. by destruct (informational code).
  - unfold send_body. destruct (h_status (w_http w)) eqn:Hs.
    + by destruct (body_allowed _).
    + unfold send_header. by rewrite Hs.
Qed.

Lemma set_cell_lookup i j x w :
  i ≠ j → h_cells (w_http (exec (set_cell i x) w)) !! j = h_cells (w_http w) !! j.
Proof. intros H. cbn. by apply list_lookup_insert_ne. Qed.

(** The wrapper of another request's, or another middleware's, struct. *)
Lemma spares_wrapped c i wr : i ≠ c → spares c wr → spares c (metricsResponseWriter i wr).
Proof.
  intros Hne [Hh Hw]. split; intros; unfold spared; cbn.
  - rewrite M_bind_lift, exec_bind. rewrite Hh. by apply set_cell_lookup.
  - unfold mbind, M_bind. specialize (Hw b w). unfold spared in Hw.
    destruct (hw_Write wr b w) as [[n|v] w1]; [|done]. rewrite <-Hw.
    change (h_cells (w_http (exec (x ← get_cell i; set_cell i (x.1, wrap64 (x.2 + n))) w1)) !! c =
      h_cells (w_http w1) !! c).
    rewrite exec_bind. by apply set_cell_lookup.
Qed.

Lemma spares_traced c i wr : i ≠ c → spares c wr → spares c (responseWriter i wr).
Proof.
  intros Hne [Hh Hw]. split; [|exact Hw]. intros code w. unfold spared. cbn.
  rewrite M_bind_lift, exec_bind. rewrite Hh. by apply set_cell_lookup.
Qed.

(** The struct of [metricsResponseWriter] holds what its calls say. *)
Lemma makes_recorded {A} c wr (m : M A) w l :
  spares c wr → makes c (metricsResponseWriter c wr) m w l →
  ∀ s b, h_cells (w_http w) !! c = Some (s, b) →
  h_cells (w_http (snd (m w))) !! c = Some (last_status s l, bytes_written b l).
Proof.
  intros [Hh Hw]. induction 1 as [code w|x w n w1 Hx|A m w Hm|A B m f w a w1 l1 l2 _ IH1 H1 _ IH2
    |A B m f w v w1 l _ IH H1|A d m w l _ IH Hd|A h m w a w1 l _ IH H1
    |A h m w v w1 l1 l2 _ IH1 H1 _ IH2]; intros s b Hc.
  - cbn. rewrite M_bind_lift, exec_bind. rewrite Hh.
    change (run (get_cell c) w) with (default (0, 0)%Z (h_cells (w_http w) !! c)).
    rewrite Hc. cbn. rewrite list_lookup_insert_eq; [done|]. by eapply lookup_lt_Some.
  - rewrite Hx. cbn in Hx |- *. revert Hx. unfold mbind, M_bind. specialize (Hw x w).
    unfold spared in Hw. destruct (hw_Write wr x w) as [[k|v] w2]; [|done].
    cbn in Hw. rewrite Hc in Hw. intros [= <- <-]. cbn. unfold get_cell. cbn.
    rewrite Hw. cbn. rewrite list_lookup_insert_eq; [done|]. by eapply lookup_lt_Some.
  - cbn. by rewrite Hm.
  - specialize (IH1 s b Hc). rewrite H1 in IH1. unfold last_status, bytes_written.
    rewrite !foldl_app. unfold mbind, M_bind. rewrite H1. by apply IH2.
  - specialize (IH s b Hc). rewrite H1 in IH. unfold mbind, M_bind. by rewrite H1.
  - specialize (IH s b Hc). unfold defer. destruct (m w) as [[a|v] w1]; cbn in IH;
      specialize (Hd w1); unfold spared, lift in Hd; destruct (d w1); cbn in *; by rewrite Hd.
  - specialize (IH s b Hc). rewrite H1 in IH. unfold recovering. by rewrite H1.
  - specialize (IH1 s b Hc). rewrite H1 in IH1. unfold last_status, bytes_written.
    rewrite !foldl_app. unfold recovering. rewrite H1. by apply IH2.
Qed.

(** C16: every request through the metrics middleware is counted once, under the status
    and with the size its handler gave, and panics are not swallowed. Whatever
    calls the next handler makes on its writer and whatever else it does (short of
    touching the middleware's own struct), the middleware ends as it ended, with
    the same panic if it panicked, and adds to what the handler left exactly one
    count, one duration and the two sizes: labelled with the code of the last
    WriteHeader, 200 without one, or 500 after a panic, the response's size being
    the sum of what the Writes returned; and the gauge of requests in flight is
    back where it was if the handler left it so. *)
Theorem MetricsMiddleware_records next wr r w l :
  let c := length (h_cells (w_http w)) in
  let wrapped := metricsResponseWriter c wr in
  spares c wr → makes c wrapped (next wrapped r) (metrics_entered r w) l →
  let '(o, w1) := next wrapped r (metrics_entered r w) in
  let status := match o with Returned _ => last_status StatusOK l
                | Panicked _ => StatusInternalServerError end in
  ∃ d w', MetricsMiddleware true next wr r w = (o, w') ∧ visible w' = visible w1 ∧
    o_trace (w_obs w') = request_events r status (bytes_written 0 l) d ++ o_trace (w_obs w1) ∧
    (in_flight w1 = in_flight (metrics_entered r w) → in_flight w' = in_flight w).
Proof.
  intros c wrapped Hs Hm.
  pose proof (makes_recorded _ _ _ _ _ Hs Hm StatusOK 0%Z) as Hrec.
  destruct (next wrapped r (metrics_entered r w)) as [o w1] eqn:Hnext.
  eapply metrics_recorded; [exact Hnext|]. apply Hrec. cbn. apply list_lookup_middle. done.
Qed.


End Metrics.

(** ** The middlewares keep invariants *)

(** Whatever writer and request the handler is given, if it is the request [r] as
    the client sent it, the handler keeps the invariant. *)
Definition guards (I : inv) (r : Request) (next : Handler) : Prop :=
  ∀ wr r', safe_writer wr → same_request r r' → always I (next wr r').

Section Guards.
Context {E : Env} {W : ChiWriter} {WL : ChiWriterLaws W} (I : inv) (r : Request).
#[local] Hint Resolve unseen_now unseen_ctx_log unseen_record : unseen.

Lemma always_next {A} next wr r' (f : unit → M A) :
  guards I r next → safe_writer wr → same_request r r' → (∀ a, always I (f a)) →
  always I (next wr r' ≫= f).
Proof. intros Hn Hwr Hr Hf. apply always_bind; [by apply Hn|done]. Qed.

Lemma guards_recovery next : guards I r next → guards I r (RecoveryMiddleware next).
Proof.
  intros Hn wr r' Hwr Hr. unfold RecoveryMiddleware. solve_always; by apply Hn.
Qed.

Lemma guards_slow threshold next :
  guards I r next → guards I r (SlowRequestMiddleware threshold next).
Proof.
  intros Hn wr r' Hwr Hr. unfold SlowRequestMiddleware.
  apply always_bind; [by apply always_unseen|intros start].
  apply always_next; [done..|]. solve_always.
Qed.

Lemma guards_tracing next : guards I r next → guards I r (TracingMiddleware next).
Proof.
  intros Hn wr r' Hwr Hr. unfold TracingMiddleware. apply always_with_span. intros span.
  apply always_bind; [by apply always_unseen|intros cell].
  apply always_next; [done|by apply responseWriter_safe|done|]. solve_always.
Qed.

Lemma guards_metrics m next : guards I r next → guards I r (MetricsMiddleware m next).
Proof.
  intros Hn wr r' Hwr Hr. unfold MetricsMiddleware.
  apply always_bind; [by apply always_unseen|intros start].
  apply always_bind; [by apply always_unseen|intros cell]. cbv zeta.
  apply always_bind; [solve_always|intros _]. apply always_defer; [solve_always|].
  apply always_recovering; [solve_always|].
  apply always_next; [done|by apply metricsResponseWriter_safe|done|]. solve_always.
Qed.

Lemma guards_logger next : guards I r next → guards I r (LoggerMiddleware next).
Proof.
  intros Hn wr r' Hwr Hr. unfold LoggerMiddleware.
  apply always_bind; [by apply always_unseen|intros start].
  apply always_bind; [apply always_unseen, unseen_requestID|intros id]. cbv zeta.
  intros w Hw. rewrite M_bind_lift. pose proof (ww_safe wr w Hwr) as Hww.
  assert (Hw1 : holds I (exec (NewWrapResponseWriter wr) w)).
  { pose proof (ww_new_unseen wr w) as Hv. unfold visible, holds in *.
    by injection Hv as -> -> _ _. }
  revert Hw1. generalize (exec (NewWrapResponseWriter wr) w).
  generalize dependent (run (NewWrapResponseWriter wr) w). intros ww Hww.
  change (always I (lift (hw_Set (ww_writer ww) "X-Request-ID" id);;
    lift (log LInform "Incoming request");;
    next (ww_writer ww) (with_logger r');;
    status ← lift (ww_Status ww);
    now ← lift time_Now;
    let l := if (500 <=? status)%Z then LError
             else if (400 <=? status)%Z then LWarn else LInform in
    bytes ← lift (ww_BytesWritten ww);
    lift (log l "Request completed"))).
  apply always_bind; [by apply safe_Set|intros _].
  apply always_bind; [by apply always_unseen|intros _].
  apply always_next; [done..|]. solve_always.
Qed.
End Guards.

(** A handler that always returns, on writers that can be relied on. *)
Definition total (next : Handler) : Prop :=
  ∀ wr r w, safe_writer wr → ∃ w', next wr r w = (Returned tt, w').

(** Nothing panics through the recovery middleware on any such writer. *)
Lemma total_recovery next : total (RecoveryMiddleware next).
Proof.
  intros wr r w Hwr. unfold RecoveryMiddleware, recovering.
  destruct (next wr r w) as [[[]|v] w1]; [by exists w1|]. rewrite M_bind_lift.
  set (w2 := exec _ w1).
  pose proof (valid_WriteHeader _ Hwr StatusInternalServerError w2 eq_refl) as H.
  destruct (hw_WriteHeader wr StatusInternalServerError w2) as [o w3] eqn:H3. cbn in H. subst o.
  rewrite (M_bind_returned _ _ _ _ _ H3).
  destruct (valid_Write _ Hwr recovery_body w3) as [n Hn].
  destruct (hw_Write wr recovery_body w3) as [o w4] eqn:H4. cbn in Hn. subst o.
  rewrite (M_bind_returned _ _ _ _ _ H4). by exists w4.
Qed.

(** ** Runs

    A wrapper like chi's, with a cell of its own. *)
Module MiddlewareDemo.

Definition demo_chi : ChiWriter := {|
  WrapResponseWriter := nat * ResponseWriter;
  NewWrapResponseWriter w := c ← new_cell 0 0; mret (c, w);
  ww_writer ww := metricsResponseWriter ww.1 ww.2;
  ww_Status ww := c ← get_cell ww.1; mret c.1;
  ww_BytesWritten ww := c ← get_cell ww.1; mret c.2;
  GetReqID _ := "";
  time_Stamp _ := "20240601120000";
|}.

#[export] Instance demo_chi_laws : ChiWriterLaws demo_chi.
Proof.
  constructor; intros; cbn.
  - by apply metricsResponseWriter_like.
  - by apply metricsResponseWriter_safe.
  - done.
  - done.
  - done.
Qed.

Definition get (path : string) : Request := {|
  r_Method := "GET"; r_Path := path; r_RemoteAddr := "10.0.0.1:5000"; r_Header := ∅;
  r_Body := ""; r_ContentLength := -1; r_assetID := ""; r_route := "";
  r_user := None; r_logger := false |}.

Definition w0 : world := world_of empty_store None.

(** Responds 401 and then panics. *)
Definition late_panic : Handler := λ w _,
  hw_WriteHeader w StatusUnauthorized;; panic "late".

(** The counter says 500 where the client saw 401; the panic is not logged. *)
Example late_panic_run :
  let w := snd (RecoveryMiddleware (MetricsMiddleware (E := fine_env) true late_panic)
                  conn (get "/") w0) in
  h_status (w_http w) = Some 401%Z ∧
  In (EvAdd HTTPRequestCount 1 (http_attrs (get "/") ++ [("http.status_code", AInt 500)]))
     (o_trace (w_obs w)) ∧
  Forall (λ e, match e with EvLog _ _ => False | _ => True end) (o_trace (w_obs w)).
Proof. vm_compute. split; [reflexivity|split; [tauto|repeat constructor]]. Qed.

(** A second WriteHeader is ignored by the connection and kept by the counter. *)
Definition twice : Handler := λ w _,
  hw_WriteHeader w StatusOK;; hw_WriteHeader w StatusInternalServerError.

Example superfluous_status_counted :
  let w := snd (MetricsMiddleware (E := fine_env) true twice conn (get "/") w0) in
  h_status (w_http w) = Some 200%Z ∧
  In (EvAdd HTTPRequestCount 1 (http_attrs (get "/") ++ [("http.status_code", AInt 500)]))
     (o_trace (w_obs w)).
Proof. vm_compute. split; [reflexivity|tauto]. Qed.

(** Responds 401 with a body of two bytes. *)
Definition refuse : Handler := λ w _,
  hw_WriteHeader w StatusUnauthorized;; _ ← hw_Write w "no"; mret tt.

Lemma late_panic_makes :
  makes 0 (metricsResponseWriter 0 conn) (late_panic (metricsResponseWriter 0 conn) (get "/"))
    (metrics_entered (E := fine_env) (get "/") w0) [CHeader 401].
Proof. eapply (makes_bind _ _ _ _ _ tt _ [_] []); [constructor|reflexivity|by constructor]. Qed.

Lemma refuse_makes :
  makes 0 (metricsResponseWriter 0 conn) (refuse (metricsResponseWriter 0 conn) (get "/"))
    (metrics_entered (E := fine_env) (get "/") w0) [CHeader 401; CWrite 2].
Proof.
  eapply (makes_bind _ _ _ _ _ tt _ [_] [_]); [constructor|reflexivity|].
  eapply (makes_bind _ _ _ _ _ 2%Z _ [_] []); [by eapply makes_write|reflexivity|].
  by constructor.
Qed.

Lemma MetricsMiddleware_records_witness :
  (∃ d w', MetricsMiddleware (E := fine_env) true late_panic conn (get "/") w0
             = (Panicked "late", w') ∧
     h_status (w_http w') = Some 401%Z ∧
     o_trace (w_obs w') = request_events (get "/") 500 0 d ++
       [EvAdd HTTPActiveRequests 1 (http_attrs (get "/"))] ∧
     in_flight w' = 0%Z) ∧
  (∃ d w', MetricsMiddleware (E := fine_env) true refuse conn (get "/") w0 = (Returned tt, w') ∧
     o_trace (w_obs w') = request_events (get "/") 401 2 d ++
       [EvAdd HTTPActiveRequests 1 (http_attrs (get "/"))]).
Proof.
  split.
  - destruct (MetricsMiddleware_records (E := fine_env) late_panic conn (get "/") w0 [CHeader 401]
      (spares_conn 0) late_panic_makes) as (d & w' & H1 & H2 & H3 & H4). exists d, w'.
    split; [exact H1|]. split; [exact (f_equal (λ p, p.1.2) H2)|].
    split; [exact H3|]. exact (H4 eq_refl).
  - destruct (MetricsMiddleware_records (E := fine_env) refuse conn (get "/") w0
      [CHeader 401; CWrite 2] (spares_conn 0) refuse_makes) as (d & w' & H1 & _ & H3 & _).
    exists d, w'. split; [exact H1|exact H3].
Defined.

End MiddlewareDemo.
