(* ===== verification/Router.v ===== *)
(** * The router: internal/router/router.go

    [NewRouter]: the chain of middlewares in the order of the calls of [Use], the
    table of routes, and the endpoints that are not in [Handler]. chi's router
    and its middlewares, and the CORS package, are the class [ThirdParty]; what
    is relied on of them is that they call the next handler with the same method,
    path, headers and body, and keep off the store. *)

From stdpp Require Import base gmap strings list numbers pretty.
From Stdlib Require Import ZArith Lia Ascii.
From S2P Require Import Prelude GoStd AppErrors Config Assets World Json JsonDecode.
From S2P Require Import Queue Storage Service Http Handler Auth RateLimit Middleware.

(** [cors.Options] *)
Record cors_options := {
  AllowedOrigins : list string; AllowedMethods : list string;
  AllowedHeaders : list string; ExposedHeaders : list string;
  AllowCredentials : bool; MaxAge : Z;
}.

(** Where chi routes a method and a path: to a route, by its index, with the URL
    parameter, or to the answer 404 or 405 of the innermost subrouter entered,
    given by the prefix it is mounted at. *)
Inductive destination :=
| Matched (i : nat) (assetID : string)
| Unmatched (prefix : string).

Class ThirdParty := {
  RequestID : Handler → Handler;
  RealIP : Handler → Handler;
  cors_Handler : cors_options → Handler → Handler;
  Timeout : Z → Handler → Handler;
  Compress : Z → Handler → Handler;
  chi_find : list (string * string) → string → string → destination;
  chi_unrouted : Handler;
}.

Definition APIVersion : string := "v1".
Definition MiddlewareTimeout : Z := 30 * Second.

Definition router_cors (allowedOrigins : list string) : cors_options := {|
  AllowedOrigins := allowedOrigins;
  AllowedMethods := ["GET"; "POST"; "PUT"; "DELETE"; "OPTIONS"];
  AllowedHeaders := ["Accept"; "Authorization"; "Content-Type"; "X-CSRF-Token"];
  ExposedHeaders := ["Link"]; AllowCredentials := true; MaxAge := 300 |}.

(** ** The endpoints of the router itself *)

Definition quote (s : string) : string := String dq_char (s +:+ String dq_char EmptyString).

(** [{"status": "ok", "message": msg}] *)
Definition ok_text (msg : string) : string :=
  "{" +:+ quote "status" +:+ ": " +:+ quote "ok" +:+ ", " +:+ quote "message" +:+ ": " +:+
  quote msg +:+ "}".

Definition say (msg : string) : Handler := λ w _,
  hw_WriteHeader w StatusOK;; _ ← hw_Write w (ok_text msg); mret tt.

Definition favicon : Handler := λ w _, hw_WriteHeader w StatusNoContent.

Definition status_body : any :=
  AMap [("status", AStr "ok"); ("message", AStr "mpiper API is running")].

Definition api_status : Handler := λ w _, RespondJSON w (Some status_body) StatusOK.

(** What chi adds to the request: the pattern and the URL parameter. *)
Definition with_route (pattern assetID : string) (r : Request) : Request := {|
  r_Method := r_Method r; r_Path := r_Path r; r_RemoteAddr := r_RemoteAddr r;
  r_Header := r_Header r; r_Body := r_Body r; r_ContentLength := r_ContentLength r;
  r_assetID := assetID; r_route := pattern; r_user := r_user r; r_logger := r_logger r |}.

(** Method and pattern of the routes, in order. *)
Definition route_table : list (string * string) := [
  ("GET", "/"); ("GET", "/metric_test"); ("GET", "/favicon.ico"); ("GET", "/healthz");
  ("GET", "/api/v1/"); ("GET", "/api/v1/status"); ("POST", "/api/v1/storage/presign");
  ("GET", "/api/v1/assets/{assetID}/complete")
].

Section Router.
Context {E : Env} {J : JsonErrors} {L : GoLib} {K : Cloud} {C : Crypto} {W : ChiWriter}.
Context {T : ThirdParty}.
(** The presign limiter's [getLimiter(ip).Allow()], see [RateLimit]. *)
Context (allow : string → IO bool).

Definition metric_test : Handler := λ w r,
  n ← lift next_tick;
  lift (time_Sleep (env_rand n mod 500 * Millisecond)%Z);;
  say "Metric test endpoint" w r.

Definition api : string := "/api/" +:+ APIVersion.

(** The middleware of the subrouter mounted at a prefix. *)
Definition subrouter (prefix : string) (endpoint : Handler) : Handler :=
  if (prefix =s api +:+ "/storage") || (prefix =s api +:+ "/assets")
  then AuthMiddleware endpoint else endpoint.

Definition routes (h : AssetHandler) : list (string * string * Handler) := [
  ("GET", "/", say "Welcome to mpiper API");
  ("GET", "/metric_test", metric_test);
  ("GET", "/favicon.ico", favicon);
  ("GET", "/healthz", say "mpiper is healthy");
  ("GET", api +:+ "/", say "mpiper API v1");
  ("GET", api +:+ "/status", api_status);
  ("POST", api +:+ "/storage/presign",
     subrouter (api +:+ "/storage") (presignRateLimiter allow (CreateAsset h)));
  ("GET", api +:+ "/assets/{assetID}/complete",
     subrouter (api +:+ "/assets") (MarkAssetUploaded h))
].

Definition mux (rs : list (string * string * Handler)) : Handler := λ w r,
  match chi_find (fst <$> rs) (r_Method r) (r_Path r) with
  | Matched i assetID =>
      match rs !! i with
      | Some (_, pattern, endpoint) => endpoint w (with_route pattern assetID r)
      | None => chi_unrouted w r
      end
  | Unmatched prefix => subrouter prefix chi_unrouted w r
  end.

(** The chain, outermost first. *)
Definition router_chain (allowedOrigins : list string) (m : bool) (endpoint : Handler) : Handler :=
  RequestID (RealIP (RecoveryMiddleware (cors_Handler (router_cors allowedOrigins)
    (LoggerMiddleware (Timeout MiddlewareTimeout (TracingMiddleware (MetricsMiddleware m
      (Compress 5 (SlowRequestMiddleware (2 * Second) endpoint))))))))).

Definition NewRouter (cfg : EnvConfig) (m : bool) : M Handler :=
  cfg2 ← (λ w, from_outcome (MustGet (w_cfg w)) w);
  let allowedOrigins := cfg_CORSAllowedOrigins cfg2 in
  assetSvc ← NewAssetService (cfg_Redis cfg) m m;
  let assetHandler := {| ah_svc := as_AssetService assetSvc; ah_m := m |} in
  mret (router_chain allowedOrigins m (mux (routes assetHandler))).

End Router.

(** ** What is relied on of chi and of the CORS package *)

(** A request that no third-party middleware answers or alters: its context is
    never done, it is neither a preflight nor cross-origin, and it does not ask
    for compression. *)
Definition plain {E : Env} (r : Request) : Prop :=
  (∀ n, env_ctx n = None) ∧ r_Method r ≠ "OPTIONS" ∧
  Header_Get r "Origin" = "" ∧ Header_Get r "Accept-Encoding" = "".

(** It calls the next handler, if at all, with what the client sent, on a writer
    that passes on what it is given, and keeps off the store. *)
Definition passes (mw : Handler → Handler) : Prop :=
  ∀ I r next, guards I r next → guards I r (mw next).

(** Plain requests it only passes on. *)
Definition transparent {E : Env} (mw : Handler → Handler) : Prop :=
  ∀ cfg P S next, closed P → (∀ r, P r → plain r) → stable S →
    answers cfg P S next → answers cfg P S (mw next).

Class ThirdPartyLaws {E : Env} (T : ThirdParty) : Prop := {
  RequestID_passes : passes RequestID;
  RealIP_passes : passes RealIP;
  cors_passes o : passes (cors_Handler o);
  Timeout_passes d : passes (Timeout d);
  Compress_passes l : passes (Compress l);
  unrouted_guards I r : guards I r chi_unrouted;
  RequestID_total next : total next → total (RequestID next);
  RealIP_total next : total next → total (RealIP next);
  RequestID_transparent : transparent RequestID;
  RealIP_transparent : transparent RealIP;
  cors_transparent o : transparent (cors_Handler o);
  Timeout_transparent d : transparent (Timeout d);
  Compress_transparent l : transparent (Compress l);
}.

Section Chain.
Context {E : Env} {W : ChiWriter} {WL : ChiWriterLaws W} {T : ThirdParty} {TL : ThirdPartyLaws T}.

Lemma chain_total origins m endpoint : total (router_chain origins m endpoint).
Proof. apply RequestID_total, RealIP_total, total_recovery. Qed.

Lemma chain_guards I r origins m endpoint :
  guards I r endpoint → guards I r (router_chain origins m endpoint).
Proof.
  intros H. apply RequestID_passes, RealIP_passes, guards_recovery, cors_passes,
    guards_logger, Timeout_passes, guards_tracing, guards_metrics, Compress_passes,
    guards_slow, H.
Qed.

Lemma closed_plain : closed plain.
Proof.
  intros r r' (Hm & _ & Hh & _). unfold plain, Header_Get. by rewrite Hm, Hh.
Qed.

(** On plain requests the chain is the endpoint. *)
Lemma chain_answers cfg P S origins m endpoint :
  closed P → (∀ r, P r → plain r) → stable S → answers cfg P S endpoint →
  answers cfg P S (router_chain origins m endpoint).
Proof.
  intros HP Hplain HS H. unfold router_chain. apply RequestID_transparent; [done..|].
  apply RealIP_transparent; [done..|]. apply answers_recovery.
  apply cors_transparent; [done..|]. apply answers_logger; [done..|].
  apply Timeout_transparent; [done..|]. apply answers_tracing; [done..|].
  apply answers_metrics; [done..|]. apply Compress_transparent; [done..|].
  by apply answers_slow.
Qed.
(** A route's answer is the server's. *)
Lemma routed_answers cfg S origins m endpoint i assetID r w :
  stable S →
  answers cfg (λ r, plain r ∧
    chi_find route_table (r_Method r) (r_Path r) = Matched i assetID) S endpoint →
  plain r → chi_find route_table (r_Method r) (r_Path r) = Matched i assetID →
  w_cfg w = Some cfg → h_status (w_http w) = None →
  ∃ w', router_chain origins m endpoint conn r w = (Returned tt, w') ∧ S r w w'.
Proof.
  intros HS Hans Hp Hfind Hc Hst.
  assert (Hclosed : closed (λ r, plain r ∧
    chi_find route_table (r_Method r) (r_Path r) = Matched i assetID)).
  { intros r1 r2 Hr [H1 H2]. split; [by apply (closed_plain r1)|].
    destruct Hr as (-> & -> & _). exact H2. }
  pose proof (chain_answers cfg _ _ origins m _ Hclosed (λ _ H, proj1 H) HS Hans
    conn r w conn_like (conj Hp Hfind) Hc Hst) as H.
  unfold wpM in H. destruct (router_chain _ _ _ conn r w) as [[[]|v] w']; [|done].
  by exists w'.
Qed.
End Chain.

(** ** The endpoints keep invariants *)

Section Endpoints.
Context {E : Env} {J : JsonErrors} {L : GoLib} {K : Cloud} {C : Crypto} {W : ChiWriter}.
Context {WL : ChiWriterLaws W} {T : ThirdParty} {TL : ThirdPartyLaws T}.
Context (allow : string → IO bool).
Context (allow_store : ∀ ip, keeps_store (allow ip)) (allow_resp : ∀ ip, keeps_resp (allow ip)).
#[local] Hint Resolve unseen_now : unseen.

Section Invariant.
Context (I : inv) (r : Request).

Lemma always_bad_request wr span why msg :
  safe_writer wr → always I (bad_request wr span why msg).
Proof. intros Hwr. unfold bad_request. solve_always. Qed.

Lemma always_MustGet {B} (f : EnvConfig → M B) :
  (∀ cfg, always I (f cfg)) →
  always I (cfg ← (λ w, from_outcome (MustGet (w_cfg w)) w); f cfg).
Proof.
  intros Hf. apply always_bind; [|done]. intros w Hw. unfold from_outcome. exact Hw.
Qed.
#[local] Hint Resolve always_bad_request : always.

Lemma guards_CreateAsset h :
  (∀ req, always I (lift (svc_CreateAsset (ah_svc h) req))) → guards I r (CreateAsset h).
Proof.
  intros Hsvc wr r' Hwr Hr. unfold CreateAsset. apply always_with_span. intros span.
  apply always_bind; [by apply always_unseen|intros start].
  apply always_defer; [solve_always|]. apply always_bind; [solve_always|intros _].
  destruct (ParseJSON (r_Body r')) as [req|err]; [|solve_always].
  destruct (req_ContentType req =s ""); [solve_always|].
  destruct (negb _); [solve_always|]. unfold maxAssetSize.
  apply always_bind; [apply always_MustGet; solve_always|intros max].
  destruct (max <? _)%Z; [solve_always|]. apply always_bind; [solve_always|intros ctx].
  destruct ctx; [solve_always|]. apply always_bind; [apply Hsvc|]. solve_always.
Qed.

Lemma guards_MarkAssetUploaded h :
  (∀ id, always I (lift (svc_MarkAssetUploaded (ah_svc h) id))) →
  guards I r (MarkAssetUploaded h).
Proof.
  intros Hsvc wr r' Hwr Hr. unfold MarkAssetUploaded. apply always_with_span. intros span.
  cbv zeta. destruct (r_assetID r' =s ""); [solve_always|].
  destruct (uuid_Parse (r_assetID r')) as [id|err]; [|solve_always].
  apply always_bind; [apply Hsvc|]. solve_always.
Qed.

Lemma always_unauthorized wr warning msg cause :
  safe_writer wr → always I (unauthorized wr warning msg cause).
Proof. intros Hwr. unfold unauthorized. solve_always. Qed.
#[local] Hint Resolve always_unauthorized : always.

Lemma guards_AuthMiddleware next : guards I r next → guards I r (AuthMiddleware next).
Proof.
  intros Hn wr r' Hwr Hr. unfold AuthMiddleware. cbv zeta.
  destruct (_ =s ""); [solve_always|].
  destruct (strings_SplitN2 _ _) as [|scheme [|token [|]]]; try solve [solve_always].
  destruct (negb _); [solve_always|]. destruct (token =s ""); [solve_always|].
  apply always_MustGet. intros cfg. destruct (DecryptToken token _); [|solve_always].
  by apply Hn.
Qed.

Lemma guards_presignRateLimiter next :
  guards I r next → guards I r (presignRateLimiter allow next).
Proof.
  intros Hn wr r' Hwr Hr. unfold presignRateLimiter.
  apply always_bind; [by apply always_quiet|intros ok].
  destruct (negb ok); [solve_always|by apply Hn].
Qed.

Lemma guards_subrouter prefix next : guards I r next → guards I r (subrouter prefix next).
Proof.
  intros Hn. unfold subrouter. destruct (_ || _)%bool; [by apply guards_AuthMiddleware|done].
Qed.

Lemma guards_say msg : guards I r (say msg).
Proof. intros wr r' Hwr Hr. unfold say. solve_always. Qed.

(** The router keeps what its routes keep. *)
Lemma guards_mux rs : Forall (λ rt, guards I r rt.2) rs → guards I r (mux rs).
Proof.
  intros Hrs wr r' Hwr Hr. unfold mux.
  destruct (chi_find _ _ _) as [i id|prefix].
  - destruct (rs !! i) as [[[meth pattern] endpoint]|] eqn:Hi.
    + rewrite Forall_lookup in Hrs. by apply (Hrs i _ Hi).
    + by apply (unrouted_guards I r).
  - apply guards_subrouter; [apply (unrouted_guards I r)|done|done].
Qed.

(** With an invariant the two storage endpoints keep, every route keeps it. *)
Lemma guards_routes h :
  guards I r (subrouter (api +:+ "/storage") (presignRateLimiter allow (CreateAsset h))) →
  guards I r (subrouter (api +:+ "/assets") (MarkAssetUploaded h)) →
  guards I r (mux (routes allow h)).
Proof.
  intros Hc Hm. apply guards_mux. unfold routes.
  repeat (apply Forall_cons; split); try apply guards_say; try done; cbn [snd].
  - intros wr r' Hwr Hr. unfold metric_test. apply always_bind; [by apply always_quiet|].
    intros n. apply always_bind; [solve_always|intros _]. by apply guards_say.
  - intros wr r' Hwr Hr. unfold favicon. solve_always.
  - intros wr r' Hwr Hr. unfold api_status. solve_always.
Qed.
End Invariant.

(** Without a credential the authorization middleware keeps any invariant. *)
Lemma guards_unauthenticated (I : inv) r cfg next :
  (∀ st c, I st c → c = Some cfg) →
  (∀ userID, ¬ authenticated (cfg_EncryptionKey cfg) r userID) →
  guards I r (AuthMiddleware next).
Proof.
  intros Hcfg Hna wr r' Hwr Hr w Hw. 
  rewrite (AuthMiddleware_checked wr next cfg) by by eapply Hcfg.
  assert (Hna' : ∀ userID, ¬ authenticated (cfg_EncryptionKey cfg) r' userID).
  { destruct Hr as (_ & _ & Hh & _). unfold authenticated, Header_Get. rewrite Hh. exact Hna. }
  unfold auth_checked. destruct (_ =s ""); [by apply always_unauthorized|].
  destruct (strings_SplitN2 _ _) as [|scheme [|token [|]]] eqn:Hs;
    try by apply always_unauthorized.
  destruct (strings_ToLower scheme =s "bearer") eqn:Hb; cbn [negb]; [|by apply always_unauthorized].
  destruct (token =s "") eqn:Ht; [by apply always_unauthorized|].
  destruct (DecryptToken token _) as [u|] eqn:Hd; [|by apply always_unauthorized].
  exfalso. apply (Hna' u). apply strings_SplitN2_two in Hs as [Hh Hc]. simpl_eqb.
  by exists scheme, token.
Qed.

(** What [NewAssetService] returns. *)
Lemma NewAssetService_built cfg m w0 s w1 :
  NewAssetService (cfg_Redis cfg) m m w0 = (Returned s, w1) →
  w_store w1 = w_store w0 ∧ StorageLaws (as_storage s) ∧ service_queue (as_queue s).
Proof.
  unfold NewAssetService, mbind, M_bind, MustGet.
  destruct (w_cfg w0) as [cfg2|] eqn:Hcfg; [|done]. cbn [from_outcome].
  destruct (New _ m) as [st|e] eqn:Hnew; [|done].
  unfold lift. destruct (MustGetRedisClient (cfg_Redis cfg) w0) as [rc w2] eqn:Hrc.
  intros [= <- <-]. split_and!; [|by eapply New_laws|reflexivity].
  revert Hrc. unfold MustGetRedisClient. repeat case_match; by intros [= <- <-].
Qed.

(** What [NewRouter] returns. *)
Lemma NewRouter_built cfg m w0 hd w1 :
  NewRouter allow cfg m w0 = (Returned hd, w1) →
  w_store w1 = w_store w0 ∧
  ∃ s origins, NewAssetService (cfg_Redis cfg) m m w0 = (Returned s, w1) ∧
    StorageLaws (as_storage s) ∧ service_queue (as_queue s) ∧
    hd = router_chain origins m (mux (routes allow {| ah_svc := as_AssetService s; ah_m := m |})).
Proof.
  unfold NewRouter, MustGet. intros H. unfold mbind at 1, M_bind at 1 in H.
  destruct (w_cfg w0) as [cfg2|] eqn:Hcfg; [|done]. cbn [from_outcome] in H.
  destruct (NewAssetService (cfg_Redis cfg) m m w0) as [[s|v] w2] eqn:Hs.
  - rewrite (M_bind_returned _ _ _ _ _ Hs) in H. injection H as <- <-.
    destruct (NewAssetService_built _ _ _ _ _ Hs) as (Hst & Hl & Hq).
    split; [done|]. by eexists s, _.
  - by rewrite (M_bind_panicked _ _ _ _ _ Hs) in H.
Qed.

(** The service keeps the store's invariant and the configuration. *)
Lemma service_always s cfg `{!StorageLaws (as_storage s)} :
  let I : inv := λ st c, store_wf (as_queue s) st ∧ c = Some cfg in
  (∀ req, always I (lift (svc_CreateAsset (as_AssetService s) req))) ∧
  (∀ id, always I (lift (svc_MarkAssetUploaded (as_AssetService s) id))).
Proof.
  intros I. pose proof (as_AssetService_laws s) as Hl. split; intros x;
    apply always_lift; intros w [Hwf Hc]; split.
  - by apply created_any_wf.
  - by destruct (create_resp x w) as [_ ->].
  - pose proof (serve_wf s (ReqUploaded x) w Hwf) as H. cbn [serve] in H.
    by rewrite exec_bind, exec_ret in H.
  - by destruct (mark_resp x w) as [_ ->].
Qed.

(** Two subrouters are behind the authorization middleware. *)
Lemma subrouter_auth endpoint :
  subrouter (api +:+ "/storage") endpoint = AuthMiddleware endpoint ∧
  subrouter (api +:+ "/assets") endpoint = AuthMiddleware endpoint.
Proof. done. Qed.

(** A handler that always returns, keeps the store's invariant and needs a
    credential to change anything. *)
Definition safe_for (q : RedisQueue) (hd : Handler) : Prop :=
  ∀ cfg' r w, w_cfg w = Some cfg' → store_wf q (w_store w) →
    ∃ w', hd conn r w = (Returned tt, w') ∧ w_cfg w' = Some cfg' ∧
      store_wf q (w_store w') ∧
      ((∀ userID, ¬ authenticated (cfg_EncryptionKey cfg') r userID) →
       w_store w' = w_store w).
Definition safe_server (hd : Handler) : Prop := ∀ q, service_queue q → safe_for q hd.

Lemma safe_for_server q hd : service_queue q → safe_for q hd → safe_server hd.
Proof.
  intros Hq Hsafe q' Hq' cfg' r w Hc Hwf.
  destruct (Hsafe cfg' r w Hc) as (w' & ? & ? & Hwf' & ?); [by apply (service_queue_wf q' q)|].
  exists w'. split_and!; [done..| |done]. by apply (service_queue_wf q q').
Qed.

Lemma NewRouter_safe cfg m w0 hd w1 :
  NewRouter allow cfg m w0 = (Returned hd, w1) → safe_server hd.
Proof.
  intros H. apply NewRouter_built in H as (_ & s & origins & Hnew & Hlaws & Hq & ->).
  apply (safe_for_server (as_queue s)); [done|]. intros cfg' r w Hc Hwf.
  set (h := {| ah_svc := as_AssetService s; ah_m := m |}).
  set (hd := router_chain origins m (mux (routes allow h))).
  destruct (chain_total origins m (mux (routes allow h)) conn r w conn_safe) as [w' Hw'].
  exists w'. split; [done|]. fold hd in Hw'. apply (f_equal snd) in Hw'. cbn in Hw'. subst w'.
  pose proof (service_always s cfg') as [Hcr Hmk].
  destruct (subrouter_auth (presignRateLimiter allow (CreateAsset h))) as [Hs1 _].
  destruct (subrouter_auth (MarkAssetUploaded h)) as [_ Hs2].
  assert (Hsame : same_request r r) by done.
  assert (Hg : guards (λ st c, store_wf (as_queue s) st ∧ c = Some cfg') r hd).
  { apply chain_guards, guards_routes; rewrite ?Hs1, ?Hs2.
    - by apply guards_AuthMiddleware, guards_presignRateLimiter, guards_CreateAsset.
    - by apply guards_AuthMiddleware, guards_MarkAssetUploaded. }
  destruct (Hg conn r conn_safe Hsame w) as [Hwf' Hc']; [done|]. split_and!; [done..|].
  intros Hna. set (I := (λ st c, st = w_store w ∧ c = Some cfg') : inv).
  assert (Hg0 : guards I r hd).
  { apply chain_guards, guards_routes; rewrite ?Hs1, ?Hs2;
      apply (guards_unauthenticated _ _ cfg'); [by intros ?? [_ ?]|done|by intros ?? [_ ?]|done]. }
  by destruct (Hg0 conn r conn_safe Hsame w) as [? _].
Qed.

(** Building the router keeps the configuration. *)
Lemma NewRouter_keeps cfg m w0 o w1 :
  NewRouter allow cfg m w0 = (o, w1) → w_store w1 = w_store w0 ∧ w_cfg w1 = w_cfg w0.
Proof.
  unfold NewRouter, NewAssetService, mbind, M_bind, MustGet.
  destruct (w_cfg w0) as [cfg2|] eqn:Hcfg; [|by intros [= _ <-]]. cbn [from_outcome]. rewrite Hcfg.
  destruct (New _ m) as [st|e]; [|by intros [= _ <-]].
  unfold lift. destruct (MustGetRedisClient (cfg_Redis cfg) w0) as [rc w2] eqn:Hrc.
  intros [= _ <-]. revert Hrc. unfold MustGetRedisClient. repeat case_match; by intros [= <- <-].
Qed.

(** C4: the whole server, for every request whatever its method, path, headers
    and body: the router that [NewRouter] builds always returns (a panic anywhere
    under the recovery middleware included), keeps the invariant of the store
    (rows and jobs well-formed, no open transaction, the stream announcing only
    committed jobs), and does not change the store at all unless the request
    carries a credential that opens under the configured key. Building the router
    leaves the store alone. *)
Theorem server_safe cfg m w0 hd w1 :
  NewRouter allow cfg m w0 = (Returned hd, w1) →
  w_store w1 = w_store w0 ∧
  ∀ q, service_queue q → ∀ cfg' r w, w_cfg w = Some cfg' → store_wf q (w_store w) →
    ∃ w', hd conn r w = (Returned tt, w') ∧ w_cfg w' = Some cfg' ∧
      store_wf q (w_store w') ∧
      ((∀ userID, ¬ authenticated (cfg_EncryptionKey cfg') r userID) →
       w_store w' = w_store w).
Proof.
  intros H. split; [by apply NewRouter_keeps in H as [? _]|]. by eapply NewRouter_safe.
Qed.

Lemma routes_table h : fst <$> routes allow h = route_table.
Proof. reflexivity. Qed.

(** The completion request, authenticated or not. *)
Definition complete_spec (q : RedisQueue) (key assetID : string) : spec := λ r w w',
  store_wf q (w_store w) →
  ((∃ userID, authenticated key r userID) ∧ completed q assetID w' ∧ decided q assetID w w') ∨
  ((∀ userID, ¬ authenticated key r userID) ∧
   h_status (w_http w') = Some StatusUnauthorized ∧ w_store w' = w_store w).

Lemma complete_spec_stable q key assetID : stable (complete_spec q key assetID).
Proof.
  unfold complete_spec, completed, decided, answered. split.
  - intros r w1 w1' w2 w2' H Hv Hv'. injection Hv as -> _ _ ->. by injection Hv' as -> _ -> ->.
  - intros r r' w w' (_ & _ & Hh & _). unfold authenticated, Header_Get. by rewrite Hh.
Qed.

Lemma complete_answers cfg s m assetID `{!StorageLaws (as_storage s)} :
  answers cfg (λ r, plain r ∧ chi_find route_table (r_Method r) (r_Path r) = Matched 7 assetID)
    (complete_spec (as_queue s) (cfg_EncryptionKey cfg) assetID)
    (mux (routes allow {| ah_svc := as_AssetService s; ah_m := m |})).
Proof.
  intros wr r w Hwr [_ Hfind] Hc Hst. unfold mux. rewrite routes_table, Hfind.
  cbn [routes lookup list_lookup]. rewrite (proj2 (subrouter_auth _)).
  set (r' := with_route _ assetID r). unfold wpM.
  destruct (AuthMiddleware_gated wr r' cfg w Hc Hst) as [(u & Hu & ->)|(Hna & w' & Href & ->)].
  - pose proof (MarkAssetUploaded_wp wr {| ah_svc := as_AssetService s; ah_m := m |}
      (with_user u r') w (ServiceLaws0 := as_AssetService_laws s) Hst) as Hret.
    pose proof (λ Hwf, wpM_decided wr s m (with_user u r') w Hwf Hst) as H.
    unfold wpM in *. destruct (MarkAssetUploaded _ wr _ w) as [[[]|v] w']; [|done].
    intros Hwf. left. split; [by exists u|]. specialize (H Hwf).
    split; [by eapply decided_completed|done].
  - intros Hwf. right. split; [done|]. destruct Href as (Hs & _ & msg & details & Hr).
    split; [by apply responded_status in Hr|done].
Qed.

(** C5: completing an upload through the whole server. A plain request that chi
    routes to the completion endpoint is answered 401 with the store untouched
    when it carries no credential; otherwise the answer is 200, 400 or 500 and the
    store's invariant is kept. A malformed identifier is answered 400 with the store
    untouched; otherwise the store changes exactly as the specification [confirm]
    says and the document sent is the service's. So 200 means that the identifier
    in the path is well-formed and that no asset under it waits for its upload:
    its row was confirmed, by this request or an earlier one, or it has no row
    ([unknown_asset_confirmed]). The wrappers and observations of the eight
    middlewares in between change nothing of it, for plain requests. *)
Theorem complete_request cfg m w0 hd w1 :
  NewRouter allow cfg m w0 = (Returned hd, w1) →
  ∃ q, service_queue q ∧ ∀ cfg' r assetID w,
    plain r → chi_find route_table (r_Method r) (r_Path r) = Matched 7 assetID →
    w_cfg w = Some cfg' → h_status (w_http w) = None → store_wf q (w_store w) →
    ∃ w', hd conn r w = (Returned tt, w') ∧
      (((∃ userID, authenticated (cfg_EncryptionKey cfg') r userID) ∧
        completed q assetID w' ∧ decided q assetID w w') ∨
       ((∀ userID, ¬ authenticated (cfg_EncryptionKey cfg') r userID) ∧
        h_status (w_http w') = Some StatusUnauthorized ∧ w_store w' = w_store w)).
Proof.
  intros H. apply NewRouter_built in H as (_ & s & origins & Hnew & Hlaws & Hq & ->).
  exists (as_queue s). split; [done|]. intros cfg' r assetID w Hp Hfind Hc Hst Hwf.
  destruct (routed_answers cfg' (complete_spec (as_queue s) (cfg_EncryptionKey cfg') assetID)
    origins m _ 7 assetID r w (complete_spec_stable _ _ assetID)
    (complete_answers cfg' s m assetID) Hp Hfind Hc Hst) as (w' & Hw' & HS).
  exists w'. split; [done|by apply HS].
Qed.

(** The presign request: not authenticated, over its limit, or served. *)
Definition presign_spec (s : assetService) (cfg : EnvConfig) : spec := λ r w w',
  store_wf (as_queue s) (w_store w) →
  ((∀ userID, ¬ authenticated (cfg_EncryptionKey cfg) r userID) ∧
   h_status (w_http w') = Some StatusUnauthorized ∧ w_store w' = w_store w) ∨
  ((∃ userID, authenticated (cfg_EncryptionKey cfg) r userID) ∧
   (((∃ ip wl, run (allow ip) wl = false) ∧
     h_status (w_http w') = Some StatusTooManyRequests ∧ w_store w' = w_store w) ∨
    presigned s (cfg_MaxAssetSizeBytes cfg) (r_Body r) w w')).

Lemma presign_spec_stable s cfg : stable (presign_spec s cfg).
Proof.
  unfold presign_spec, presigned, answered. split.
  - intros r w1 w1' w2 w2' H Hv Hv'. injection Hv as -> _ _ ->. by injection Hv' as -> _ -> ->.
  - intros r r' w w' (_ & _ & Hh & Hb). unfold authenticated, Header_Get. by rewrite Hh, Hb.
Qed.

Lemma presign_answers cfg s m assetID `{!StorageLaws (as_storage s)} :
  answers cfg (λ r, plain r ∧ chi_find route_table (r_Method r) (r_Path r) = Matched 6 assetID)
    (presign_spec s cfg) (mux (routes allow {| ah_svc := as_AssetService s; ah_m := m |})).
Proof.
  intros wr r w Hwr [[Hctx _] Hfind] Hc Hst. unfold mux. rewrite routes_table, Hfind.
  cbn [routes lookup list_lookup]. rewrite (proj1 (subrouter_auth _)).
  set (r' := with_route _ assetID r). unfold wpM.
  destruct (AuthMiddleware_gated wr r' cfg w Hc Hst) as [(u & Hu & ->)|(Hna & w' & Href & ->)].
  2: { intros Hwf. left. split; [done|]. destruct Href as (Hs & _ & msg & details & Hr).
    split; [by apply responded_status in Hr|done]. }
  set (h := {| ah_svc := as_AssetService s; ah_m := m |}).
  set (r1 := with_user u r'). set (ip := client_key r1).
  destruct (allow_resp ip w) as [Hh1 Hc1]. pose proof (allow_store ip w) as Hs1.
  destruct (presignRateLimiter_spec wr allow (CreateAsset h) r1 w Hst allow_resp) as [Hok Hno].
  fold ip in Hok, Hno. destruct (run (allow ip) w) eqn:Hrun.
  - rewrite Hok by done. set (w1 := exec (allow ip) w) in *.
    assert (Hst1 : h_status (w_http w1) = None) by by rewrite Hh1.
    assert (Hcfg1 : w_cfg w1 = Some cfg) by by rewrite Hc1.
    pose proof (CreateAsset_wp wr h r1 cfg w1 (ServiceLaws0 := as_AssetService_laws s)
      Hcfg1 Hst1) as Hret.
    pose proof (λ Hwf, wpM_presign wr s m r1 cfg w1 Hwf Hst1 Hcfg1 Hctx) as H. fold h in H.
    unfold wpM in *. destruct (CreateAsset h wr r1 w1) as [[[]|v] w']; [|done].
    intros Hwf. right. split; [by exists u|right]. rewrite <-Hs1 in Hwf. specialize (H Hwf).
    unfold presigned, answered in *. by rewrite Hh1, Hs1 in H.
  - destruct (Hno eq_refl) as (w' & -> & H429 & Hs & _). intros Hwf. right.
    split; [by exists u|left]. split_and!; [by eexists _, _|done|by rewrite Hs].
Qed.

(** C6: requesting a presigned upload through the whole server. A plain request
    that chi routes to the presign endpoint is answered 401 without a credential,
    or 429 only when the rate limiter refuses, the store untouched in both cases;
    400 with the checks' message and the store untouched when the body does not
    decode or its type or size is refused; otherwise the store changes exactly as
    the specification of [CreateAsset] says and the answer is the service's, as a
    JSON document, with 200 or 500. *)
Theorem presign_request cfg m w0 hd w1 :
  NewRouter allow cfg m w0 = (Returned hd, w1) →
  ∃ s, StorageLaws (as_storage s) ∧ service_queue (as_queue s) ∧ ∀ cfg' r assetID w,
    plain r → chi_find route_table (r_Method r) (r_Path r) = Matched 6 assetID →
    w_cfg w = Some cfg' → h_status (w_http w) = None → store_wf (as_queue s) (w_store w) →
    ∃ w', hd conn r w = (Returned tt, w') ∧
      (((∀ userID, ¬ authenticated (cfg_EncryptionKey cfg') r userID) ∧
        h_status (w_http w') = Some StatusUnauthorized ∧ w_store w' = w_store w) ∨
       ((∃ userID, authenticated (cfg_EncryptionKey cfg') r userID) ∧
        (((∃ ip wl, run (allow ip) wl = false) ∧
          h_status (w_http w') = Some StatusTooManyRequests ∧ w_store w' = w_store w) ∨
         presigned s (cfg_MaxAssetSizeBytes cfg') (r_Body r) w w'))).
Proof.
  intros H. apply NewRouter_built in H as (_ & s & origins & Hnew & Hlaws & Hq & ->).
  exists s. do 2 (split; [done|]). intros cfg' r assetID w Hp Hfind Hc Hst Hwf.
  destruct (routed_answers cfg' (presign_spec s cfg') origins m _ 6 assetID r w
    (presign_spec_stable s cfg') (presign_answers cfg' s m assetID) Hp Hfind Hc Hst)
    as (w' & Hw' & HS).
  exists w'. split; [done|by apply HS].
Qed.

(** The completion request when nothing fails. *)
Definition success_spec (s : assetService) (key assetID : string) (id : uuid)
    (row : asset_row) : spec := λ r w w',
  (∃ userID, authenticated key r userID) → store_wf (as_queue s) (w_store w) →
  t_assets (s_db (w_store w)) !! id = Some row → confirmed s id row w w'.

Lemma success_spec_stable s key assetID id row : stable (success_spec s key assetID id row).
Proof.
  unfold success_spec, confirmed, answered. split.
  - intros r w1 w1' w2 w2' H Hv Hv'. injection Hv as -> _ _ ->. by injection Hv' as -> _ -> ->.
  - intros r r' w w' (_ & _ & Hh & _). unfold authenticated, Header_Get. by rewrite Hh.
Qed.

Lemma success_answers {HE : Healthy E} cfg s m assetID id row `{!StorageLaws (as_storage s)} :
  parse_assetID assetID = Ok id →
  (∀ w', is_ok (run (GetObjectAttrs (as_storage s) (as_bucket s) (object_key id)) w')) →
  rq_redis (as_queue s) ≠ None → (0 ≤ qo_MaxRetries (rq_options (as_queue s)))%Z →
  a_status row = StatusUploading →
  answers cfg (λ r, plain r ∧ chi_find route_table (r_Method r) (r_Path r) = Matched 7 assetID)
    (success_spec s (cfg_EncryptionKey cfg) assetID id row)
    (mux (routes allow {| ah_svc := as_AssetService s; ah_m := m |})).
Proof.
  intros Hid Hobj Hrc Hmax Hrow wr r w Hwr Hp Hc Hst.
  pose proof (complete_answers cfg s m assetID wr r w Hwr Hp Hc Hst) as Hret.
  destruct Hp as [_ Hfind]. unfold mux in *. rewrite routes_table, Hfind in *.
  cbn [routes lookup list_lookup] in *. rewrite (proj2 (subrouter_auth _)) in *.
  set (r' := with_route _ assetID r) in *. unfold wpM in *.
  destruct (AuthMiddleware_gated wr r' cfg w Hc Hst) as [(u & Hu & E1)|(Hna & w' & _ & E1)];
    rewrite E1 in *.
  - pose proof (λ Hwf Hrow', wpM_confirmed wr s m (with_user u r') id row w Hwf Hst Hid Hobj
      Hrc Hmax Hrow' Hrow) as H.
    unfold wpM in H. destruct (MarkAssetUploaded _ wr _ w) as [[[]|v] w']; [|done].
    intros _ Hwf Hrow'. by apply H.
  - intros [u Hu]. by destruct (Hna u).
Qed.

(** C7: completing an upload through the whole server succeeds when nothing fails.
    With a service that [NewRouter] built with a Redis client, PostgreSQL and Redis
    answering, and the object where [CreateAsset] presigned it: a plain, credentialed
    request that chi routes to the completion endpoint with the identifier of an
    asset that waits for its upload is answered 200; the asset is then uploaded,
    its job inserted with the next number, and exactly one entry announces it. *)
Theorem complete_request_succeeds {HE : Healthy E} cfg m w0 hd w1 :
  NewRouter allow cfg m w0 = (Returned hd, w1) →
  ∃ s, NewAssetService (cfg_Redis cfg) m m w0 = (Returned s, w1) ∧
    (rq_redis (as_queue s) ≠ None → ∀ cfg' r assetID id row w,
      plain r → chi_find route_table (r_Method r) (r_Path r) = Matched 7 assetID →
      (∃ userID, authenticated (cfg_EncryptionKey cfg') r userID) →
      w_cfg w = Some cfg' → h_status (w_http w) = None → store_wf (as_queue s) (w_store w) →
      assetID ≠ "" → uuid_Parse assetID = Ok id →
      (∀ w', is_ok (run (GetObjectAttrs (as_storage s) (as_bucket s) (object_key id)) w')) →
      t_assets (s_db (w_store w)) !! id = Some row → a_status row = StatusUploading →
      ∃ w', hd conn r w = (Returned tt, w') ∧ confirmed s id row w w').
Proof.
  intros H. apply NewRouter_built in H as (_ & s & origins & Hnew & Hlaws & Hq & ->).
  exists s. split; [done|].
  intros Hrc cfg' r assetID id row w Hp Hfind Hu Hc Hst Hwf Hne Hid Hobj Hrow Hup.
  assert (Hparse : parse_assetID assetID = Ok id).
  { unfold parse_assetID. rewrite Hid. by destruct (String.eqb_spec assetID ""). }
  assert (Hmax : (0 ≤ qo_MaxRetries (rq_options (as_queue s)))%Z).
  { unfold service_queue in Hq. by rewrite Hq. }
  destruct (routed_answers cfg' (success_spec s (cfg_EncryptionKey cfg') assetID id row)
    origins m _ 7 assetID r w (success_spec_stable _ _ _ _ _)
    (success_answers cfg' s m assetID id row Hparse Hobj Hrc Hmax Hup) Hp Hfind Hc Hst)
    as (w' & Hw' & HS).
  exists w'. split; [done|by apply HS].
Qed.

End Endpoints.

(** ** Runs of the whole server

    The third-party middlewares only pass requests on; routing looks the exact
    path up, and takes the identifier out of a completion path. *)
Module RouterDemo.

#[local] Existing Instance MiddlewareDemo.demo_chi_laws.
#[local] Existing Instance AuthDemo.toy_laws.

Fixpoint find_index (tbl : list (string * string)) (method path : string) : option nat :=
  match tbl with
  | [] => None
  | (m, p) :: tbl' => if (m =s method) && (p =s path) then Some 0
                      else S <$> find_index tbl' method path
  end.

Definition asset_of (path : string) : option string :=
  match AuthDemo.drop_prefix "/api/v1/assets/" path with
  | Some rest => match strings_Cut rest "/" with
                 | Some (id, tail) => if tail =s "complete" then Some id else None
                 | None => None
                 end
  | None => None
  end.

Definition demo_find (tbl : list (string * string)) (method path : string) : destination :=
  match asset_of path with
  | Some id => if method =s "GET" then Matched 7 id else Unmatched "/api/v1/assets"
  | None => match find_index tbl method path with
            | Some i => Matched i "" | None => Unmatched "" end
  end.

Definition demo_third : ThirdParty := {|
  RequestID next := next; RealIP next := next; cors_Handler _ next := next;
  Timeout _ next := next; Compress _ next := next;
  chi_find := demo_find;
  chi_unrouted := λ w r, hw_WriteHeader w 404;
|}.

#[export] Instance demo_third_laws {E : Env} : ThirdPartyLaws demo_third.
Proof.
  constructor; unfold passes, transparent; cbn; intros; try assumption.
  intros wr r' Hwr Hr. by apply safe_WriteHeader.
Qed.

Definition env (k : string) : string :=
  if k =s "BUCKET_PROVIDER" then "minio" else
  if k =s "S3_ENDPOINT_URL" then "http://minio:9000" else ConfigDemo.env k.

Definition cfg : EnvConfig :=
  match @configFromEnv amd64_golib env with Ok c => c | Err _ => zero_config end.

Definition w0 : world := world_of ServiceDemo.store7 (Some cfg).

Definition NewRouter0 : M Handler :=
  NewRouter (E := fine_env) (J := demo_json_errors) (L := amd64_golib)
    (K := demo_cloud (λ _ _, true)) (C := AuthDemo.toy_crypto) (W := MiddlewareDemo.demo_chi)
    (T := demo_third) (λ _, mret true) cfg true.

Definition server : Handler := match fst (NewRouter0 w0) with
                               | Returned hd => hd | Panicked _ => favicon end.
Definition w1 : world := snd (NewRouter0 w0).

Lemma server_built : NewRouter0 w0 = (Returned server, w1).
Proof. reflexivity. Qed.

Definition request (method path token body : string) : Request := {|
  r_Method := method; r_Path := path; r_RemoteAddr := "10.0.0.1:5000";
  r_Header := if token =s "" then ∅ else {["Authorization" := "Bearer " +:+ token]};
  r_Body := body; r_ContentLength := Z.of_nat (String.length body); r_assetID := "";
  r_route := ""; r_user := None; r_logger := false |}.

Definition serve (r : Request) : world := snd (server conn r w1).
Definition status (r : Request) : option Z := h_status (w_http (serve r)).

Definition complete7 (token : string) : Request :=
  request "GET" "/api/v1/assets/uuid-7/complete" token "".

Example end_to_end :
  status (request "GET" "/healthz" "" "") = Some 200%Z ∧
  status (request "GET" "/nowhere" "" "") = Some 404%Z ∧
  status (request "POST" "/api/v1/assets/uuid-7/complete" "" "") = Some 401%Z ∧
  status (complete7 "") = Some 401%Z ∧
  status (complete7 AuthDemo.token) = Some 200%Z ∧
  length (s_stream (w_store (serve (complete7 AuthDemo.token)))) = 1 ∧
  status (request "POST" "/api/v1/storage/presign" AuthDemo.token HandlerDemo.good_body)
    = Some 200%Z.
Proof. vm_compute. repeat split. Qed.

(** The route label of every request is "unknown": chi routes after the label is
    read. *)
Example route_unknown :
  Forall (λ e, match e with
               | EvAdd HTTPRequestCount _ attrs =>
                   In ("http.route", AStr "unknown") attrs
               | _ => True end) (o_trace (w_obs (serve (complete7 AuthDemo.token)))).
Proof. vm_compute. repeat constructor; tauto. Qed.

Lemma server_safe_witness :
  ∃ w', server conn (complete7 "") w1 = (Returned tt, w') ∧ w_cfg w' = Some cfg.
Proof.
  destruct (server_safe (E := fine_env) (J := demo_json_errors) (L := amd64_golib)
    (K := demo_cloud (λ _ _, true)) (C := AuthDemo.toy_crypto) (W := MiddlewareDemo.demo_chi)
    (T := demo_third) (λ _, mret true) (λ _, keeps_store_ret true) (λ _, keeps_resp_ret true)
    cfg true w0 server w1 server_built) as [_ H].
  destruct (H (as_queue (ServiceDemo.svc fine_env true)) eq_refl cfg (complete7 "") w1 eq_refl
    (ServiceDemo.store7_wf _)) as (w' & Hw' & Hc & _).
  exists w'. split; [exact Hw'|exact Hc].
Defined.

Lemma complete_request_witness :
  ∃ w' q, server conn (complete7 "") w1 = (Returned tt, w') ∧
    (completed (E := fine_env) q "uuid-7" w' ∨
     (h_status (w_http w') = Some StatusUnauthorized ∧ w_store w' = w_store w1)).
Proof.
  destruct (complete_request (E := fine_env) (J := demo_json_errors) (L := amd64_golib)
    (K := demo_cloud (λ _ _, true)) (C := AuthDemo.toy_crypto) (W := MiddlewareDemo.demo_chi)
    (T := demo_third) (λ _, mret true)
    cfg true w0 server w1 server_built) as (q & _ & H).
  destruct (H cfg (complete7 "") "uuid-7" w1) as (w' & Hw' & H');
    [repeat split; discriminate|reflexivity|reflexivity|reflexivity
    |apply ServiceDemo.store7_wf|].
  exists w', q. split; [exact Hw'|].
  destruct H' as [[_ H1]|(_ & H1)]; [left; exact (proj1 H1)|right; exact H1].
Defined.

Definition presign0 : Request :=
  request "POST" "/api/v1/storage/presign" AuthDemo.token HandlerDemo.good_body.

Lemma presign_request_witness :
  ∃ s w', server conn presign0 w1 = (Returned tt, w') ∧
    (w_store w' = w_store w1 ∨
     presigned (E := fine_env) (J := demo_json_errors) (L := amd64_golib) s
       (cfg_MaxAssetSizeBytes cfg) HandlerDemo.good_body w1 w').
Proof.
  destruct (presign_request (E := fine_env) (J := demo_json_errors) (L := amd64_golib)
    (K := demo_cloud (λ _ _, true)) (C := AuthDemo.toy_crypto) (W := MiddlewareDemo.demo_chi)
    (T := demo_third) (λ _, mret true) (λ _, keeps_store_ret true) (λ _, keeps_resp_ret true)
    cfg true w0 server w1 server_built) as (s & _ & _ & H).
  destruct (H cfg presign0 "" w1) as (w' & Hw' & H');
    [repeat split; discriminate|reflexivity|reflexivity|reflexivity
    |apply ServiceDemo.store7_wf|].
  exists s, w'. split; [exact Hw'|].
  destruct H' as [(_ & _ & H1)|(_ & [(_ & _ & H1)|H1])];
    [left; exact H1|left; exact H1|right; exact H1].
Defined.

Definition NewAssetService0 : M assetService :=
  NewAssetService (E := fine_env) (L := amd64_golib) (K := demo_cloud (λ _ _, true))
    (cfg_Redis cfg) true true.
Definition svc0 : assetService :=
  match fst (NewAssetService0 w0) with
  | Returned s => s | Panicked _ => ServiceDemo.svc fine_env true end.

Lemma svc0_built : NewAssetService0 w0 = (Returned svc0, w1).
Proof. reflexivity. Qed.

Lemma complete7_authenticated :
  authenticated (C := AuthDemo.toy_crypto) (L := amd64_golib) (cfg_EncryptionKey cfg) (complete7 AuthDemo.token)
    "user-42".
Proof. exists "Bearer", AuthDemo.token. vm_compute. repeat split; discriminate. Qed.

Lemma complete_request_succeeds_witness :
  ∃ w', server conn (complete7 AuthDemo.token) w1 = (Returned tt, w') ∧
    confirmed (E := fine_env) svc0 7%N ServiceDemo.waiting w1 w'.
Proof.
  destruct (complete_request_succeeds (E := fine_env) (J := demo_json_errors) (L := amd64_golib)
    (K := demo_cloud (λ _ _, true)) (C := AuthDemo.toy_crypto) (W := MiddlewareDemo.demo_chi)
    (T := demo_third) (λ _, mret true)
    cfg true w0 server w1 server_built) as (s & Hs & H).
  assert (s = svc0) as ->.
  { pose proof svc0_built as Hb. unfold NewAssetService0 in Hb. rewrite Hb in Hs.
    by injection Hs as <-. }
  apply (H ltac:(vm_compute; discriminate) cfg (complete7 AuthDemo.token) "uuid-7" 7%N
    ServiceDemo.waiting w1).
  - repeat split; discriminate.
  - reflexivity.
  - exists "user-42". apply complete7_authenticated.
  - reflexivity.
  - reflexivity.
  - apply ServiceDemo.store7_wf.
  - discriminate.
  - reflexivity.
  - intros w'. reflexivity.
  - reflexivity.
  - reflexivity.
Defined.

End RouterDemo.
