(* ===== verification/Concurrent.v ===== *)
(** * Confirmations that run at the same time

    [Service] runs one request at a time. Here any number of requests that confirm
    uploads run at once, against the committed tables and row locks of PostgreSQL
    (READ COMMITTED), and can be cut off by a crash of the server. A request is a
    thread that moves from one external call of internal/service/asset.go's
    [MarkAssetUploaded] to the next; a transaction's writes are part of its
    thread until COMMIT publishes them, and a row is locked by the thread that
    updated it. The statements are those of [Assets]; an
    XADD is one sending of the command, go-redis's own repetitions included.

    [sequential_run] shows that what [Service.MarkAssetUploaded] does is a run of
    one thread. *)

From stdpp Require Import base gmap strings list numbers relations.
From Stdlib Require Import ZArith Lia.
From S2P Require Import Prelude GoStd AppErrors Config Assets World Database.
From S2P Require Import Repository Json Queue Storage Service.

(** ** The system *)

(** Where a request is: what it does next, with the values it holds. *)
Inductive pc :=
(** the object is to be checked and the transaction begun *)
| Checking
(** the UPDATE is next; the value of NOW() in the transaction *)
| Updating (now : Z)
(** the UPDATE hit the row, whose new version is not committed; the job is next *)
| Inserting (now : Z) (r : asset_row)
(** both writes are made; COMMIT is next *)
| Committing (r : asset_row) (j : job_row)
(** committed; XADD may be sent [more] more times, by the attempts of the retry
    loop and by go-redis within each of them *)
| Enqueuing (job ts : Z) (more : nat)
| Finished (res : result error unit).

Record thread := { th_asset : uuid; th_pc : pc }.

(** An entry of the stream, by the asset, job and time it tells. *)
Record notice := { nt_asset : uuid; nt_job : Z; nt_ts : Z }.

(** Committed tables, next value of the job sequence, stream and requests. *)
Record system := {
  c_db : tables; c_seq : Z; c_stream : list notice; c_threads : gmap nat thread;
}.

Definition with_thread (tid : nat) (th : thread) (s : system) : system :=
  {| c_db := c_db s; c_seq := c_seq s; c_stream := c_stream s;
     c_threads := <[tid := th]> (c_threads s) |}.
Definition with_db (d : tables) (s : system) : system :=
  {| c_db := d; c_seq := c_seq s; c_stream := c_stream s; c_threads := c_threads s |}.
Definition with_seq (n : Z) (s : system) : system :=
  {| c_db := c_db s; c_seq := n; c_stream := c_stream s; c_threads := c_threads s |}.
Definition with_notice (e : notice) (s : system) : system :=
  {| c_db := c_db s; c_seq := c_seq s; c_stream := c_stream s ++ [e];
     c_threads := c_threads s |}.

(** The request's thread goes on at [p]. *)
Definition goto (tid : nat) (id : uuid) (p : pc) (s : system) : system :=
  with_thread tid {| th_asset := id; th_pc := p |} s.

(** A thread holds the lock of its asset's row from UPDATE to the end of its
    transaction. *)
Definition locks (th : thread) : bool :=
  match th_pc th with Inserting _ _ | Committing _ _ => true | _ => false end.

Definition row_free (id : uuid) (s : system) : Prop :=
  ∀ tid th, c_threads s !! tid = Some th → th_asset th = id → locks th = false.

(** What COMMIT publishes: both rows. *)
Definition publish (id : uuid) (r : asset_row) (j : job_row) (t : tables) : tables :=
  set_jobs (<[(id, process_asset) := j]> (t_jobs t))
    (set_assets (<[id := r]> (t_assets t)) t).

(** After an XADD that did not answer: it is sent again, by go-redis or by the
    next attempt of the loop, or the end. *)
Definition attempt_next (job ts : Z) (more : nat) (e : error) : pc :=
  match more with 0 => Finished (Err e) | S _ => Enqueuing job ts more end.

(** ** One action of one request *)
Inductive act (rq : RedisQueue) (tid : nat) (id : uuid) (s : system) : pc → system → Prop :=
(** the object is missing, or BEGIN fails *)
| act_refused e :
    act rq tid id s Checking (goto tid id (Finished (Err e)) s)
| act_begin now :
    act rq tid id s Checking (goto tid id (Updating now) s)
| act_update_hit now d r :
    row_free id s →
    sql_mark_uploaded StatusUploaded id now (c_db s) = (1%Z, d) →
    t_assets d !! id = Some r →
    act rq tid id s (Updating now) (goto tid id (Inserting now r) s)
| act_update_miss now d :
    sql_mark_uploaded StatusUploaded id now (c_db s) = (0%Z, d) →
    act rq tid id s (Updating now) (goto tid id (Finished (Ok tt)) s)
| act_update_fails now e :
    act rq tid id s (Updating now) (goto tid id (Finished (Err e)) s)
| act_insert now r job d j :
    sql_insert_job process_asset id StatusProcessing now (c_seq s)
      (set_assets (<[id := r]> (t_assets (c_db s))) (c_db s)) = Ok (job, d) →
    t_jobs d !! (id, process_asset) = Some j →
    act rq tid id s (Inserting now r)
      (with_seq (c_seq s + 1) (goto tid id (Committing r j) s))
| act_insert_fails now r e :
    act rq tid id s (Inserting now r) (goto tid id (Finished (Err e)) s)
| act_commit r j ts :
    act rq tid id s (Committing r j)
      (with_db (publish id r j (c_db s))
         (goto tid id (Enqueuing (j_job_id j) ts (max_copies rq)) s))
(** the reply to COMMIT is lost, or COMMIT fails *)
| act_commit_lost r j e :
    act rq tid id s (Committing r j)
      (with_db (publish id r j (c_db s)) (goto tid id (Finished (Err e)) s))
| act_commit_fails r j e :
    act rq tid id s (Committing r j) (goto tid id (Finished (Err e)) s)
| act_xadd job ts more :
    act rq tid id s (Enqueuing job ts (S more))
      (with_notice {| nt_asset := id; nt_job := job; nt_ts := ts |}
         (goto tid id (Finished (Ok tt)) s))
(** the entry is appended, but the reply is lost *)
| act_xadd_lost job ts more e :
    act rq tid id s (Enqueuing job ts (S more))
      (with_notice {| nt_asset := id; nt_job := job; nt_ts := ts |}
         (goto tid id (attempt_next job ts more e) s))
| act_xadd_fails job ts more e :
    act rq tid id s (Enqueuing job ts (S more))
      (goto tid id (attempt_next job ts more e) s)
(** XADD is not sent, or not again: the error is one that go-redis or the loop do
    not retry, go-redis gave up earlier, or the queue has no client *)
| act_gives_up job ts more e :
    act rq tid id s (Enqueuing job ts more) (goto tid id (Finished (Err e)) s).

(** A thread's action. *)
Inductive runs (rq : RedisQueue) : system → system → Prop :=
| runs_act s s' tid id p :
    c_threads s !! tid = Some {| th_asset := id; th_pc := p |} →
    act rq tid id s p s' → runs rq s s'.

(** A step of the system: a request acts or arrives, an asset is created, others
    draw from the sequence, or the server crashes and its transactions with it. *)
Inductive step (rq : RedisQueue) : system → system → Prop :=
| step_runs s s' : runs rq s s' → step rq s s'
| step_request s tid id :
    c_threads s !! tid = None → step rq s (goto tid id Checking s)
| step_create s id url typ mime size now d :
    sql_insert_asset id url typ mime StatusUploading size now (c_db s) = Ok d →
    step rq s (with_db d s)
| step_draw s n : (c_seq s ≤ n)%Z → step rq s (with_seq n s)
| step_crash s :
    step rq s {| c_db := c_db s; c_seq := c_seq s; c_stream := c_stream s;
                 c_threads := ∅ |}.

Definition initial : system :=
  {| c_db := empty_tables; c_seq := 1; c_stream := []; c_threads := ∅ |}.

Definition reachable (rq : RedisQueue) : system → Prop := rtc (step rq) initial.

(** ** The invariant *)

(** The row waits for its upload. *)
Definition waits (t : tables) (id : uuid) (r : asset_row) : Prop :=
  t_assets t !! id = Some r ∧ a_status r = StatusUploading.

Definition has_job (t : tables) (id : uuid) (job : Z) : Prop :=
  ∃ j, t_jobs t !! (id, process_asset) = Some j ∧ j_job_id j = job.

(** The job row [MarkAssetUploaded] inserts. *)
Definition new_job (job now : Z) : job_row := {|
  j_job_id := job; j_status := StatusProcessing; j_attempts := 0; j_last_error := None;
  j_created_at := now; j_updated_at := now |}.

Definition of_asset (id : uuid) (l : list notice) : list notice :=
  filter (λ e, nt_asset e = id) l.
#[local] Arguments of_asset : simpl never.
#[local] Arguments publish : simpl never.

(** What a request in the middle of its work may rely on. *)
Definition pc_ok (rq : RedisQueue) (s : system) (id : uuid) (p : pc) : Prop :=
  match p with
  | Inserting now r' =>
      ∃ r, waits (c_db s) id r ∧ r' = row_uploaded StatusUploaded now r
  | Committing r' j =>
      ∃ r now, waits (c_db s) id r ∧ r' = row_uploaded StatusUploaded now r ∧
        j = new_job (j_job_id j) now ∧ (j_job_id j < c_seq s)%Z ∧
        ∀ k j', t_jobs (c_db s) !! k = Some j' → j_job_id j' ≠ j_job_id j
  | Enqueuing job ts more =>
      has_job (c_db s) id job ∧
      length (of_asset id (c_stream s)) + more ≤ max_copies rq ∧
      Forall (λ e, e = {| nt_asset := id; nt_job := job; nt_ts := ts |})
        (of_asset id (c_stream s))
  | _ => True
  end.

Definition enqueues (p : pc) : bool :=
  match p with Enqueuing _ _ _ => true | _ => false end.

Record conc_wf (rq : RedisQueue) (s : system) : Prop := {
  cw_tables : tables_wf (c_seq s) (c_db s);
  cw_pc tid th : c_threads s !! tid = Some th → pc_ok rq s (th_asset th) (th_pc th);
  (** a row has one lock *)
  cw_lock t1 t2 th1 th2 : c_threads s !! t1 = Some th1 → c_threads s !! t2 = Some th2 →
    locks th1 = true → locks th2 = true → th_asset th1 = th_asset th2 → t1 = t2;
  (** the jobs waiting to be committed have different numbers *)
  cw_jobs t1 t2 id1 id2 r1 r2 j1 j2 :
    c_threads s !! t1 = Some {| th_asset := id1; th_pc := Committing r1 j1 |} →
    c_threads s !! t2 = Some {| th_asset := id2; th_pc := Committing r2 j2 |} →
    j_job_id j1 = j_job_id j2 → t1 = t2;
  (** an asset has one request that enqueues *)
  cw_enqueue t1 t2 th1 th2 :
    c_threads s !! t1 = Some th1 → c_threads s !! t2 = Some th2 →
    enqueues (th_pc th1) = true → enqueues (th_pc th2) = true →
    th_asset th1 = th_asset th2 → t1 = t2;
  (** entries tell of committed jobs; those of one asset are copies *)
  cw_stream e : e ∈ c_stream s → has_job (c_db s) (nt_asset e) (nt_job e);
  cw_copies id : length (of_asset id (c_stream s)) ≤ max_copies rq;
  cw_same e1 e2 : e1 ∈ c_stream s → e2 ∈ c_stream s → nt_asset e1 = nt_asset e2 → e1 = e2;
}.

Section Invariant.
Context (rq : RedisQueue).

Lemma initial_wf : conc_wf rq initial.
Proof.
  constructor; cbn; try (intros *; rewrite ?lookup_empty; set_solver).
  - apply empty_tables_wf.
  - intros. apply Nat.le_0_l.
Qed.

(** A waiting asset has no job, so no entry and no request that enqueues. *)
Lemma waits_no_job seq t id r job : tables_wf seq t → waits t id r → ¬ has_job t id job.
Proof.
  intros Hwf [Hr Hst] (j & Hj & _). destruct (tw_job _ _ Hwf id r Hr) as [H _].
  by apply H.
Qed.

(** A program counter without obligations. *)
Definition idle (p : pc) : bool :=
  match p with Checking | Updating _ | Finished _ => true | _ => false end.

Lemma idle_ok s id p : idle p = true → pc_ok rq s id p.
Proof. by destruct p. Qed.

Lemma goto_lookup tid id p s t th :
  c_threads (goto tid id p s) !! t = Some th ↔
  (t = tid ∧ th = {| th_asset := id; th_pc := p |}) ∨ (t ≠ tid ∧ c_threads s !! t = Some th).
Proof.
  cbn. rewrite lookup_insert_Some. naive_solver.
Qed.

(** Going to an idle point, or leaving one, keeps the invariant. *)
Lemma goto_idle tid id p s :
  idle p = true → conc_wf rq s → conc_wf rq (goto tid id p s).
Proof.
  intros Hp [Ht Hpc Hlock Hjobs Henq Hstr Hcop Hsame].
  constructor; try done; cbn [c_db c_seq c_stream goto with_thread] in *.
  - intros t th [[-> ->]|[_ H]]%goto_lookup; [by apply idle_ok|by eapply Hpc].
  - intros t1 t2 th1 th2 [[-> ->]|[? H1]]%goto_lookup [[-> ->]|[? H2]]%goto_lookup;
      try done; cbn; [by destruct p|by destruct p|by eapply Hlock].
  - intros t1 t2 id1 id2 r1 r2 j1 j2 [[-> [= -> <-]]|[? H1]]%goto_lookup; [done|].
    intros [[-> [= -> <-]]|[? H2]]%goto_lookup; [done|]. by eapply Hjobs.
  - intros t1 t2 th1 th2 [[-> ->]|[? H1]]%goto_lookup [[-> ->]|[? H2]]%goto_lookup;
      try done; cbn; [by destruct p|by destruct p|by eapply Henq].
Qed.

(** An idle request that takes on an obligation which no other has. *)
Lemma goto_take tid id p p' s :
  conc_wf rq s → c_threads s !! tid = Some {| th_asset := id; th_pc := p |} →
  pc_ok rq s id p' →
  (locks {| th_asset := id; th_pc := p' |} = true →
     locks {| th_asset := id; th_pc := p |} = true ∨ row_free id s) →
  (∀ r j, p' = Committing r j → p = p') →
  (enqueues p' = true → enqueues p = true) →
  conc_wf rq (goto tid id p' s).
Proof.
  intros [Ht Hpc Hlock Hjobs Henq Hstr Hcop Hsame] Hth Hok Hl Hc He.
  constructor; try done; cbn [c_db c_seq c_stream goto with_thread] in *.
  - intros t th [[-> ->]|[_ H]]%goto_lookup; [done|by eapply Hpc].
  - intros t1 t2 th1 th2 [[-> ->]|[? H1]]%goto_lookup [[-> ->]|[? H2]]%goto_lookup;
      try done; [| |by eapply Hlock]; intros L1 L2 Hid; cbn in Hid.
    + destruct (Hl L1) as [L|Hf]; [by eapply (Hlock tid t2)|].
      by rewrite (Hf _ _ H2) in L2.
    + destruct (Hl L2) as [L|Hf]; [by eapply (Hlock t1 tid)|].
      by rewrite (Hf _ _ H1) in L1.
  - intros t1 t2 id1 id2 r1 r2 j1 j2 [[-> [= -> <-]]|[? H1]]%goto_lookup
      [[-> [= -> <-]]|[? H2]]%goto_lookup; try done; [| |by eapply Hjobs].
    + specialize (Hc _ _ eq_refl) as ->. by eapply Hjobs.
    + specialize (Hc _ _ eq_refl) as ->. by eapply Hjobs.
  - intros t1 t2 th1 th2 [[-> ->]|[? H1]]%goto_lookup [[-> ->]|[? H2]]%goto_lookup;
      try done; [| |by eapply Henq]; intros L1 L2 Hid; cbn in Hid.
    + apply (Henq tid t2 _ th2 Hth H2); [by apply He|done|done].
    + apply (Henq t1 tid th1 _ H1 Hth); [done|by apply He|done].
Qed.

Lemma act_update_hit_wf tid id now d r s :
  conc_wf rq s → c_threads s !! tid = Some {| th_asset := id; th_pc := Updating now |} →
  row_free id s → sql_mark_uploaded StatusUploaded id now (c_db s) = (1%Z, d) →
  t_assets d !! id = Some r →
  conc_wf rq (goto tid id (Inserting now r) s).
Proof.
  intros Hwf Hth Hfree Hsql Hr. eapply goto_take; [done..| |by right|done|done].
  apply sql_mark_uploaded_cases in Hsql as [[? _]|(r0 & _ & Hr0 & Hst & ->)]; [done|].
  cbn in Hr. rewrite lookup_insert_eq in Hr. injection Hr as <-. by exists r0.
Qed.

(** The job the INSERT of a request makes: new, with the number drawn. *)
Lemma insert_job_fresh s id now r job d j :
  conc_wf rq s → pc_ok rq s id (Inserting now r) →
  sql_insert_job process_asset id StatusProcessing now (c_seq s)
    (set_assets (<[id := r]> (t_assets (c_db s))) (c_db s)) = Ok (job, d) →
  t_jobs d !! (id, process_asset) = Some j →
  j = new_job (c_seq s) now.
Proof.
  intros Hwf (r0 & [Hr Hst] & ->) Hins Hj.
  pose proof (confirm_upload_wf _ _ now now _ _ (cw_tables _ _ Hwf) Hr Hst)
    as (d' & Hins' & _ & _ & Hd').
  rewrite Hins in Hins'. injection Hins' as -> ->. rewrite Hd', lookup_insert_eq in Hj.
  by injection Hj as <-.
Qed.

(** The sequence grows. *)
Lemma with_seq_wf s n : (c_seq s ≤ n)%Z → conc_wf rq s → conc_wf rq (with_seq n s).
Proof.
  intros Hn [Ht Hpc Hlock Hjobs Henq Hstr Hcop Hsame]. constructor; try done; cbn.
  - by eapply tables_wf_seq.
  - intros tid th H. specialize (Hpc tid th H). destruct (th_pc th); try done.
    destruct Hpc as (r0 & now & Hw & Hr & Hj & Hlt & Hf). exists r0, now.
    split_and!; try done. cbn. lia.
Qed.

Lemma act_insert_wf tid id now r job d j s :
  conc_wf rq s → c_threads s !! tid = Some {| th_asset := id; th_pc := Inserting now r |} →
  sql_insert_job process_asset id StatusProcessing now (c_seq s)
    (set_assets (<[id := r]> (t_assets (c_db s))) (c_db s)) = Ok (job, d) →
  t_jobs d !! (id, process_asset) = Some j →
  conc_wf rq (with_seq (c_seq s + 1) (goto tid id (Committing r j) s)).
Proof.
  intros Hwf Hth Hins Hj. pose proof (cw_pc _ _ Hwf _ _ Hth) as Hok. cbn in Hok.
  pose proof (insert_job_fresh _ _ _ _ _ _ _ Hwf Hok Hins Hj) as ->.
  destruct (with_seq_wf s (c_seq s + 1) ltac:(lia) Hwf)
    as [Ht Hpc Hlock Hjobs Henq Hstr Hcop Hsame].
  assert (Hlt : ∀ t2 id2 r2 j2,
    c_threads s !! t2 = Some {| th_asset := id2; th_pc := Committing r2 j2 |} →
    j_job_id j2 ≠ c_seq s).
  { intros t2 id2 r2 j2 H2. pose proof (cw_pc _ _ Hwf _ _ H2) as (? & ? & _ & _ & _ & ? & _).
    cbn in *. lia. }
  constructor; try done; cbn [c_db c_seq c_stream goto with_thread with_seq] in *.
  - intros t th [[-> ->]|[_ H]]%goto_lookup; [|by apply (Hpc t th)].
    destruct Hok as (r0 & Hw & ->). exists r0, now. cbn. split_and!; try done; [lia|].
    intros k j' Hj'. pose proof (tw_ids _ _ (cw_tables _ _ Hwf) k j' Hj'). lia.
  - intros t1 t2 th1 th2 [[-> ->]|[? H1]]%goto_lookup [[-> ->]|[? H2]]%goto_lookup;
      try done; [| |by eapply Hlock]; intros L1 L2 Hid; cbn in Hid.
    + by apply (Hlock tid t2 _ th2 Hth H2).
    + by apply (Hlock t1 tid th1 _ H1 Hth).
  - intros t1 t2 id1 id2 r1 r2 j1 j2 [[-> [= -> -> ->]]|[? H1]]%goto_lookup
      [[-> [= -> -> ->]]|[? H2]]%goto_lookup; try done; cbn.
    + intros E. by apply Hlt in H2.
    + intros E. by apply Hlt in H1.
    + by eapply Hjobs.
  - intros t1 t2 th1 th2 [[-> ->]|[? H1]]%goto_lookup [[-> ->]|[? H2]]%goto_lookup;
      try done; by eapply Henq.
Qed.

(** Publishing a request's writes. *)
Lemma publish_tables seq t id r now j :
  tables_wf seq t → waits t id r → j = new_job (j_job_id j) now → (j_job_id j < seq)%Z →
  (∀ k j', t_jobs t !! k = Some j' → j_job_id j' ≠ j_job_id j) →
  tables_wf seq (publish id (row_uploaded StatusUploaded now r) j t).
Proof.
  intros [Hfk Hids Hinj Hjob] [Hr Hst] Hj Hlt Hfresh. unfold publish. constructor; cbn.
  - intros id' typ' j'. rewrite lookup_insert_Some. intros [[[= <- <-] _]|[_ Hj']].
    + by rewrite lookup_insert_eq.
    + apply lookup_insert_is_Some'. right. eauto.
  - intros k j'. rewrite lookup_insert_Some. intros [[<- <-]|[_ Hj']]; [done|eauto].
  - intros k1 k2 j1 j2. rewrite !lookup_insert_Some.
    intros [[<- <-]|[? H1]] [[<- <-]|[? H2]] E; [done| | |by eapply Hinj].
    + by apply Hfresh in H2.
    + by apply Hfresh in H1.
  - intros id' a. destruct (decide (id = id')) as [->|].
    + rewrite !lookup_insert_eq. intros [= <-]. split; [done|]. by eexists.
    + rewrite !lookup_insert_ne by naive_solver. apply Hjob.
Qed.

(** A publication keeps what others rely on. *)
Lemma publish_waits id id' r r' j t : id ≠ id' → waits t id' r → waits (publish id r' j t) id' r.
Proof. intros Hne [Hr Hst]. split; [|done]. unfold publish. cbn. by rewrite lookup_insert_ne. Qed.

Lemma publish_has_job id r j t id' job :
  t_jobs t !! (id, process_asset) = None → has_job t id' job →
  has_job (publish id r j t) id' job.
Proof.
  intros Hnone (j' & Hj' & Hid). exists j'. split; [|done]. unfold publish. cbn.
  rewrite lookup_insert_ne; [done|]. intros [= <-]. by rewrite Hnone in Hj'.
Qed.

Lemma waits_jobless seq t id r :
  tables_wf seq t → waits t id r → t_jobs t !! (id, process_asset) = None.
Proof.
  intros Hwf [Hr Hst]. apply eq_None_not_Some. rewrite (tw_job _ _ Hwf id r Hr).
  by intros [].
Qed.

(** A waiting asset has no entry. *)
Lemma waits_no_notice s id r :
  conc_wf rq s → waits (c_db s) id r → of_asset id (c_stream s) = [].
Proof.
  intros Hwf Hw. destruct (of_asset id (c_stream s)) as [|e l] eqn:He; [done|]. exfalso.
  assert (e ∈ of_asset id (c_stream s)) as [Hid Hin]%list_elem_of_filter by (rewrite He; left).
  apply (cw_stream _ _ Hwf) in Hin. rewrite Hid in Hin.
  by eapply waits_no_job; [apply (cw_tables _ _ Hwf)|..].
Qed.

Lemma publish_wf tid id r j s p :
  conc_wf rq s → c_threads s !! tid = Some {| th_asset := id; th_pc := Committing r j |} →
  idle p = true ∨ (∃ ts, p = Enqueuing (j_job_id j) ts (max_copies rq)) →
  conc_wf rq (with_db (publish id r j (c_db s)) (goto tid id p s)).
Proof.
  intros Hwf Hth Hp. pose proof (cw_pc _ _ Hwf _ _ Hth) as Hok. cbn in Hok.
  destruct Hok as (r0 & now & Hw & -> & Hj & Hlt & Hfresh).
  pose proof (waits_jobless _ _ _ _ (cw_tables _ _ Hwf) Hw) as Hnone.
  assert (Hnl : locks {| th_asset := id; th_pc := p |} = false).
  { destruct Hp as [Hp|[ts ->]]; [by destruct p|done]. }
  assert (Hnoenq : ∀ t th, c_threads s !! t = Some th → enqueues (th_pc th) = true →
    th_asset th ≠ id).
  { intros t [id' p'] Ht He <-. pose proof (cw_pc _ _ Hwf _ _ Ht) as Hok.
    destruct p'; try done. destruct Hok as (Hjob & _).
    by eapply waits_no_job; [apply (cw_tables _ _ Hwf)|..]. }
  pose proof (waits_no_notice _ _ _ Hwf Hw) as Hquiet.
  destruct Hwf as [Ht Hpc Hlock Hjobs Henq Hstr Hcop Hsame].
  constructor; try done; cbn [c_db c_seq c_stream goto with_thread with_db] in *.
  - by eapply publish_tables.
  - intros t th [[-> ->]|[Hne H]]%goto_lookup.
    + destruct Hp as [Hp|[ts ->]]; [by apply idle_ok|]. cbn. rewrite Hquiet.
      split_and!; [|cbn; lia|constructor]. exists j. unfold publish. cbn.
      by rewrite lookup_insert_eq.
    + pose proof (Hpc t th H) as Hok. destruct th as [id' p']. cbn in *.
      assert (Hid : locks {| th_asset := id'; th_pc := p' |} = true → id ≠ id').
      { intros L <-. apply Hne. by apply (Hlock t tid _ _ H Hth). }
      destruct p' as [| |now' r'|r' j'|job ts n|]; try done; cbn in *.
      * destruct Hok as (r1 & Hw1 & Hr1). exists r1. split; [|done]. by apply publish_waits; auto.
      * destruct Hok as (r1 & now1 & Hw1 & Hr1 & Hj1 & Hlt1 & Hf1). exists r1, now1.
        split_and!; try done; [by apply publish_waits; auto|].
        intros k jk. unfold publish. cbn. rewrite lookup_insert_Some. intros [[_ <-]|[_ Hk]]; [|by eapply Hf1].
        intros E. apply Hne. by eapply Hjobs.
      * destruct Hok as (Hjob & Hle & Hall). split_and!; try done. by apply publish_has_job.
  - intros t1 t2 th1 th2 [[-> ->]|[? H1]]%goto_lookup [[-> ->]|[? H2]]%goto_lookup;
      try done; [..|by eapply Hlock]; congruence.
  - intros t1 t2 id1 id2 r1 r2 j1 j2 [[-> [= -> <-]]|[? H1]]%goto_lookup
      [[-> [= -> <-]]|[? H2]]%goto_lookup; try done. by eapply Hjobs.
  - intros t1 t2 th1 th2 [[-> ->]|[? H1]]%goto_lookup [[-> ->]|[? H2]]%goto_lookup;
      try done; cbn; [..|by eapply Henq]; intros L1 L2 Hid.
    + by apply Hnoenq in H2.
    + by apply Hnoenq in H1.
  - intros e He. by apply publish_has_job, Hstr.
Qed.

(** Appending the entry of a request that enqueues. *)
Lemma of_asset_snoc id l e :
  of_asset id (l ++ [e]) = of_asset id l ++ (if decide (nt_asset e = id) then [e] else []).
Proof. unfold of_asset. by rewrite filter_app. Qed.

Lemma notice_wf tid id job ts n p s :
  conc_wf rq s → c_threads s !! tid = Some {| th_asset := id; th_pc := Enqueuing job ts (S n) |} →
  idle p = true ∨ p = Enqueuing job ts n →
  conc_wf rq (with_notice {| nt_asset := id; nt_job := job; nt_ts := ts |} (goto tid id p s)).
Proof.
  intros Hwf Hth Hp. set (e := {| nt_asset := id; nt_job := job; nt_ts := ts |}).
  pose proof (cw_pc _ _ Hwf _ _ Hth) as (Hjob & Hle & Hall). cbn [th_asset] in *.
  assert (Hgoto : conc_wf rq (goto tid id p s)).
  { destruct Hp as [Hp| ->]; [by apply goto_idle|]. eapply goto_take; [done..| |done|done|done].
    cbn. split_and!; [done|lia|done]. }
  destruct Hgoto as [Ht Hpc Hlock Hjobs Henq Hstr Hcop Hsame].
  constructor; try done; cbn [c_db c_seq c_stream c_threads goto with_thread with_notice] in *.
  - intros t th H. pose proof (Hpc t th H) as Hok. destruct th as [id' p'].
    destruct p' as [| | | |job' ts' n'|]; try done. cbn in *. rewrite of_asset_snoc.
    cbn [nt_asset e]. destruct Hok as (Hjob' & Hle' & Hall').
    case_decide as Hid; [|by rewrite app_nil_r]. subst id'.
    assert (t = tid) as ->.
    { destruct (decide (t = tid)) as [|Hne]; [done|]. rewrite lookup_insert_ne in H by done.
      by apply (cw_enqueue _ _ Hwf t tid _ _ H Hth). }
    rewrite lookup_insert_eq in H. injection H as ->.
    destruct Hp as [Hp|[= -> -> ->]]; [done|].
    rewrite length_app, Forall_app. cbn. split_and!; [done|lia|done|by repeat constructor].
  - intros e'. rewrite elem_of_app, list_elem_of_singleton. intros [He'| ->]; [by apply Hstr|done].
  - intros id'. rewrite of_asset_snoc, length_app. specialize (Hcop id').
    case_decide as Hid; cbn in *; [subst id'; lia|lia].
  - assert (Hnew : ∀ e', e' ∈ c_stream s → nt_asset e' = id → e' = e).
    { intros e' Hin Hid. rewrite Forall_forall in Hall. apply Hall.
      unfold of_asset. apply list_elem_of_filter. done. }
    intros e1 e2. rewrite !elem_of_app, !list_elem_of_singleton.
    intros [H1| ->] [H2| ->] Hid; [by apply Hsame|by apply Hnew|symmetry; by apply Hnew|done].
Qed.

Lemma act_wf tid id p s s' :
  conc_wf rq s → c_threads s !! tid = Some {| th_asset := id; th_pc := p |} →
  act rq tid id s p s' → conc_wf rq s'.
Proof.
  intros Hwf Hth Ha. destruct Ha; try by apply goto_idle.
  - by eapply act_update_hit_wf.
  - by eapply act_insert_wf.
  - apply publish_wf; eauto.
  - apply publish_wf; eauto.
  - apply (notice_wf _ _ _ _ more); eauto.
  - apply (notice_wf _ _ _ _ more); [done..|]. destruct more; eauto.
  - destruct more as [|n]; [by apply goto_idle|]. pose proof (cw_pc _ _ Hwf _ _ Hth) as Hok.
    eapply goto_take; [done..| |done|done|done]. destruct Hok as (? & ? & ?).
    cbn in *. split_and!; [done|lia|done].
Qed.

Lemma create_wf id url typ mime size now d s :
  conc_wf rq s →
  sql_insert_asset id url typ mime StatusUploading size now (c_db s) = Ok d →
  conc_wf rq (with_db d s).
Proof.
  intros [Ht Hpc Hlock Hjobs Henq Hstr Hcop Hsame] Hins.
  pose proof (sql_insert_asset_wf _ _ _ _ _ _ _ _ _ Ht Hins) as Ht'.
  apply sql_insert_asset_Ok in Hins as (Hnone & Hj & Ha).
  assert (Hw : ∀ id' r, waits (c_db s) id' r → waits d id' r).
  { intros id' r [Hr Hst]. split; [|done]. rewrite Ha, lookup_insert_ne; [done|].
    intros <-. by rewrite Hnone in Hr. }
  assert (Hjob : ∀ id' job, has_job (c_db s) id' job → has_job d id' job).
  { intros id' job (j & ? & ?). exists j. by rewrite Hj. }
  constructor; try done; cbn; [|auto].
  intros tid th H. pose proof (Hpc tid th H) as Hok. destruct (th_pc th); try done; cbn in *.
  - destruct Hok as (r0 & ? & ?). eauto.
  - destruct Hok as (r0 & now0 & ? & ? & ? & ? & ?). exists r0, now0. rewrite Hj. auto 10.
  - destruct Hok as (? & ? & ?). auto.
Qed.

Lemma crash_wf s :
  conc_wf rq s →
  conc_wf rq {| c_db := c_db s; c_seq := c_seq s; c_stream := c_stream s; c_threads := ∅ |}.
Proof.
  intros [Ht Hpc Hlock Hjobs Henq Hstr Hcop Hsame].
  constructor; cbn; try done; intros *; by rewrite ?lookup_empty.
Qed.

Lemma step_wf s s' : conc_wf rq s → step rq s s' → conc_wf rq s'.
Proof.
  intros Hwf Hst. destruct Hst as [s s' Hr| | | |].
  - destruct Hr as [s s' tid id p Hth Ha]. by apply (act_wf tid id p s).
  - by apply goto_idle.
  - by eapply create_wf.
  - by apply with_seq_wf.
  - by apply crash_wf.
Qed.

Lemma reachable_wf s : reachable rq s → conc_wf rq s.
Proof.
  intros H. unfold reachable in H. pose proof initial_wf as Hwf. revert Hwf.
  induction H as [|s1 s2 s3 Hst _ IH]; [done|]. intros Hwf. by eapply IH, step_wf.
Qed.

End Invariant.

Lemma publish_confirmed id r now t job :
  publish id (row_uploaded StatusUploaded now r) (new_job job now) t =
  upload_confirmed id r now job t.
Proof. by destruct t. Qed.

(** ** One request alone is the code's *)

(** The entry in Redis. *)
Definition entry_of {E : Env} (rq : RedisQueue) (e : notice) : xadd_args :=
  job_entry rq (nt_asset e) (nt_job e) (nt_ts e).

Section Sequential.
Context {E : Env} (rq : RedisQueue).

Lemma goto_goto tid id p p' s : goto tid id p (goto tid id p' s) = goto tid id p s.
Proof. unfold goto, with_thread. cbn. f_equal. apply insert_insert_eq. Qed.

Lemma run_act s s' tid id p :
  c_threads s !! tid = Some {| th_asset := id; th_pc := p |} →
  act rq tid id s p s' → step rq s s'.
Proof. intros Hth Ha. apply step_runs. by econstructor. Qed.

Lemma goto_self tid id p s :
  c_threads (goto tid id p s) !! tid = Some {| th_asset := id; th_pc := p |}.
Proof. cbn. by rewrite lookup_insert_eq. Qed.

(** [n] attempts whose replies are lost. *)
Definition noticed (n : nat) (e : notice) (s : system) : system :=
  {| c_db := c_db s; c_seq := c_seq s; c_stream := c_stream s ++ replicate n e;
     c_threads := c_threads s |}.

Lemma lost_attempts tid id job ts (e0 : error) n : ∀ k s,
  let e := {| nt_asset := id; nt_job := job; nt_ts := ts |} in
  rtc (step rq) (goto tid id (Enqueuing job ts (n + S k)) s)
    (noticed n e (goto tid id (Enqueuing job ts (S k)) s)).
Proof.
  induction n as [|n IH]; intros k s e.
  - unfold noticed. cbn. rewrite app_nil_r. by destruct s.
  - eapply rtc_l.
    { eapply run_act; [apply goto_self|]. cbn [plus]. apply (act_xadd_lost _ _ _ _ _ _ _ e0). }
    replace (attempt_next job ts (n + S k) e0) with (Enqueuing job ts (n + S k))
      by (by rewrite Nat.add_succ_r).
    specialize (IH k (with_notice e s)). cbn zeta in IH. fold e in IH.
    unfold noticed, goto, with_thread, with_notice in *. cbn in *.
    rewrite insert_insert_eq. rewrite <-app_assoc in IH. exact IH.
Qed.

(** Every outcome the specification allows after a commit. *)
Lemma enqueue_run tid id job ts res n s :
  let e := {| nt_asset := id; nt_job := job; nt_ts := ts |} in
  n ≤ max_copies rq → (res = Ok tt → 1 ≤ n) →
  rtc (step rq) (goto tid id (Enqueuing job ts (max_copies rq)) s)
    (noticed n e (goto tid id (Finished res) s)).
Proof.
  intros e Hn Hok.
  assert (Hrun : ∀ m k p s0, m + S k = max_copies rq →
    act rq tid id (noticed m e (goto tid id (Enqueuing job ts (S k)) s))
      (Enqueuing job ts (S k)) s0 → p = s0 →
    rtc (step rq) (goto tid id (Enqueuing job ts (max_copies rq)) s) p).
  { intros m k p s0 <- Ha ->. eapply rtc_r; [apply (lost_attempts tid id job ts (EText ""))|].
    eapply run_act; [|exact Ha]. cbn. by rewrite lookup_insert_eq. }
  assert (Hlast : ∀ m k p, goto tid id p (noticed m e (goto tid id k s)) =
    noticed m e (goto tid id p s)).
  { intros. unfold noticed, goto, with_thread. cbn. by rewrite insert_insert_eq. }
  assert (Hnext : ∀ m k p, with_notice e (goto tid id p (noticed m e (goto tid id k s))) =
    noticed (S m) e (goto tid id p s)).
  { intros. unfold with_notice, noticed, goto, with_thread. cbn.
    by rewrite insert_insert_eq, <-app_assoc, replicate_cons_app. }
  destruct res as [[]|err].
  - destruct n as [|n]; [by specialize (Hok eq_refl); lia|].
    eapply (Hrun n (max_copies rq - S n)); [lia|apply act_xadd|]. by rewrite Hnext.
  - destruct (max_copies rq - n) as [|k] eqn:Hk.
    + destruct n as [|n].
      * assert (Hz : max_copies rq = 0) by lia. rewrite Hz. apply rtc_once.
        eapply run_act; [apply goto_self|]. replace (noticed 0 e _) with
          (goto tid id (Finished (Err err)) (goto tid id (Enqueuing job ts 0) s));
          [constructor|]. rewrite goto_goto. unfold noticed. cbn. by rewrite app_nil_r.
      * eapply (Hrun n 0); [lia|apply (act_xadd_lost _ _ _ _ _ _ _ err)|]. by rewrite Hnext.
    + eapply (Hrun n k); [lia|apply (act_gives_up _ _ _ _ _ _ _ err)|]. by rewrite Hlast.
Qed.

(** The system with the store of [st], whose stream is [l], and the given requests. *)
Definition of_store (st : store) (l : list notice) (ths : gmap nat thread) : system :=
  {| c_db := s_db st; c_seq := s_seq st; c_stream := l; c_threads := ths |}.

Lemma draw_run st l ths n :
  (s_seq st ≤ n)%Z → rtc (step rq) (of_store st l ths) (with_seq n (of_store st l ths)).
Proof. intros H. by apply rtc_once, step_draw. Qed.

(** From the UPDATE of a waiting row to the COMMIT, alone. *)
Lemma commit_run tid id r now s :
  tables_wf (c_seq s) (c_db s) → waits (c_db s) id r → row_free id s →
  let j := new_job (c_seq s) now in
  rtc (step rq) (goto tid id (Updating now) s)
    (with_seq (c_seq s + 1)
       (goto tid id (Committing (row_uploaded StatusUploaded now r) j) s)).
Proof.
  intros Hwf [Hr Hst] Hfree j.
  eapply rtc_l.
  { eapply run_act; [apply goto_self|].
    apply (act_update_hit _ _ _ _ now
      (set_assets (<[id := row_uploaded StatusUploaded now r]> (t_assets (c_db s))) (c_db s))
      (row_uploaded StatusUploaded now r)).
    - intros t th [[-> ->]|[_ H]]%goto_lookup Hid; [done|by eapply Hfree].
    - cbn. unfold sql_mark_uploaded. rewrite Hr, Hst. done.
    - cbn. by rewrite lookup_insert_eq. }
  destruct (confirm_upload_wf _ _ now now _ _ Hwf Hr Hst) as (d & Hins & _ & _ & Hd).
  rewrite goto_goto. apply rtc_once. eapply run_act; [apply goto_self|].
  rewrite <-(goto_goto tid id (Committing _ j) (Inserting now (row_uploaded StatusUploaded now r)) s).
  apply (act_insert rq tid id (goto tid id (Inserting now _) s) now _ (c_seq s) d);
    [exact Hins|].
  rewrite Hd. by rewrite lookup_insert_eq.
Qed.

(** What [confirm] allows is a run of one request that no other is in the way of. *)
Lemma confirm_run tid id st res st' l ths :
  confirm rq id st res st' → tables_wf (s_seq st) (s_db st) →
  s_stream st = entry_of rq <$> l →
  ths !! tid = Some {| th_asset := id; th_pc := Checking |} →
  row_free id (of_store st l ths) →
  ∃ l', s_stream st' = entry_of rq <$> l' ∧
    rtc (step rq) (of_store st l ths)
      (of_store st' l' (<[tid := {| th_asset := id; th_pc := Finished res |}]> ths)).
Proof.
  intros Hc Hwf Hl Hth Hfree. destruct Hc as [e st' Hdb Hstr Hsq|st' Hno Hdb Hstr Hsq
    |res r now ts n st' Hr Hst Hdb Hsq Hstr Hn Hok Hnil].
  - exists l. rewrite Hstr. split; [done|]. eapply rtc_r; [by apply draw_run|].
    replace (of_store st' l _) with (goto tid id (Finished (Err e))
      (with_seq (s_seq st') (of_store st l ths))).
    { eapply run_act; [exact Hth|constructor]. }
    unfold of_store, with_seq, goto, with_thread. cbn. by rewrite Hdb.
  - exists l. rewrite Hstr. split; [done|].
    eapply rtc_l; [eapply run_act; [exact Hth|apply (act_begin _ _ _ _ 0)]|].
    apply rtc_once. eapply run_act; [apply goto_self|].
    replace (of_store st' l _) with (goto tid id (Finished (Ok tt))
      (goto tid id (Updating 0) (of_store st l ths))).
    { apply (act_update_miss _ _ _ _ 0 (s_db st)). cbn. unfold sql_mark_uploaded.
      destruct (t_assets (s_db st) !! id) as [r|] eqn:Hr; [|done].
      destruct (a_status r =s "uploading") eqn:Hst; [|done]. simpl_eqb.
      by destruct (Hno r eq_refl). }
    rewrite goto_goto. unfold of_store, goto, with_thread. cbn. by rewrite Hdb, Hsq.
  - exists (l ++ replicate n {| nt_asset := id; nt_job := s_seq st; nt_ts := ts |}).
    split; [rewrite Hstr, Hl, fmap_app, fmap_replicate; done|].
    eapply rtc_l; [eapply run_act; [exact Hth|apply (act_begin _ _ _ _ now)]|].
    etransitivity; [by apply (commit_run tid id r now (of_store st l ths))|].
    eapply rtc_l; [eapply run_act; [apply goto_self|apply (act_commit _ _ _ _ _ _ ts)]|].
    cbn [c_seq of_store c_db with_seq goto with_thread]. rewrite publish_confirmed.
    set (s1 := {| c_db := s_db st'; c_seq := s_seq st'; c_stream := l; c_threads := ths |}).
    replace (with_db _ _) with (goto tid id (Enqueuing (s_seq st) ts (max_copies rq)) s1).
    + replace (of_store st' _ _) with (noticed n {| nt_asset := id; nt_job := s_seq st;
        nt_ts := ts |} (goto tid id (Finished res) s1)); [by apply enqueue_run|].
      unfold noticed, goto, with_thread, of_store. done.
    + unfold s1, with_db, goto, with_thread, with_seq. cbn. rewrite insert_insert_eq.
      by rewrite Hdb, Hsq.
Qed.

End Sequential.

(** ** Progress *)

(** How many actions a request has left, at most. *)
Definition rank (rq : RedisQueue) (p : pc) : nat :=
  match p with
  | Checking => max_copies rq + 5
  | Updating _ => max_copies rq + 4
  | Inserting _ _ => max_copies rq + 3
  | Committing _ _ => max_copies rq + 2
  | Enqueuing _ _ more => more + 1
  | Finished _ => 0
  end.

Definition total (rq : RedisQueue) (s : system) : nat :=
  sum_list_with (λ kv, rank rq (th_pc kv.2)) (map_to_list (c_threads s)).

Definition finished (p : pc) : bool :=
  match p with Finished _ => true | _ => false end.

(** No request gets an error that it did not have. *)
Definition no_new_error (s s' : system) : Prop :=
  ∀ t id e, c_threads s' !! t = Some {| th_asset := id; th_pc := Finished (Err e) |} →
    c_threads s !! t = Some {| th_asset := id; th_pc := Finished (Err e) |}.

Section Progress.
Context (rq : RedisQueue).

Lemma sum_list_with_perm {A} (f : A → nat) l k :
  l ≡ₚ k → sum_list_with f l = sum_list_with f k.
Proof. induction 1; cbn; lia. Qed.

Lemma total_goto tid id p p' s :
  c_threads s !! tid = Some {| th_asset := id; th_pc := p |} →
  total rq (goto tid id p' s) + rank rq p = total rq s + rank rq p'.
Proof.
  intros Hth. unfold total. cbn [goto with_thread c_threads].
  rewrite <-insert_delete_eq.
  rewrite (sum_list_with_perm _ _ _ (map_to_list_insert (delete tid (c_threads s)) tid _
    ltac:(apply lookup_delete_eq))).
  rewrite <-(sum_list_with_perm _ _ _ (map_to_list_delete _ _ _ Hth)). cbn. lia.
Qed.

Lemma attempt_next_rank job ts more e : rank rq (attempt_next job ts more e) ≤ more + 1.
Proof. destruct more; cbn; lia. Qed.

(** Every action is one action less. *)
Lemma runs_total s s' : runs rq s s' → total rq s' < total rq s.
Proof.
  intros [? ? tid id p Hth Ha].
  assert (Hg : ∀ p' s1, c_threads s1 = c_threads (goto tid id p' s0) →
    rank rq p' < rank rq p → total rq s1 < total rq s0).
  { intros p' s1 Hs1 Hlt. pose proof (total_goto _ _ _ p' _ Hth) as Ht.
    unfold total in *. rewrite Hs1. lia. }
  destruct Ha; (eapply Hg; [reflexivity|]); cbn; try lia.
  - pose proof (attempt_next_rank job ts more e). lia.
  - pose proof (attempt_next_rank job ts more e). lia.
Qed.

Lemma runs_bound n s s' : nsteps (runs rq) n s s' → n + total rq s' ≤ total rq s.
Proof.
  induction 1 as [|n s1 s2 s3 H1 _ IH]; [lia|]. apply runs_total in H1. lia.
Qed.

(** A request that enqueues has an attempt left. *)
Definition attempts_left (s : system) : Prop :=
  ∀ t id job ts more,
    c_threads s !! t = Some {| th_asset := id; th_pc := Enqueuing job ts more |} → 1 ≤ more.

Lemma goto_attempts tid id p s :
  (∀ job ts more, p = Enqueuing job ts more → 1 ≤ more) →
  attempts_left s → attempts_left (goto tid id p s).
Proof.
  intros Hp H t id' job ts more [[-> [= -> <-]]|[_ Ht]]%goto_lookup; [by eapply Hp|by eapply H].
Qed.

Lemma reachable_attempts s : 1 ≤ max_copies rq → reachable rq s → attempts_left s.
Proof.
  intros Hm H. unfold reachable in H.
  assert (H0 : attempts_left initial).
  { intros t id job ts more. cbn. by rewrite lookup_empty. }
  revert H0. induction H as [|s1 s2 s3 Hst _ IH]; [done|]. intros H1. apply IH.
  destruct Hst as [s s' [? ? tid id p Hth Ha]| | | |]; try exact H1; [| |].
  - destruct Ha; (apply (goto_attempts tid id); [intros ???|exact H1]);
      first [by intros [= <- <- <-]|by destruct more; intros [=]; lia].
  - by apply goto_attempts.
  - intros t id job ts more. cbn. by rewrite lookup_empty.
Qed.

(** A thread that has the lock of the row, or that the row is free. *)
Lemma lock_holder id s :
  row_free id s ∨ ∃ t th, c_threads s !! t = Some th ∧ th_asset th = id ∧ locks th = true.
Proof.
  destruct (decide (map_Forall (λ _ th, th_asset th = id → locks th = false) (c_threads s)))
    as [Hf|Hf]; [left; intros t th Ht; exact (Hf t th Ht)|].
  right. apply (map_not_Forall _) in Hf as (t & th & Ht & Hn).
  exists t, th. destruct (decide (th_asset th = id)) as [E|E]; [|by destruct Hn].
  destruct (locks th); [done|]. by destruct Hn.
Qed.

Lemma goto_no_error tid id p s :
  (∀ e, p ≠ Finished (Err e)) → no_new_error s (goto tid id p s).
Proof.
  intros Hp t id' e [[-> [= -> <-]]|[_ H]]%goto_lookup; [|done]. by destruct (Hp e).
Qed.

(** The request that holds a lock can go on. *)
Lemma holder_acts tid th s :
  conc_wf rq s → c_threads s !! tid = Some th → locks th = true →
  ∃ s', runs rq s s' ∧ no_new_error s s'.
Proof.
  intros Hwf Hth Hl. destruct th as [id p].
  pose proof (cw_pc _ _ Hwf _ _ Hth) as Hok. destruct p as [| |now r|r j| |]; try done.
  - cbn in Hok. destruct Hok as (r0 & [Hr Hst] & ->).
    destruct (confirm_upload_wf _ _ now now _ _ (cw_tables _ _ Hwf) Hr Hst)
      as (d & Hins & _ & _ & Hd).
    eexists. split.
    + econstructor; [exact Hth|]. eapply act_insert; [exact Hins|].
      by rewrite Hd, lookup_insert_eq.
    + by apply (goto_no_error tid id).
  - eexists. split; [econstructor; [exact Hth|apply (act_commit _ _ _ _ _ _ 0)]|].
    by apply (goto_no_error tid id).
Qed.

Lemma unfinished_acts tid id p s :
  conc_wf rq s → attempts_left s →
  c_threads s !! tid = Some {| th_asset := id; th_pc := p |} → finished p = false →
  ∃ s', runs rq s s' ∧ no_new_error s s'.
Proof.
  intros Hwf Hal Hth Hp. destruct p as [|now|now r|r j|job ts more|]; try done.
  - eexists. split; [econstructor; [exact Hth|apply (act_begin _ _ _ _ 0)]|].
    by apply goto_no_error.
  - destruct (sql_mark_uploaded StatusUploaded id now (c_db s)) as [n d] eqn:Hsql.
    pose proof (sql_mark_uploaded_cases _ _ _ _ _ _ Hsql) as [[-> _]|(r & -> & Hr & Hst & ->)].
    + eexists. split; [econstructor; [exact Hth|by eapply act_update_miss]|].
      by apply goto_no_error.
    + destruct (lock_holder id s) as [Hf|(t & th & Ht & _ & Hl)]; [|by eapply holder_acts].
      eexists. split; [econstructor; [exact Hth|eapply act_update_hit; [done..|]]|].
      * cbn. by rewrite lookup_insert_eq.
      * by apply goto_no_error.
  - by eapply holder_acts.
  - by eapply holder_acts.
  - apply Hal in Hth as Hm. destruct more as [|more]; [lia|].
    eexists. split; [econstructor; [exact Hth|apply act_xadd]|].
    by apply (goto_no_error tid id).
Qed.

End Progress.

(** ** The atomic specification *)

(** What clients see of the system: the committed tables, the sequence, the stream. *)
Definition view : Type := tables * Z * list notice.
Definition view_of (s : system) : view := (c_db s, c_seq s, c_stream s).

(** Its steps: an asset is created; numbers are drawn; an upload is confirmed, in
    one step, with a job of a new number; a confirmed upload is announced, at most
    once per sending of the XADD and always in the same words. *)
Inductive atomic (rq : RedisQueue) : view → view → Prop :=
| at_create t seq l id url typ mime size now t' :
    sql_insert_asset id url typ mime StatusUploading size now t = Ok t' →
    atomic rq (t, seq, l) (t', seq, l)
| at_draw t seq l n : (seq ≤ n)%Z → atomic rq (t, seq, l) (t, n, l)
| at_confirm t seq l id r now job :
    waits t id r → (job < seq)%Z → (∀ k j, t_jobs t !! k = Some j → j_job_id j ≠ job) →
    atomic rq (t, seq, l) (upload_confirmed id r now job t, seq, l)
| at_announce t seq l e :
    has_job t (nt_asset e) (nt_job e) →
    length (of_asset (nt_asset e) l) < max_copies rq →
    (∀ e', e' ∈ l → nt_asset e' = nt_asset e → e' = e) →
    atomic rq (t, seq, l) (t, seq, l ++ [e]).

Section Atomic.
Context (rq : RedisQueue).

Lemma commit_atomic s tid id r j :
  conc_wf rq s → c_threads s !! tid = Some {| th_asset := id; th_pc := Committing r j |} →
  atomic rq (view_of s) (publish id r j (c_db s), c_seq s, c_stream s).
Proof.
  intros Hwf Hth. destruct (cw_pc _ _ Hwf _ _ Hth) as (r0 & now & Hw & -> & -> & Hlt & Hf).
  cbn. rewrite publish_confirmed. by constructor.
Qed.

Lemma xadd_atomic s tid id job ts more :
  conc_wf rq s →
  c_threads s !! tid = Some {| th_asset := id; th_pc := Enqueuing job ts (S more) |} →
  atomic rq (view_of s)
    (c_db s, c_seq s, c_stream s ++ [{| nt_asset := id; nt_job := job; nt_ts := ts |}]).
Proof.
  intros Hwf Hth. destruct (cw_pc _ _ Hwf _ _ Hth) as (Hjob & Hle & Hall).
  constructor; cbn in *; [done|lia|]. intros e' Hin Hid. rewrite Forall_forall in Hall.
  apply Hall. by apply list_elem_of_filter.
Qed.

Lemma act_atomic tid id p s s' :
  conc_wf rq s → c_threads s !! tid = Some {| th_asset := id; th_pc := p |} →
  act rq tid id s p s' → rtc (atomic rq) (view_of s) (view_of s').
Proof.
  intros Hwf Hth Ha. destruct Ha; try apply rtc_refl; apply rtc_once.
  - apply at_draw. cbn. lia.
  - exact (commit_atomic _ _ _ _ _ Hwf Hth).
  - exact (commit_atomic _ _ _ _ _ Hwf Hth).
  - exact (xadd_atomic _ _ _ _ _ _ Hwf Hth).
  - exact (xadd_atomic _ _ _ _ _ _ Hwf Hth).
Qed.

Lemma step_atomic s s' :
  conc_wf rq s → step rq s s' → rtc (atomic rq) (view_of s) (view_of s').
Proof.
  intros Hwf Hst. destruct Hst as [s s' [? ? tid id p Hth Ha]| | | |]; try apply rtc_refl.
  - by eapply act_atomic.
  - apply rtc_once. by econstructor.
  - apply rtc_once. by constructor.
Qed.

Lemma reachable_atomic s : reachable rq s → rtc (atomic rq) (empty_tables, 1%Z, []) (view_of s).
Proof.
  intros H. unfold reachable in H. pose proof (initial_wf rq) as Hwf.
  change (rtc (atomic rq) (view_of initial) (view_of s)). revert Hwf.
  induction H as [|s1 s2 s3 Hst _ IH]; [done|]. intros Hwf.
  etransitivity; [by eapply step_atomic|]. eapply IH, step_wf; done.
Qed.

End Atomic.

(** ** Properties *)

Section Properties.
Context (rq : RedisQueue).

(** Many confirmations at once, with crashes. Under every interleaving of any
    number of requests, whatever fails and whenever the server crashes, the
    committed tables keep their invariant (an asset has a job exactly when its
    upload was confirmed, job numbers are unique), a row is locked by at most one
    request, and every entry of the stream tells of a committed job. *)
Theorem concurrent_invariant s :
  reachable rq s →
  tables_wf (c_seq s) (c_db s) ∧
  (∀ t1 t2 th1 th2, c_threads s !! t1 = Some th1 → c_threads s !! t2 = Some th2 →
     locks th1 = true → locks th2 = true → th_asset th1 = th_asset th2 → t1 = t2) ∧
  (∀ e, e ∈ c_stream s → has_job (c_db s) (nt_asset e) (nt_job e)).
Proof.
  intros [Ht _ Hlock _ _ Hstr _ _]%reachable_wf. done.
Qed.

(** C8: an upload is announced by one request only. However many requests confirm
    the same asset at the same time, the stream holds copies of a single entry
    for it, and then its job is committed; there are at most as many copies as one
    call of [Enqueue] can send commands, go-redis's own retries included. *)
Theorem announced_once s id :
  reachable rq s →
  ∃ e n, of_asset id (c_stream s) = replicate n e ∧
    n ≤ Z.to_nat (qo_MaxRetries (rq_options rq) + 1) * S redis_retries ∧
    (1 ≤ n → nt_asset e = id ∧ has_job (c_db s) id (nt_job e)).
Proof.
  intros Hwf%reachable_wf.
  destruct (of_asset id (c_stream s)) as [|e l] eqn:He.
  { exists {| nt_asset := id; nt_job := 0; nt_ts := 0 |}, 0. split_and!; [done|lia|lia]. }
  assert (Hin : ∀ e', e' ∈ e :: l → nt_asset e' = id ∧ e' ∈ c_stream s).
  { intros e' H. rewrite <-He in H. by apply list_elem_of_filter in H. }
  destruct (Hin e ltac:(left)) as [Hid Hel].
  exists e, (length (e :: l)). split_and!.
  - symmetry. apply replicate_as_elem_of. split; [done|]. intros e' H. destruct (Hin e' H) as [Hid' Hel'].
    apply (cw_same _ _ Hwf); [done..|congruence].
  - rewrite <-He. apply (cw_copies _ _ Hwf).
  - intros _. split; [done|]. rewrite <-Hid. by apply (cw_stream _ _ Hwf).
Qed.

(** C9: concurrent confirmations are atomic. Whatever the interleaving, the
    failures and the crashes, the committed tables, the job sequence and the stream
    are those of a system in which creating an asset and confirming an upload (the
    row and its job together) each happen in one step, and an upload is announced
    only after that step. *)
Theorem confirmations_atomic s :
  reachable rq s → rtc (atomic rq) (empty_tables, 1%Z, []) (view_of s).
Proof. apply reachable_atomic. Qed.

(** C22: requests finish, and none is stuck behind another. The requests running in a
    reachable state take no more than [total] actions in any order; and while one
    is unfinished, some request can take an action that is not an error, so the
    locks they wait for cause no deadlock. *)
Theorem requests_progress s :
  reachable rq s →
  (∀ n s', nsteps (runs rq) n s s' → n ≤ total rq s) ∧
  (1 ≤ max_copies rq → ∀ tid id p,
     c_threads s !! tid = Some {| th_asset := id; th_pc := p |} → finished p = false →
     ∃ s', runs rq s s' ∧ no_new_error s s').
Proof.
  intros Hr. split.
  - intros n s' H%runs_bound. lia.
  - intros Hm tid id p Hth Hp. apply (unfinished_acts rq tid id p); [by apply reachable_wf|
      by apply (reachable_attempts rq)|done..].
Qed.

End Properties.

(** C23: [MarkAssetUploaded] is a run of one request. From any state whose tables
    keep their invariant, with any other requests waiting (none holding the row's
    lock), what [Service.MarkAssetUploaded] does to the tables, the sequence and
    the stream, with the result it returns, is what steps of the request [tid]
    do: the concurrent system has every behaviour of the code. *)
Theorem sequential_run `{E : Env} s id `{!StorageLaws (as_storage s)} w tid l ths :
  tables_wf (s_seq (w_store w)) (s_db (w_store w)) →
  s_stream (w_store w) = entry_of (as_queue s) <$> l →
  ths !! tid = Some {| th_asset := id; th_pc := Checking |} →
  row_free id (of_store (w_store w) l ths) →
  let w' := exec (Service.MarkAssetUploaded s id) w in
  ∃ l', s_stream (w_store w') = entry_of (as_queue s) <$> l' ∧
    rtc (step (as_queue s)) (of_store (w_store w) l ths)
      (of_store (w_store w') l'
         (<[tid := {| th_asset := id;
                      th_pc := Finished (run (Service.MarkAssetUploaded s id) w) |}]> ths)).
Proof.
  intros Hwf Hl Hth Hf w'. eapply confirm_run; [|done..].
  by apply MarkAssetUploaded_confirm.
Qed.

(** ** Two clients confirm the same asset *)
Module ConcurrentDemo.

Definition rq0 : RedisQueue :=
  as_queue (ServiceDemo.svc (fine_env) true).

(** Asset 7 is created; two requests begin; the first updates the row and so locks
    it, inserts the job, commits and enqueues, losing the first reply; the second
    then finds nothing to update. *)
Definition created7 : system := with_db (s_db ServiceDemo.store7) initial.
Definition begun : system :=
  goto 2 7%N (Updating 12) (goto 2 7%N Checking
    (goto 1 7%N (Updating 11) (goto 1 7%N Checking created7))).
Definition row7 : asset_row := row_uploaded StatusUploaded 11 ServiceDemo.waiting.
Definition locked : system := goto 1 7%N (Inserting 11 row7) begun.
Definition inserted : system :=
  with_seq 2 (goto 1 7%N (Committing row7 (new_job 1 11)) locked).
Definition committed : system :=
  with_db (publish 7%N row7 (new_job 1 11) (c_db inserted))
    (goto 1 7%N (Enqueuing 1 13 16) inserted).
Definition notice7 : notice := {| nt_asset := 7%N; nt_job := 1; nt_ts := 13 |}.
Definition lost_reply : system :=
  with_notice notice7 (goto 1 7%N (Enqueuing 1 13 15) committed).
Definition both_done : system :=
  with_notice notice7 (goto 1 7%N (Finished (Ok tt))
    (goto 2 7%N (Finished (Ok tt)) lost_reply)).

Lemma begun_reachable : reachable rq0 begun.
Proof.
  eapply rtc_l; [apply (step_create _ _ 7%N "http://minio:9000/mpiper/media/raw/7"
    VideoAsset "video/mp4" 4 0 (s_db ServiceDemo.store7)); reflexivity|].
  eapply rtc_l; [by apply (step_request _ _ 1 7%N)|].
  eapply rtc_l; [eapply (run_act _ _ _ 1); [reflexivity|apply (act_begin _ _ _ _ 11)]|].
  eapply rtc_l; [by apply (step_request _ _ 2 7%N)|].
  eapply rtc_l; [eapply (run_act _ _ _ 2); [reflexivity|apply (act_begin _ _ _ _ 12)]|].
  apply rtc_refl.
Qed.

Lemma locked_reachable : reachable rq0 locked.
Proof.
  eapply rtc_r; [apply begun_reachable|].
  eapply (run_act _ _ _ 1); [reflexivity|].
  eapply act_update_hit; [|vm_compute; reflexivity|vm_compute; reflexivity].
  intros t th. unfold begun. rewrite !goto_lookup.
  intros [[_ ->]|[_ [[_ ->]|[_ [[_ ->]|[_ [[_ ->]|[_ H]]]]]]]]; done.
Qed.

Lemma both_done_reachable : reachable rq0 both_done.
Proof.
  eapply rtc_r; [eapply rtc_r; [eapply rtc_r; [eapply rtc_r; [eapply rtc_r;
    [apply locked_reachable|]|]|]|]|].
  - eapply (run_act _ _ _ 1); [reflexivity|].
    eapply act_insert; vm_compute; reflexivity.
  - eapply (run_act _ _ _ 1); [reflexivity|]. apply (act_commit _ _ _ _ _ _ 13).
  - eapply (run_act _ _ _ 1); [reflexivity|]. apply (act_xadd_lost _ _ _ _ 1 13 15 (EText "i/o timeout")).
  - eapply (run_act _ _ _ 2); [reflexivity|]. eapply (act_update_miss _ 2 7%N). vm_compute. reflexivity.
  - eapply (run_act _ _ _ 1); [reflexivity|]. apply (act_xadd _ _ _ _ 1 13 14).
Qed.

Lemma concurrent_invariant_witness :
  tables_wf (c_seq both_done) (c_db both_done).
Proof. apply (concurrent_invariant rq0 both_done). apply both_done_reachable. Defined.

Lemma announced_once_witness :
  of_asset 7%N (c_stream both_done) = [notice7; notice7] ∧
  ∃ e n, of_asset 7%N (c_stream both_done) = replicate n e ∧ n ≤ 16.
Proof.
  split; [reflexivity|].
  destruct (announced_once rq0 both_done 7%N both_done_reachable) as (e & n & H & Hn & _).
  exists e, n. split; [exact H|exact Hn].
Defined.

Lemma confirmations_atomic_witness :
  rtc (atomic rq0) (empty_tables, 1%Z, []) (view_of both_done).
Proof. apply (confirmations_atomic rq0 both_done both_done_reachable). Defined.

(** The second request waits for the lock of the first, which can go on. *)
Lemma requests_progress_witness :
  c_threads locked !! 2 = Some {| th_asset := 7%N; th_pc := Updating 12 |} ∧
  ∃ s', runs rq0 locked s' ∧ no_new_error locked s'.
Proof.
  split; [reflexivity|].
  destruct (requests_progress rq0 locked locked_reachable) as [_ H].
  apply (H ltac:(vm_compute; lia) 2 7%N (Updating 12)); reflexivity.
Defined.

Lemma sequential_run_witness :
  ∃ l', rtc (step (as_queue (ServiceDemo.svc ServiceDemo.redis_down true)))
    (of_store ServiceDemo.store7 [] {[1 := {| th_asset := 7%N; th_pc := Checking |}]})
    (of_store (w_store ServiceDemo.w_lost) l'
       (<[1 := {| th_asset := 7%N;
                  th_pc := Finished (run (Service.MarkAssetUploaded (E := ServiceDemo.redis_down)
                    (ServiceDemo.svc ServiceDemo.redis_down true) 7%N) ServiceDemo.w7) |}]>
          {[1 := {| th_asset := 7%N; th_pc := Checking |}]})).
Proof.
  destruct (sequential_run (E := ServiceDemo.redis_down)
    (ServiceDemo.svc ServiceDemo.redis_down true) 7%N ServiceDemo.w7 1 []
    {[1 := {| th_asset := 7%N; th_pc := Checking |}]}) as (l' & _ & H).
  - apply ServiceDemo.tables7_wf.
  - reflexivity.
  - reflexivity.
  - intros t th Ht Hid. cbn in Ht. apply lookup_singleton_Some in Ht as [_ <-]. reflexivity.
  - exists l'. exact H.
Defined.

End ConcurrentDemo.
