(* ===== verification/Logger.v ===== *)
(** * Logging: pkg/logger

    - [Slices]: Go's slices of log fields over a memory of arrays, with the
      aliasing that [append] can cause;
    - [prettyCore], the development formatter, with its operations, and the lines
      it writes;
    - the construction of a logger, its level filter, [Sync], and the two helpers
      that add fields.

    zap (its fields, the JSON and OpenTelemetry cores, level filters and tees) is
    the classes [ZapField] and [Zap]. *)

From stdpp Require Import base gmap strings list numbers pretty.
From Stdlib Require Import ZArith Lia Ascii.
From S2P Require Import Prelude GoStd AppErrors Json.

(** ** Slices *)

(** The arrays allocated so far; an address is an index. *)
Abbreviation mem A := (list (list A)).

Record slice := { sl_arr : nat; sl_off : nat; sl_len : nat; sl_cap : nat }.

Definition nil_slice : slice := {| sl_arr := 0; sl_off := 0; sl_len := 0; sl_cap := 0 |}.

Definition overwrite {A} (off : nat) (xs l : list A) : list A :=
  take off l ++ xs ++ drop (off + length xs) l.

Section Slices.
Context {A : Type} (zero : A) (grow : nat → nat).

Definition contents (m : mem A) (s : slice) : list A :=
  take (sl_len s) (drop (sl_off s) (default [] (m !! sl_arr s))).

(** [make([]A, n)] *)
Definition make (n : nat) (m : mem A) : slice * mem A :=
  ({| sl_arr := length m; sl_off := 0; sl_len := n; sl_cap := n |},
   m ++ [replicate n zero]).

(** [s[n:]] *)
Definition reslice (s : slice) (n : nat) : slice :=
  {| sl_arr := sl_arr s; sl_off := sl_off s + n; sl_len := sl_len s - n;
     sl_cap := sl_cap s - n |}.

(** [copy(dst, xs)] for the elements [xs] of the source. *)
Definition copy (dst : slice) (xs : list A) (m : mem A) : mem A :=
  alter (overwrite (sl_off dst) (take (sl_len dst) xs)) (sl_arr dst) m.

(** [append(s, xs...)]: in place when the capacity allows it, which others that
    share the array see, and otherwise in a new array of at least [grow n]. *)
Definition append (s : slice) (xs : list A) (m : mem A) : slice * mem A :=
  let n := sl_len s + length xs in
  if n <=? sl_cap s then
    ({| sl_arr := sl_arr s; sl_off := sl_off s; sl_len := n; sl_cap := sl_cap s |},
     alter (overwrite (sl_off s + sl_len s) xs) (sl_arr s) m)
  else
    let c := n `max` grow n in
    ({| sl_arr := length m; sl_off := 0; sl_len := n; sl_cap := c |},
     m ++ [contents m s ++ xs ++ replicate (c - n) zero]).

(** [s] holds [l] and has no room for more. *)
Definition full (m : mem A) (s : slice) (l : list A) : Prop :=
  contents m s = l ∧ sl_len s = length l ∧ sl_cap s = length l.

Lemma contents_grow m s l x : full m s l → full (m ++ [x]) s l.
Proof.
  intros (Hc & Hl & Hcap). split; [|done]. unfold contents in *.
  destruct (m !! sl_arr s) as [arr|] eqn:Hm.
  - by rewrite (lookup_app_l_Some _ _ _ _ Hm).
  - cbn in Hc. rewrite drop_nil, take_nil in Hc. subst l. cbn in Hl. by rewrite Hl.
Qed.

Lemma full_other m s l i f : sl_arr s ≠ i → full m s l → full (alter f i m) s l.
Proof.
  intros Hne (Hc & Hl). split; [|done]. unfold contents. by rewrite list_lookup_alter_ne by done.
Qed.

Lemma full_nil m : full m nil_slice [].
Proof. done. Qed.

(** Appending to a full slice writes to no array there is. *)
Lemma append_full s l xs m :
  full m s l →
  let '(s', m') := append s xs m in
  contents m' s' = l ++ xs ∧ (m' = m ∨ ∃ arr, m' = m ++ [arr]).
Proof.
  intros (Hc & Hl & Hcap). unfold append. destruct (Nat.leb_spec (sl_len s + length xs) (sl_cap s)).
  - assert (xs = []) as -> by (apply length_zero_iff_nil; lia).
    assert (Hid : alter (overwrite (sl_off s + sl_len s) (@nil A)) (sl_arr s) m = m).
    { apply list_eq. intros i. destruct (decide (i = sl_arr s)) as [->|].
      - rewrite list_lookup_alter_eq. destruct (m !! sl_arr s); [|done]. cbn. f_equal.
        unfold overwrite. cbn. by rewrite Nat.add_0_r, take_drop.
      - by rewrite list_lookup_alter_ne by done. }
    rewrite Hid, app_nil_r. split; [|by left]. rewrite <-Hc. unfold contents. cbn.
    by rewrite Nat.add_0_r.
  - split; [|by right; eexists]. unfold contents at 1. cbn [sl_arr sl_len sl_off].
    rewrite list_lookup_middle by done. cbn. unfold id. rewrite Hc, drop_0.
    rewrite app_assoc, take_app_le by (rewrite length_app; lia).
    apply take_ge. rewrite length_app. lia.
Qed.

(** A new array of the elements of both. *)
Lemma make_copies m s l xs :
  full m s l →
  let '(s', m1) := make (sl_len s + length xs) m in
  let m2 := copy s' (contents m1 s) m1 in
  let m3 := copy (reslice s' (sl_len s)) xs m2 in
  full m3 s' (l ++ xs) ∧ m3 = m ++ [l ++ xs].
Proof.
  intros Hf. pose proof Hf as (Hc & Hl & Hcap). unfold make.
  destruct (contents_grow m s l (replicate (sl_len s + length xs) zero) Hf) as [-> _].
  assert (Halter : ∀ f x, alter f (length m) (m ++ [x]) = m ++ [f x]).
  { intros f x. rewrite alter_app_r_alt by done. by rewrite Nat.sub_diag. }
  unfold copy, reslice. cbn [sl_arr sl_off sl_len]. rewrite !Halter.
  assert (Hnew : overwrite (0 + sl_len s) (take (sl_len s + length xs - sl_len s) xs)
    (overwrite 0 (take (sl_len s + length xs) l) (replicate (sl_len s + length xs) zero))
    = l ++ xs).
  { rewrite (take_ge l), (take_ge xs) by lia. unfold overwrite. cbn [take drop app plus].
    rewrite drop_replicate, take_0, app_nil_l, Hl, take_app_length.
    rewrite drop_ge by (rewrite length_app, length_replicate; lia). by rewrite app_nil_r. }
  rewrite Hnew. split; [|done]. unfold full, contents. cbn [sl_arr sl_off sl_len sl_cap].
  rewrite list_lookup_middle by done. cbn. rewrite drop_0, length_app.
  split_and!; [|lia|lia]. apply take_ge. rewrite length_app. lia.
Qed.

End Slices.

(** ** Levels *)

(** [zapcore.Level] *)
Abbreviation Level := Z.
Definition DebugLevel : Level := -1.
Definition InfoLevel : Level := 0.
Definition WarnLevel : Level := 1.
Definition ErrorLevel : Level := 2.
Definition DPanicLevel : Level := 3.
Definition PanicLevel : Level := 4.
Definition FatalLevel : Level := 5.

(** [Level.Enabled]: the levels at or above it. *)
Definition level_Enabled (l lvl : Level) : bool := (l <=? lvl)%Z.

Definition zap_levels : list Level :=
  [DebugLevel; InfoLevel; WarnLevel; ErrorLevel; DPanicLevel; PanicLevel; FatalLevel].

(** ** zap *)

(** Fields; what one adds to the encoder's map, whose values are kept as the text
    of the %v verb; and the parser of level names. *)
Class ZapField := {
  Field : Type;
  zero_field : Field;
  AddTo : Field → gmap string string → gmap string string;
  zap_String : string → string → Field;
  AddTo_String k v enc : AddTo (zap_String k v) enc = <[k := v]> enc;
  UnmarshalText : string → result error Level;
}.

Definition ParseLevel `{ZapField} (s : string) : Level :=
  match UnmarshalText s with Ok l => l | Err _ => InfoLevel end.

(** ** The development formatter *)

(** [zapcore.Entry]: the clock reading of its time, and its caller as
    [TrimmedPath] prints it. *)
Record Entry := {
  en_Level : Level; en_Hour : Z; en_Minute : Z; en_Second : Z;
  en_Caller : string; en_Message : string;
}.

Definition nl : string := String (ascii_of_nat 10) "".
Definition esc : string := String (ascii_of_nat 27) "".

Definition grey (s : string) : string := esc +:+ "[90m" +:+ s +:+ esc +:+ "[0m".
Definition green (s : string) : string := esc +:+ "[32m" +:+ s +:+ esc +:+ "[0m".
Definition yellow (s : string) : string := esc +:+ "[33m" +:+ s +:+ esc +:+ "[0m".
Definition red (s : string) : string := esc +:+ "[31m" +:+ s +:+ esc +:+ "[0m".
Definition blue (s : string) : string := esc +:+ "[34m" +:+ s +:+ esc +:+ "[0m".

Definition colorLevel (l : Level) : string :=
  if decide (l = DebugLevel) then blue "DEBUG"
  else if decide (l = InfoLevel) then green "INFO "
  else if decide (l = WarnLevel) then yellow "WARN "
  else if decide (l = ErrorLevel) then red "ERROR"
  else "?????".

(** [time.Format("15:04:05")] *)
Definition two_digits (z : Z) : string :=
  if (z <? 10)%Z then "0" +:+ strconv_Itoa z else strconv_Itoa z.
Definition clock (e : Entry) : string :=
  two_digits (en_Hour e) +:+ ":" +:+ two_digits (en_Minute e) +:+ ":"
    +:+ two_digits (en_Second e).

(** [utf8.RuneCountInString]; the first argument counts the bytes left of the
    current rune. *)
Fixpoint rune_count_from (rest : nat) (s : string) : nat :=
  match s with
  | EmptyString => 0
  | String c s' =>
      match rest with
      | S k => rune_count_from k s'
      | 0 => S (rune_count_from (if byte_val c <? 128 then 0 else pred (utf8_size c s')) s')
      end
  end.
Definition RuneCount (s : string) : nat := rune_count_from 0 s.

Fixpoint spaces (n : nat) : string :=
  match n with 0 => "" | S k => String " "%char (spaces k) end.

(** [fmt.Sprintf("%-*s", width, s)]: the width is in runes. *)
Definition pad_right (width : nat) (s : string) : string :=
  s +:+ spaces (width - RuneCount s).

(** The longest key, in bytes. *)
Definition max_len (keys : list string) : nat :=
  foldr (λ k n, String.length k `max` n) 0 keys.

Definition field_row (width : nat) (kv : string * string) : string :=
  "  " +:+ grey (pad_right width (fst kv)) +:+ ": " +:+ snd kv +:+ nl.

Fixpoint string_concat (l : list string) : string :=
  match l with [] => "" | s :: l' => s +:+ string_concat l' end.

Definition header (e : Entry) : string :=
  grey (clock e) +:+ "  " +:+ colorLevel (en_Level e) +:+ "  " +:+ en_Caller e
    +:+ "  " +:+ en_Message e +:+ nl.

Section Pretty.
Context `{ZapField} (grow : nat → nat).
(** The order in which [range] visits a map. *)
Context (order : gmap string string → list (string * string)).

(** The line for an entry whose encoder ended up with [enc]. *)
Definition pretty_line (e : Entry) (enc : gmap string string) : string :=
  header e
    +:+ (if decide (enc = ∅) then ""
         else nl +:+ string_concat (field_row (max_len (fst <$> order enc)) <$> order enc))
    +:+ nl.

Record prettyCore := { pc_LevelEnabler : Level; pc_fields : slice }.

Definition prettyCore_With (c : prettyCore) (fields : list Field) (m : mem Field)
    : prettyCore * mem Field :=
  let '(newFields, m1) := make zero_field (sl_len (pc_fields c) + length fields) m in
  let m2 := copy newFields (contents m1 (pc_fields c)) m1 in
  let m3 := copy (reslice newFields (sl_len (pc_fields c))) fields m2 in
  ({| pc_LevelEnabler := pc_LevelEnabler c; pc_fields := newFields |}, m3).

(** [Check]: the checked entry, here the list of the cores to write to. *)
Definition prettyCore_Check (c : prettyCore) (e : Entry) (ce : list prettyCore)
    : list prettyCore :=
  if level_Enabled (pc_LevelEnabler c) (en_Level e) then ce ++ [c] else ce.

(** [Write]: the text sent to standard output, and the memory after; whether
    standard output takes it, which is the error returned, is left out. *)
Definition prettyCore_Write (c : prettyCore) (e : Entry) (fields : list Field)
    (m : mem Field) : string * mem Field :=
  let '(allFields, m1) := append zero_field grow (pc_fields c) fields m in
  let enc := foldl (λ enc f, AddTo f enc) ∅ (contents m1 allFields) in
  (pretty_line e enc, m1).

(** [Sync] of the core has nothing to do. *)
Definition prettyCore_Sync : option error := None.

(** ** Any use of the loggers derived from one core *)

(** A core is derived from the [i]th one, or the [i]th one writes an entry. *)
Inductive log_op :=
| OpWith (i : nat) (fields : list Field)
| OpWrite (i : nat) (e : Entry) (fields : list Field).

(** The cores made so far, the memory, and the text written. *)
Definition logs : Type := list prettyCore * mem Field * list string.

Definition log_step (s : logs) (o : log_op) : logs :=
  let '(cores, m, out) := s in
  match o with
  | OpWith i fields =>
      match cores !! i with
      | Some c => let '(c', m') := prettyCore_With c fields m in (cores ++ [c'], m', out)
      | None => s
      end
  | OpWrite i e fields =>
      match cores !! i with
      | Some c =>
          match prettyCore_Check c e [] with
          | [] => s
          | c1 :: _ => let '(line, m') := prettyCore_Write c1 e fields m in
                       (cores, m', out ++ [line])
          end
      | None => s
      end
  end.

(** [newDevLogger]'s core *)
Definition first_core (l : Level) : prettyCore :=
  {| pc_LevelEnabler := l; pc_fields := nil_slice |}.

Definition log_run (l : Level) (ops : list log_op) : logs :=
  foldl log_step ([first_core l], [], []) ops.

(** The specification: a core is the list of its fields, its own; a line shows
    them and those of the call. *)
Definition spec_step (l : Level) (s : list (list Field) * list string) (o : log_op)
    : list (list Field) * list string :=
  let '(cores, out) := s in
  match o with
  | OpWith i fields =>
      match cores !! i with Some fs => (cores ++ [fs ++ fields], out) | None => s end
  | OpWrite i e fields =>
      match cores !! i with
      | Some fs =>
          if level_Enabled l (en_Level e) then
            (cores, out ++ [pretty_line e (foldl (λ enc f, AddTo f enc) ∅ (fs ++ fields))])
          else s
      | None => s
      end
  end.

Definition spec_run (l : Level) (ops : list log_op) : list (list Field) * list string :=
  foldl (spec_step l) ([[]], []) ops.

(** The cores hold the fields of the specification, with no room for more. *)
Definition core_ok (l : Level) (m : mem Field) (c : prettyCore) (fs : list Field) : Prop :=
  pc_LevelEnabler c = l ∧ full m (pc_fields c) fs.

Definition logs_rel (l : Level) (s : logs) (t : list (list Field) * list string) : Prop :=
  Forall2 (core_ok l s.1.2) s.1.1 t.1 ∧ s.2 = t.2.

Lemma core_ok_grow l m c fs arr : core_ok l m c fs → core_ok l (m ++ [arr]) c fs.
Proof. intros [Hl Hf]. split; [done|by apply contents_grow]. Qed.

Lemma With_ok l m c fs fields :
  core_ok l m c fs →
  let '(c', m') := prettyCore_With c fields m in
  core_ok l m' c' (fs ++ fields) ∧ ∃ arr, m' = m ++ [arr].
Proof.
  intros [Hl Hf]. unfold prettyCore_With.
  pose proof (make_copies zero_field m (pc_fields c) fs fields Hf) as Hm.
  destruct (make _ _ m) as [s' m1]. destruct Hm as [Hfull Hm]. split; [by split|eauto].
Qed.

Lemma Write_ok l m c fs e fields :
  core_ok l m c fs →
  let '(line, m') := prettyCore_Write c e fields m in
  line = pretty_line e (foldl (λ enc f, AddTo f enc) ∅ (fs ++ fields)) ∧
  (m' = m ∨ ∃ arr, m' = m ++ [arr]).
Proof.
  intros [Hl Hf]. unfold prettyCore_Write.
  pose proof (append_full zero_field grow (pc_fields c) fs fields m Hf) as Ha.
  destruct (append _ _ _ _ m) as [s' m1]. destruct Ha as [-> Hm]. done.
Qed.

Lemma lookup_none l m cores specs i :
  Forall2 (core_ok l m) cores specs → cores !! i = None → specs !! i = None.
Proof.
  intros Hc%Forall2_length Hi. apply lookup_ge_None. rewrite <-Hc. by apply lookup_ge_None.
Qed.

Lemma log_step_rel l s t o :
  logs_rel l s t → logs_rel l (log_step s o) (spec_step l t o).
Proof.
  destruct s as [[cores m] out], t as [specs out']. intros [Hc Ho]. cbn in Hc, Ho. subst out'.
  destruct o as [i fields|i e fields]; cbn [log_step spec_step].
  - destruct (cores !! i) as [c|] eqn:Hi.
    + destruct (Forall2_lookup_l _ _ _ _ _ Hc Hi) as (fs & -> & Hok).
      pose proof (With_ok l m c fs fields Hok) as Hw.
      destruct (prettyCore_With c fields m) as [c' m']. destruct Hw as [Hok' [arr ->]].
      split; [|done]. cbn. apply Forall2_app; [|constructor; [exact Hok'|constructor]].
      eapply Forall2_impl; [exact Hc|]. intros; by apply core_ok_grow.
    + by rewrite (lookup_none _ _ _ _ _ Hc Hi).
  - destruct (cores !! i) as [c|] eqn:Hi.
    + destruct (Forall2_lookup_l _ _ _ _ _ Hc Hi) as (fs & -> & Hok).
      unfold prettyCore_Check. pose proof Hok as [-> _].
      destruct (level_Enabled l (en_Level e)); cbn; [|by split].
      pose proof (Write_ok l m c fs e fields Hok) as Hw.
      destruct (prettyCore_Write c e fields m) as [line m']. destruct Hw as [-> Hm].
      split; [|done]. cbn. destruct Hm as [->|[arr ->]]; [done|].
      eapply Forall2_impl; [exact Hc|]. intros; by apply core_ok_grow.
    + by rewrite (lookup_none _ _ _ _ _ Hc Hi).
Qed.

Lemma log_run_rel l ops : logs_rel l (log_run l ops) (spec_run l ops).
Proof.
  unfold log_run, spec_run.
  assert (H0 : logs_rel l ([first_core l], [], []) ([[]], [])).
  { split; [|done]. by repeat constructor. }
  revert H0. generalize ([first_core l], @nil (list Field), @nil string) as s.
  generalize ([[]] : list (list Field), @nil string) as t.
  induction ops as [|o ops IH]; intros t s Hst; [done|]. cbn [foldl]. by apply IH, log_step_rel.
Qed.

End Pretty.

(** ** Building a logger *)

Record Config := {
  lc_ServiceName : string; lc_Environment : string; lc_Level : Level; lc_EnableOTel : bool;
}.

(** [zapcore.EncoderConfig], with the encoders the code picks. *)
Inductive field_encoder := ISO8601TimeEncoder | LowercaseLevelEncoder | ShortCallerEncoder.
Record EncoderConfig := {
  TimeKey : string; LevelKey : string; MessageKey : string; CallerKey : string;
  StacktraceKey : string;
  EncodeTime : field_encoder; EncodeLevel : field_encoder; EncodeCaller : field_encoder;
}.

Inductive zap_option := AddCaller | AddStacktrace (l : Level).

(** zap's cores and loggers. [json_core] is [zapcore.NewCore] with a JSON encoder
    on standard output, [otel_core] otelzap's on the global provider. *)
Class Zap `{ZapField} := {
  Core : Type;
  pretty_core : prettyCore → Core;
  json_core : EncoderConfig → Level → Core;
  otel_core : string → Core;
  NewIncreaseLevelCore : Core → Level → result error Core;
  NewTee : Core → Core → Core;
  Core_Enabled : Core → Level → bool;
  Logger : Type;
  zap_New : Core → list zap_option → Logger;
  Logger_With : Logger → list Field → Logger;
  Logger_Core : Logger → Core;
}.

(** The documented behaviour: what each core lets through. *)
Class ZapLaws `{ZapField} (Z : Zap) : Prop := {
  pretty_Enabled c l : Core_Enabled (pretty_core c) l = level_Enabled (pc_LevelEnabler c) l;
  json_Enabled enc lvl l : Core_Enabled (json_core enc lvl) l = level_Enabled lvl l;
  Tee_Enabled c1 c2 l : Core_Enabled (NewTee c1 c2) l = Core_Enabled c1 l || Core_Enabled c2 l;
  Increase_Enabled c lvl c' l : NewIncreaseLevelCore c lvl = Ok c' →
    Core_Enabled c' l = Core_Enabled c l && level_Enabled lvl l;
  (** it refuses to lower a core's level *)
  Increase_ok c lvl : is_ok (NewIncreaseLevelCore c lvl) =
    forallb (λ l, implb (level_Enabled lvl l) (Core_Enabled c l)) zap_levels;
  New_Core c opts : Logger_Core (zap_New c opts) = c;
  With_Enabled lg fields l :
    Core_Enabled (Logger_Core (Logger_With lg fields)) l = Core_Enabled (Logger_Core lg) l;
}.

Section Build.
Context {F : ZapField} {Z : Zap}.

Definition prod_encoder : EncoderConfig := {|
  TimeKey := "ts"; LevelKey := "level"; MessageKey := "msg"; CallerKey := "caller";
  StacktraceKey := "stacktrace";
  EncodeTime := ISO8601TimeEncoder; EncodeLevel := LowercaseLevelEncoder;
  EncodeCaller := ShortCallerEncoder |}.

Definition withOTelCore (cfg : Config) (base : Core) : Core :=
  if negb (lc_EnableOTel cfg) then base else
  match NewIncreaseLevelCore (otel_core (lc_ServiceName cfg)) (lc_Level cfg) with
  | Err _ => base
  | Ok filteredOTelCore => NewTee base filteredOTelCore
  end.

Definition service_fields (cfg : Config) : list Field :=
  [zap_String "service" (lc_ServiceName cfg); zap_String "env" (lc_Environment cfg)].

Definition newProdLogger (cfg : Config) : Logger :=
  Logger_With
    (zap_New (withOTelCore cfg (json_core prod_encoder (lc_Level cfg)))
       [AddCaller; AddStacktrace ErrorLevel])
    (service_fields cfg).

Definition newDevLogger (cfg : Config) : Logger :=
  Logger_With
    (zap_New (withOTelCore cfg (pretty_core (first_core (lc_Level cfg)))) [AddCaller])
    (service_fields cfg).

Definition New (cfg : Config) : Logger :=
  if (lc_Environment cfg =s "prod") || (lc_Environment cfg =s "production")
  then newProdLogger cfg else newDevLogger cfg.

Definition WithRequestID (l : Logger) (requestID : string) : Logger :=
  Logger_With l [zap_String "request_id" requestID].

(** [trace.SpanContext]: its validity and the texts of its identifiers. *)
Record SpanContext := { sc_IsValid : bool; sc_TraceID : string; sc_SpanID : string }.

(** [span] is the span of the context, if any. *)
Definition WithTrace (span : option SpanContext) (l : Logger) : Logger :=
  match span with
  | None => l
  | Some sc =>
      if negb (sc_IsValid sc) then l else
      Logger_With l [zap_String "trace_id" (sc_TraceID sc); zap_String "span_id" (sc_SpanID sc)]
  end.

End Build.

(** [Sync], given [runtime.GOOS] and what the logger's own [Sync] returned. *)
Definition Sync (goos : string) (err : option error) : option error :=
  match err with
  | Some e =>
      if (goos =s "windows") && strings_Contains (err_Error e) "The handle is invalid"
      then None else Some e
  | None => None
  end.

(** ** Lemmas on the encoder *)

(** The value the last field of that name has. *)
Definition last_value (k : string) (kvs : list (string * string)) : option string :=
  last (snd <$> filter (λ kv, fst kv = k) kvs).

Definition string_fields `{ZapField} (kvs : list (string * string)) : list Field :=
  (λ kv, zap_String (fst kv) (snd kv)) <$> kvs.

Lemma encoder_lookup `{ZapField} kvs k :
  foldl (λ enc f, AddTo f enc) ∅ (string_fields kvs) !! k = last_value k kvs.
Proof.
  unfold string_fields, last_value. induction kvs as [|[k' v] kvs IH] using rev_ind.
  - cbn. by rewrite lookup_empty.
  - rewrite fmap_app, foldl_app, filter_app, fmap_app. cbn [fmap list_fmap foldl].
    rewrite AddTo_String. cbn [fst snd]. destruct (decide (k' = k)) as [->|Hne].
    + rewrite lookup_insert_eq, filter_cons_True, filter_nil by done. cbn [fmap list_fmap snd].
      by rewrite last_snoc.
    + rewrite lookup_insert_ne, filter_cons_False, filter_nil by done. cbn [fmap list_fmap].
      by rewrite app_nil_r.
Qed.

Lemma rune_count_ascii s : is_ascii s = true → RuneCount s = String.length s.
Proof.
  unfold RuneCount, is_ascii. induction s as [|c s IH]; [done|]. cbn [rune_count_from string_forall].
  intros [Hc Hs]%andb_prop. rewrite Hc. cbn. by rewrite IH.
Qed.

Lemma spaces_length n : String.length (spaces n) = n.
Proof. induction n; cbn; congruence. Qed.

Lemma max_len_ge k keys : k ∈ keys → String.length k ≤ max_len keys.
Proof.
  induction keys as [|k' keys IH]; [by intros ?%not_elem_of_nil|].
  intros [->|Hin]%elem_of_cons; cbn; [lia|]. specialize (IH Hin). fold (max_len keys). lia.
Qed.

(** Keys of ASCII characters are padded to the longest. *)
Lemma pad_right_length k keys :
  k ∈ keys → is_ascii k = true → String.length (pad_right (max_len keys) k) = max_len keys.
Proof.
  intros Hin Ha. unfold pad_right. rewrite string_length_append, spaces_length.
  rewrite rune_count_ascii by done. pose proof (max_len_ge k keys Hin). lia.
Qed.

(** ** Properties *)

(** C32: loggers derived from one another do not interfere. Whatever is derived with
    [With] from the development core, in whatever order, and whatever the loggers
    write, each line shows the fields of the logger's own derivation and of the
    call, and is written exactly when the level lets it through: the arrays that
    the slices share are never written twice. *)
Theorem loggers_independent `{ZapField} grow order l ops :
  (log_run grow order l ops).2 = (spec_run order l ops).2.
Proof. apply log_run_rel. Qed.

(** What a line shows. A line of the development formatter has the header, then
    one row per key among the fields, with the value the last field of that name
    has (the call's fields come after the logger's), in the order of the map's
    iteration; keys of ASCII characters are padded to one width. *)
Theorem pretty_line_rows `{ZapField} order e kvs :
  (∀ enc, order enc ≡ₚ map_to_list enc) →
  ∃ rows,
    pretty_line order e (foldl (λ enc f, AddTo f enc) ∅ (string_fields kvs)) =
      header e
        +:+ (if decide (kvs = []) then ""
             else nl +:+ string_concat (field_row (max_len (fst <$> rows)) <$> rows))
        +:+ nl ∧
    NoDup (fst <$> rows) ∧
    (∀ k v, (k, v) ∈ rows ↔ last_value k kvs = Some v) ∧
    (∀ k v, (k, v) ∈ rows → is_ascii k = true →
       String.length (pad_right (max_len (fst <$> rows)) k) = max_len (fst <$> rows)).
Proof.
  intros Ho. set (enc := foldl _ ∅ (string_fields kvs)). exists (order enc). split_and!.
  - unfold pretty_line. repeat f_equal. destruct kvs as [|[k v] kvs _] using rev_ind; [done|].
    rewrite (decide_False (P := enc = ∅)), (decide_False (P := _ ++ _ = [])); [done| |].
    + by intros [_ [=]]%app_eq_nil.
    + intros He. pose proof (encoder_lookup (kvs ++ [(k, v)]) k) as Hk. fold enc in Hk.
      rewrite He, lookup_empty in Hk. unfold last_value in Hk.
      rewrite filter_app, filter_cons_True, fmap_app in Hk by done. cbn in Hk.
      by rewrite last_snoc in Hk.
  - rewrite Ho. apply NoDup_fst_map_to_list.
  - intros k v. rewrite Ho, elem_of_map_to_list. unfold enc. by rewrite encoder_lookup.
  - intros k v Hin. apply pad_right_length. apply list_elem_of_fmap. by exists (k, v).
Qed.

(** The level filter. In every environment, with the OpenTelemetry core or
    without it, the logger that [New] builds lets a level through exactly when it
    is at or above the configured one; and that core receives nothing at all
    unless it accepts every such level by itself. *)
Theorem New_level_filter {F : ZapField} {Z : Zap} `{!ZapLaws Z} cfg base l :
  Core_Enabled (Logger_Core (New cfg)) l = level_Enabled (lc_Level cfg) l ∧
  (lc_EnableOTel cfg = true →
   forallb (λ l, implb (level_Enabled (lc_Level cfg) l)
                   (Core_Enabled (otel_core (lc_ServiceName cfg)) l)) zap_levels = false →
   withOTelCore cfg base = base).
Proof.
  assert (Hotel : ∀ b, Core_Enabled b l = level_Enabled (lc_Level cfg) l →
    Core_Enabled (withOTelCore cfg b) l = level_Enabled (lc_Level cfg) l).
  { intros b Hb. unfold withOTelCore. destruct (lc_EnableOTel cfg); [|done]. cbn.
    destruct (NewIncreaseLevelCore _ _) as [c|] eqn:Hi; [|done].
    rewrite Tee_Enabled, (Increase_Enabled _ _ _ _ Hi), Hb.
    by destruct (level_Enabled (lc_Level cfg) l), (Core_Enabled (otel_core (lc_ServiceName cfg)) l). }
  split.
  - unfold New, newProdLogger, newDevLogger.
    case_match; rewrite With_Enabled, New_Core; apply Hotel;
      [apply json_Enabled|by rewrite pretty_Enabled].
  - intros Hen Hno. unfold withOTelCore. rewrite Hen. cbn.
    pose proof (Increase_ok (otel_core (lc_ServiceName cfg)) (lc_Level cfg)) as Hok.
    rewrite Hno in Hok. by destruct (NewIncreaseLevelCore _ _).
Qed.

(** ** Runs *)
Module LoggerDemo.

Definition text_field : ZapField := {|
  Field := string * string; zero_field := ("", "");
  AddTo kv enc := <[fst kv := snd kv]> enc;
  zap_String k v := (k, v);
  AddTo_String _ _ _ := eq_refl;
  UnmarshalText s := if s =s "debug" then Ok DebugLevel else Err (EText "unrecognized level");
|}.
#[local] Existing Instance text_field.

(** Cores as the levels they let through; no OpenTelemetry provider is set. *)
Definition level_zap : Zap := {|
  Core := Level → bool;
  pretty_core c := level_Enabled (pc_LevelEnabler c);
  json_core _ lvl := level_Enabled lvl;
  otel_core _ _ := false;
  NewIncreaseLevelCore c lvl :=
    if forallb (λ l, implb (level_Enabled lvl l) (c l)) zap_levels
    then Ok (λ l, c l && level_Enabled lvl l) else Err (EText "invalid increase level");
  NewTee c1 c2 l := c1 l || c2 l;
  Core_Enabled c l := c l;
  Logger := Level → bool;
  zap_New c _ := c;
  Logger_With lg _ := lg;
  Logger_Core lg := lg;
|}.
#[local] Existing Instance level_zap.

#[local] Instance level_zap_laws : ZapLaws level_zap.
Proof.
  constructor; try done.
  - intros c lvl c' l. cbn. case_match; [|done]. by intros [= <-].
  - intros c lvl. cbn. by case_match.
Qed.

Lemma New_level_filter_witness :
  let cfg := {| lc_ServiceName := "mpiper-api"; lc_Environment := "development";
                lc_Level := InfoLevel; lc_EnableOTel := true |} in
  withOTelCore cfg (pretty_core (first_core InfoLevel)) = pretty_core (first_core InfoLevel).
Proof.
  intros cfg. destruct (New_level_filter cfg (pretty_core (first_core InfoLevel)) 0) as [_ H].
  apply H; reflexivity.
Defined.

Definition entry0 : Entry := {|
  en_Level := InfoLevel; en_Hour := 9; en_Minute := 5; en_Second := 0;
  en_Caller := "service/asset.go:115"; en_Message := "asset created" |}.

Lemma pretty_line_rows_witness :
  let kvs := [("env", "development"); ("request_id", "1"); ("request_id", "2")] in
  last_value "request_id" kvs = Some "2" ∧
  ∃ rows, pretty_line map_to_list entry0
            (foldl (λ enc f, AddTo f enc) ∅ (string_fields kvs)) =
          header entry0
            +:+ (nl +:+ string_concat (field_row (max_len (fst <$> rows)) <$> rows)) +:+ nl.
Proof.
  intros kvs. split; [reflexivity|].
  destruct (pretty_line_rows map_to_list entry0 kvs ltac:(done)) as (rows & H & _).
  exists rows. exact H.
Defined.

(** Two children of one logger, and the parent, after writes in between. *)
Example children_keep_their_fields :
  (log_run (λ n, 2 * n) map_to_list InfoLevel
     [OpWith 0 [("a", "1")]; OpWrite 1 entry0 [("x", "0")];
      OpWith 1 [("b", "2")]; OpWith 1 [("b", "3")];
      OpWrite 2 entry0 []; OpWrite 3 entry0 []]).1.1
  = [first_core InfoLevel;
     {| pc_LevelEnabler := InfoLevel;
        pc_fields := {| sl_arr := 0; sl_off := 0; sl_len := 1; sl_cap := 1 |} |};
     {| pc_LevelEnabler := InfoLevel;
        pc_fields := {| sl_arr := 2; sl_off := 0; sl_len := 2; sl_cap := 2 |} |};
     {| pc_LevelEnabler := InfoLevel;
        pc_fields := {| sl_arr := 3; sl_off := 0; sl_len := 2; sl_cap := 2 |} |}].
Proof. reflexivity. Qed.

(** Fatal errors have no level name. *)
Example fatal_unnamed : colorLevel FatalLevel = "?????".
Proof. reflexivity. Qed.

End LoggerDemo.
