(* ===== verification/Postgres.v ===== *)
(** * Connecting to PostgreSQL: internal/database

    [NewPostgresDB] (pg.go) with database/sql's connection pool, and
    [RunMigrations] (migrate.go). lib/pq's parser of connection strings, sqlx's
    [Connect] and golang-migrate are the classes [Pq], [Sqlx] and [Migrate]. *)

From stdpp Require Import base gmap strings list numbers pretty.
From Stdlib Require Import ZArith Lia Ascii.
From S2P Require Import Prelude GoStd AppErrors Config Assets World.

(** ** database/sql's pool *)

(** The settings of [sql.DB]; 0 is no limit. Durations in nanoseconds. *)
Record pool := {
  p_maxOpen : Z; p_maxIdle : Z; p_maxLifetime : Z; p_maxIdleTime : Z;
}.

(** What [sql.Open] starts with. *)
Definition default_pool : pool :=
  {| p_maxOpen := 0; p_maxIdle := 2; p_maxLifetime := 0; p_maxIdleTime := 0 |}.

Definition SetMaxOpenConns (n : Z) (p : pool) : pool :=
  let m := Z.max 0 n in
  {| p_maxOpen := m;
     p_maxIdle := if ((0 <? m) && (m <? p_maxIdle p))%Z then m else p_maxIdle p;
     p_maxLifetime := p_maxLifetime p; p_maxIdleTime := p_maxIdleTime p |}.
Definition SetMaxIdleConns (n : Z) (p : pool) : pool :=
  let m := Z.max 0 n in
  {| p_maxOpen := p_maxOpen p;
     p_maxIdle := if ((0 <? p_maxOpen p) && (p_maxOpen p <? m))%Z then p_maxOpen p else m;
     p_maxLifetime := p_maxLifetime p; p_maxIdleTime := p_maxIdleTime p |}.
Definition SetConnMaxLifetime (d : Z) (p : pool) : pool :=
  {| p_maxOpen := p_maxOpen p; p_maxIdle := p_maxIdle p;
     p_maxLifetime := Z.max 0 d; p_maxIdleTime := p_maxIdleTime p |}.
Definition SetConnMaxIdleTime (d : Z) (p : pool) : pool :=
  {| p_maxOpen := p_maxOpen p; p_maxIdle := p_maxIdle p;
     p_maxLifetime := p_maxLifetime p; p_maxIdleTime := Z.max 0 d |}.

(** [driverConn.expired]: an expired connection is closed when it is taken from
    the pool, and another is used. *)
Definition expired (p : pool) (createdAt now : Z) : bool :=
  ((0 <? p_maxLifetime p) && (createdAt + p_maxLifetime p <? now))%Z.

(** ** The connection string *)

Definition dsn_text (cfg : DatabaseConfig) : string :=
  "host=" +:+ db_Host cfg +:+ " port=" +:+ strconv_Itoa (db_Port cfg)
    +:+ " user=" +:+ db_User cfg +:+ " password=" +:+ db_Password cfg
    +:+ " dbname=" +:+ db_Name cfg +:+ " sslmode=" +:+ db_SSLMode cfg.

Abbreviation setting := (string * string)%type.

(** Keyword and value pairs with blanks between them. *)
Fixpoint settings_text (l : list setting) : string :=
  match l with
  | [] => ""
  | [(k, v)] => k +:+ "=" +:+ v
  | (k, v) :: l' => k +:+ "=" +:+ v +:+ " " +:+ settings_text l'
  end.

(** Characters that need no quoting: in a value, and in a keyword. *)
Definition plain_char (c : ascii) : bool :=
  (byte_val c <? 128) && negb (ascii_space c) && negb (bool_decide (c = "'"%char))
    && negb (bool_decide (c = bs_char)).

Definition plain_value (s : string) : bool :=
  negb (s =s "") && string_forall plain_char s.
Definition plain_keyword (s : string) : bool :=
  plain_value s && string_forall (λ c, negb (bool_decide (c = "="%char))) s.

Definition plain_settings (l : list setting) : Prop :=
  Forall (λ kv, plain_keyword (fst kv) = true ∧ plain_value (snd kv) = true) l.

(** The settings of a list; the last of a keyword counts. *)
Definition settings_map (l : list setting) : gmap string string :=
  foldl (λ m kv, <[fst kv := snd kv]> m) ∅ l.

(** lib/pq: the settings it reads from a connection string. *)
Class Pq := { parse_dsn : string → result error (gmap string string) }.

(** Pairs that need no quoting are read as they are. *)
Class PqLaws (P : Pq) : Prop := {
  parse_settings l :
    plain_settings l → l ≠ [] → parse_dsn (settings_text l) = Ok (settings_map l);
}.

(** The settings of a configuration, in the order of the format string. *)
Definition config_settings (cfg : DatabaseConfig) : list setting :=
  [("host", db_Host cfg); ("port", strconv_Itoa (db_Port cfg)); ("user", db_User cfg);
   ("password", db_Password cfg); ("dbname", db_Name cfg); ("sslmode", db_SSLMode cfg)].

(** ** NewPostgresDB *)

(** sqlx: opening a connection with the driver, and [Ping]. *)
Class Sqlx := {
  sqlx_Connect : string → string → option error;
  db_Ping : option error;
}.

(** [*sqlx.DB]: the connection string it was opened with, and its pool. *)
Record DB := { pg_dsn : string; pg_pool : pool }.

Definition wrap (prefix : string) (e : error) : error :=
  EWrap (prefix +:+ ": " +:+ err_Error e) e.

Section Connect.
Context {S : Sqlx}.

Definition NewPostgresDB (databaseConfig : DatabaseConfig) : M (result error DB) :=
  cfg ← (λ w, from_outcome (MustGet (w_cfg w)) w);
  let dsn := dsn_text databaseConfig in
  lift (log LInform ("Connecting to database: " +:+ db_Name databaseConfig));;
  match sqlx_Connect "postgres" dsn with
  | Some err => mret (Err (wrap "failed to connect to database" err))
  | None =>
      lift (log LInform "Connected to database successfully");;
      let p := SetConnMaxIdleTime 30 (SetConnMaxLifetime 300
                 (SetMaxIdleConns 25 (SetMaxOpenConns 25 default_pool))) in
      match db_Ping with
      | Some err => mret (Err (wrap "failed to ping database" err))
      | None => mret (Ok {| pg_dsn := dsn; pg_pool := p |})
      end
  end.

End Connect.

(** ** RunMigrations *)

(** golang-migrate: the steps before [Up], each of which may fail, and [Up] on
    the state of the schema. *)
Class Migrate (Schema : Type) := {
  iofs_New : option error;
  postgres_WithInstance : option error;
  migrate_NewWithInstance : option error;
  migrate_Up : Schema → option error * Schema;
}.

(** Its documentation: once the migrations are applied there is nothing to do,
    which it reports as [ErrNoChange]. *)
Class MigrateLaws {Schema} (G : Migrate Schema) : Prop := {
  Up_again s : match fst (migrate_Up s) with None => True | Some e => errors_Is e SErrNoChange = true end →
    migrate_Up (snd (migrate_Up s)) = (Some (ESentinel SErrNoChange), snd (migrate_Up s));
}.

Definition RunMigrations {Schema} `{Migrate Schema} (s : Schema) : option error * Schema :=
  match iofs_New with
  | Some err => (Some (wrap "migration source" err), s)
  | None =>
  match postgres_WithInstance with
  | Some err => (Some (wrap "migration driver" err), s)
  | None =>
  match migrate_NewWithInstance with
  | Some err => (Some (wrap "migrate init" err), s)
  | None =>
      let '(e, s') := migrate_Up s in
      match e with
      | Some err =>
          if negb (errors_Is err SErrNoChange) then (Some (wrap "migrate up" err), s')
          else (None, s')
      | None => (None, s')
      end
  end end end.

(** ** Lemmas *)

Lemma dsn_is_settings cfg : dsn_text cfg = settings_text (config_settings cfg).
Proof.
  unfold dsn_text, config_settings. cbn [settings_text].
  repeat (rewrite ?string_append_assoc, ?string_cons_append; f_equal).
Qed.

Definition plain_config (cfg : DatabaseConfig) : Prop :=
  Forall (λ v, plain_value v = true)
    [db_Host cfg; db_User cfg; db_Password cfg; db_Name cfg; db_SSLMode cfg].

Lemma string_forall_impl (p q : ascii → bool) s :
  (∀ c, p c = true → q c = true) → string_forall p s = true → string_forall q s = true.
Proof.
  intros H. induction s as [|c s IH]; [done|]. cbn. intros [Hc Hs]%andb_prop.
  by rewrite (H c Hc), IH.
Qed.

Lemma digit_plain c : is_digit c = true → plain_char c = true.
Proof. destruct c as [[] [] [] [] [] [] [] []]; vm_compute; done. Qed.

Lemma digits_plain (x : N) : plain_value (pretty x) = true.
Proof.
  destruct (pretty_N_digits x) as (c & d & -> & Hd & _). unfold plain_value. cbn [String.eqb negb andb].
  by apply (string_forall_impl is_digit _ _ digit_plain).
Qed.

Lemma Itoa_plain z : plain_value (strconv_Itoa z) = true.
Proof.
  unfold strconv_Itoa. destruct z as [|p|p]; [done| |].
  - apply (digits_plain (Npos p)).
  - change (pretty (Z.neg p)) with (String "-" (pretty (Npos p))).
    pose proof (digits_plain (Npos p)) as H. unfold plain_value in *.
    apply andb_prop in H as [_ H]. exact H.
Qed.

Lemma plain_config_settings cfg : plain_config cfg → plain_settings (config_settings cfg).
Proof.
  unfold plain_config, plain_settings, config_settings.
  rewrite !Forall_cons. intros (? & ? & ? & ? & ? & _). cbn [fst snd]. split_and!; try done; apply Itoa_plain.
Qed.

(** A password with a blank: the settings after it are the writer's. *)
Definition smuggled (cfg : DatabaseConfig) (pw key value : string) : list setting :=
  [("host", db_Host cfg); ("port", strconv_Itoa (db_Port cfg)); ("user", db_User cfg);
   ("password", pw); (key, value); ("dbname", db_Name cfg); ("sslmode", db_SSLMode cfg)].

Lemma smuggled_text cfg pw key value :
  db_Password cfg = pw +:+ " " +:+ key +:+ "=" +:+ value →
  dsn_text cfg = settings_text (smuggled cfg pw key value).
Proof.
  intros Hp. rewrite dsn_is_settings. unfold config_settings, smuggled. rewrite Hp.
  cbn [settings_text]. by rewrite !string_append_assoc.
Qed.

(** ** Properties *)

(** C33: the connection string says what the configuration says. When no value needs
    quoting, lib/pq reads from the string [NewPostgresDB] builds exactly the host,
    port, user, password, database and SSL mode of the configuration. *)
Theorem dsn_roundtrip {P : Pq} `{!PqLaws P} cfg :
  plain_config cfg →
  ∃ m, parse_dsn (dsn_text cfg) = Ok m ∧
    m !! "host" = Some (db_Host cfg) ∧ m !! "port" = Some (strconv_Itoa (db_Port cfg)) ∧
    m !! "user" = Some (db_User cfg) ∧ m !! "password" = Some (db_Password cfg) ∧
    m !! "dbname" = Some (db_Name cfg) ∧ m !! "sslmode" = Some (db_SSLMode cfg) ∧
    (∀ k, is_Some (m !! k) → k ∈ fst <$> config_settings cfg).
Proof.
  intros Hp%plain_config_settings. exists (settings_map (config_settings cfg)).
  rewrite dsn_is_settings. split; [by apply parse_settings|].
  unfold settings_map, config_settings. cbn [foldl fst snd].
  split_and!; try (by rewrite ?lookup_insert_eq, ?lookup_insert_ne, ?lookup_insert_eq by done).
  intros k. rewrite !lookup_insert_is_Some, lookup_empty. cbn. intros H.
  destruct H as [<-|[_ [<-|[_ [<-|[_ [<-|[_ [<-|[_ [<-|[_ [? [=]]]]]]]]]]]]]]; set_solver.
Qed.

(** Values are not quoted. A password with a blank in it sets any keyword: with
    a password of the form "pw host=h" the server connects to [h], whatever host
    is configured, with the password "pw". *)
Theorem dsn_password_injection {P : Pq} `{!PqLaws P} cfg pw h :
  plain_config {| db_Host := db_Host cfg; db_Port := db_Port cfg; db_User := db_User cfg;
                  db_Password := pw; db_Name := db_Name cfg; db_SSLMode := db_SSLMode cfg |} →
  plain_value h = true → db_Password cfg = pw +:+ " host=" +:+ h →
  ∃ m, parse_dsn (dsn_text cfg) = Ok m ∧ m !! "host" = Some h ∧ m !! "password" = Some pw.
Proof.
  intros Hp Hh Hpw. apply plain_config_settings in Hp.
  exists (settings_map (smuggled cfg pw "host" h)). rewrite (smuggled_text cfg pw "host" h) by done.
  split; [|split; done || by rewrite ?lookup_insert_eq].
  - apply parse_settings; [|done]. unfold plain_settings, smuggled, config_settings in *.
    rewrite !Forall_cons in *. cbn [fst snd] in *. naive_solver.
Qed.

(** C34: [NewPostgresDB], every path: it panics without a configuration, reports a
    failed connection or ping wrapped, so that [errors.Is] still finds the cause,
    and otherwise returns the database with at most 25 connections. Its lifetimes
    are plain numbers, nanoseconds: a pooled connection is used again only within
    300 ns of being made. *)
Theorem NewPostgresDB_contract {S : Sqlx} cfg w :
  match w_cfg w, NewPostgresDB cfg w with
  | None, (o, w') => w' = w ∧ ∃ v, o = Panicked v
  | Some _, (Returned (Ok db), w') =>
      w_store w' = w_store w ∧ sqlx_Connect "postgres" (dsn_text cfg) = None ∧
      db_Ping = None ∧ pg_dsn db = dsn_text cfg ∧
      p_maxOpen (pg_pool db) = 25%Z ∧ p_maxIdle (pg_pool db) = 25%Z ∧
      ∀ createdAt now, expired (pg_pool db) createdAt now = (createdAt + 300 <? now)%Z
  | Some _, (Returned (Err e), w') =>
      w_store w' = w_store w ∧
      ∃ cause, (sqlx_Connect "postgres" (dsn_text cfg) = Some cause ∨ db_Ping = Some cause) ∧
        err_Unwrap e = Some cause ∧ ∀ t, errors_Is e t = errors_Is cause t
  | Some _, (Panicked _, _) => False
  end.
Proof.
  unfold NewPostgresDB, mbind, M_bind, MustGet. destruct (w_cfg w) as [c|] eqn:Hc; cbn;
    rewrite ?Hc; cbn; [|eauto].
  destruct (sqlx_Connect "postgres" (dsn_text cfg)) as [e|]; cbn; [by eauto 10|].
  destruct db_Ping as [e|]; cbn; by eauto 10.
Qed.

(** Migrations are idempotent. [RunMigrations] succeeds exactly when every step
    before does and there is nothing left to apply or [Up] applied it; once it has
    succeeded, running it again succeeds and changes nothing. *)
Theorem RunMigrations_idempotent {Schema} {G : Migrate Schema} `{!MigrateLaws G} (s : Schema) :
  (fst (RunMigrations s) = None ↔
     iofs_New = None ∧ postgres_WithInstance = None ∧ migrate_NewWithInstance = None ∧
     match fst (migrate_Up s) with None => True | Some e => errors_Is e SErrNoChange = true end) ∧
  (fst (RunMigrations s) = None →
     RunMigrations (snd (RunMigrations s)) = (None, snd (RunMigrations s))).
Proof.
  pose proof (Up_again s) as Hagain. unfold RunMigrations.
  destruct iofs_New; [cbn; naive_solver|]. destruct postgres_WithInstance; [cbn; naive_solver|].
  destruct migrate_NewWithInstance; [cbn; naive_solver|].
  destruct (migrate_Up s) as [[e|] s'] eqn:Hup; cbn in *.
  - destruct (errors_Is e SErrNoChange) eqn:He; cbn; [|naive_solver].
    split; [naive_solver|]. intros _. by rewrite (Hagain eq_refl).
  - split; [naive_solver|]. intros _. by rewrite (Hagain I).
Qed.

(** ** Runs *)
Module PostgresDemo.

(** A reader of settings without quotes. *)
Definition read_setting (w : string) : setting :=
  match strings_Cut w "="%char with Some kv => kv | None => (w, "") end.

#[export] Instance words_pq : Pq := {|
  parse_dsn s := Ok (settings_map (read_setting <$> strings_Split s " "%char)) |}.

Lemma split_word s t :
  string_forall plain_char s = true →
  strings_Split (s +:+ String " "%char t) " "%char = s :: strings_Split t " "%char ∧
  strings_Split s " "%char = [s].
Proof.
  induction s as [|c s IH]; [done|]. cbn [string_forall]. intros [Hc Hs]%andb_prop.
  rewrite string_cons_append. cbn [strings_Split].
  rewrite !decide_False by (intros ->; by vm_compute in Hc).
  by destruct (IH Hs) as [-> ->].
Qed.

Lemma cut_keyword k v :
  string_forall (λ c, negb (bool_decide (c = "="%char))) k = true →
  strings_Cut (k +:+ String "="%char v) "="%char = Some (k, v).
Proof.
  induction k as [|c k IH]; [done|]. cbn [string_forall]. intros [Hc Hk]%andb_prop.
  rewrite string_cons_append. cbn [strings_Cut].
  apply negb_true_iff, bool_decide_eq_false_1 in Hc. rewrite decide_False by done.
  by rewrite (IH Hk).
Qed.

Lemma string_forall_app p s t :
  string_forall p (s +:+ t) = string_forall p s && string_forall p t.
Proof. induction s as [|c s IH]; [done|]. rewrite string_cons_append. cbn. by rewrite IH, andb_assoc. Qed.

Lemma word_plain k v :
  plain_keyword k = true → plain_value v = true →
  string_forall plain_char (k +:+ "=" +:+ v) = true ∧ read_setting (k +:+ "=" +:+ v) = (k, v).
Proof.
  unfold plain_keyword, plain_value. intros [[_ Hk]%andb_prop Hne]%andb_prop [_ Hv]%andb_prop.
  rewrite string_cons_append, string_nil_append. split.
  - rewrite string_forall_app. cbn [string_forall]. by rewrite Hk, Hv.
  - unfold read_setting. by rewrite cut_keyword.
Qed.

#[export] Instance words_pq_laws : PqLaws words_pq.
Proof.
  constructor. intros l Hl Hne. cbn [parse_dsn words_pq]. do 2 f_equal.
  induction Hl as [|[k v] l [Hk Hv] Hl IH]; [done|]. cbn [fst snd] in *.
  destruct (word_plain k v Hk Hv) as [Hp Hr]. destruct l as [|kv l].
  - cbn [settings_text]. destruct (split_word _ "" Hp) as [_ ->]. cbn. by rewrite Hr.
  - assert (Ht : settings_text ((k, v) :: kv :: l) =
      (k +:+ "=" +:+ v) +:+ String " "%char (settings_text (kv :: l))).
    { cbn [settings_text]. rewrite !string_append_assoc. by rewrite !string_cons_append. }
    rewrite Ht. destruct (split_word _ (settings_text (kv :: l)) Hp) as [-> _].
    cbn [fmap list_fmap]. rewrite Hr. by rewrite IH.
Qed.

Definition db0 : DatabaseConfig := {|
  db_Host := "localhost"; db_Port := 5432; db_User := "mpiper"; db_Password := "s3cret";
  db_Name := "media"; db_SSLMode := "disable" |}.

Lemma dsn_roundtrip_witness :
  ∃ m, parse_dsn (dsn_text db0) = Ok m ∧ m !! "port" = Some "5432".
Proof.
  destruct (dsn_roundtrip db0) as (m & H & _ & Hp & _); [by repeat constructor|].
  exists m. split; [exact H|exact Hp].
Defined.

Definition db_blank : DatabaseConfig := {|
  db_Host := "localhost"; db_Port := 5432; db_User := "mpiper";
  db_Password := "s3cret host=elsewhere"; db_Name := "media"; db_SSLMode := "disable" |}.

Lemma dsn_password_injection_witness :
  ∃ m, parse_dsn (dsn_text db_blank) = Ok m ∧ m !! "host" = Some "elsewhere".
Proof.
  destruct (dsn_password_injection db_blank "s3cret" "elsewhere") as (m & H & Hh & _);
    [by repeat constructor|reflexivity|reflexivity|].
  exists m. split; [exact H|exact Hh].
Defined.

(** A schema is the number of the migrations applied; there are three. *)
#[export] Instance three_migrations : Migrate nat := {|
  iofs_New := None; postgres_WithInstance := None; migrate_NewWithInstance := None;
  migrate_Up n := if n <? 3 then (None, 3) else (Some (ESentinel SErrNoChange), n) |}.

#[export] Instance three_migrations_laws : MigrateLaws three_migrations.
Proof.
  constructor. intros n _. unfold migrate_Up. cbn [three_migrations].
  destruct (n <? 3) eqn:Hn; cbn [snd]; [reflexivity|]. by rewrite Hn.
Qed.

Lemma RunMigrations_idempotent_witness :
  RunMigrations 1 = (None, 3) ∧ RunMigrations (snd (RunMigrations 1)) = (None, 3).
Proof.
  split; [reflexivity|]. destruct (RunMigrations_idempotent 1) as [_ H].
  exact (H eq_refl).
Defined.

End PostgresDemo.
