(* ===== verification/Proc.v ===== *)
(** * The process: exits, deferred calls, process-wide state

    Code that runs once, at start and stop. Besides returning or panicking it can
    end the process ([os.Exit], through zap's [Fatal]), which runs no deferred
    call. [proc] is the state it works on: the world, main's stack of deferred
    calls, what was released so far, and what OpenTelemetry keeps globally. *)

From stdpp Require Import base gmap strings list numbers.
From Stdlib Require Import ZArith Lia.
From S2P Require Import Prelude GoStd AppErrors Config Assets World.

(** ** OpenTelemetry's globals *)

(** The attributes of semconv that the code sets, and the detectors it asks for. *)
Inductive resource_key := ServiceName | ServiceVersion | DeploymentEnvironment | ServiceInstanceID.
Inductive detector := WithFromEnv | WithProcess | WithOS | WithContainer | WithHost.

(** [resource.Resource]: from attributes and detectors, or the default. *)
Inductive otel_resource :=
| DefaultResource
| ResourceOf (attrs : list (resource_key * string)) (detectors : list detector).

Inductive sampler := AlwaysSample | ParentBased (root : sampler) | TraceIDRatioBased (rate : string).

Inductive propagator := TraceContext | Baggage.

(** [WithBatcher]'s options and the span limits. *)
Record TracerProvider := {
  tp_MaxQueueSize : Z; tp_BatchTimeout : Z; tp_MaxExportBatchSize : Z;
  tp_Resource : otel_resource; tp_Sampler : sampler; tp_Limits : list (string * Z);
}.

(** An instrument kind of the metrics API, with the type of its values. *)
Inductive instrument_kind :=
| Float64Histogram | Int64Histogram | Int64Counter | Int64UpDownCounter | Int64ObservableGauge.

#[export] Instance instrument_kind_eq_dec : EqDecision instrument_kind.
Proof. solve_decision. Defined.

(** What an observable gauge reads when it is collected. *)
Inductive observation := ObserveMemory | ObserveGoroutines.

Record instrument_spec := {
  is_kind : instrument_kind; is_name : string; is_description : string; is_unit : string;
  is_callback : option observation;
}.

(** A view: an explicit-bucket aggregation for the histograms of one name; the
    boundaries are decimal texts. *)
Record metric_view := { mv_name : string; mv_boundaries : list string }.

Record MeterProvider := { mp_Resource : otel_resource; mp_Views : list metric_view }.

(** ** Deferred calls of main *)
Inductive deferred :=
| DStop              (* stop(): signal.NotifyContext *)
| DSync              (* logger.Sync(baseLogger) *)
| DShutdownTracer
| DShutdownMetrics
| DCloseDB
| DCancel.           (* cancel() of shutdownCtx *)

#[export] Instance deferred_eq_dec : EqDecision deferred.
Proof. solve_decision. Defined.

Record proc := {
  p_world : world;
  p_defers : list deferred;        (* the last deferred first *)
  p_released : list deferred;      (* the calls made, in order *)
  p_tracer : option TracerProvider;
  p_propagators : list propagator;
  p_meter : option MeterProvider;
  p_instruments : list (instrument * instrument_spec);   (* in order of creation *)
}.

Definition proc_of (w : world) : proc := {|
  p_world := w; p_defers := []; p_released := []; p_tracer := None; p_propagators := [];
  p_meter := None; p_instruments := [] |}.

Definition on_world (w : world) (p : proc) : proc := {|
  p_world := w; p_defers := p_defers p; p_released := p_released p; p_tracer := p_tracer p;
  p_propagators := p_propagators p; p_meter := p_meter p; p_instruments := p_instruments p |}.
Definition on_defers (l : list deferred) (p : proc) : proc := {|
  p_world := p_world p; p_defers := l; p_released := p_released p; p_tracer := p_tracer p;
  p_propagators := p_propagators p; p_meter := p_meter p; p_instruments := p_instruments p |}.
Definition on_released (l : list deferred) (p : proc) : proc := {|
  p_world := p_world p; p_defers := p_defers p; p_released := l; p_tracer := p_tracer p;
  p_propagators := p_propagators p; p_meter := p_meter p; p_instruments := p_instruments p |}.
Definition on_tracer (t : TracerProvider) (ps : list propagator) (p : proc) : proc := {|
  p_world := p_world p; p_defers := p_defers p; p_released := p_released p;
  p_tracer := Some t; p_propagators := ps; p_meter := p_meter p;
  p_instruments := p_instruments p |}.
Definition on_meter (m : MeterProvider) (p : proc) : proc := {|
  p_world := p_world p; p_defers := p_defers p; p_released := p_released p;
  p_tracer := p_tracer p; p_propagators := p_propagators p; p_meter := Some m;
  p_instruments := p_instruments p |}.
Definition on_instruments (l : list (instrument * instrument_spec)) (p : proc) : proc := {|
  p_world := p_world p; p_defers := p_defers p; p_released := p_released p;
  p_tracer := p_tracer p; p_propagators := p_propagators p; p_meter := p_meter p;
  p_instruments := l |}.

(** ** The monad *)

Inductive ending (A : Type) : Type :=
| Ended (o : outcome A)
| Exited (code : Z).
Arguments Ended {A} o.
Arguments Exited {A} code.

Definition P (A : Type) : Type := proc → ending A * proc.

#[export] Instance P_ret : MRet P := λ A a p, (Ended (Returned a), p).
#[export] Instance P_bind : MBind P := λ A B f m p,
  match m p with
  | (Ended (Returned a), p') => f a p'
  | (Ended (Panicked v), p') => (Ended (Panicked v), p')
  | (Exited c, p') => (Exited c, p')
  end.

(** Code that cannot exit. *)
Definition liftM {A} (m : M A) : P A := λ p,
  let '(o, w) := m (p_world p) in (Ended o, on_world w p).
Definition liftIO {A} (m : IO A) : P A := liftM (lift m).

(** Go's [panic], and zap's [Fatal]: the entry is written, then [os.Exit(1)]. *)
Definition panicP {A} (v : string) : P A := λ p, (Ended (Panicked v), p).
Definition logP (l : level) (msg : string) : P unit := liftIO (log l msg).
Definition os_Exit {A} (code : Z) : P A := λ p, (Exited code, p).
Definition Fatal {A} (msg : string) : P A := logP LFatal msg;; os_Exit 1.

Definition modify (f : proc → proc) : P unit := λ p, (Ended (Returned tt), f p).

Definition push_defer (d : deferred) : P unit :=
  modify (λ p, on_defers (d :: p_defers p) p).

(** ** Reasoning *)

(** The weakest precondition: [Q] of the ending and the state. *)
Definition wpP {A} (m : P A) (Q : ending A → proc → Prop) (p : proc) : Prop :=
  let '(e, p') := m p in Q e p'.

Lemma wpP_ret {A} (a : A) Q p : Q (Ended (Returned a)) p → wpP (mret a) Q p.
Proof. done. Qed.

Lemma wpP_bind {A B} (m : P A) (f : A → P B) Q p :
  wpP m (λ e p', match e with
                 | Ended (Returned a) => wpP (f a) Q p'
                 | Ended (Panicked v) => Q (Ended (Panicked v)) p'
                 | Exited c => Q (Exited c) p' end) p →
  wpP (m ≫= f) Q p.
Proof. unfold wpP, mbind, P_bind. by destruct (m p) as [[[a|v]|c] p']. Qed.

Lemma wpP_mono {A} (m : P A) (Q R : ending A → proc → Prop) p :
  wpP m Q p → (∀ e p', Q e p' → R e p') → wpP m R p.
Proof. unfold wpP. destruct (m p) as [e p']. auto. Qed.

Lemma wpP_modify f (Q : ending unit → proc → Prop) p :
  Q (Ended (Returned tt)) (f p) → wpP (modify f) Q p.
Proof. done. Qed.

Lemma wpP_log l msg Q p :
  Q (Ended (Returned tt)) (on_world (exec (log l msg) (p_world p)) p) → wpP (logP l msg) Q p.
Proof. done. Qed.

Lemma wpP_Fatal {A} msg (Q : ending A → proc → Prop) p :
  Q (Exited 1) (on_world (exec (log LFatal msg) (p_world p)) p) → wpP (Fatal msg) Q p.
Proof. done. Qed.

Lemma log_store l msg w : w_store (exec (log l msg) w) = w_store w.
Proof. done. Qed.
Lemma log_cfg l msg w : w_cfg (exec (log l msg) w) = w_cfg w.
Proof. done. Qed.

(** Code at start-up that only logs, reads the clock and sets OpenTelemetry up:
    the store, the configuration and main's deferred calls stay. *)
Definition steady (p p' : proc) : Prop :=
  w_store (p_world p') = w_store (p_world p) ∧ w_cfg (p_world p') = w_cfg (p_world p) ∧
  p_defers p' = p_defers p ∧ p_released p' = p_released p.

#[export] Instance steady_refl : Reflexive steady.
Proof. done. Qed.
#[export] Instance steady_trans : Transitive steady.
Proof. unfold steady. intros p1 p2 p3. naive_solver congruence. Qed.

Create HintDb steady discriminated.
#[export] Hint Extern 0 (steady _ _) => done : steady.

(** Setting the configuration: [config.Init]. *)
Definition init_config (cfg : EnvConfig) : P unit :=
  modify (λ p, on_world
    {| w_tick := w_tick (p_world p); w_store := w_store (p_world p);
       w_obs := w_obs (p_world p); w_cfg := Init cfg (w_cfg (p_world p));
       w_http := w_http (p_world p) |} p).
