(* ===== verification/Telemetry.v ===== *)
(** * OpenTelemetry: internal/metrics

    [InitTracer] (otel.go) and [InitMetrics] (metrics.go): the exporters' options,
    the resource, the sampler, the global providers, and the thirty instruments.
    The OpenTelemetry libraries are the class [Otel]: whether a call fails. *)

From stdpp Require Import base gmap strings list numbers pretty.
From Stdlib Require Import ZArith Lia Ascii.
From S2P Require Import Prelude GoStd AppErrors Config Assets World Proc.

(** Options of the two OTLP exporters; durations in nanoseconds. *)
Inductive exporter_option :=
| WithEndpoint (s : string)
| WithRetry (initial max elapsed : Z)
| WithTimeout (d : Z)
| WithCompressor (s : string)
| WithMaxCallRecvMsgSize (n : Z)
| WithInsecure
| WithInsecureCredentials
| WithTLSCredentials.

#[export] Instance exporter_option_eq_dec : EqDecision exporter_option.
Proof. solve_decision. Defined.

Inductive signal := Traces | MetricData.

Class Otel := {
  exporter_New : signal → list exporter_option → option error;
  resource_New : list (resource_key * string) → list detector → option error;
  os_Hostname : result error string;
  meter_create : instrument_kind → string → option error;
}.

(** The function a provider's [Shutdown] method is. *)
Inductive shutdown := ShutdownTracer | ShutdownMetrics.

Section Telemetry.
Context {E : Env} {O : Otel}.

(** ** otel.go *)

Definition schemes : list string := ["grpc://"; "http://"; "https://"].

Fixpoint strip_first (l : list string) (endpoint : string) : string :=
  match l with
  | [] => endpoint
  | scheme :: l' =>
      if (String.length scheme <? String.length endpoint)
         && (slice_to endpoint (String.length scheme) =s scheme)
      then slice_from endpoint (String.length scheme)
      else strip_first l' endpoint
  end.

Definition stripURLScheme (endpoint : string) : string := strip_first schemes endpoint.

Definition getSampler (otelCfg : OtelConfig) : sampler :=
  let env := otel_DeploymentEnv otelCfg in
  if (env =s "development") || (env =s "dev") || (env =s "") then AlwaysSample
  else ParentBased (TraceIDRatioBased (otel_TraceSamplingRate otelCfg)).

Definition getInstanceID : IO string :=
  match os_Hostname with
  | Ok hostname => mret hostname
  | Err _ => now ← time_Now; mret ("instance-" +:+ strconv_Itoa (quot64 now Second))
  end.

(** Plain text, or TLS with the system's certificates. *)
Definition credentials (otelCfg : OtelConfig) : list exporter_option :=
  if otel_TLSInsecure otelCfg then [WithInsecure; WithInsecureCredentials]
  else [WithTLSCredentials].

Definition trace_options (otelCfg : OtelConfig) : list exporter_option :=
  [WithEndpoint (stripURLScheme (otel_Endpoint otelCfg));
   WithRetry (5 * Second) (30 * Second) (5 * Minute);
   WithTimeout (10 * Second); WithCompressor "gzip";
   WithMaxCallRecvMsgSize (100 * 1024 * 1024)] ++ credentials otelCfg.

Definition metric_options (otelCfg : OtelConfig) : list exporter_option :=
  [WithEndpoint (stripURLScheme (otel_Endpoint otelCfg));
   WithTimeout (10 * Second); WithCompressor "gzip";
   WithMaxCallRecvMsgSize (100 * 1024 * 1024)] ++ credentials otelCfg.

Definition detectors : list detector := [WithFromEnv; WithProcess; WithOS; WithContainer; WithHost].

(** [resource.New], with the default resource after an error. *)
Definition new_resource (otelCfg : OtelConfig) : P otel_resource :=
  instance ← liftIO getInstanceID;
  let attrs := [(ServiceName, otel_ServiceName otelCfg); (ServiceVersion, otel_ServiceVersion otelCfg);
                (DeploymentEnvironment, otel_DeploymentEnv otelCfg); (ServiceInstanceID, instance)] in
  match resource_New attrs detectors with
  | Some err =>
      logP LWarn ("Failed to create resource attributes: " +:+ err_Error err);;
      mret DefaultResource
  | None => mret (ResourceOf attrs detectors)
  end.

Definition span_limits : list (string * Z) :=
  [("AttributeValueLengthLimit", 4096%Z); ("AttributeCountLimit", 128%Z);
   ("EventCountLimit", 128%Z); ("LinkCountLimit", 128%Z);
   ("AttributePerEventCountLimit", 128%Z); ("AttributePerLinkCountLimit", 128%Z)].

Definition must_get : P EnvConfig := liftM (λ w, from_outcome (MustGet (w_cfg w)) w).

Definition InitTracer : P shutdown :=
  cfg ← must_get;
  let otelCfg := cfg_Otel cfg in
  logP LInform ("Initializing OpenTelemetry tracer with endpoint: "
                 +:+ stripURLScheme (otel_Endpoint otelCfg));;
  match exporter_New Traces (trace_options otelCfg) with
  | Some err => Fatal ("Failed to create OTLP trace exporter: " +:+ err_Error err)
  | None =>
      res ← new_resource otelCfg;
      let tp := {| tp_MaxQueueSize := 2048; tp_BatchTimeout := 5 * Second;
                   tp_MaxExportBatchSize := 512; tp_Resource := res;
                   tp_Sampler := getSampler otelCfg; tp_Limits := span_limits |} in
      modify (on_tracer tp [TraceContext; Baggage]);;
      logP LInform "OpenTelemetry tracer initialized successfully";;
      mret ShutdownTracer
  end.

(** ** metrics.go *)

(** [m.I, err = meter.K(name, ...)], and [Fatalf] on an error. *)
Definition create (i : instrument) (k : instrument_kind) (name description unit_ : string)
    (callback : option observation) (failure : string) : P unit :=
  match meter_create k name with
  | Some err => Fatal (failure +:+ ": " +:+ err_Error err)
  | None => modify (λ p, on_instruments (p_instruments p ++
      [(i, {| is_kind := k; is_name := name; is_description := description;
              is_unit := unit_; is_callback := callback |})]) p)
  end.

Definition initHTTPMetrics : P unit :=
  create HTTPRequestDuration Float64Histogram "http.server.request.duration"
    "Duration of HTTP requests in seconds" "s" None
    "Failed to create HTTP request duration";;
  create HTTPRequestCount Int64Counter "http.server.request.count"
    "Total number of HTTP requests" "{request}" None
    "Failed to create HTTP request counter";;
  create HTTPRequestSize Int64Histogram "http.server.request.size"
    "Size of HTTP request in bytes" "By" None
    "Failed to create HTTP request size";;
  create HTTPResponseSize Int64Histogram "http.server.response.size"
    "Size of HTTP response in bytes" "By" None
    "Failed to create HTTP response size";;
  create HTTPActiveRequests Int64UpDownCounter "http.server.active_requests"
    "Number of active HTTP requests" "{request}" None
    "Failed to create active requests counter".

Definition initBusinessMetrics : P unit :=
  create AssetUploadTotal Int64Counter "asset.upload.total"
    "Total number of asset uploads" "{upload}" None
    "Failed to create asset upload counter";;
  create AssetUploadDuration Float64Histogram "asset.upload.duration"
    "Duration of asset upload operations" "s" None
    "Failed to create asset upload duration";;
  create AssetProcessingTotal Int64Counter "asset.processing.total"
    "Total number of assets processed" "{asset}" None
    "Failed to create asset processing counter";;
  create AssetProcessingSuccess Int64Counter "asset.processing.success"
    "Number of successfully processed assets" "{asset}" None
    "Failed to create asset processing success counter";;
  create AssetProcessingFailed Int64Counter "asset.processing.failed"
    "Number of failed asset processing attempts" "{asset}" None
    "Failed to create asset processing failed counter";;
  create AssetProcessingDuration Float64Histogram "asset.processing.duration"
    "Duration of asset processing" "s" None
    "Failed to create asset processing duration";;
  create AssetSizeBytes Int64Histogram "asset.size"
    "Size of assets in bytes" "By" None
    "Failed to create asset size histogram".

Definition initStorageMetrics : P unit :=
  create StorageOperationDuration Float64Histogram "storage.operation.duration"
    "Duration of storage operations" "s" None
    "Failed to create storage operation duration";;
  create StorageOperationTotal Int64Counter "storage.operation.total"
    "Total number of storage operations" "{operation}" None
    "Failed to create storage operation counter";;
  create StorageOperationErrors Int64Counter "storage.operation.errors"
    "Number of storage operation errors" "{error}" None
    "Failed to create storage operation errors".

Definition initDatabaseMetrics : P unit :=
  create DBQueryDuration Float64Histogram "db.query.duration"
    "Duration of database queries" "s" None
    "Failed to create DB query duration";;
  create DBQueryTotal Int64Counter "db.query.total"
    "Total number of database queries" "{query}" None
    "Failed to create DB query counter";;
  create DBQueryErrors Int64Counter "db.query.errors"
    "Number of database query errors" "{error}" None
    "Failed to create DB query errors";;
  create DBConnectionsActive Int64UpDownCounter "db.connections.active"
    "Number of active database connections" "{connection}" None
    "Failed to create DB active connections";;
  create DBConnectionsIdle Int64UpDownCounter "db.connections.idle"
    "Number of idle database connections" "{connection}" None
    "Failed to create DB idle connections";;
  create DBTransactionTotal Int64Counter "db.transaction.total"
    "Total number of database transactions" "{transaction}" None
    "Failed to create DB transaction counter";;
  create DBTransactionErrors Int64Counter "db.transaction.errors"
    "Number of database transaction errors" "{error}" None
    "Failed to create DB transaction errors".

Definition initQueueMetrics : P unit :=
  create QueueMessagePublished Int64Counter "queue.message.published"
    "Number of messages published to queue" "{message}" None
    "Failed to create queue published counter";;
  create QueueMessageConsumed Int64Counter "queue.message.consumed"
    "Number of messages consumed from queue" "{message}" None
    "Failed to create queue consumed counter";;
  create QueueMessageFailed Int64Counter "queue.message.failed"
    "Number of failed queue messages" "{message}" None
    "Failed to create queue failed counter";;
  create QueueDepth Int64ObservableGauge "queue.depth"
    "Current number of messages in the queue" "{message}" None
    "Failed to create queue depth gauge";;
  create QueueProcessingLag Float64Histogram "queue.processing.lag"
    "Queue message processing lag in seconds" "s" None
    "Failed to create queue processing lag".

Definition initSystemMetrics : P unit :=
  create SystemMemoryUsage Int64ObservableGauge "system.memory.usage"
    "System memory usage in bytes" "By" (Some ObserveMemory)
    "Failed to create memory usage gauge";;
  create SystemGoroutineCount Int64ObservableGauge "system.goroutine.count"
    "Number of goroutines" "{goroutine}" (Some ObserveGoroutines)
    "Failed to create goroutine count gauge";;
  create SystemGCPauseDuration Float64Histogram "system.gc.pause.duration"
    "GC pause duration in seconds" "s" None
    "Failed to create GC pause duration".

Definition request_duration_view : metric_view := {|
  mv_name := "http.server.request.duration";
  mv_boundaries := ["0.05"; "0.1"; "0.2"; "0.5"; "1"; "2"; "5"; "10"] |}.

(** [&Metrics{...}] is [true]: a pointer that is not nil. *)
Definition InitMetrics : P (bool * shutdown) :=
  cfg ← must_get;
  let otelCfg := cfg_Otel cfg in
  logP LInform ("Initializing OpenTelemetry metrics with endpoint: "
                 +:+ stripURLScheme (otel_Endpoint otelCfg));;
  match exporter_New MetricData (metric_options otelCfg) with
  | Some err => Fatal ("Failed to create OTLP metric exporter: " +:+ err_Error err)
  | None =>
      res ← new_resource otelCfg;
      modify (on_meter {| mp_Resource := res; mp_Views := [request_duration_view] |});;
      initHTTPMetrics;;
      initBusinessMetrics;;
      initStorageMetrics;;
      initDatabaseMetrics;;
      initQueueMetrics;;
      initSystemMetrics;;
      logP LInform "OpenTelemetry metrics initialized successfully";;
      mret (true, ShutdownMetrics)
  end.

(** ** What the parts do *)

Definition instruments_of {A} (e : ending A) (p p' : proc)
    (l : list (instrument * instrument_spec)) : Prop :=
  steady p p' ∧
  match e with
  | Ended (Returned _) =>
      p_instruments p' = p_instruments p ++ l ∧ p_tracer p' = p_tracer p ∧
      p_meter p' = p_meter p
  | Ended (Panicked _) => False
  | Exited c => c = 1%Z ∧
      ∃ i sp, (i, sp) ∈ l ∧ meter_create (is_kind sp) (is_name sp) ≠ None
  end.

(** It creates the instruments of [l], in that order, or ends the process because
    one of them cannot be created. *)
Definition builds (m : P unit) (l : list (instrument * instrument_spec)) : Prop :=
  ∀ p, wpP m (λ e p', instruments_of e p p' l) p.

Lemma builds_create i k name d u cb f :
  builds (create i k name d u cb f)
    [(i, {| is_kind := k; is_name := name; is_description := d; is_unit := u;
            is_callback := cb |})].
Proof.
  intros p. unfold create. destruct (meter_create k name) as [err|] eqn:Hm.
  - apply wpP_Fatal. split; [done|]. split; [done|]. eexists _, _.
    split; [by apply list_elem_of_singleton|]. cbn. by rewrite Hm.
  - by apply wpP_modify.
Qed.

Lemma builds_seq (m n : P unit) l l' : builds m l → builds n l' → builds (m;; n) (l ++ l').
Proof.
  intros Hm Hn p. apply wpP_bind. eapply wpP_mono; [apply Hm|]. intros e p1 [Hst He].
  destruct e as [[[]|v]|c].
  - destruct He as (Hi & Ht & Hme). eapply wpP_mono; [apply Hn|].
    intros e p2 [Hst2 He2]. split; [by etransitivity|]. destruct e as [[[]|v]|c].
    + destruct He2 as (-> & -> & ->). by rewrite Hi, app_assoc.
    + done.
    + destruct He2 as (? & i & sp & Hin & ?). split; [done|]. exists i, sp.
      split; [|done]. apply elem_of_app. by right.
  - done.
  - split; [done|]. destruct He as (? & i & sp & Hin & ?). split; [done|]. exists i, sp.
    split; [|done]. apply elem_of_app. by left.
Qed.

Ltac solve_builds :=
  repeat first [ eapply builds_create | eapply builds_seq ].

Definition init_all : P unit :=
  initHTTPMetrics;; initBusinessMetrics;; initStorageMetrics;; initDatabaseMetrics;;
  initQueueMetrics;; initSystemMetrics.

(** What is right about a table of instruments: every field of [Metrics] is set
    once, no name is used twice, every histogram of float64 values is in seconds,
    and the view is for the request duration alone. *)
Definition table_ok (l : list (instrument * instrument_spec)) : Prop :=
  NoDup (fst <$> l) ∧ (∀ i, i ∈ fst <$> l) ∧
  NoDup ((λ x, is_name (snd x)) <$> l) ∧
  Forall (λ x, is_kind (snd x) = Float64Histogram → is_unit (snd x) = "s") l ∧
  Forall (λ x, is_name (snd x) = mv_name request_duration_view ↔ fst x = HTTPRequestDuration) l.

Lemma init_all_builds : ∃ l, builds init_all l ∧ table_ok l.
Proof.
  eexists. split.
  { unfold init_all, initHTTPMetrics, initBusinessMetrics, initStorageMetrics,
      initDatabaseMetrics, initQueueMetrics, initSystemMetrics. solve_builds. }
  cbn [app]. split_and!.
  - apply (bool_decide_unpack _). vm_compute. exact I.
  - intros i. destruct i; apply (bool_decide_unpack _); vm_compute; exact I.
  - apply (bool_decide_unpack _). vm_compute. exact I.
  - repeat constructor; by vm_compute.
  - repeat constructor; by vm_compute.
Qed.

Lemma seq_init_all {A} (k : P A) p :
  (initHTTPMetrics;; initBusinessMetrics;; initStorageMetrics;; initDatabaseMetrics;;
   initQueueMetrics;; initSystemMetrics;; k) p = (init_all;; k) p.
Proof.
  unfold init_all. generalize initHTTPMetrics initBusinessMetrics initStorageMetrics
    initDatabaseMetrics initQueueMetrics initSystemMetrics. intros a b c d e f.
  unfold mbind, P_bind.
  do 5 match goal with
  | |- context [?m ?q] =>
      lazymatch type of (m q) with (ending unit * proc)%type =>
        destruct (m q) as [[[[]|]|] ?]; [|done..] end
  end.
  done.
Qed.

(** The resource is built, one way or the other, and only logging happened. *)
Lemma new_resource_steady otelCfg Q p :
  (∀ res w, steady p (on_world w p) → Q (Ended (Returned res)) (on_world w p)) →
  wpP (new_resource otelCfg) Q p.
Proof.
  intros H. unfold new_resource. apply wpP_bind.
  assert (∃ h w, liftIO getInstanceID p = (Ended (Returned h), on_world w p) ∧
    steady p (on_world w p)) as (h & w & Hi & Hst).
  { unfold getInstanceID, liftIO, liftM, lift. by destruct os_Hostname; cbn; eexists _, _. }
  unfold wpP at 1. rewrite Hi. destruct (resource_New _ _).
  - apply wpP_bind, wpP_log, wpP_ret. by apply H.
  - apply wpP_ret. by apply H.
Qed.

Lemma must_get_wp Q p :
  match w_cfg (p_world p) with
  | Some cfg => Q (Ended (Returned cfg)) p
  | None => ∀ v, Q (Ended (Panicked v)) p
  end → wpP must_get Q p.
Proof.
  unfold wpP, must_get, liftM, MustGet. destruct (w_cfg (p_world p)) as [cfg|]; cbn;
    destruct p; auto.
Qed.

Lemma InitMetrics_wp p :
  wpP InitMetrics (λ e p', steady p p' ∧
    match e, w_cfg (p_world p) with
    | Ended (Returned r), Some cfg =>
        r = (true, ShutdownMetrics) ∧ exporter_New MetricData (metric_options (cfg_Otel cfg)) = None ∧
        (∃ l, p_instruments p' = p_instruments p ++ l ∧ table_ok l) ∧
        (∃ res, p_meter p' = Some {| mp_Resource := res; mp_Views := [request_duration_view] |}) ∧
        p_tracer p' = p_tracer p
    | Exited c, Some cfg => c = 1%Z ∧
        (exporter_New MetricData (metric_options (cfg_Otel cfg)) ≠ None ∨
         ∃ k name, meter_create k name ≠ None)
    | Ended (Panicked _), None => True
    | _, _ => False
    end) p.
Proof.
  unfold InitMetrics. apply wpP_bind, must_get_wp.
  destruct (w_cfg (p_world p)) as [cfg|]; [|done]. apply wpP_bind, wpP_log.
  destruct (exporter_New _ _) as [err|] eqn:Hexp.
  { apply wpP_Fatal. split; [done|]. split; [done|]. by left. }
  apply wpP_bind, new_resource_steady. intros res w Hw. apply wpP_bind, wpP_modify.
  unfold wpP. rewrite seq_init_all. apply wpP_bind.
  destruct init_all_builds as (l & Hl & Htable).
  eapply wpP_mono; [apply Hl|]. intros e p1 [Hst He]. destruct e as [[[]|v]|c]; [|done|].
  - destruct He as (Hi & Ht & Hm). apply wpP_bind, wpP_log, wpP_ret.
    split; [by etransitivity; [exact Hw|]|]. split_and!; [done..| | |exact Ht].
    + exists l. split; [exact Hi|exact Htable].
    + exists res. exact Hm.
  - destruct He as (-> & i & sp & _ & Hne). split; [by etransitivity; [exact Hw|]|].
    split; [done|]. right. eauto.
Qed.

Lemma InitTracer_wp p :
  wpP InitTracer (λ e p', steady p p' ∧
    match e, w_cfg (p_world p) with
    | Ended (Returned r), Some cfg =>
        r = ShutdownTracer ∧ exporter_New Traces (trace_options (cfg_Otel cfg)) = None ∧
        p_instruments p' = p_instruments p ∧ p_meter p' = p_meter p ∧
        p_propagators p' = [TraceContext; Baggage] ∧
        (∃ tp, p_tracer p' = Some tp ∧ tp_Sampler tp = getSampler (cfg_Otel cfg))
    | Exited c, Some cfg => c = 1%Z ∧
        exporter_New Traces (trace_options (cfg_Otel cfg)) ≠ None
    | Ended (Panicked _), None => True
    | _, _ => False
    end) p.
Proof.
  unfold InitTracer. apply wpP_bind, must_get_wp.
  destruct (w_cfg (p_world p)) as [cfg|]; [|done]. apply wpP_bind, wpP_log.
  destruct (exporter_New _ _) as [err|] eqn:Hexp; [by apply wpP_Fatal|].
  apply wpP_bind, new_resource_steady. intros res w Hw. apply wpP_bind, wpP_modify.
  apply wpP_bind, wpP_log, wpP_ret. split; [exact Hw|]. split_and!; [done..|]. by eexists.
Qed.

Lemma slice_prefix s t :
  (slice_to t (String.length s) =s s) = true → String.length s ≤ String.length t →
  String.prefix s t = true.
Proof.
  intros Hs%String.eqb_eq _. revert t Hs. induction s as [|c s IH]; intros t Hs; [by destruct t|].
  unfold slice_to in *. destruct t as [|d t]; [done|]. cbn in Hs. injection Hs as -> Hs.
  cbn. destruct (ascii_dec c c); [|done]. apply IH. exact Hs.
Qed.

Lemma strip_none l endpoint :
  Forall (λ s, String.prefix s endpoint = false) l → strip_first l endpoint = endpoint.
Proof.
  induction 1 as [|s l Hs _ IH]; [done|]. cbn [strip_first].
  destruct (Nat.ltb_spec (String.length s) (String.length endpoint)); [|exact IH]. cbn [andb].
  destruct (slice_to endpoint (String.length s) =s s) eqn:Hp; [|exact IH].
  by rewrite slice_prefix in Hs by (done || lia).
Qed.

Lemma strip_known scheme host :
  scheme ∈ schemes → 0 < String.length host → stripURLScheme (scheme +:+ host) = host.
Proof.
  intros Hin Hne. unfold stripURLScheme.
  assert (Hhit : ∀ l, strip_first (scheme :: l) (scheme +:+ host) = host).
  { intros l. cbn [strip_first]. destruct (slice_append scheme host) as [-> ->].
    rewrite String.eqb_refl, andb_true_r, string_length_append.
    by rewrite (proj2 (Nat.ltb_lt _ _)) by lia. }
  assert (Hmiss : ∀ s l, (slice_to (scheme +:+ host) (String.length s) =s s) = false →
    strip_first (s :: l) (scheme +:+ host) = strip_first l (scheme +:+ host)).
  { intros s l Hs. cbn [strip_first]. by rewrite Hs, andb_false_r. }
  unfold schemes in *. apply elem_of_cons in Hin as [->|[->|[->|[]%not_elem_of_nil]%elem_of_cons]%elem_of_cons].
  - apply Hhit.
  - rewrite Hmiss by done. apply Hhit.
  - rewrite !Hmiss by done. apply Hhit.
Qed.

(** The credentials are what the options say about security. *)
Lemma credential_option otelCfg o :
  o ∈ [WithInsecure; WithInsecureCredentials; WithTLSCredentials] →
  (o ∈ trace_options otelCfg ↔ o ∈ credentials otelCfg) ∧
  (o ∈ metric_options otelCfg ↔ o ∈ credentials otelCfg) ∧
  (o ∈ credentials otelCfg ↔ if decide (o = WithTLSCredentials)
     then otel_TLSInsecure otelCfg = false else otel_TLSInsecure otelCfg = true).
Proof.
  intros Ho. unfold trace_options, metric_options. rewrite !elem_of_app.
  assert (Hno : ∀ l : list exporter_option,
    Forall (λ x, x ∉ [WithInsecure; WithInsecureCredentials; WithTLSCredentials]) l → o ∉ l).
  { intros l Hl Hin. rewrite Forall_forall in Hl. by apply (Hl o). }
  split_and!; [split; [intros [H|H]; [|done]|by right]..|].
  - exfalso. revert H. apply Hno. repeat constructor; set_solver.
  - exfalso. revert H. apply Hno. repeat constructor; set_solver.
  - unfold credentials. destruct (otel_TLSInsecure otelCfg);
      repeat (apply elem_of_cons in Ho as [->|Ho]); try by apply elem_of_nil in Ho.
    all: rewrite ?elem_of_cons, ?elem_of_nil; case_decide; naive_solver.
Qed.

(** ** Properties *)

(** C35: the instruments. [InitMetrics] leaves the store and main's deferred calls
    alone and either ends the process with code 1, when the exporter or one of the
    instruments cannot be created, or returns with every field of [Metrics] set
    exactly once, under distinct names, all durations in seconds, and a meter
    provider whose only view is that of the request duration; it panics exactly
    when there is no configuration. *)
Theorem InitMetrics_complete p :
  match InitMetrics p, w_cfg (p_world p) with
  | (Ended (Returned r), p'), Some _ =>
      fst r = true ∧ steady p p' ∧
      (∃ l, p_instruments p' = p_instruments p ++ l ∧ table_ok l) ∧
      ∃ res, p_meter p' = Some {| mp_Resource := res; mp_Views := [request_duration_view] |}
  | (Exited c, p'), Some cfg => c = 1%Z ∧ steady p p' ∧
      (exporter_New MetricData (metric_options (cfg_Otel cfg)) ≠ None ∨
       ∃ k name, meter_create k name ≠ None)
  | (Ended (Panicked _), p'), None => steady p p'
  | _, _ => False
  end.
Proof.
  pose proof (InitMetrics_wp p) as H. unfold wpP in H.
  destruct (InitMetrics p) as [[[r|v]|c] p'], (w_cfg (p_world p)) as [cfg|]; naive_solver.
Qed.

(** Where telemetry goes. Traces and metrics are exported to the same endpoint,
    the configured one without its URL scheme, in plain text for both or over TLS
    for both, and the configured variable decides which; a scheme is removed once,
    and an endpoint without a scheme is used as it is. *)
Theorem exporters_agree otelCfg :
  (∃ endpoint, WithEndpoint endpoint ∈ trace_options otelCfg ∧
     WithEndpoint endpoint ∈ metric_options otelCfg ∧
     endpoint = stripURLScheme (otel_Endpoint otelCfg)) ∧
  (∀ o, o ∈ [WithInsecure; WithInsecureCredentials; WithTLSCredentials] →
     (o ∈ trace_options otelCfg ↔ o ∈ metric_options otelCfg) ∧
     (o ∈ trace_options otelCfg ↔ if decide (o = WithTLSCredentials)
        then otel_TLSInsecure otelCfg = false else otel_TLSInsecure otelCfg = true)) ∧
  (∀ scheme host, scheme ∈ schemes → host ≠ "" → stripURLScheme (scheme +:+ host) = host) ∧
  (∀ endpoint, Forall (λ s, String.prefix s endpoint = false) schemes →
     stripURLScheme endpoint = endpoint).
Proof.
  split_and!.
  - exists (stripURLScheme (otel_Endpoint otelCfg)). unfold trace_options, metric_options.
    split_and!; [by left..|done].
  - intros o Ho. destruct (credential_option otelCfg o Ho) as (Ht & Hm & Hc).
    split; [by rewrite Ht, Hm|by rewrite Ht].
  - intros scheme host Hin Hne. apply strip_known; [done|]. destruct host; [done|cbn; lia].
  - intros endpoint Hall. by apply strip_none.
Qed.
End Telemetry.
