(* ===== verification/Process.v ===== *)
(** * The process: cmd/server/main.go and internal/server/server.go

    [start] is main up to the point where it waits for a signal, over the start-up
    code of the other files. What follows is concurrent: [step] interleaves main,
    the goroutine that listens, the requests in flight and signals, from the start
    to the end of the process, with main's deferred calls and exits that skip
    them. *)

From stdpp Require Import base gmap strings list numbers pretty relations.
From Stdlib Require Import ZArith Lia.
From S2P Require Import Prelude GoStd AppErrors Config Assets World Json JsonDecode.
From S2P Require Import Queue Storage Service Http Handler Auth RateLimit Middleware Router.
From S2P Require Logger.
From S2P Require Import Postgres Proc Telemetry.

(** ** internal/server *)

Record AppServer := { srv_Addr : string; srv_Handler : Handler }.

(** The build-time variables of main.go. *)
Definition build_env : string := "development".
Definition Version : string := "1.0.0".
Definition CommitHash : string := "abc1234".
Definition BuildTime : string := "2024-06-01T12:00:00Z".
Definition Author : string := "RndmCodeGuy".

Section Start.
Context {E : Env} {J : JsonErrors} {L : GoLib} {K : Cloud} {C : Crypto} {W : ChiWriter}.
Context {T : ThirdParty} {D : Dotenv} {O : Otel} {SQ : Sqlx}.
Context {F : Logger.ZapField} {ZL : Logger.Zap}.
Context {Schema : Type} {G : Migrate Schema}.
Context (allow : string → IO bool).

Definition server_address (cfg : EnvConfig) : string :=
  srv_Host (cfg_Server cfg) +:+ ":" +:+ strconv_Itoa (srv_Port (cfg_Server cfg)).

Definition NewServer (cfg : EnvConfig) (m : bool) : P AppServer :=
  _ ← must_get;
  handler ← liftM (NewRouter allow cfg m);
  mret {| srv_Addr := server_address cfg; srv_Handler := handler |}.

(** [Stop] logs this and calls Shutdown; what [Start] logs before it listens is left
    out. *)
Definition stop_message : string := "Stopping server".

(** ** main *)

Definition base_logger (cfg : EnvConfig) : Logger.Logger :=
  Logger.Logger_With
    (Logger.New {| Logger.lc_ServiceName := otel_ServiceName (cfg_Otel cfg);
                   Logger.lc_Environment := cfg_Environment cfg;
                   Logger.lc_Level := Logger.ParseLevel (cfg_LogLevel cfg);
                   Logger.lc_EnableOTel := true |})
    [Logger.zap_String "version" Version; Logger.zap_String "commit_hash" CommitHash;
     Logger.zap_String "build_time" BuildTime; Logger.zap_String "author" Author].

Definition starting_message (cfg : EnvConfig) : string :=
  "Starting MPiper server on https://" +:+ srv_Host (cfg_Server cfg) +:+ ":"
    +:+ strconv_Itoa (srv_Port (cfg_Server cfg)) +:+ " in " +:+ cfg_Environment cfg +:+ " mode".

Definition migrate (cfg : EnvConfig) (schema : Schema) : P unit :=
  if cfg_AutoMigrate cfg then
    logP LInform "AUTO_MIGRATE=true: running migrations";;
    match fst (RunMigrations schema) with
    | Some err => Fatal ("Migration failed: " +:+ err_Error err)
    | None => logP LInform "Migrations applied successfully"
    end
  else mret tt.

Definition start (env0 : string → string) (schema : Schema) : P AppServer :=
  match InitializeConfig (ToEnvironment build_env) env0 with
  | Err err => panicP (err_Error err)
  | Ok cfg =>
      init_config cfg;;
      push_defer DStop;;
      push_defer DSync;;
      logP LInform (starting_message cfg);;
      _ ← InitTracer;
      push_defer DShutdownTracer;;
      m ← InitMetrics;
      push_defer DShutdownMetrics;;
      db ← liftM (NewPostgresDB (cfg_DB cfg));
      match db with
      | Err err => Fatal ("Failed to connect to database: " +:+ err_Error err)
      | Ok _ =>
          push_defer DCloseDB;;
          migrate cfg schema;;
          NewServer cfg (fst m)
      end
  end.

(** ** The running process *)

(** Where main is; the process has ended with an exit code. *)
Inductive main_pc :=
| MStart
| MWaiting                       (* <-serverCtx.Done() *)
| MStopping                      (* in srv.Stop *)
| MReturning (o : outcome unit)  (* running the deferred calls *)
| MEnded (code : Z).

(** The goroutine that runs [srv.Start]: [ListenAndServe] has returned
    [ErrServerClosed] in [SClosed] and another error in [SFailed]. *)
Inductive server_pc := SNotStarted | SServing | SClosed | SFailed.

Record sys := {
  y_proc : proc;
  y_main : main_pc;
  y_server : server_pc;
  y_signal : bool;         (* a signal came: serverCtx is done *)
  y_shutdown : bool;       (* Shutdown was called *)
  y_failed : bool;         (* Shutdown gave up: the time-out of 10 s, or an error *)
  y_handler : option Handler;   (* the server's, once it exists *)
  y_inflight : list Request;    (* the requests being served *)
}.

Definition at_main (p : proc) (m : main_pc) (s : sys) : sys := {|
  y_proc := p; y_main := m; y_server := y_server s; y_signal := y_signal s;
  y_shutdown := y_shutdown s; y_failed := y_failed s;
  y_handler := y_handler s; y_inflight := y_inflight s |}.
Definition at_server (v : server_pc) (s : sys) : sys := {|
  y_proc := y_proc s; y_main := y_main s; y_server := v; y_signal := y_signal s;
  y_shutdown := y_shutdown s; y_failed := y_failed s;
  y_handler := y_handler s; y_inflight := y_inflight s |}.
Definition signalled (s : sys) : sys := {|
  y_proc := y_proc s; y_main := y_main s; y_server := y_server s; y_signal := true;
  y_shutdown := y_shutdown s; y_failed := y_failed s;
  y_handler := y_handler s; y_inflight := y_inflight s |}.
Definition serving (l : list Request) (s : sys) : sys := {|
  y_proc := y_proc s; y_main := y_main s; y_server := y_server s; y_signal := y_signal s;
  y_shutdown := y_shutdown s; y_failed := y_failed s;
  y_handler := y_handler s; y_inflight := l |}.
Definition handling (hd : Handler) (s : sys) : sys := {|
  y_proc := y_proc s; y_main := y_main s; y_server := y_server s; y_signal := y_signal s;
  y_shutdown := y_shutdown s; y_failed := y_failed s;
  y_handler := Some hd; y_inflight := y_inflight s |}.
(** [Shutdown] closes the listener, so [ListenAndServe] returns. *)
Definition shutting_down (s : sys) : sys := {|
  y_proc := y_proc s; y_main := y_main s;
  y_server := match y_server s with SServing => SClosed | v => v end;
  y_signal := y_signal s; y_shutdown := true; y_failed := y_failed s;
  y_handler := y_handler s; y_inflight := y_inflight s |}.
Definition gave_up (s : sys) : sys := {|
  y_proc := y_proc s; y_main := y_main s; y_server := y_server s; y_signal := y_signal s;
  y_shutdown := y_shutdown s; y_failed := true;
  y_handler := y_handler s; y_inflight := y_inflight s |}.

Definition logging (l : level) (msg : string) (p : proc) : proc :=
  on_world (exec (log l msg) (p_world p)) p.

(** The deferred call [d] is made: it leaves the stack. *)
Definition releasing (d : deferred) (ds : list deferred) (p : proc) : proc :=
  on_released (p_released p ++ [d]) (on_defers ds p).

(** What a deferred call logs when the call in it fails with [e]. *)
Definition release_failure (d : deferred) (e : error) : option string :=
  match d with
  | DShutdownTracer => Some ("Failed to shut down tracer: " +:+ err_Error e)
  | DShutdownMetrics => Some ("Failed to shut down metrics: " +:+ err_Error e)
  | DCloseDB => Some ("Failed to close database connection: " +:+ err_Error e)
  | DStop | DSync | DCancel => None
  end.

(** [goos] is [runtime.GOOS]. *)
Inductive main_step (goos : string) (env0 : string → string) (schema : Schema) (s : sys) : sys → Prop :=
| main_start srv p :
    y_main s = MStart → start env0 schema (y_proc s) = (Ended (Returned srv), p) →
    main_step goos env0 schema s (handling (srv_Handler srv) (at_main p MWaiting s))
| main_start_panics v p :
    y_main s = MStart → start env0 schema (y_proc s) = (Ended (Panicked v), p) →
    main_step goos env0 schema s (at_main p (MReturning (Panicked v)) s)
| main_start_exits c p :
    y_main s = MStart → start env0 schema (y_proc s) = (Exited c, p) →
    main_step goos env0 schema s (at_main p (MEnded c) s)
(** the signal is seen: cancel is deferred and Shutdown called *)
| main_stop :
    y_main s = MWaiting → y_signal s = true →
    main_step goos env0 schema s
      (at_main (logging LInform stop_message
                  (on_defers (DCancel :: p_defers (y_proc s))
                     (logging LInform "Shutting down server..." (y_proc s))))
         MStopping (shutting_down s))
| main_stopped :
    y_main s = MStopping → y_inflight s = [] →
    main_step goos env0 schema s (at_main (y_proc s) (MReturning (Returned tt)) s)
| main_stop_fails :
    y_main s = MStopping →
    main_step goos env0 schema s
      (at_main (logging LError "shutdown failed" (y_proc s)) (MReturning (Returned tt)) (gave_up s))
| main_defer o d ds :
    y_main s = MReturning o → p_defers (y_proc s) = d :: ds →
    main_step goos env0 schema s (at_main (releasing d ds (y_proc s)) (MReturning o) s)
| main_defer_fails o d ds e msg :
    y_main s = MReturning o → p_defers (y_proc s) = d :: ds → release_failure d e = Some msg →
    main_step goos env0 schema s
      (at_main (logging LError msg (releasing d ds (y_proc s))) (MReturning o) s)
| main_sync_fails o ds e err :
    y_main s = MReturning o → p_defers (y_proc s) = DSync :: ds →
    Logger.Sync goos (Some e) = Some err →
    main_step goos env0 schema s
      (at_main (releasing DSync ds (y_proc s)) (MReturning (Panicked (err_Error err))) s)
| main_end o :
    y_main s = MReturning o → p_defers (y_proc s) = [] →
    main_step goos env0 schema s
      (at_main (y_proc s) (MEnded match o with Returned _ => 0 | Panicked _ => 2 end) s).

(** The handler answers [r] on a response of its own. *)
Definition no_response : http :=
  {| h_header := ∅; h_status := None; h_sent := ∅; h_body := ""; h_cells := [] |}.
Definition answer (hd : Handler) (r : Request) (w : world) : world :=
  snd (hd conn r (set_http no_response w)).
Definition answering (hd : Handler) (r : Request) (s : sys) : sys :=
  at_main (on_world (answer hd r (p_world (y_proc s))) (y_proc s)) (y_main s) s.

Definition ended (s : sys) : bool := match y_main s with MEnded _ => true | _ => false end.

(** What happens beside main: a signal, the listening goroutine, requests. *)
Inductive side_step (s : sys) : sys → Prop :=
| side_signal : ended s = false → side_step s (signalled s)
| side_listen :
    y_main s = MWaiting → y_server s = SNotStarted → side_step s (at_server SServing s)
| side_closed :
    ended s = false → y_server s = SNotStarted → y_shutdown s = true →
    side_step s (at_server SClosed s)
(** the address is taken, or accepting fails *)
| side_listen_fails :
    y_main s = MWaiting → y_server s ≠ SClosed → side_step s (at_server SFailed s)
| side_fatal :
    ended s = false → y_server s = SFailed →
    side_step s (at_main (logging LFatal "Server error" (y_proc s)) (MEnded 1) s)
| side_accept r :
    ended s = false → y_server s = SServing → side_step s (serving (r :: y_inflight s) s)
(** a request is answered; what it does happens at this point *)
| side_finish hd l1 r l2 :
    ended s = false → y_handler s = Some hd → y_inflight s = l1 ++ r :: l2 →
    side_step s (serving (l1 ++ l2) (answering hd r s)).

Definition step (goos : string) (env0 : string → string) (schema : Schema) (s s' : sys) : Prop :=
  main_step goos env0 schema s s' ∨ side_step s s'.

Definition boot (w : world) : sys := {|
  y_proc := proc_of w; y_main := MStart; y_server := SNotStarted; y_signal := false;
  y_shutdown := false; y_failed := false;
  y_handler := None; y_inflight := [] |}.

(** ** Starting *)

(** Everything main defers, the last first. *)
Definition order : list deferred :=
  [DCancel; DCloseDB; DShutdownMetrics; DShutdownTracer; DSync; DStop].

Lemma NewPostgresDB_keeps cfg w o w' :
  NewPostgresDB cfg w = (o, w') →
  w_store w' = w_store w ∧ w_cfg w' = w_cfg w ∧
  (is_Some (w_cfg w) → ∃ r, o = Returned r).
Proof.
  unfold NewPostgresDB, mbind, M_bind, MustGet. destruct (w_cfg w) as [c|] eqn:Hc; cbn;
    rewrite ?Hc; cbn; [|by intros [= <- <-]; split_and!; [..|intros []]].
  destruct (sqlx_Connect _ _); cbn; [|destruct db_Ping; cbn];
    intros [= <- <-]; split_and!; try done; eauto.
Qed.

(** What [start] leaves, for each of its endings. *)
Definition started_ok (env0 : string → string) (p : proc) (e : ending AppServer) (p' : proc) : Prop :=
  w_store (p_world p') = w_store (p_world p) ∧ p_released p' = p_released p ∧
  match e with
  | Ended (Returned srv) =>
      p_defers p' = tail order ∧ safe_server (srv_Handler srv) ∧
      ∃ cfg, InitializeConfig (ToEnvironment build_env) env0 = Ok cfg ∧
        w_cfg (p_world p') = Some cfg ∧ srv_Addr srv = server_address cfg ∧
        (∃ tp, p_tracer p' = Some tp ∧ tp_Sampler tp = getSampler (cfg_Otel cfg)) ∧
        is_Some (p_meter p') ∧ table_ok (p_instruments p')
  | Ended (Panicked _) => p_defers p' = [] ∨ p_defers p' = tail order
  | Exited c => c = 1%Z
  end.

End Start.

Section Starting.
Context {E : Env} {J : JsonErrors} {L : GoLib} {K : Cloud} {C : Crypto} {W : ChiWriter}.
Context {WL : ChiWriterLaws W} {T : ThirdParty} {TL : ThirdPartyLaws T}.
Context {D : Dotenv} {O : Otel} {SQ : Sqlx} {Schema : Type} {G : Migrate Schema}.
Context (allow : string → IO bool).
Context (allow_store : ∀ ip, keeps_store (allow ip)) (allow_resp : ∀ ip, keeps_resp (allow ip)).

Lemma migrate_wp cfg schema (Q : ending unit → proc → Prop) p :
  (∀ w, w_store w = w_store (p_world p) → w_cfg w = w_cfg (p_world p) →
     Q (Ended (Returned tt)) (on_world w p) ∧ Q (Exited 1) (on_world w p)) →
  wpP (migrate cfg schema) Q p.
Proof.
  intros H. unfold migrate. destruct (cfg_AutoMigrate cfg).
  - apply wpP_bind, wpP_log. destruct (fst (RunMigrations schema)).
    + apply wpP_Fatal. by apply (H (exec _ (exec _ (p_world p)))).
    + apply wpP_log. by apply (H (exec _ (exec _ (p_world p)))).
  - apply wpP_ret. destruct (H (p_world p)) as [Hq _]; [done..|]. by destruct p.
Qed.

Lemma NewServer_wp cfg m p (Q : ending AppServer → proc → Prop) :
  w_cfg (p_world p) = Some cfg →
  (∀ w hd, w_store w = w_store (p_world p) → w_cfg w = Some cfg → safe_server hd →
     Q (Ended (Returned {| srv_Addr := server_address cfg; srv_Handler := hd |})) (on_world w p)) →
  (∀ w v, w_store w = w_store (p_world p) → Q (Ended (Panicked v)) (on_world w p)) →
  wpP (NewServer allow cfg m) Q p.
Proof.
  intros Hc Hret Hpan. unfold NewServer. apply wpP_bind, must_get_wp. rewrite Hc.
  apply wpP_bind. unfold wpP at 1, liftM.
  destruct (NewRouter allow cfg m (p_world p)) as [o w] eqn:Hr.
  destruct (NewRouter_keeps _ _ _ _ _ _ Hr) as [Hst Hcfg]. destruct o as [hd|v].
  - apply wpP_ret. apply Hret; [done|congruence|]. by eapply NewRouter_safe.
  - by apply Hpan.
Qed.

Lemma start_wp env0 schema p :
  w_cfg (p_world p) = None → p_defers p = [] → p_instruments p = [] →
  wpP (start allow env0 schema) (started_ok env0 p) p.
Proof.
  intros Hnone Hd0 Hi0. unfold start.
  destruct (InitializeConfig _ env0) as [cfg|err] eqn:Hcfg.
  2: { split_and!; [done..|by left]. }
  unfold init_config. apply wpP_bind, wpP_modify. apply wpP_bind, wpP_modify.
  apply wpP_bind, wpP_modify. apply wpP_bind, wpP_log.
  set (p1 := on_world _ _).
  assert (w_cfg (p_world p1) = Some cfg) as Hc1 by (cbn; by rewrite Hnone).
  assert (w_store (p_world p1) = w_store (p_world p) ∧ p_released p1 = p_released p ∧
    p_defers p1 = [DSync; DStop] ∧ p_instruments p1 = []) as (Hs1 & Hr1 & Hd1 & Hi1).
  { cbn. by rewrite Hd0. }
  clearbody p1. apply wpP_bind. eapply wpP_mono; [apply InitTracer_wp|].
  intros e p2 [(Hs2 & Hc2 & Hd2 & Hr2) He]. rewrite Hc1 in *.
  destruct e as [[r|v]|c]; [|done|destruct He as [-> _]; split_and!; congruence].
  destruct He as (_ & _ & Hi2 & _ & _ & Ht2). apply wpP_bind, wpP_modify, wpP_bind.
  eapply wpP_mono; [apply InitMetrics_wp|]. cbn [p_world on_defers].
  intros e p3 [(Hs3 & Hc3 & Hd3 & Hr3) He]. cbn in Hs3, Hc3, Hd3, Hr3. rewrite Hc2 in *.
  destruct e as [[m|v]|c]; [|done|destruct He as [-> _]; split_and!; congruence].
  destruct He as (_ & _ & (l & Hi3 & Hl) & (res & Hm3) & Ht3).
  cbn in Hi3, Ht3. rewrite Hi2, Hi1 in Hi3. rewrite <-Ht3 in Ht2. cbn in Hi3.
  apply wpP_bind, wpP_modify, wpP_bind. unfold wpP at 1, liftM. cbn [p_world on_defers].
  destruct (NewPostgresDB (cfg_DB cfg) (p_world p3)) as [o w4] eqn:Hdb.
  destruct (NewPostgresDB_keeps _ _ _ _ Hdb) as (Hs4 & Hc4 & Hr4).
  destruct Hr4 as [[db|err] ->]; [rewrite Hc3; by eexists| |].
  2: { apply wpP_Fatal. split_and!; cbn; congruence. }
  apply wpP_bind, wpP_modify, wpP_bind, migrate_wp. intros w5 Hs5 Hc5. cbn in Hs5, Hc5. split.
  2: { split_and!; cbn; congruence. }
  apply (NewServer_wp cfg); [cbn; congruence| |].
  - intros w6 hd Hs6 Hc6 Hsafe. cbn in Hs6. unfold started_ok. cbn.
    split_and!; [congruence..|by rewrite Hd3, Hd2, Hd1|done|]. exists cfg.
    split_and!; [done..|by rewrite Hm3|by rewrite Hi3].
  - intros w6 v Hs6. cbn in Hs6. unfold started_ok. cbn.
    split_and!; [congruence..|right; by rewrite Hd3, Hd2, Hd1].
Qed.

(** ** The invariant of the running process *)

Definition reachable (goos : string) (env0 : string → string) (schema : Schema) (w : world)
    : sys → Prop := rtc (step allow goos env0 schema) (boot w).

(** main has stopped the server. *)
Definition stopped (s : sys) : Prop :=
  y_shutdown s = true ∧ y_signal s = true ∧ (y_failed s = false → y_inflight s = []).

(** main never got to start the server. *)
Definition unstarted (s : sys) : Prop :=
  y_shutdown s = false ∧ y_server s = SNotStarted ∧ y_inflight s = [].

(** The deferred calls made, and those left. *)
Definition calls (s : sys) : list deferred := p_released (y_proc s) ++ p_defers (y_proc s).

Definition main_ok (w : world) (s : sys) : Prop :=
  match y_main s with
  | MStart => y_proc s = proc_of w ∧ unstarted s
  | MWaiting => y_shutdown s = false ∧ p_released (y_proc s) = [] ∧ p_defers (y_proc s) = tail order
  | MStopping => y_shutdown s = true ∧ y_signal s = true ∧ p_released (y_proc s) = [] ∧
      p_defers (y_proc s) = order
  | MReturning (Returned _) => stopped s ∧ calls s = order
  | MReturning (Panicked _) =>
      (stopped s ∧ calls s = order) ∨
      (unstarted s ∧ (calls s = [] ∨ calls s = tail order))
  | MEnded c =>
      (c = 0%Z ∧ stopped s ∧ p_released (y_proc s) = order) ∨
      (c = 2%Z ∧ p_released (y_proc s) ∈ [order; tail order; []]) ∨
      (c = 1%Z ∧ (p_released (y_proc s) = [] ∨ y_server s = SFailed))
  end.

Record sys_wf (w : world) (s : sys) : Prop := {
  sw_server : y_shutdown s = true → y_server s ≠ SServing;
  (** the database is closed under a request only when Shutdown gave up *)
  sw_db : DCloseDB ∈ p_released (y_proc s) → y_failed s = false → y_inflight s = [];
  sw_main : main_ok w s;
}.

Lemma boot_wf w : sys_wf w (boot w).
Proof. constructor; [done|set_solver|done]. Qed.

(** What is known while the deferred calls run, whatever the outcome. *)
Definition returning (o : outcome unit) (s : sys) : Prop :=
  (stopped s ∧ calls s = order) ∨
  ((∃ v, o = Panicked v) ∧ unstarted s ∧ (calls s = [] ∨ calls s = tail order)).

Lemma returning_main w o s : y_main s = MReturning o → main_ok w s ↔ returning o s.
Proof.
  intros Hm. unfold main_ok, returning. rewrite Hm. destruct o; [|naive_solver].
  split; [by left|]. by intros [?|[[? [=]] _]].
Qed.

(** A deferred call is made: the calls are the same, one of them is done. *)
Lemma releasing_wf w o o' d ds p s :
  sys_wf w s → y_main s = MReturning o → p_defers (y_proc s) = d :: ds →
  p_released p = p_released (y_proc s) ++ [d] → p_defers p = ds →
  (o' = o ∨ ∃ v, o' = Panicked v) →
  sys_wf w (at_main p (MReturning o') s).
Proof.
  intros [Hserver Hdb Hmain] Hm Hd Hr Hds Ho. apply (returning_main _ _ _ Hm) in Hmain.
  constructor; [done| |].
  - intros _ Hf. destruct Hmain as [[(_ & _ & H) _]|[_ [(_ & _ & H) _]]]; [by apply H|done].
  - apply (returning_main _ o'); [done|].
    assert (calls (at_main p (MReturning o') s) = calls s) as Hcalls.
    { unfold calls. cbn. by rewrite Hr, Hds, Hd, <-app_assoc. }
    unfold returning. rewrite Hcalls. destruct Hmain as [?|[[v ->] ?]]; [by left|]. right.
    split; [|done]. destruct Ho as [->|?]; eauto.
Qed.

Lemma main_step_wf goos env0 schema w s s' :
  w_cfg w = None → sys_wf w s → main_step allow goos env0 schema s s' → sys_wf w s'.
Proof.
  intros Hw [Hserver Hdb Hmain] Hstep. unfold main_ok in Hmain.
  assert (Hstart : ∀ e p, y_main s = MStart → start allow env0 schema (y_proc s) = (e, p) →
    started_ok env0 (proc_of w) e p ∧ unstarted s).
  { intros e p Hm Hs. rewrite Hm in Hmain. destruct Hmain as [Hp Hu]. split; [|done].
    pose proof (start_wp env0 schema (proc_of w) Hw eq_refl eq_refl) as Hwp.
    unfold wpP in Hwp. rewrite Hp in Hs. by rewrite Hs in Hwp. }
  destruct Hstep as [srv p Hm Hs|v p Hm Hs|c p Hm Hs|Hm Hsig|Hm Hin|Hm|o d ds Hm Hd
    |o d ds e msg Hm Hd He|o ds e err Hm Hd He|o Hm Hd].
  - apply Hstart in Hs as [(_ & Hr & Hd & _) (? & ? & ?)]; [|done]. constructor; cbn; try done.
  - apply Hstart in Hs as [(_ & Hr & Hd) Hu]; [|done]. pose proof Hu as (? & ? & ?).
    constructor; cbn; [done|done|]. unfold main_ok. cbn. right. split; [done|].
    unfold calls. cbn. by rewrite Hr.
  - apply Hstart in Hs as [(_ & Hr & ->) (? & ? & ?)]; [|done].
    constructor; cbn; [done|done|]. unfold main_ok. cbn. right. right. auto.
  - rewrite Hm in Hmain. destruct Hmain as (_ & Hr & Hd).
    constructor; cbn; [by destruct (y_server s)|by rewrite Hr; intros ?%not_elem_of_nil|].
    unfold main_ok. cbn. by rewrite Hd.
  - rewrite Hm in Hmain. destruct Hmain as (? & ? & Hr & Hd).
    constructor; cbn; [done..|]. unfold main_ok. cbn. split; [by split_and!|].
    unfold calls. cbn. by rewrite Hr.
  - rewrite Hm in Hmain. destruct Hmain as (? & ? & Hr & Hd).
    constructor; cbn; [done..|]. unfold main_ok. cbn. split; [by split_and!|].
    unfold calls. cbn. by rewrite Hr.
  - eapply releasing_wf; by eauto.
  - eapply releasing_wf; by eauto.
  - eapply releasing_wf; by eauto.
  - apply (returning_main _ _ _ Hm) in Hmain. constructor; [done..|].
    unfold main_ok. cbn. unfold returning, calls in Hmain. rewrite Hd, app_nil_r in Hmain.
    destruct o as [[]|v].
    + left. destruct Hmain as [[? ?]|[[? Hno] _]]; [done|discriminate Hno].
    + right. left. split; [done|]. rewrite !elem_of_cons.
      destruct Hmain as [[_ ->]|[_ [_ [-> | ->]]]]; auto.
Qed.

(** A step beside main leaves main's part of the invariant. *)
Lemma main_ok_side w s s' :
  p_released (y_proc s') = p_released (y_proc s) → p_defers (y_proc s') = p_defers (y_proc s) →
  y_main s' = y_main s → (y_main s = MStart → y_proc s' = y_proc s) →
  y_shutdown s' = y_shutdown s →
  (y_signal s = true → y_signal s' = true) → y_failed s' = y_failed s →
  (y_inflight s = [] → y_inflight s' = []) →
  (y_server s = SNotStarted → y_shutdown s = false → y_server s' = SNotStarted) →
  (y_server s = SFailed → y_server s' = SFailed) →
  main_ok w s → main_ok w s'.
Proof.
  intros Hr Hd Hm Hp Hs Hsig Hf Hi Hn HF.
  assert (Hstop : stopped s → stopped s').
  { intros (? & ? & H). unfold stopped. rewrite Hs, Hf. auto. }
  assert (Hun : unstarted s → unstarted s').
  { intros (? & ? & ?). unfold unstarted. rewrite Hs. auto. }
  assert (Hcalls : calls s' = calls s) by (unfold calls; by rewrite Hr, Hd).
  unfold main_ok. rewrite Hr, Hd, Hm, Hs, Hcalls. destruct (y_main s) as [| | |[]|].
  - intros [<- ?]. split; [by apply Hp|by apply Hun].
  - done.
  - intros (? & ? & ?). auto.
  - intros [? ?]. auto.
  - intros [[? ?]|[? ?]]; auto.
  - intros [(? & ? & ?)|[?|(? & [?|?])]]; auto 10.
Qed.

Lemma side_step_wf w s s' : sys_wf w s → side_step s s' → sys_wf w s'.
Proof.
  intros [Hserver Hdb Hmain] Hstep.
  destruct Hstep as [He|Hm Hv|He Hv Hs|Hm Hv|He Hv|r He Hv|hd l1 r l2 He Hhd Hl].
  - constructor; cbn; [done..|]. by eapply main_ok_side; [..|exact Hmain].
  - unfold main_ok in Hmain. rewrite Hm in Hmain. destruct Hmain as (Hs & ? & ?).
    constructor; cbn; [congruence|done|]. unfold main_ok. cbn. by rewrite Hm.
  - constructor; cbn; [done..|]. eapply main_ok_side; [..|exact Hmain]; cbn; congruence.
  - unfold main_ok in Hmain. rewrite Hm in Hmain. destruct Hmain as (Hs & ? & ?).
    constructor; cbn; [congruence|done|]. unfold main_ok. cbn. by rewrite Hm.
  - constructor; cbn; [done..|]. unfold main_ok. cbn. right. right. auto.
  - assert (Hs : y_shutdown s = false).
    { destruct (y_shutdown s) eqn:Hs; [|done]. by destruct (Hserver eq_refl). }
    unfold main_ok in Hmain. unfold ended in He.
    destruct (y_main s) as [| | |[[]|v]|c] eqn:Hm; try done.
    + destruct Hmain as (_ & _ & Hns & _). congruence.
    + constructor; cbn; [done| |].
      * destruct Hmain as (_ & -> & _). by intros ?%not_elem_of_nil.
      * unfold main_ok. cbn. by rewrite Hm.
    + destruct Hmain as (? & _). congruence.
    + destruct Hmain as ((? & _) & _). congruence.
    + destruct Hmain as [((? & _) & _)|((_ & Hns & _) & _)]; congruence.
  - assert (Hne : y_inflight s = [] → False) by (rewrite Hl; by destruct l1).
    constructor; cbn; [done|intros; by destruct Hne; apply Hdb|].
    eapply main_ok_side; [..|exact Hmain]; cbn; auto; [|by intros ?%Hne].
    intros Hm. unfold main_ok in Hmain. rewrite Hm in Hmain. by destruct Hmain as (_ & _ & _ & ?).
Qed.

Lemma process_wf goos env0 schema w s :
  w_cfg w = None → reachable goos env0 schema w s → sys_wf w s.
Proof.
  intros Hw H. pose proof (boot_wf w) as Hwf. unfold reachable in H. revert Hwf.
  induction H as [|s1 s2 s3 Hst _ IH]; [done|]. intros Hwf. apply IH.
  destruct Hst as [Hst|Hst]; [by eapply main_step_wf|by eapply side_step_wf].
Qed.

(** ** The store under the running process *)

(** The store keeps its invariant; once the server exists it is a safe one and the
    configuration is the loaded one. *)
Definition store_ok (q : RedisQueue) (env0 : string → string) (s : sys) : Prop :=
  store_wf q (w_store (p_world (y_proc s))) ∧
  ∀ hd, y_handler s = Some hd → safe_for q hd ∧
    ∃ cfg, InitializeConfig (ToEnvironment build_env) env0 = Ok cfg ∧
      w_cfg (p_world (y_proc s)) = Some cfg.

(** A step that changes neither store nor configuration nor handler. *)
Lemma store_ok_same q env0 s s' :
  y_handler s' = y_handler s →
  w_store (p_world (y_proc s')) = w_store (p_world (y_proc s)) →
  w_cfg (p_world (y_proc s')) = w_cfg (p_world (y_proc s)) →
  store_ok q env0 s → store_ok q env0 s'.
Proof. intros Hh Hs Hc. unfold store_ok. by rewrite Hh, Hs, Hc. Qed.

Lemma main_step_store q goos env0 schema w s s' :
  w_cfg w = None → service_queue q → sys_wf w s →
  main_step allow goos env0 schema s s' → store_ok q env0 s → store_ok q env0 s'.
Proof.
  intros Hw Hq [_ _ Hmain] Hstep. unfold main_ok in Hmain.
  assert (Hstart : ∀ e p, y_main s = MStart → start allow env0 schema (y_proc s) = (e, p) →
    started_ok env0 (proc_of w) e p ∧ w_store (p_world p) = w_store (p_world (y_proc s)) ∧
    w_cfg (p_world (y_proc s)) = None).
  { intros e p Hm Hs. rewrite Hm in Hmain. destruct Hmain as [Hp _].
    pose proof (start_wp env0 schema (proc_of w) Hw eq_refl eq_refl) as Hwp.
    unfold wpP in Hwp. rewrite Hp in *. rewrite Hs in Hwp. pose proof Hwp as [? _]. done. }
  assert (Hends : ∀ e p m, y_main s = MStart → start allow env0 schema (y_proc s) = (e, p) →
    store_ok q env0 s → store_ok q env0 (at_main p m s)).
  { intros e p m Hm Hs [Hwf Hh]. destruct (Hstart _ _ Hm Hs) as (_ & Hst & Hnone).
    split; cbn; [by rewrite Hst|]. intros hd Hhd.
    destruct (Hh hd Hhd) as (_ & cfg & _ & Hc). congruence. }
  destruct Hstep as [srv p Hm Hs|v p Hm Hs|c p Hm Hs| | | | | | |]; try by apply store_ok_same.
  - intros [Hwf _]. destruct (Hstart _ _ Hm Hs) as ((_ & _ & _ & Hsafe & cfg & Hcfg & Hc & _) & Hst & _).
    split; cbn; [by rewrite Hst|]. intros hd [= <-]. split; [by apply Hsafe|by exists cfg].
  - by eapply Hends.
  - by eapply Hends.
Qed.

(** Answering a request keeps the invariant. *)
Lemma answer_ok q hd r cfg w :
  safe_for q hd → w_cfg w = Some cfg → store_wf q (w_store w) →
  w_cfg (answer hd r w) = Some cfg ∧ store_wf q (w_store (answer hd r w)) ∧
  ((∀ userID, ¬ authenticated (cfg_EncryptionKey cfg) r userID) →
   w_store (answer hd r w) = w_store w).
Proof.
  intros Hsafe Hc Hwf. unfold answer.
  destruct (Hsafe cfg r (set_http no_response w) Hc Hwf) as (w' & -> & Hc' & Hwf' & Hno). done.
Qed.

Lemma side_step_store q env0 s s' :
  side_step s s' → store_ok q env0 s → store_ok q env0 s'.
Proof.
  destruct 1 as [| | | | | |hd l1 r l2 He Hhd Hl]; try by apply store_ok_same.
  intros [Hwf Hh]. destruct (Hh hd Hhd) as (Hsafe & cfg & Hcfg & Hc).
  destruct (answer_ok q hd r cfg (p_world (y_proc s)) Hsafe Hc Hwf) as (? & ? & _).
  split; cbn; [done|]. intros hd'. rewrite Hhd. intros [= <-]. split; [done|by exists cfg].
Qed.

Lemma process_store q goos env0 schema w s :
  w_cfg w = None → service_queue q → store_wf q (w_store w) →
  reachable goos env0 schema w s → store_ok q env0 s.
Proof.
  intros Hw Hq Hst H. pose proof (boot_wf w) as Hwf.
  assert (Hok : store_ok q env0 (boot w)) by done. clear Hst.
  unfold reachable in H. revert Hwf Hok.
  induction H as [|s1 s2 s3 Hst _ IH]; [done|]. intros Hwf Hok. apply IH.
  - destruct Hst as [Hst|Hst]; [by eapply main_step_wf|by eapply side_step_wf].
  - destruct Hst as [Hst|Hst]; [by eapply main_step_store|by eapply side_step_store].
Qed.

(** ** main comes to its end *)

Definition main_rank (s : sys) : nat :=
  match y_main s with
  | MStart => 10
  | MWaiting => 9
  | MStopping => 8
  | MReturning _ => S (length (p_defers (y_proc s)))
  | MEnded _ => 0
  end.

Lemma main_step_rank goos env0 schema w s s' :
  w_cfg w = None → sys_wf w s → main_step allow goos env0 schema s s' →
  main_rank s' < main_rank s.
Proof.
  intros Hw Hwf Hst. pose proof (main_step_wf _ _ _ _ _ _ Hw Hwf Hst) as [_ _ Hmain'].
  destruct Hwf as [_ _ Hmain]. unfold main_rank.
  assert (Hlen : ∀ s o, y_main s = MReturning o → main_ok w s → length (p_defers (y_proc s)) ≤ 6).
  { intros s0 o Hm Hok. apply (returning_main _ _ _ Hm) in Hok.
    assert (length (calls s0) ≤ 6) as Hc.
    { destruct Hok as [[_ ->]|[_ [_ [-> | ->]]]]; cbn; lia. }
    unfold calls in Hc. rewrite length_app in Hc. lia. }
  destruct Hst as [srv p Hm Hs|v p Hm Hs|c p Hm Hs|Hm Hsig|Hm Hin|Hm|o d ds Hm Hd
    |o d ds e msg Hm Hd He|o ds e err Hm Hd He|o Hm Hd]; rewrite Hm; cbn; try lia.
  - pose proof (λ o e, Hlen _ o e Hmain') as Hl. specialize (Hl _ eq_refl). cbn in Hl. lia.
  - pose proof (λ o e, Hlen _ o e Hmain') as Hl. specialize (Hl _ eq_refl). cbn in Hl. lia.
  - pose proof (λ o e, Hlen _ o e Hmain') as Hl. specialize (Hl _ eq_refl). cbn in Hl. lia.
  - rewrite Hd. cbn. lia.
  - rewrite Hd. cbn. lia.
  - rewrite Hd. cbn. lia.
Qed.

(** Once a signal came, main is never stuck. *)
Lemma main_goes_on goos env0 schema s :
  y_signal s = true → ended s = false → ∃ s', main_step allow goos env0 schema s s' ∧ y_signal s' = true.
Proof.
  intros Hsig He. unfold ended in He. destruct (y_main s) as [| | |o|c] eqn:Hm; [..|done].
  - destruct (start allow env0 schema (y_proc s)) as [[[srv|v]|c] p] eqn:Hs;
      eexists; (split; [first [by eapply main_start | by eapply main_start_panics
                              | by eapply main_start_exits]|done]).
  - eexists. split; [by eapply main_stop|done].
  - eexists. split; [by eapply main_stop_fails|done].
  - destruct (p_defers (y_proc s)) as [|d ds] eqn:Hd; eexists;
      (split; [first [by eapply main_defer | by eapply main_end]|done]).
Qed.

Lemma shutdown_run goos env0 schema w s :
  w_cfg w = None → sys_wf w s → y_signal s = true →
  ∃ s', rtc (main_step allow goos env0 schema) s s' ∧ ended s' = true.
Proof.
  intros Hw. remember (main_rank s) as n eqn:Hn. revert s Hn.
  induction (lt_wf n) as [n _ IH]. intros s -> Hwf Hsig.
  destruct (ended s) eqn:He; [by exists s|].
  destruct (main_goes_on goos env0 schema s Hsig He) as (s1 & Hst & Hsig1).
  destruct (IH (main_rank s1)) with (s := s1) as (s' & Hrun & He'); try done.
  - by eapply main_step_rank.
  - by eapply main_step_wf.
  - exists s'. split; [by eapply rtc_l|done].
Qed.

Lemma main_runs_bound goos env0 schema w n s s' :
  w_cfg w = None → sys_wf w s → nsteps (main_step allow goos env0 schema) n s s' →
  n ≤ main_rank s.
Proof.
  intros Hw Hwf H. induction H as [|n s1 s2 s3 Hst _ IH]; [lia|].
  pose proof (main_step_rank _ _ _ _ _ _ Hw Hwf Hst).
  specialize (IH (main_step_wf _ _ _ _ _ _ Hw Hwf Hst)). lia.
Qed.

(** ** Properties *)

(** C10: a started server is a safe one. When main gets as far as to serve, it has
    loaded the configuration, set every global up (the tracer's sampler, the meter
    and all thirty instruments), deferred the release of everything it acquired,
    left the store alone, and the handler it serves is one that always returns,
    keeps the store's invariant and changes nothing without a credential. If it
    does not get there, it panics with its deferred calls pending or exits with
    code 1. *)
Theorem start_establishes env0 schema w :
  w_cfg w = None →
  match start allow env0 schema (proc_of w) with
  | (Ended (Returned srv), p) =>
      w_store (p_world p) = w_store w ∧ safe_server (srv_Handler srv) ∧
      p_defers p = [DCloseDB; DShutdownMetrics; DShutdownTracer; DSync; DStop] ∧
      table_ok (p_instruments p) ∧
      ∃ cfg, InitializeConfig Development env0 = Ok cfg ∧ w_cfg (p_world p) = Some cfg ∧
        srv_Addr srv = server_address cfg ∧
        (∃ tp, p_tracer p = Some tp ∧ tp_Sampler tp = getSampler (cfg_Otel cfg))
  | (Ended (Panicked _), p) =>
      w_store (p_world p) = w_store w ∧ (p_defers p = [] ∨ p_defers p = tail order)
  | (Exited c, p) => w_store (p_world p) = w_store w ∧ c = 1%Z
  end.
Proof.
  intros Hw. pose proof (start_wp env0 schema (proc_of w) Hw eq_refl eq_refl) as H.
  unfold wpP in H. destruct (start allow env0 schema (proc_of w)) as [[[srv|v]|c] p];
    destruct H as (Hs & _ & H); [|done..].
  destruct H as (Hd & Hsafe & cfg & ? & ? & ? & ? & _ & ?).
  split_and!; [done..|]. by exists cfg.
Qed.


(** C13: requests keep their database. While a request is in flight the database is
    open, unless the graceful shutdown gave up (its ten seconds passed): no request
    is accepted once the shutdown began, and the pool is closed only after it. *)
Theorem database_outlives_requests goos env0 schema w s :
  w_cfg w = None → reachable goos env0 schema w s →
  (y_shutdown s = true → y_server s ≠ SServing) ∧
  (∀ r, r ∈ y_inflight s → y_failed s = false → DCloseDB ∉ p_released (y_proc s)).
Proof.
  intros Hw Hr. destruct (process_wf _ _ _ _ _ Hw Hr) as [Hserver Hdb _].
  split; [done|]. intros r Hn Hf Hin. rewrite (Hdb Hin Hf) in Hn. by apply not_elem_of_nil in Hn.
Qed.

(** C11: the store is safe for the whole life of the process. From any store that
    keeps the invariant for the queue options of the code, an empty one or one that
    an earlier run of the process left with jobs announced: whatever requests
    arrive, in whatever order they are answered, and wherever the process is
    between its start and its end, the store keeps the invariant for the same
    options; and once there is a server, the configuration is the loaded one and
    answering a request that carries no credential under its key leaves the store
    as it is. *)
Theorem process_keeps_store q goos env0 schema w s :
  w_cfg w = None → service_queue q → store_wf q (w_store w) →
  reachable goos env0 schema w s →
  store_wf q (w_store (p_world (y_proc s))) ∧
  ∀ hd, y_handler s = Some hd →
    ∃ cfg, InitializeConfig Development env0 = Ok cfg ∧
      w_cfg (p_world (y_proc s)) = Some cfg ∧
      ∀ r, (∀ userID, ¬ authenticated (cfg_EncryptionKey cfg) r userID) →
        w_store (p_world (y_proc (answering hd r s))) = w_store (p_world (y_proc s)).
Proof.
  intros Hw Hq Hst Hr. destruct (process_store _ _ _ _ _ _ Hw Hq Hst Hr) as [Hwf Hok].
  split; [done|]. intros hd Hh. destruct (Hok hd Hh) as (Hsafe & cfg & Hcfg & Hc).
  exists cfg. split_and!; [done..|]. intros r Hno. cbn.
  by apply (answer_ok q hd r cfg (p_world (y_proc s)) Hsafe Hc Hwf).
Qed.

(** C14: a signal ends the process. From every reachable state, main takes at most
    ten steps, whatever runs beside it; and once a signal came it is never stuck:
    its steps alone lead to the end of the process. *)
Theorem signal_ends_process goos env0 schema w s :
  w_cfg w = None → reachable goos env0 schema w s →
  (∀ n s', nsteps (main_step allow goos env0 schema) n s s' → n ≤ 10) ∧
  (y_signal s = true →
   ∃ s', rtc (main_step allow goos env0 schema) s s' ∧ ended s' = true).
Proof.
  intros Hw Hr. pose proof (process_wf _ _ _ _ _ Hw Hr) as Hwf. split.
  - intros n s' Hn. pose proof (main_runs_bound _ _ _ _ _ _ _ Hw Hwf Hn) as Hb.
    assert (main_rank s ≤ 10); [|lia]. destruct Hwf as [_ _ Hmain]. unfold main_rank.
    destruct (y_main s) as [| | |o|c] eqn:Hm; try lia.
    apply (returning_main _ _ _ Hm) in Hmain. unfold returning, calls in Hmain.
    assert (length (p_released (y_proc s) ++ p_defers (y_proc s)) ≤ 6) as Hc.
    { destruct Hmain as [[_ ->]|[_ [_ [-> | ->]]]]; cbn; lia. }
    rewrite length_app in Hc. lia.
  - by apply (shutdown_run _ _ _ w).
Qed.

End Starting.

(** ** A run *)
Module ProcessDemo.

#[local] Existing Instance fine_env.
#[local] Existing Instance demo_json_errors.
#[local] Existing Instance amd64_golib.
Definition cloud0 : Cloud := demo_cloud (λ _ _, true).
#[local] Existing Instance cloud0.
#[local] Existing Instance AuthDemo.toy_crypto.
#[local] Existing Instance MiddlewareDemo.demo_chi.
#[local] Existing Instance MiddlewareDemo.demo_chi_laws.
#[local] Existing Instance RouterDemo.demo_third.
#[local] Existing Instance RouterDemo.demo_third_laws.
#[local] Existing Instance ConfigDemo.dotenv_noop.
#[local] Existing Instance PostgresDemo.three_migrations.

Definition otel0 : Otel := {|
  exporter_New _ _ := None; resource_New _ _ := None; os_Hostname := Ok "mpiper-0";
  meter_create _ _ := None |}.
#[local] Existing Instance otel0.
Definition sqlx0 : Sqlx := {| sqlx_Connect _ _ := None; db_Ping := None |}.
#[local] Existing Instance sqlx0.

Definition env (k : string) : string :=
  if k =s "AUTO_MIGRATE" then "true" else RouterDemo.env k.

Definition allow0 (ip : string) : IO bool := mret true.

(** What an earlier run left: asset 7 confirmed and its job announced. *)
Definition left_store : store :=
  w_store (exec (Service.MarkAssetUploaded (ServiceDemo.svc fine_env true) 7%N) ServiceDemo.w7).
Definition queue0 : RedisQueue := as_queue (ServiceDemo.svc fine_env true).

Lemma left_store_wf : store_wf queue0 left_store.
Proof.
  destruct (MarkAssetUploaded_confirm (ServiceDemo.svc fine_env true) 7%N ServiceDemo.w7
    ServiceDemo.tables7_wf) as [Hc Hx].
  exact (confirm_wf _ _ _ _ _ (ServiceDemo.store7_wf _) Hc Hx).
Qed.

Definition w0 : world := world_of left_store None.

Definition booted : ending AppServer * proc := start allow0 env 0 (proc_of w0).
Definition p1 : proc := snd booted.

Lemma booted_ok : ∃ srv, start allow0 env 0 (proc_of w0) = (Ended (Returned srv), p1).
Proof.
  assert (Hb : match fst booted with Ended (Returned _) => true | _ => false end = true)
    by (vm_compute; reflexivity).
  revert Hb. unfold p1, booted. generalize (start allow0 env 0 (proc_of w0)).
  intros [[[srv|v]|c] p] Hb; [by exists srv|discriminate Hb..].
Qed.

Lemma p1_defers : p_defers p1 = tail order.
Proof. vm_compute. reflexivity. Qed.

(** Started with the state [p], serving a request; then signalled and stopping; then
    with the request answered. *)
Definition request0 : Request := RouterDemo.complete7 "".
Definition running (srv : AppServer) (p : proc) : sys :=
  serving [request0] (at_server SServing
    (handling (srv_Handler srv) (at_main p MWaiting (boot w0)))).
Definition stopping (s : sys) : sys :=
  at_main (logging LInform stop_message
             (on_defers (DCancel :: p_defers (y_proc s))
                (logging LInform "Shutting down server..." (y_proc s))))
    MStopping (shutting_down s).
Definition drained (srv : AppServer) (p : proc) : sys :=
  serving [] (answering (srv_Handler srv) request0 (stopping (signalled (running srv p)))).

Abbreviation go := (step allow0 "linux" env 0).


Section Run.
Context (srv : AppServer) (p : proc).
Context (Hb : start allow0 env 0 (proc_of w0) = (Ended (Returned srv), p)).

Lemma running_reachable : reachable allow0 "linux" env 0 w0 (running srv p).
Proof.
  eapply rtc_l; [left; eapply main_start; [reflexivity|exact Hb]|]. clear Hb.
  eapply rtc_l; [right; by apply side_listen|].
  apply rtc_once. right. by apply (side_accept
    (at_server SServing (handling (srv_Handler srv) (at_main p MWaiting (boot w0)))) request0).
Qed.

Lemma drained_reachable : reachable allow0 "linux" env 0 w0 (drained srv p).
Proof.
  unfold reachable. etransitivity; [exact running_reachable|]. clear Hb.
  eapply rtc_l; [right; by apply side_signal|].
  eapply rtc_l; [left; by apply main_stop|].
  apply rtc_once. right. by apply (side_finish _ (srv_Handler srv) [] request0 []).
Qed.


End Run.

Lemma database_outlives_requests_witness :
  ∃ srv, DCloseDB ∉ p_released (y_proc (running srv p1)).
Proof.
  destruct booted_ok as [srv Hb]. exists srv.
  apply (database_outlives_requests allow0 (λ _, keeps_store_ret true) (λ _, keeps_resp_ret true)
    "linux" env 0 w0 (running srv p1) eq_refl (running_reachable srv p1 Hb)) with (r := request0);
    [left|reflexivity].
Defined.

Lemma signal_ends_process_witness :
  ∃ srv s', rtc (main_step allow0 "linux" env 0) (drained srv p1) s' ∧ ended s' = true.
Proof.
  destruct booted_ok as [srv Hb]. exists srv.
  apply (signal_ends_process allow0 (λ _, keeps_store_ret true) (λ _, keeps_resp_ret true)
    "linux" env 0 w0 (drained srv p1) eq_refl (drained_reachable srv p1 Hb)). reflexivity.
Defined.

Lemma process_keeps_store_witness :
  length (s_stream left_store) = 1 ∧
  ∃ srv, store_wf queue0 (w_store (p_world (y_proc (drained srv p1)))).
Proof.
  split; [vm_compute; reflexivity|]. destruct booted_ok as [srv Hb]. exists srv.
  apply (process_keeps_store allow0 (λ _, keeps_store_ret true) (λ _, keeps_resp_ret true)
    queue0 "linux" env 0 w0 (drained srv p1) eq_refl eq_refl left_store_wf
    (drained_reachable srv p1 Hb)).
Defined.

Lemma start_establishes_witness :
  p_defers p1 = [DCloseDB; DShutdownMetrics; DShutdownTracer; DSync; DStop] ∧
  match start allow0 env 0 (proc_of w0) with
  | (Ended (Returned srv), p) => w_store (p_world p) = w_store w0 ∧ table_ok (p_instruments p)
  | _ => True
  end.
Proof.
  split; [exact p1_defers|].
  pose proof (start_establishes allow0 (λ _, keeps_store_ret true) (λ _, keeps_resp_ret true)
    env 0 w0 eq_refl) as H. revert H. generalize (start allow0 env 0 (proc_of w0)).
  intros [[[srv|v]|c] p] H; [|exact I..].
  destruct H as (H1 & _ & _ & H2 & _). exact (conj H1 H2).
Defined.


End ProcessDemo.
